(* ===== verification/_CoqProject ===== *)
-Q . S2P
Prelude.v
PyString.v
Config.v
PyUuid.v
PyJson.v
RelationTypes.v
TupleStore.v
Permissions.v
ScopeService.v
Outbox.v
KafkaConsumer.v
KafkaWorld.v
KafkaDelivery.v
KafkaRetry.v
Tenants.v
Db.v
BindingGraph.v
RoleBindingService.v
RoleScopes.v
RoleBindingBatch.v
RoleV2Service.v
Workspaces.v
BindingMapping.v
V1State.v
RoleMigration.v
RoleMigrationGraph.v
RoleRequests.v
SubjectHandler.v
SubjectRuns.v
GroupHandler.v
GroupRequests.v
GroupService.v
GroupMembers.v
TenantBootstrap.v
BootstrapAccess.v
DefaultGroups.v
DefaultAccess.v
V1History.v
V1Delivery.v
