(* ===== verification/Prelude.v ===== *)
(** * Insights RBAC: the relations it keeps in step with Kessel

    Insights RBAC is a Django service that stores the roles, groups, workspaces
    and role bindings of organisations ("tenants") in PostgreSQL and mirrors
    what they grant as relation tuples in Kessel Inventory, a relation-based
    authorization service.  Every write of the service changes rows and writes,
    in the same transaction, an outbox row that tells Kessel which tuples to add
    and to remove.  This library models that core: the tuples, the rows, the
    operations that write them and the events they emit.

    ** The parts and the files

    - [Prelude]: errors as values (the [result] monad of [Ok] and [Raise]), its
      notations and tactics, Python dictionaries and the shared lemmas.
    - [PyString]: the string operations of Python that the code uses, and sets
      with an arbitrary iteration order ([PySetOrder]).
    - [Config]: the settings the code reads ([Settings]) and JSON values.
    - [RelationTypes]: rbac/management/inventory_replicator/types.py and
      migration_tool/utils.py: relation tuples, their validation, messages and
      dictionaries.
    - [TupleStore]: migration_tool/in_memory_tuples.py: the in-memory store of
      tuples and its queries.
    - [Permissions]: rbac/management/permission/model.py and the V2 names of
      migration_tool/models.py.
    - [ScopeService]: rbac/management/permission/scope_service.py: at which level
      (tenant, root or default workspace) a permission applies.
    - [Outbox]: the replication events and
      rbac/management/inventory_replicator/outbox_replicator.py, the duplicate
      check, the retries of atomic_transactions.py.
    - [Tenants]: api/models.py, tenant_mapping/model.py and v2_activation.py: the
      tenant row, its mapping, and the locks that keep V1 and V2 writes apart, as
      a step relation.
    - [Db]: the tables as one record of finite maps, and the tuples of a role
      binding (role_binding/model.py).
    - [BindingGraph]: the abstract view, [bindings_graph]: the set of tuples a
      database stands for, with the constraints of the tables ([wf]).
    - [RoleBindingService], [RoleBindingBatch]: role_binding/service.py: replacing
      the roles of a subject, and creating bindings in a batch.
    - [RoleScopes]: which roles may be bound to which resource, in the listing
      (role/v2_service.py) and in the binding service.
    - [RoleV2Service]: custom V2 roles: creation, update, deletion in bulk.
    - [Workspaces]: rbac/management/workspace/: the tree of workspaces, its
      queries, creation, update and move, and the removal of the bindings on a
      workspace.
    - [PyUuid], [PyJson]: the forms of a UUID and JSON text (dumps and loads) as the
      Python library has them.
    - [BindingMapping]: role/model.py: the V1 row of a binding, with the sources of its
      groups and users counted, and its conversion to tuples.
    - [V1State]: the V1 tables (roles, policies, groups, mappings) beside the V2 ones
      and the tuples they stand for; [RoleRequests.rows_graph] puts them together.
    - [RoleMigration], [RoleMigrationGraph]: migration_tool/: a custom V1 role as
      V2 roles and bindings, and the tuples that result.
    - [RoleRequests]: role/inventory_api_dual_write_handler.py and the writes of
      role/view.py.
    - [SubjectHandler], [SubjectRuns], [GroupHandler], [GroupRequests]: the dual-write
      handlers of group/ and the assignment of roles in group/definer.py.
    - [GroupService]: group/v2_service.py.  [GroupMembers]: the removal of members in
      group/view.py and the tuples of memberships.
    - [TenantBootstrap]: tenant_service/v2.py and relations.py with the ids of
      group/platform.py and role/platform.py: the workspaces, the mapping and the default
      access that a tenant gets.  [BootstrapAccess]: what the store has then.
    - [DefaultGroups]: a default group of the tenant's own: its creation (group/definer.py),
      its deletion (group/view.py), the rows of the default bindings and
      update_role_bindings_for_subject (role_binding/service.py).  [DefaultAccess]: what
      these do to the default access.
    - [V1History]: sequences of V1 requests, from any state.
    - [KafkaConsumer]: core/kafka_consumer.py, the consumer of the outbox, and the
      writes of inventory_replicator/inventory_api_replicator.py, as programs over an
      environment (Kafka, the relations store, the clock) that may fail at any call.
    - [KafkaWorld]: a weakest-precondition logic for these programs, the laws of the
      environment ([World]) and a concrete one ([Sim]).
    - [KafkaDelivery], [KafkaRetry]: what the consumer guarantees.
    - [V1Delivery]: requests, outbox, topic, consumer and store composed.

    ** What the theorems show

    The central property is a refinement.  The abstract state of a database [d]
    is the set of tuples it stands for ([bindings_graph d], [roles_graph d],
    [parents_graph d] and the like).  For each operation that changes the
    database from [d] to [d'] and emits [events], the theorem states
    [replay (graph d) events = Ok (graph d')]: replaying the events on the tuples
    of the old database gives exactly the tuples of the new one.  [replay] is the
    in-memory store; [outbox_refines_in_memory] shows that the rows of the outbox,
    read back by a consumer, have the same effect.  Around it: the operations
    preserve the constraints of the tables, do what they promise to the rows, and
    fail only as documented.
    For V1 the step is a request: [v1_requests_refine] states the refinement for any
    sequence of requests on roles, groups and memberships, [v1_store_grants] reads off
    the tuples who may do what, and compares it with the V1 tables.

    The default access is an invariant of the store ([BootstrapAccess.access_ok]): a
    binding of it is on its resource exactly for admins and for the users of tenants
    without a default group of their own; apart from the default access the store has the
    tuples of the rows ([mirrored]).  [bootstrap_tenants_access], [customization_access]
    and [deletion_access] show that bootstrapping, copying and deleting keep both;
    [v2_customization_raises] and [v2_bound_group_kept] that two V2 paths cannot succeed.

    For the consumer, [at_least_once] shows that the store keeps every record before the
    committed offset, whatever fails, so that going on from there is enough;
    [eventually_delivered] that finitely many faults delay but do not prevent delivery;
    [requests_reach_store] composes both with the V1 histories.

    ** Conventions

    A Python set is a [gset]; where the code iterates over one, the order is the
    class argument [PySetOrder], so theorems hold for every order.  Rows a query
    returns without ORDER BY come in the order of the class argument [RowOrder].
    UUIDs and primary keys the database generates are arguments, with their
    freshness as a hypothesis.  Settings are the class argument [Settings].
    A transaction is one application of a function from the old database to
    a [result] with the new one: a [Raise] rolls everything back.  Concurrency is
    modelled where the code takes locks on purpose ([Tenants.Locks]).

    Recursion over the workspace table uses the number of rows as fuel; in a tree
    every chain of parents is shorter ([depth_lt_size]).  The other fuelled
    function is [batched], with the length of the list.
    The JSON scanner has the length of the text as fuel.  The retry loop and the loop
    over sessions have a number as fuel and return [None] without enough of it;
    [retry_terminates] shows that the attempts allowed, or the faults left where they
    are unlimited, are enough.

    ** Not modelled

    HTTP views other than the writes named above, serializers and middleware; the
    clients of external services (user service, IT, Redis, the gRPC and Kafka libraries);
    management commands other than the launch of the consumer, seeding and scheduled
    tasks; cross-account requests and the operations on the users of a tenant
    (tenant_service/); logging, metrics and the text of messages.
    Limits of what is modelled: text is a string of characters below 256; the keys of a
    JSON object stored by PostgreSQL keep their order; the consumer is told to stop
    between calls of its environment, and a process that dies in the middle of a call is
    a fault of that call.
*)

From stdpp Require Export base list gmap strings sets fin_maps.
From Stdlib Require Export ZArith Lia Ascii.
From Stdlib Require String.

#[global] Open Scope string_scope.
#[global] Open Scope list_scope.
#[global] Arguments String.append !_ _ : simpl nomatch.

(* ------------------------------------------------------------------ *)
(** * Errors as values *)

(** The exception classes the modelled code raises.  A class that carries data
    the callers look at keeps it; message texts are not modelled. *)
Inductive exn :=
| ValueError
| TypeError
| KeyError
| AttributeError
| IndexError
| AssertionError
| RuntimeError
| OperationalError (retriable : bool)
| DualWriteException
| ValidationError (field : string)
| SerializerValidationError (field : string)
| InvalidWorkspaceTypeError
| WorkspaceAlreadyExistsError
| DoesNotExist (model : string)
| MultipleObjectsReturned (model : string)
| IntegrityError (constraint : string)
| RequiredFieldError (field : string)
| InvalidFieldError (field : string)
| NotFoundError (resource : string)
| InvalidPermissionDataError
| InvalidRolePermissionsError
| PermissionsNotFoundError
| RoleAlreadyExistsError
| RolesNotFoundError
| CustomRoleRequiredError
| TenantNotBootstrappedError
| V1WriteBlockedError
| InvalidV2OptOutError
| DefaultGroupNotAvailableError
| TimeoutError
| GroupAlreadyExistsError (name : string)
| ProtectedGroupError (action flag : string)
| GroupHasRoleBindingsError (binding_count : nat)
| PrincipalNotFoundError (identifiers : list string)
| ProtectedError (protected_objects : nat)
| PermissionDenied
| NotImplementedError
| Http404
| JSONDecodeError
| UnicodeDecodeError
| InterruptedError
| ParseError
| MessageValidationError
| RpcError (failed_precondition : bool)
| KafkaError
| OverflowError
| SystemExit
| UnsupportedSubjectTypeError
| GenericException.

#[global] Instance exn_eq_dec : EqDecision exn.
Proof. solve_decision. Defined.

(** A Python call either returns or raises. *)
Inductive result (A : Type) : Type :=
| Ok (a : A)
| Raise (e : exn).
Arguments Ok {A} a.
Arguments Raise {A} e.

#[global] Instance result_eq_dec `{EqDecision A} : EqDecision (result A).
Proof. solve_decision. Defined.

#[global] Instance result_ret : MRet result := λ A a, Ok a.
#[global] Instance result_bind : MBind result := λ A B k m,
  match m with Ok a => k a | Raise e => Raise e end.
#[global] Instance result_fmap : FMap result := λ A B f m,
  match m with Ok a => Ok (f a) | Raise e => Raise e end.

(** [if cond: raise e] *)
Definition raise_if (cond : bool) (e : exn) : result unit :=
  if cond then Raise e else Ok tt.

(** [d[k]] on a dictionary: a missing key raises KeyError. *)
Definition or_raise {A} (e : exn) (o : option A) : result A :=
  match o with Some a => Ok a | None => Raise e end.

Definition is_ok {A} (r : result A) : bool :=
  match r with Ok _ => true | Raise _ => false end.

(** A loop whose body may raise and threads an accumulator. *)
Fixpoint foldM {A B} (f : B → A → result B) (b : B) (l : list A) : result B :=
  match l with
  | [] => Ok b
  | a :: l' => match f b a with Ok b' => foldM f b' l' | Raise e => Raise e end
  end.

(* ------------------------------------------------------------------ *)
(** * Proof automation *)

Create HintDb rbac.
Create Rewrite HintDb rbac.

Lemma Ok_inj {A} (a b : A) : Ok a = Ok b → b = a.
Proof. congruence. Qed.

Lemma bind_Ok {A B} (m : result A) (k : A → result B) b :
  m ≫= k = Ok b ↔ ∃ a, m = Ok a ∧ k a = Ok b.
Proof. destruct m; cbn; naive_solver. Qed.

Lemma bind_Raise {A B} (m : result A) (k : A → result B) (P : exn → Prop) :
  (∀ e, m = Raise e → P e) → (∀ a e, k a = Raise e → P e) →
  ∀ e, m ≫= k = Raise e → P e.
Proof. intros Hm Hk e. destruct m; cbn; [apply Hk | intros [= ->]; by apply Hm]. Qed.

Lemma fmap_result_Ok {A B} (f : A → B) (m : result A) b :
  f <$> m = Ok b ↔ ∃ a, m = Ok a ∧ b = f a.
Proof. destruct m; cbn; naive_solver. Qed.

Lemma raise_if_Ok c e u : raise_if c e = Ok u ↔ c = false.
Proof. destruct c, u; cbn; naive_solver. Qed.

Lemma raise_if_Raise c e e' : raise_if c e = Raise e' ↔ c = true ∧ e = e'.
Proof. destruct c; cbn; naive_solver. Qed.

Lemma or_raise_Ok {A} e (o : option A) a : or_raise e o = Ok a ↔ o = Some a.
Proof. destruct o; cbn; naive_solver. Qed.

Lemma mapM_result_Ok {A B} (f : A → result B) l r :
  mapM f l = Ok r ↔ Forall2 (λ x y, f x = Ok y) l r.
Proof.
  revert r. induction l as [|x l IH]; cbn; intros r.
  - split; [intros [= <-]; constructor | by intros ->%Forall2_nil_inv_l].
  - split.
    + intros (y & Hy & H)%bind_Ok. apply bind_Ok in H as (ys & Hys & [= <-]).
      constructor; [done | by apply IH].
    + intros (y & ys & Hy & Hys & ->)%Forall2_cons_inv_l. apply IH in Hys.
      by rewrite Hy; cbn; rewrite Hys.
Qed.

Lemma mapM_result_total {A B} (f : A → result B) l :
  (∀ x, x ∈ l → ∃ y, f x = Ok y) → ∃ r, mapM f l = Ok r.
Proof.
  induction l as [|x l IH]; intros Hf; [by exists []|].
  destruct (Hf x) as [y Hy]; [left|]. destruct IH as [r Hr]; [intros; apply Hf; by right|].
  exists (y :: r). cbn. rewrite Hy. cbn. by rewrite Hr.
Qed.

Lemma mapM_result_Raise {A B} (f : A → result B) l e : mapM f l = Raise e → ∃ x, x ∈ l ∧ f x = Raise e.
Proof.
  induction l as [|x l IH]; cbn; [done|]. destruct (f x) as [y|e'] eqn:Hx; cbn.
  - destruct (mapM f l) as [ys|e']; cbn; [done|]. intros [= ->]. destruct IH as (z & Hz & Hf); [done|]. exists z. split; [by right|done].
  - intros [= ->]. exists x. split; [left|done].
Qed.

(** A Python dict comprehension: the last value of a key wins. *)
Definition dict_of {K A} `{Countable K} (l : list (K * A)) : gmap K A := list_to_map (reverse l).

Lemma foldM_app {A B} (f : B → A → result B) b l1 l2 :
  foldM f b (l1 ++ l2) = foldM f b l1 ≫= λ b', foldM f b' l2.
Proof. revert b. induction l1; cbn; intros b; [done|]. destruct (f b a); cbn; auto. Qed.

(** An invariant of a loop. *)
Lemma foldM_ind {A B} (P : B → Prop) (f : B → A → result B) b l b' :
  P b → (∀ a b1 b2, a ∈ l → P b1 → f b1 a = Ok b2 → P b2) → foldM f b l = Ok b' → P b'.
Proof.
  revert b. induction l as [|a l IH]; intros b Hb Hstep Hr; cbn in Hr; [by injection Hr as <-|].
  destruct (f b a) as [b1|] eqn:E; [|done]. apply (IH b1); [|intros; eapply Hstep; try done; by right|done].
  eapply Hstep; try done. left.
Qed.

Lemma dict_of_Some {K A} `{Countable K} (l : list (K * A)) k a : dict_of l !! k = Some a → (k, a) ∈ l.
Proof. intros Hl%elem_of_list_to_map_2. by apply elem_of_reverse. Qed.

Lemma dict_of_is_Some {K A} `{Countable K} (l : list (K * A)) k : k ∈ map fst l → is_Some (dict_of l !! k).
Proof.
  intros (x & -> & Hx)%list_elem_of_fmap. destruct (dict_of l !! fst x) eqn:Hl; [eauto|].
  exfalso. apply not_elem_of_list_to_map in Hl. apply Hl, list_elem_of_fmap. exists x.
  split; [done|]. by apply elem_of_reverse.
Qed.

Lemma dict_of_lookup {K A} `{Countable K} (l : list (K * A)) k a :
  NoDup (map fst l) → dict_of l !! k = Some a ↔ (k, a) ∈ l.
Proof.
  intros Hnd. unfold dict_of. rewrite <- elem_of_list_to_map, elem_of_reverse; [done|].
  assert (reverse l ≡ₚ l) as -> by apply reverse_Permutation. done.
Qed.
Lemma dict_of_insert {K A} `{Countable K} (l : list (K * A)) (m : gmap K A) :
  foldl (λ m kv, <[fst kv := snd kv]> m) m l = dict_of l ∪ m.
Proof.
  induction l as [|[k a] l IH] using rev_ind; [symmetry; apply map_empty_union|].
  rewrite foldl_app. cbn. rewrite IH. unfold dict_of. rewrite reverse_app. cbn. by rewrite insert_union_l.
Qed.

Lemma Forall2_elem_l {A B} (R : A → B → Prop) l k x :
  Forall2 R l k → x ∈ l → ∃ y, y ∈ k ∧ R x y.
Proof.
  induction 1 as [|a b l k Hab _ IH]; [by intros ?%elem_of_nil|].
  intros [->|Hx]%elem_of_cons; [exists b; split; [left|done]|].
  destruct (IH Hx) as (y & ? & ?). exists y. split; [by right|done].
Qed.

Lemma Forall2_impl_r {A B} (R R' : A → B → Prop) l k :
  Forall2 R l k → (∀ x y, y ∈ k → R x y → R' x y) → Forall2 R' l k.
Proof.
  induction 1 as [|a b l k Hab _ IH]; intros HR; constructor; [by apply HR; [left|]|].
  apply IH. intros x y Hy. apply HR. by right.
Qed.

Lemma Forall2_elem_r {A B} (R : A → B → Prop) l k y :
  Forall2 R l k → y ∈ k → ∃ x, x ∈ l ∧ R x y.
Proof.
  induction 1 as [|a b l k Hab _ IH]; [by intros ?%elem_of_nil|].
  intros [->|Hy]%elem_of_cons; [exists a; split; [left|done]|].
  destruct (IH Hy) as (x & ? & ?). exists x. split; [by right|done].
Qed.

(** Opens every successful bind, guard and lookup among the hypotheses. *)
Ltac inv_ok_step :=
  match goal with
  | H : context [mret ?a] |- _ => change (mret a) with (Ok a) in H
  | H : _ ≫= _ = Ok _ |- _ => apply bind_Ok in H as (? & ? & H)
  | H : _ <$> _ = Ok _ |- _ => apply fmap_result_Ok in H as (? & H & ->)
  | H : raise_if _ _ = Ok _ |- _ => apply raise_if_Ok in H
  | H : or_raise _ _ = Ok _ |- _ => apply or_raise_Ok in H
  | H : Ok _ = Ok _ |- _ => injection H as H; subst
  | H : Raise _ = Ok _ |- _ => discriminate H
  | H : Ok _ = Raise _ |- _ => discriminate H
  | x : unit |- _ => destruct x
  end.
Ltac inv_ok := repeat inv_ok_step.

(** Case analysis on the boolean and option tests of the code. *)
Ltac case_step :=
  match goal with
  | |- context [bool_decide ?P] => case_bool_decide
  | H : context [bool_decide ?P] |- _ => case_bool_decide
  | |- context [if ?b then _ else _] => destruct b eqn:?
  | H : context [if ?b then _ else _] |- _ => destruct b eqn:?
  end.
Ltac cases_in_code := repeat (case_step; simplify_eq/=; try done).

(** A closed decidable statement, by running its decision procedure. *)
Ltac by_compute := apply (bool_decide_unpack _); vm_compute; exact I.

Lemma NoDup_map_filter {A B} (f : A → B) (p : A → bool) l :
  NoDup (map f l) → NoDup (map f (List.filter p l)).
Proof.
  induction l as [|x l IH]; cbn; [done|]. intros [Hx Hl]%NoDup_cons.
  destruct (p x); cbn; [|auto]. apply NoDup_cons. split; [|auto].
  rewrite !list_elem_of_fmap in *. intros (y & Hy & Hin). apply Hx. exists y. split; [done|].
  rewrite list_elem_of_In, filter_In, <- list_elem_of_In in Hin. tauto.
Qed.
