(* ===== verification/PyString.v ===== *)
(** The operations of Python's [str] and [set] that the modelled code uses.

    A [str] is a [string] of code points below 256, for which the case mapping
    and the whitespace class below are those of the language; a [set] or
    [frozenset] is a [gset], and its iteration order, which the language leaves
    open, is the parameter [PySetOrder]. *)

From S2P Require Import Prelude.

(* ------------------------------------------------------------------ *)
(** * Characters *)

(** [str.isspace] on one code point. *)
Definition is_space (c : ascii) : bool :=
  let n := N_of_ascii c in
  ((9 <=? n)%N && (n <=? 13)%N) || ((28 <=? n)%N && (n <=? 32)%N)
  || (n =? 133)%N || (n =? 160)%N.

(** [str.lower] on one code point. *)
Definition lower_char (c : ascii) : ascii :=
  let n := N_of_ascii c in
  if ((65 <=? n)%N && (n <=? 90)%N)
     || ((192 <=? n)%N && (n <=? 222)%N && negb (n =? 215)%N)
  then ascii_of_N (n + 32) else c.

Definition is_alnum_ascii (c : ascii) : bool :=
  let n := N_of_ascii c in
  ((48 <=? n)%N && (n <=? 57)%N) || ((65 <=? n)%N && (n <=? 90)%N)
  || ((97 <=? n)%N && (n <=? 122)%N).

(* ------------------------------------------------------------------ *)
(** * Strings *)

Fixpoint str_forallb (p : ascii → bool) (s : string) : bool :=
  match s with
  | EmptyString => true
  | String c s' => p c && str_forallb p s'
  end.

(** [c in s] for a one-character [c]. *)
Fixpoint has_char (c : ascii) (s : string) : bool :=
  match s with
  | EmptyString => false
  | String d s' => Ascii.eqb c d || has_char c s'
  end.

(** [s.split(c)] for a one-character [c]: never empty. *)
Fixpoint split_on (c : ascii) (s : string) : list string :=
  match s with
  | EmptyString => [EmptyString]
  | String d s' =>
      if Ascii.eqb c d then EmptyString :: split_on c s'
      else match split_on c s' with
           | [] => [String d EmptyString]
           | w :: ws => String d w :: ws
           end
  end.

(** [c.join(ws)] for a one-character [c]. *)
Fixpoint join_with (c : ascii) (ws : list string) : string :=
  match ws with
  | [] => EmptyString
  | [w] => w
  | w :: ws' => w +:+ String c (join_with c ws')
  end.

(** [sep.join(ws)]. *)
Fixpoint join_str (sep : string) (ws : list string) : string :=
  match ws with
  | [] => EmptyString
  | [w] => w
  | w :: ws' => w +:+ sep +:+ join_str sep ws'
  end.

(** [s.replace(c, r)] for a one-character [c]. *)
Fixpoint replace_char (c : ascii) (r : string) (s : string) : string :=
  match s with
  | EmptyString => EmptyString
  | String d s' => if Ascii.eqb c d then r +:+ replace_char c r s'
                   else String d (replace_char c r s')
  end.

Fixpoint lower (s : string) : string :=
  match s with
  | EmptyString => EmptyString
  | String c s' => String (lower_char c) (lower s')
  end.

Fixpoint lstrip (s : string) : string :=
  match s with
  | EmptyString => EmptyString
  | String c s' => if is_space c then lstrip s' else s
  end.

Fixpoint rstrip (s : string) : string :=
  match s with
  | EmptyString => EmptyString
  | String c s' => match rstrip s' with
                   | EmptyString => if is_space c then EmptyString else String c EmptyString
                   | t => String c t
                   end
  end.

(** [s.strip()]. *)
Definition strip (s : string) : string := rstrip (lstrip s).

(** [s.find(c)] and [s.rfind(c)] for a one-character [c]; [None] is -1. *)
Fixpoint find_char (c : ascii) (s : string) : option nat :=
  match s with
  | EmptyString => None
  | String d s' => if Ascii.eqb c d then Some 0 else S <$> find_char c s'
  end.

Fixpoint rfind_char (c : ascii) (s : string) : option nat :=
  match s with
  | EmptyString => None
  | String d s' => match rfind_char c s' with
                   | Some i => Some (S i)
                   | None => if Ascii.eqb c d then Some 0 else None
                   end
  end.

(** [s[:n]] and [s[n:]]. *)
Fixpoint str_take (n : nat) (s : string) : string :=
  match n, s with
  | S n', String c s' => String c (str_take n' s')
  | _, _ => EmptyString
  end.

Fixpoint str_drop (n : nat) (s : string) : string :=
  match n, s with
  | 0, _ => s
  | S n', String _ s' => str_drop n' s'
  | S _, EmptyString => EmptyString
  end.

(** [s.startswith(p)]. *)
Definition startswith (p s : string) : bool := String.prefix p s.

(** [sub in s]. *)
Fixpoint suffixes (s : string) : list string :=
  s :: match s with EmptyString => [] | String _ s' => suffixes s' end.
Definition contains (sub s : string) : bool := existsb (startswith sub) (suffixes s).

(** The truth value of a [str]. *)
Definition str_truth (s : string) : bool :=
  match s with EmptyString => false | _ => true end.

Definition str_mem (s : string) (l : list string) : bool := existsb (String.eqb s) l.

(* ------------------------------------------------------------------ *)
(** * Sets *)

(** CPython iterates a set in hash order: all that is known of the order is
    that every element comes exactly once. *)
Class PySetOrder := {
  set_iter : ∀ (A : Type) `{Countable A}, gset A → list A;
  set_iter_perm : ∀ (A : Type) `{Countable A} (s : gset A), set_iter A s ≡ₚ elements s;
}.
Arguments set_iter {_ A _ _} s.

(** One such order, for running the definitions. *)
#[export] Instance elements_order : PySetOrder | 100 := {|
  set_iter := λ A _ _ s, elements s;
  set_iter_perm := λ A _ _ s, reflexivity _;
|}.

(** [list(set(l))] *)
Definition set_list `{PySetOrder} {A} `{Countable A} (l : list A) : list A :=
  set_iter (list_to_set (C := gset A) l).

(* ------------------------------------------------------------------ *)
(** * Lemmas: characters and strings *)

Lemma has_char_app c s t : has_char c (s +:+ t) = has_char c s || has_char c t.
Proof. induction s as [|d s IH]; cbn; [done|]. by rewrite IH, orb_assoc. Qed.

Lemma has_char_cons c d s : has_char c (String d s) = Ascii.eqb c d || has_char c s.
Proof. done. Qed.

Lemma str_forallb_has_char c p s : str_forallb p s = true → p c = false → has_char c s = false.
Proof.
  intros Hs Hc. induction s as [|d s IH]; [done|]. cbn in *. apply andb_prop in Hs as [Hd Hs].
  rewrite IH by done. destruct (Ascii.eqb_spec c d) as [->|]; [congruence|done].
Qed.

Lemma str_app_assoc (s t u : string) : (s +:+ t) +:+ u = s +:+ (t +:+ u).
Proof. induction s as [|c s IH]; cbn; [done | by f_equal]. Qed.

Lemma str_app_nil_r (s : string) : s +:+ EmptyString = s.
Proof. induction s as [|c s IH]; cbn; [done | by f_equal]. Qed.

Lemma split_on_not_nil c s : split_on c s ≠ [].
Proof. destruct s; cbn; [done|]. repeat case_match; done. Qed.

(** A string without the separator is a single word. *)
Lemma split_on_no_sep c s : has_char c s = false → split_on c s = [s].
Proof.
  induction s as [|d s IH]; cbn; [done|]. intros [Hd Hs]%orb_false_iff.
  by rewrite Hd, (IH Hs).
Qed.

Lemma split_on_app c s t :
  has_char c s = false → split_on c (s +:+ String c t) = s :: split_on c t.
Proof.
  induction s as [|d s IH]; cbn.
  - by rewrite Ascii.eqb_refl.
  - intros [Hd Hs]%orb_false_iff. by rewrite Hd, (IH Hs).
Qed.

(** The words of a split do not contain the separator. *)
Lemma split_on_words c s w : w ∈ split_on c s → has_char c w = false.
Proof.
  revert w. induction s as [|d s IH]; cbn; intros w Hw.
  - apply list_elem_of_singleton in Hw as ->. done.
  - destruct (Ascii.eqb c d) eqn:Hd.
    + apply elem_of_cons in Hw as [->|Hw]; auto.
    + destruct (split_on c s) as [|w' ws] eqn:Hs; [by destruct (split_on_not_nil c s)|].
      apply elem_of_cons in Hw as [->|Hw].
      * cbn. rewrite Hd. apply IH. by left.
      * apply IH. by right.
Qed.

(** Splitting inverts joining. *)
Lemma split_on_join c ws :
  ws ≠ [] → (∀ w, w ∈ ws → has_char c w = false) → split_on c (join_with c ws) = ws.
Proof.
  induction ws as [|w ws IH]; [done|]. intros _ Hws.
  destruct ws as [|w' ws].
  - cbn. apply split_on_no_sep, Hws. by left.
  - change (join_with c (w :: w' :: ws)) with (w +:+ String c (join_with c (w' :: ws))).
    rewrite split_on_app by (apply Hws; by left).
    f_equal. apply IH; [done|]. intros v Hv. apply Hws. by right.
Qed.

(** Joining inverts splitting. *)
Lemma join_split_on c s : join_with c (split_on c s) = s.
Proof.
  induction s as [|d s IH]; [done|]. cbn.
  destruct (Ascii.eqb_spec c d) as [->|Hd].
  - destruct (split_on d s) as [|w ws] eqn:Hs; [by destruct (split_on_not_nil d s)|].
    cbn in IH |- *. by rewrite IH.
  - destruct (split_on c s) as [|w ws] eqn:Hs; [by destruct (split_on_not_nil c s)|].
    destruct ws; cbn in IH |- *; by rewrite <- IH.
Qed.

Lemma length_split_on c s :
  length (split_on c s) = S (length (filter (λ d, c = d) (String.list_ascii_of_string s))).
Proof.
  induction s as [|d s IH]; [done|]. cbn [split_on String.list_ascii_of_string].
  rewrite filter_cons. destruct (Ascii.eqb_spec c d) as [->|Hd].
  - rewrite decide_True by done. cbn. by rewrite IH.
  - rewrite decide_False by done.
    destruct (split_on c s) eqn:Hs; [by destruct (split_on_not_nil c s)|]. done.
Qed.

Lemma ascii_lower_forall (P : ascii → bool) :
  forallb P (map ascii_of_nat (seq 0 256)) = true → ∀ c, P c = true.
Proof.
  intros HP c. rewrite forallb_forall in HP. apply HP.
  rewrite in_map_iff. exists (nat_of_ascii c). split; [apply ascii_nat_embedding|].
  apply in_seq. pose proof (nat_ascii_bounded c). lia.
Qed.

Lemma lower_char_idemp c : lower_char (lower_char c) = lower_char c.
Proof.
  apply Ascii.eqb_eq. revert c.
  apply (ascii_lower_forall (λ c, Ascii.eqb (lower_char (lower_char c)) (lower_char c))).
  vm_compute. reflexivity.
Qed.

Lemma lower_idemp s : lower (lower s) = lower s.
Proof. induction s as [|c s IH]; cbn; [done|]. by rewrite lower_char_idemp, IH. Qed.

Lemma lower_app s t : lower (s +:+ t) = lower s +:+ lower t.
Proof. induction s as [|c s IH]; cbn; [done | by rewrite IH]. Qed.

Lemma replace_char_app c r s t :
  replace_char c r (s +:+ t) = replace_char c r s +:+ replace_char c r t.
Proof.
  induction s as [|d s IH]; cbn; [done|]. destruct (Ascii.eqb c d); rewrite IH.
  - by rewrite str_app_assoc.
  - done.
Qed.

Lemma replace_char_id c r s : has_char c s = false → replace_char c r s = s.
Proof.
  induction s as [|d s IH]; cbn; [done|]. intros [Hd Hs]%orb_false_iff.
  by rewrite Hd, (IH Hs).
Qed.

(** After replacing [c] by a text free of it, [c] is gone. *)
Lemma replace_char_removes c r s :
  has_char c r = false → has_char c (replace_char c r s) = false.
Proof.
  intros Hr. induction s as [|d s IH]; cbn; [done|].
  destruct (Ascii.eqb c d) eqn:Hd.
  - by rewrite has_char_app, Hr, IH.
  - cbn. by rewrite Hd, IH.
Qed.

(** Replacing introduces no character beyond those of the replacement. *)
Lemma replace_char_keeps_absent c r e s :
  has_char e s = false → has_char e r = false → has_char e (replace_char c r s) = false.
Proof.
  intros Hs Hr. induction s as [|d s IH]; cbn in *; [done|].
  apply orb_false_iff in Hs as [Hd Hs]. destruct (Ascii.eqb c d).
  - rewrite has_char_app, Hr, IH; done.
  - cbn. rewrite Hd, IH; done.
Qed.

Lemma find_char_None c s : find_char c s = None ↔ has_char c s = false.
Proof.
  induction s as [|d s IH]; cbn; [done|]. destruct (Ascii.eqb c d); cbn; [done|].
  rewrite <- IH. destruct (find_char c s); done.
Qed.

Lemma find_char_Some c s i :
  find_char c s = Some i →
  s = str_take i s +:+ String c (str_drop (S i) s) ∧ has_char c (str_take i s) = false.
Proof.
  revert i. induction s as [|d s IH]; cbn; intros i; [done|].
  destruct (Ascii.eqb_spec c d) as [->|Hd].
  - intros [= <-]. done.
  - intros (j & Hj & ->)%fmap_Some. specialize (IH j Hj) as [Hs Ht]. split.
    + change (String d s = String d (str_take j s +:+ String c (str_drop (S j) s))).
      by f_equal.
    + cbn. rewrite Ht. by apply orb_false_iff; split; [apply Ascii.eqb_neq|].
Qed.

Lemma rfind_char_None c s : rfind_char c s = None ↔ has_char c s = false.
Proof.
  induction s as [|d s IH]; cbn; [done|].
  destruct (rfind_char c s) as [i|].
  - destruct (Ascii.eqb c d); cbn; [done|]. destruct (has_char c s); [done|naive_solver].
  - rewrite (proj1 IH eq_refl). destruct (Ascii.eqb c d); done.
Qed.

Lemma rfind_char_Some c s i :
  rfind_char c s = Some i →
  s = str_take i s +:+ String c (str_drop (S i) s) ∧ has_char c (str_drop (S i) s) = false.
Proof.
  revert i. induction s as [|d s IH]; cbn; intros i; [done|].
  destruct (rfind_char c s) as [j|] eqn:Hj.
  - intros [= <-]. specialize (IH j eq_refl) as [Hs Ht]. split; [|done].
    change (String d s = String d (str_take j s +:+ String c (str_drop (S j) s))).
    by f_equal.
  - destruct (Ascii.eqb_spec c d) as [->|Hd]; [|done]. intros [= <-].
    cbn. split; [done|]. by apply rfind_char_None.
Qed.

Lemma find_char_app c s t :
  has_char c s = false → find_char c (s +:+ String c t) = Some (String.length s).
Proof.
  induction s as [|d s IH]; cbn.
  - by rewrite Ascii.eqb_refl.
  - intros [Hd Hs]%orb_false_iff. by rewrite Hd, (IH Hs).
Qed.

Lemma rfind_char_app c s t :
  has_char c t = false → rfind_char c (s +:+ String c t) = Some (String.length s).
Proof.
  intros Ht. apply rfind_char_None in Ht. induction s as [|d s IH]; cbn.
  - by rewrite Ht, Ascii.eqb_refl.
  - by rewrite IH.
Qed.

Lemma str_take_app s t : str_take (String.length s) (s +:+ t) = s.
Proof. induction s as [|c s IH]; cbn; [by destruct t | by f_equal]. Qed.

Lemma str_drop_app s t : str_drop (String.length s) (s +:+ t) = t.
Proof. induction s as [|c s IH]; [by destruct t | exact IH]. Qed.

Lemma str_length_app s t : String.length (s +:+ t) = String.length s + String.length t.
Proof. induction s as [|c s IH]; cbn; [done | by rewrite IH]. Qed.

Lemma startswith_app p s : startswith p (p +:+ s) = true.
Proof.
  unfold startswith. induction p as [|c p IH]; cbn; [by destruct s|].
  by destruct (ascii_dec c c).
Qed.

Lemma startswith_inv p s :
  startswith p s = true → s = p +:+ str_drop (String.length p) s.
Proof.
  unfold startswith. revert s. induction p as [|c p IH]; cbn; intros s; [done|].
  destruct s as [|d s]; [done|]. cbn. destruct (ascii_dec c d) as [->|]; [|done].
  intros H%IH. cbn. by f_equal.
Qed.

Lemma str_mem_elem s l : str_mem s l = true ↔ s ∈ l.
Proof.
  unfold str_mem. rewrite existsb_exists, list_elem_of_In. split.
  - intros (x & Hx & ->%String.eqb_eq). done.
  - intros H. exists s. split; [done|]. apply String.eqb_refl.
Qed.

Lemma str_mem_false s l : str_mem s l = false ↔ s ∉ l.
Proof. rewrite <- str_mem_elem. destruct (str_mem s l); naive_solver. Qed.

(** Concatenation around a separator that does not occur on the left is
    injective. *)
Lemma app_sep_inj c s s' t t' :
  has_char c s = false → has_char c s' = false →
  s +:+ String c t = s' +:+ String c t' → s = s' ∧ t = t'.
Proof.
  intros Hs Hs' Heq.
  assert (Hl : String.length s = String.length s').
  { pose proof (find_char_app c s t Hs) as H1. pose proof (find_char_app c s' t' Hs') as H2.
    rewrite Heq in H1. congruence. }
  assert (s = s') as ->.
  { rewrite <- (str_take_app s (String c t)), <- (str_take_app s' (String c t')).
    by rewrite Heq, Hl. }
  split; [done|].
  assert (String c t = String c t') as Ht.
  { rewrite <- (str_drop_app s' (String c t)), Heq. apply str_drop_app. }
  by injection Ht.
Qed.

(* ------------------------------------------------------------------ *)
(** * Lemmas: sets *)

Section sets.
Context `{PySetOrder} {A : Type} `{Countable A}.
Implicit Types (s : gset A) (l : list A).

Lemma elem_of_set_iter s x : x ∈ set_iter s ↔ x ∈ s.
Proof. rewrite (set_iter_perm A s). apply elem_of_elements. Qed.

Lemma NoDup_set_iter s : NoDup (set_iter s).
Proof. rewrite (set_iter_perm A s). apply NoDup_elements. Qed.

Lemma set_iter_nil s : set_iter s = [] ↔ s = ∅.
Proof.
  split.
  - intros Hs. apply set_eq. intros x. rewrite <- elem_of_set_iter, Hs. set_solver.
  - intros ->. apply Permutation_nil_r. rewrite (set_iter_perm A ∅).
    by rewrite elements_empty.
Qed.

Lemma length_set_iter s : length (set_iter s) = size s.
Proof. by rewrite (set_iter_perm A s). Qed.

Lemma elem_of_set_list l x : x ∈ set_list l ↔ x ∈ l.
Proof. unfold set_list. rewrite elem_of_set_iter. apply elem_of_list_to_set. Qed.

Lemma NoDup_set_list l : NoDup (set_list l).
Proof. apply NoDup_set_iter. Qed.
End sets.

#[export] Hint Resolve NoDup_set_iter NoDup_set_list : rbac.
#[export] Hint Rewrite @elem_of_set_iter @elem_of_set_list : rbac.
