(* ===== verification/Config.v ===== *)
(** The configuration the modelled code reads (django.conf.settings and the
    feature flags), and JSON values with the dictionary accesses used on them. *)

From S2P Require Import Prelude.
From S2P Require Import PyString.

(** The settings read by the modelled code.  Every operation that reads one
    takes the whole configuration as a class argument. *)
Class Settings := {
  PRINCIPAL_USER_DOMAIN : string;
  ENV_NAME : string;
  REPLICATION_TO_RELATION_ENABLED : bool;
  ROOT_SCOPE_PERMISSIONS : string;
  TENANT_SCOPE_PERMISSIONS : string;
  DEFAULT_SCOPE_PERMISSIONS : string;
  ALL_SCOPE_PERMISSIONS : string;
  WORKSPACE_HIERARCHY_DEPTH_LIMIT : nat;
  WORKSPACE_ORG_CREATION_LIMIT : nat;
  WORKSPACE_RESTRICT_DEFAULT_PEERS : bool;
  SYSTEM_DEFAULT_ROOT_WORKSPACE_ROLE_UUID : string;
  SYSTEM_DEFAULT_TENANT_ROLE_UUID : string;
  SYSTEM_ADMIN_ROOT_WORKSPACE_ROLE_UUID : string;
  SYSTEM_ADMIN_TENANT_ROLE_UUID : string;
  V2_MIGRATION_APP_EXCLUDE_LIST : list string;
}.

(** A concrete configuration, used where a definition is run. *)
Definition sample_settings : Settings := {|
  PRINCIPAL_USER_DOMAIN := "localhost";
  ENV_NAME := "stage";
  REPLICATION_TO_RELATION_ENABLED := true;
  ROOT_SCOPE_PERMISSIONS := "";
  TENANT_SCOPE_PERMISSIONS := "rbac:*:*";
  DEFAULT_SCOPE_PERMISSIONS := "";
  ALL_SCOPE_PERMISSIONS := "";
  WORKSPACE_HIERARCHY_DEPTH_LIMIT := 5;
  WORKSPACE_ORG_CREATION_LIMIT := 10;
  WORKSPACE_RESTRICT_DEFAULT_PEERS := true;
  SYSTEM_DEFAULT_ROOT_WORKSPACE_ROLE_UUID := "00000000-0000-0000-0000-0000000000a1";
  SYSTEM_DEFAULT_TENANT_ROLE_UUID := "00000000-0000-0000-0000-0000000000a2";
  SYSTEM_ADMIN_ROOT_WORKSPACE_ROLE_UUID := "00000000-0000-0000-0000-0000000000a3";
  SYSTEM_ADMIN_TENANT_ROLE_UUID := "00000000-0000-0000-0000-0000000000a4";
  V2_MIGRATION_APP_EXCLUDE_LIST := ["approval"];
|}.

(* ------------------------------------------------------------------ *)
(** * JSON values and Python objects decoded from them *)

Inductive json :=
| JNull
| JBool (b : bool)
| JInt (z : Z)
| JFloat (repr : string)
| JStr (s : string)
| JList (l : list json)
| JDict (d : list (string * json)).

(** The first entry of an association list: dictionaries keep one entry per
    key, so it is the entry. *)
Fixpoint assoc {A} (k : string) (d : list (string * A)) : option A :=
  match d with
  | [] => None
  | (k', v) :: d' => if String.eqb k k' then Some v else assoc k d'
  end.

(** [d[k] = v] keeps the position of an existing key and appends a new one. *)
Fixpoint assoc_set {A} (k : string) (v : A) (d : list (string * A)) : list (string * A) :=
  match d with
  | [] => [(k, v)]
  | (k', v') :: d' => if String.eqb k k' then (k', v) :: d' else (k', v') :: assoc_set k v d'
  end.

(** [d.pop(k, None)] *)
Definition assoc_pop {A} (k : string) (d : list (string * A)) : list (string * A) :=
  List.filter (λ e, negb (String.eqb k (fst e))) d.

(** [v[k]] with a string key: KeyError on a missing key, TypeError on a value
    that is not a dictionary. *)
Definition jindex (v : json) (k : string) : result json :=
  match v with
  | JDict d => or_raise KeyError (assoc k d)
  | _ => Raise TypeError
  end.

(** [v.get(k, default)]: only dictionaries have the method. *)
Definition jget (v : json) (k : string) (default : json) : result json :=
  match v with
  | JDict d => Ok (match assoc k d with Some x => x | None => default end)
  | _ => Raise AttributeError
  end.

(* ------------------------------------------------------------------ *)
(** * Lemmas *)

Lemma assoc_set_eq {A} k (v : A) d : assoc k (assoc_set k v d) = Some v.
Proof.
  induction d as [|[k' v'] d IH]; cbn.
  - by rewrite String.eqb_refl.
  - destruct (String.eqb_spec k k') as [->|]; cbn.
    + by rewrite String.eqb_refl.
    + by destruct (String.eqb_spec k k').
Qed.

Lemma assoc_set_ne {A} k k' (v : A) d : k ≠ k' → assoc k' (assoc_set k v d) = assoc k' d.
Proof.
  intros Hne. induction d as [|[k2 v2] d IH]; cbn.
  - by destruct (String.eqb_spec k' k).
  - destruct (String.eqb_spec k k2) as [->|]; cbn.
    + by destruct (String.eqb_spec k' k2).
    + by destruct (String.eqb_spec k' k2).
Qed.

Lemma assoc_pop_eq {A} k (d : list (string * A)) : assoc k (assoc_pop k d) = None.
Proof.
  induction d as [|[k' v'] d IH]; cbn; [done|].
  destruct (String.eqb_spec k k') as [->|Hne]; cbn; [done|].
  by destruct (String.eqb_spec k k').
Qed.

Lemma assoc_pop_ne {A} k k' (d : list (string * A)) :
  k ≠ k' → assoc k' (assoc_pop k d) = assoc k' d.
Proof.
  intros Hne. induction d as [|[k2 v2] d IH]; cbn; [done|].
  destruct (String.eqb_spec k k2) as [->|]; cbn.
  - by destruct (String.eqb_spec k' k2).
  - by destruct (String.eqb_spec k' k2).
Qed.
