(* ===== verification/PyUuid.v ===== *)
(** UUIDs as Python reads and prints them: [uuid.UUID(str)] with [int(_, 16)] below
    it, [str(uuid)], and the identifiers that internal/utils.py takes from resource
    definitions. *)

From S2P Require Import Prelude.
From S2P Require Import PyString.
From S2P Require Import Config.

#[local] Open Scope Z_scope.

(* ------------------------------------------------------------------ *)
(** * int(s, 16) *)

Definition hex_digit (c : ascii) : option Z :=
  let n := Z.of_N (N_of_ascii c) in
  if (48 <=? n) && (n <=? 57) then Some (n - 48)
  else if (97 <=? n) && (n <=? 102) then Some (n - 87)
  else if (65 <=? n) && (n <=? 70) then Some (n - 55)
  else None.

(** Digits with single underscores between them. *)
Fixpoint hex_digits (acc : Z) (after_digit : bool) (s : string) : option Z :=
  match s with
  | EmptyString => if after_digit then Some acc else None
  | String c s' =>
      if Ascii.eqb c "_" then if after_digit then hex_digits acc false s' else None
      else match hex_digit c with
           | Some d => hex_digits (16 * acc + d) true s'
           | None => None
           end
  end.

(** The prefix 0x, which one underscore may follow. *)
Definition drop_0x (s : string) : string :=
  match s with
  | String z (String x s') =>
      if Ascii.eqb z "0" && (Ascii.eqb x "x" || Ascii.eqb x "X") then
        match s' with
        | String u s'' => if Ascii.eqb u "_" then s'' else s'
        | EmptyString => s'
        end
      else s
  | _ => s
  end.

Definition py_int16 (s : string) : option Z :=
  match strip s with
  | EmptyString => None
  | String c s' =>
      if Ascii.eqb c "+" then hex_digits 0 false (drop_0x s')
      else if Ascii.eqb c "-" then Z.opp <$> hex_digits 0 false (drop_0x s')
      else hex_digits 0 false (drop_0x (String c s'))
  end.

(* ------------------------------------------------------------------ *)
(** * uuid.UUID *)

(** [s.replace(p, "")]: left to right, without overlaps; [skip] characters of an
    occurrence are still to be dropped. *)
Fixpoint remove_str (p : string) (skip : nat) (s : string) : string :=
  match s with
  | EmptyString => EmptyString
  | String c s' =>
      match skip with
      | S k => remove_str p k s'
      | O => if startswith p s then remove_str p (String.length p - 1) s' else String c (remove_str p 0 s')
      end
  end.

(** [s.strip("{}")] *)
Definition is_brace (c : ascii) : bool := Ascii.eqb c "{" || Ascii.eqb c "}".
Fixpoint lstrip_braces (s : string) : string :=
  match s with
  | EmptyString => EmptyString
  | String c s' => if is_brace c then lstrip_braces s' else s
  end.
Fixpoint rstrip_braces (s : string) : string :=
  match s with
  | EmptyString => EmptyString
  | String c s' =>
      match rstrip_braces s' with
      | EmptyString => if is_brace c then EmptyString else String c EmptyString
      | r => String c r
      end
  end.

(** [uuid.UUID(s)], as the integer it holds. *)
Definition uuid_of_string (s : string) : option Z :=
  let hex := replace_char "-" "" (rstrip_braces (lstrip_braces (remove_str "uuid:" 0 (remove_str "urn:" 0 s)))) in
  if Nat.eqb (String.length hex) 32 then
    match py_int16 hex with
    | Some n => if (0 <=? n) && (n <? 2 ^ 128) then Some n else None
    | None => None
    end
  else None.

(** [str(uuid)] *)
Definition hex_char (d : Z) : ascii :=
  ascii_of_N (Z.to_N (if d <? 10 then 48 + d else 87 + d)).
Fixpoint hex_fixed (k : nat) (n : Z) : string :=
  match k with
  | O => EmptyString
  | S k' => String (hex_char (n / 16 ^ Z.of_nat k' mod 16)) (hex_fixed k' n)
  end.
Definition uuid_str (n : Z) : string :=
  hex_fixed 8 (n / 16 ^ 24) +:+ "-" +:+ hex_fixed 4 (n / 16 ^ 20) +:+ "-" +:+ hex_fixed 4 (n / 16 ^ 16)
  +:+ "-" +:+ hex_fixed 4 (n / 16 ^ 12) +:+ "-" +:+ hex_fixed 12 n.

(** [str(uuid.UUID(s))] *)
Definition uuid_canon (s : string) : option string := uuid_str <$> uuid_of_string s.

(* ------------------------------------------------------------------ *)
(** * Resource definitions *)

(** [is_str_valid_uuid]: an empty string is not one. *)
Definition is_str_valid_uuid (v : json) : bool :=
  match v with
  | JStr s => str_truth s && bool_decide (is_Some (uuid_of_string s))
  | _ => false
  end.

(** The ids and the rest of [for val in value]: a string is iterated by character, a
    dictionary by key, and a value that cannot be iterated is a TypeError. *)
Definition json_iter (v : json) : result (list json) :=
  match v with
  | JList l => Ok l
  | JStr s => Ok (map (λ c, JStr (String c EmptyString)) (String.list_ascii_of_string s))
  | JDict d => Ok (map (λ kv, JStr (fst kv)) d)
  | _ => Raise TypeError
  end.

(** [get_workspace_ids_from_resource_definition_with_malformed] *)
Definition get_workspace_ids_from_resource_definition_with_malformed (attributeFilter : list (string * json)) :
    result (list string * list json) :=
  let canon v := match v with JStr s => option_list (uuid_canon s) | _ => [] end in
  let split l := (concat (map canon (List.filter is_str_valid_uuid l)),
                  List.filter (λ v, negb (is_str_valid_uuid v)) l) in
  match assoc "operation" attributeFilter with
  | Some (JStr op) =>
      if String.eqb op "in" then
        l ← json_iter (default (JList []) (assoc "value" attributeFilter)); mret (split l)
      else if String.eqb op "equal" then
        mret (split [default (JStr "") (assoc "value" attributeFilter)])
      else mret ([], [])
  | _ => mret ([], [])
  end.

(** [get_workspace_ids_from_resource_definition] *)
Definition get_workspace_ids_from_resource_definition (attributeFilter : list (string * json)) :
    result (list string) :=
  fst <$> get_workspace_ids_from_resource_definition_with_malformed attributeFilter.

(* ------------------------------------------------------------------ *)
(** * Round trip *)

Lemma hex_char_spec d : 0 ≤ d < 16 →
  hex_digit (hex_char d) = Some d ∧ hex_char d ≠ "_"%char ∧ is_space (hex_char d) = false
  ∧ is_brace (hex_char d) = false ∧ hex_char d ≠ "-"%char ∧ hex_char d ≠ "u"%char ∧ hex_char d ≠ "x"%char
  ∧ hex_char d ≠ "X"%char ∧ hex_char d ≠ "+"%char.
Proof.
  intros Hd. assert (d ∈ map Z.of_nat (seq 0 16)) as Hin.
  { apply list_elem_of_fmap. exists (Z.to_nat d). rewrite elem_of_seq. lia. }
  repeat (apply elem_of_cons in Hin as [-> |Hin]; [by vm_compute|]). by apply elem_of_nil in Hin.
Qed.

Lemma hex_nibble n k : 0 ≤ n / 16 ^ k mod 16 < 16.
Proof. apply Z.mod_pos_bound. lia. Qed.

Lemma hex_fixed_length k n : String.length (hex_fixed k n) = k.
Proof. induction k; cbn; congruence. Qed.

(** A property of all sixteen digits holds of every character. *)
Lemma hex_fixed_forallb (p : ascii → bool) k n :
  (∀ d, 0 ≤ d < 16 → p (hex_char d) = true) → str_forallb p (hex_fixed k n) = true.
Proof.
  intros Hp. induction k as [|k IH]; [done|]. cbn [hex_fixed str_forallb]. by rewrite Hp, IH by apply hex_nibble.
Qed.

Lemma hex_fixed_app j k n : hex_fixed (j + k) n = hex_fixed j (n / 16 ^ Z.of_nat k) +:+ hex_fixed k n.
Proof.
  induction j as [|j IH]; [done|]. cbn [hex_fixed Nat.add]. rewrite IH. cbn. f_equal.
  by rewrite Z.div_div, <- Z.pow_add_r, <- Nat2Z.inj_add, (Nat.add_comm k j) by lia.
Qed.

Lemma hex_digits_fixed k acc b n :
  b || negb (Nat.eqb k 0) = true → hex_digits acc b (hex_fixed k n) = Some (acc * 16 ^ Z.of_nat k + n mod 16 ^ Z.of_nat k).
Proof.
  revert acc b. induction k as [|k IH]; intros acc b Hb; cbn [hex_fixed hex_digits].
  { rewrite orb_false_r in Hb. rewrite Hb. cbn [Z.of_nat Z.pow]. rewrite Z.mod_1_r. f_equal. lia. }
  destruct (hex_char_spec (n / 16 ^ Z.of_nat k mod 16) (hex_nibble _ _)) as (Hd & Hu & _).
  rewrite (proj2 (Ascii.eqb_neq _ _) Hu), Hd, IH by done. f_equal.
  rewrite Nat2Z.inj_succ, Z.pow_succ_r, (Z.mul_comm 16 (16 ^ _)), (Z.rem_mul_r n) by lia. ring.
Qed.

Lemma remove_str_id c p s : has_char c s = false → remove_str (String c p) 0 s = s.
Proof.
  induction s as [|d s IH]; [done|]. rewrite has_char_cons. intros [Hd Hs]%orb_false_elim.
  cbn [remove_str]. unfold startswith. cbn [String.prefix].
  destruct (ascii_dec c d) as [->|_]; [by rewrite Ascii.eqb_refl in Hd|]. by rewrite IH.
Qed.

Lemma no_strip (p : ascii → bool) s :
  str_forallb (λ c, negb (p c)) s = true → ∀ c, has_char c s = true → p c = false.
Proof.
  intros Hs c Hc. destruct (p c) eqn:Hp; [|done].
  by rewrite (str_forallb_has_char c _ s Hs) in Hc by (by rewrite Hp).
Qed.

Lemma strip_id s : str_forallb (λ c, negb (is_space c)) s = true → strip s = s.
Proof.
  intros Hs. unfold strip. assert (lstrip s = s) as ->.
  { destruct s as [|c s]; [done|]. cbn in *. apply andb_prop in Hs as [Hc _]. by destruct (is_space c). }
  induction s as [|c s IH]; [done|]. cbn in *. apply andb_prop in Hs as [Hc Hs]. rewrite IH by done.
  destruct s; [|done]. by destruct (is_space c).
Qed.

Lemma strip_braces_id s :
  str_forallb (λ c, negb (is_brace c)) s = true → rstrip_braces (lstrip_braces s) = s.
Proof.
  intros Hs. assert (lstrip_braces s = s) as ->.
  { destruct s as [|c s]; [done|]. cbn in *. apply andb_prop in Hs as [Hc _]. by destruct (is_brace c). }
  induction s as [|c s IH]; [done|]. cbn in *. apply andb_prop in Hs as [Hc Hs]. rewrite IH by done.
  destruct s; [|done]. by destruct (is_brace c).
Qed.

Lemma str_forallb_app p s t : str_forallb p (s +:+ t) = str_forallb p s && str_forallb p t.
Proof. induction s as [|c s IH]; [done|]. cbn. by rewrite IH, andb_assoc. Qed.

Lemma uuid_str_chars (p : ascii → bool) n :
  (∀ d, 0 ≤ d < 16 → p (hex_char d) = true) → p "-"%char = true → str_forallb p (uuid_str n) = true.
Proof.
  intros Hp Hd. unfold uuid_str. rewrite !str_forallb_app, !hex_fixed_forallb by done. cbn. by rewrite Hd.
Qed.

Lemma replace_hyphens_fixed k n : replace_char "-" "" (hex_fixed k n) = hex_fixed k n.
Proof.
  apply replace_char_id, (str_forallb_has_char _ (λ c, negb (Ascii.eqb c "-"))); [|done].
  apply hex_fixed_forallb. intros d Hd. destruct (hex_char_spec d Hd) as (_ & _ & _ & _ & Hc & _).
  by rewrite (proj2 (Ascii.eqb_neq _ _) Hc).
Qed.

Lemma uuid_str_hex n : replace_char "-" "" (uuid_str n) = hex_fixed 32 n.
Proof.
  unfold uuid_str. rewrite !replace_char_app, !replace_hyphens_fixed.
  change (replace_char "-" "" "-") with EmptyString. cbn [String.append].
  rewrite (hex_fixed_app 8 24 n : hex_fixed 32 n = _), (hex_fixed_app 4 20 n : hex_fixed 24 n = _),
    (hex_fixed_app 4 16 n : hex_fixed 20 n = _), (hex_fixed_app 4 12 n : hex_fixed 16 n = _). reflexivity.
Qed.

Lemma py_int16_fixed k n : py_int16 (hex_fixed (S (S k)) n) = Some (n mod 16 ^ Z.of_nat (S (S k))).
Proof.
  unfold py_int16. rewrite strip_id.
  2:{ apply hex_fixed_forallb. intros d Hd. destruct (hex_char_spec d Hd) as (_ & _ & -> & _). done. }
  set (m := S k). cbn [hex_fixed].
  destruct (hex_char_spec _ (hex_nibble n (Z.of_nat m))) as (_ & _ & _ & _ & Hm & _ & _ & _ & Hp).
  rewrite (proj2 (Ascii.eqb_neq _ _) Hp), (proj2 (Ascii.eqb_neq _ _) Hm). unfold m. cbn [hex_fixed drop_0x].
  destruct (hex_char_spec _ (hex_nibble n (Z.of_nat k))) as (_ & _ & _ & _ & _ & _ & Hx & HX & _).
  rewrite (proj2 (Ascii.eqb_neq _ _) Hx), (proj2 (Ascii.eqb_neq _ _) HX), andb_false_r.
  pose proof (hex_digits_fixed (S (S k)) 0 false n eq_refl) as E. by cbn [hex_fixed] in E.
Qed.

Lemma strip_braces_wrap s :
  str_forallb (λ c, negb (is_brace c)) s = true → rstrip_braces (lstrip_braces ("{" +:+ s +:+ "}")) = s.
Proof.
  intros Hs. cbn [String.append lstrip_braces]. change (is_brace "{") with true. cbn [negb].
  assert (lstrip_braces (s +:+ "}") = s +:+ "}" ∨ s = EmptyString) as [-> | ->]; [|..|done].
  { destruct s as [|c s]; [by right|left]. cbn in *. apply andb_prop in Hs as [Hc _]. by destruct (is_brace c). }
  induction s as [|c s IH]; [done|]. cbn in *. apply andb_prop in Hs as [Hc Hs]. rewrite IH by done.
  destruct s; [|done]. by destruct (is_brace c).
Qed.

Lemma remove_str_prefix c p s :
  remove_str (String c p) 0 (String c p +:+ s) = remove_str (String c p) 0 s.
Proof.
  assert (∀ q, remove_str (String c p) (String.length q) (q +:+ s) = remove_str (String c p) 0 s) as Hq.
  { intros q. by induction q as [|d q IH]. }
  cbn [remove_str String.append].
  rewrite (startswith_app (String c p) s : startswith (String c p) (String c (p +:+ s)) = true).
  cbn [String.length]. by rewrite Nat.sub_succ, Nat.sub_0_r, Hq.
Qed.

Lemma remove_urn s :
  has_char "u" s = false → remove_str "uuid:" 0 (remove_str "urn:" 0 ("urn:uuid:" +:+ s)) = s.
Proof.
  intros Hs. assert (remove_str "urn:" 0 ("urn:uuid:" +:+ s) = "uuid:" +:+ s) as ->.
  { cbn. by rewrite remove_str_id. }
  by rewrite (remove_str_prefix "u" "uid:"), remove_str_id.
Qed.

(** Printing and reading UUIDs are inverse: the canonical form of every 128-bit
    value is accepted, in the plain form, in braces and as a URN, and denotes the value. *)
Theorem uuid_roundtrip n (Hn : 0 ≤ n < 2 ^ 128) :
  uuid_of_string (uuid_str n) = Some n
  ∧ uuid_of_string ("{" +:+ uuid_str n +:+ "}") = Some n
  ∧ uuid_of_string ("urn:uuid:" +:+ uuid_str n) = Some n
  ∧ String.length (uuid_str n) = 36%nat.
Proof.
  assert (∀ p, (∀ d, 0 ≤ d < 16 → p (hex_char d) = true) → p "-"%char = true → str_forallb p (uuid_str n) = true) as Hall.
  { intros p. apply uuid_str_chars. }
  assert (has_char "u" (uuid_str n) = false) as Hu.
  { apply (str_forallb_has_char _ (λ c, negb (Ascii.eqb c "u"))); [|done]. apply Hall; [|done].
    intros d Hd. destruct (hex_char_spec d Hd) as (_ & _ & _ & _ & _ & Hc & _). by rewrite (proj2 (Ascii.eqb_neq _ _) Hc). }
  assert (str_forallb (λ c, negb (is_brace c)) (uuid_str n) = true) as Hb.
  { apply Hall; [|done]. intros d Hd. destruct (hex_char_spec d Hd) as (_ & _ & _ & -> & _). done. }
  assert (∀ s, rstrip_braces (lstrip_braces (remove_str "uuid:" 0 (remove_str "urn:" 0 s))) = uuid_str n →
               uuid_of_string s = Some n) as Hs.
  { intros s Hs. unfold uuid_of_string. rewrite Hs, uuid_str_hex, hex_fixed_length, py_int16_fixed. cbn [Nat.eqb].
    rewrite Z.mod_small by (change (16 ^ Z.of_nat 32) with (2 ^ 128); lia).
    by rewrite (proj2 (Z.leb_le _ _)), (proj2 (Z.ltb_lt _ _)) by lia. }
  split_and!; [apply Hs| apply Hs| apply Hs|].
  - rewrite (remove_str_id "u" "rn:"), (remove_str_id "u" "uid:") by done. by apply strip_braces_id.
  - assert (has_char "u" ("{" +:+ uuid_str n +:+ "}") = false) as Hu'.
    { by rewrite !has_char_app, Hu. }
    rewrite (remove_str_id "u" "rn:"), (remove_str_id "u" "uid:") by done. apply strip_braces_wrap, Hb.
  - rewrite remove_urn by done. by apply strip_braces_id.
  - unfold uuid_str. by rewrite !str_length_app, !hex_fixed_length.
Qed.

Lemma uuid_roundtrip_witness :
  uuid_of_string "{00000000-0000-0000-0000-00000000002A}" = Some 42
  ∧ uuid_of_string (uuid_str 42) = Some 42.
Proof. split; [by vm_compute|]. apply (uuid_roundtrip 42). lia. Defined.
