(* ===== verification/PyJson.v ===== *)
(** JSON text: Python's [json.loads] and [json.dumps] with their default arguments.  Text
    is a sequence of code points below 256, as everywhere in the development; an escape
    that stands for another code point is an error here. *)

From S2P Require Import Prelude.
From S2P Require Import PyString.
From S2P Require Import Config.
From S2P Require Import PyUuid.

#[local] Open Scope char_scope.

(* ------------------------------------------------------------------ *)
(** * Reading *)

(** [WHITESPACE] *)
Definition is_ws (c : ascii) : bool := Ascii.eqb c " " || Ascii.eqb c "009" || Ascii.eqb c "010" || Ascii.eqb c "013".
Fixpoint skip_ws (s : string) : string :=
  match s with
  | String c s' => if is_ws c then skip_ws s' else s
  | EmptyString => EmptyString
  end.

(** Decimal digits: the longest run at the front. *)
Definition is_digit (c : ascii) : bool := (48 <=? nat_of_ascii c)%nat && (nat_of_ascii c <=? 57)%nat.
Fixpoint digits (s : string) : string * string :=
  match s with
  | String c s' => if is_digit c then let '(d, r) := digits s' in (String c d, r) else (EmptyString, s)
  | EmptyString => (EmptyString, EmptyString)
  end.
Fixpoint decimal (acc : Z) (s : string) : Z :=
  match s with
  | String c s' => decimal (10 * acc + (Z.of_nat (nat_of_ascii c) - 48)) s'
  | EmptyString => acc
  end.

(** The integer part of [NUMBER_RE]: a zero stands alone. *)
Definition int_part (s : string) : option (string * string) :=
  match s with
  | String "0" s' => Some ("0"%string, s')
  | _ => match digits s with (EmptyString, _) => None | r => Some r end
  end.

(** Its optional fraction and exponent. *)
Definition frac_part (s : string) : string * string :=
  match s with
  | String "." s' => match digits s' with (EmptyString, _) => (EmptyString, s) | (d, r) => (String "." d, r) end
  | _ => (EmptyString, s)
  end.
Definition exp_sign (s : string) : string * string :=
  match s with
  | String "+" s' => ("+"%string, s')
  | String "-" s' => ("-"%string, s')
  | _ => (EmptyString, s)
  end.
Definition exp_part (s : string) : string * string :=
  match s with
  | String c s' =>
      if Ascii.eqb c "e" || Ascii.eqb c "E" then
        let '(sign, s2) := exp_sign s' in
        match digits s2 with (EmptyString, _) => (EmptyString, s) | (d, r) => (String c (sign +:+ d), r) end
      else (EmptyString, s)
  | EmptyString => (EmptyString, s)
  end.
Definition scan_number (s : string) : option (json * string) :=
  let '(neg, s1) := match s with String "-" s1 => (true, s1) | _ => (false, s) end in
  '(i, s2) ← int_part s1;
  let '(f, s3) := frac_part s2 in
  let '(e, s4) := exp_part s3 in
  let sign : string := if neg then "-"%string else EmptyString in
  if String.eqb f EmptyString && String.eqb e EmptyString
  then Some (JInt (if neg then - decimal 0 i else decimal 0 i), s4)
  else Some (JFloat (sign +:+ i +:+ f +:+ e), s4).

(** [scanstring] after the opening quote, with the text so far. *)
Definition unescape (c : ascii) : option ascii :=
  if Ascii.eqb c "034" then Some "034" else if Ascii.eqb c "\" then Some "\" else if Ascii.eqb c "/" then Some "/"
  else if Ascii.eqb c "b" then Some "008" else if Ascii.eqb c "f" then Some "012" else if Ascii.eqb c "n" then Some "010"
  else if Ascii.eqb c "r" then Some "013" else if Ascii.eqb c "t" then Some "009" else None.
Definition code_point (a b c d : ascii) : option ascii :=
  match hex_digit a, hex_digit b, hex_digit c, hex_digit d with
  | Some 0%Z, Some 0%Z, Some x, Some y => Some (ascii_of_nat (Z.to_nat (16 * x + y)))
  | _, _, _, _ => None
  end.
Fixpoint scanstring (s : string) : option (string * string) :=
  match s with
  | EmptyString => None
  | String "034" s' => Some (EmptyString, s')
  | String "\" (String "u" (String a (String b (String c (String d s'))))) =>
      x ← code_point a b c d; '(t, r) ← scanstring s'; Some (String x t, r)
  | String "\" (String c s') => x ← unescape c; '(t, r) ← scanstring s'; Some (String x t, r)
  | String c s' => if (nat_of_ascii c <? 32)%nat then None else '(t, r) ← scanstring s'; Some (String c t, r)
  end.

(** [scan_once], [JSONObject] and [JSONArray]: the value at the front of the text and the
    rest; the fuel bounds the depth of the calls. *)
Definition starts (p s : string) : option string := if startswith p s then Some (str_drop (String.length p) s) else None.
Definition scan_literal (s : string) : option (json * string) :=
  match starts "null" s, starts "true" s, starts "false" s with
  | Some r, _, _ => Some (JNull, r)
  | _, Some r, _ => Some (JBool true, r)
  | _, _, Some r => Some (JBool false, r)
  | _, _, _ =>
      match scan_number s with
      | Some v => Some v
      | None => match starts "NaN" s, starts "Infinity" s, starts "-Infinity" s with
                | Some r, _, _ => Some (JFloat "nan", r)
                | _, Some r, _ => Some (JFloat "inf", r)
                | _, _, Some r => Some (JFloat "-inf", r)
                | _, _, _ => None
                end
      end
  end.

Fixpoint scan_once (fuel : nat) (s : string) : option (json * string) :=
  match fuel with
  | O => None
  | S fuel' =>
      match s with
      | String "034" s' => '(t, r) ← scanstring s'; Some (JStr t, r)
      | String "{" s' =>
          match skip_ws s' with
          | String "}" r => Some (JDict [], r)
          | String "034" r => '(d, r') ← scan_members fuel' [] r; Some (JDict d, r')
          | _ => None
          end
      | String "[" s' =>
          match skip_ws s' with
          | String "]" r => Some (JList [], r)
          | r => '(l, r') ← scan_elements fuel' r; Some (JList l, r')
          end
      | _ => scan_literal s
      end
  end
with scan_members (fuel : nat) (d : list (string * json)) (s : string) : option (list (string * json) * string) :=
  match fuel with
  | O => None
  | S fuel' =>
      '(key, r) ← scanstring s;
      match skip_ws r with
      | String ":" r1 =>
          '(v, r2) ← scan_once fuel' (skip_ws r1);
          let d' := assoc_set key v d in
          match skip_ws r2 with
          | String "}" r3 => Some (d', r3)
          | String "," r3 => match skip_ws r3 with String "034" r4 => scan_members fuel' d' r4 | _ => None end
          | _ => None
          end
      | _ => None
      end
  end
with scan_elements (fuel : nat) (s : string) : option (list json * string) :=
  match fuel with
  | O => None
  | S fuel' =>
      '(v, r) ← scan_once fuel' s;
      match skip_ws r with
      | String "]" r1 => Some ([v], r1)
      | String "," r1 => '(l, r2) ← scan_elements fuel' (skip_ws r1); Some (v :: l, r2)
      | _ => None
      end
  end.

(** [json.loads]: every call of the scanner takes a character away, so the length of the
    text is enough fuel. *)
Definition json_loads (s : string) : result json :=
  match scan_once (S (String.length s)) (skip_ws s) with
  | Some (v, r) => if String.eqb (skip_ws r) EmptyString then Ok v else Raise JSONDecodeError
  | None => Raise JSONDecodeError
  end.

(* ------------------------------------------------------------------ *)
(** * Writing *)

(** Decimal notation. *)
Definition digit_char (n : Z) : ascii := ascii_of_nat (Z.to_nat (48 + n mod 10)).
Fixpoint show_digits (fuel : nat) (n : Z) (acc : string) : string :=
  match fuel with
  | O => acc
  | S fuel' => let acc' := String (digit_char n) acc in
               if (n <? 10)%Z then acc' else show_digits fuel' (n / 10) acc'
  end.
Definition show_nat (n : Z) : string := show_digits (S (Z.to_nat (Z.log2 n))) n EmptyString.
Definition show_int (n : Z) : string := if (n <? 0)%Z then String "-" (show_nat (- n)) else show_nat n.

(** [ESCAPE_ASCII] *)
Definition escape_char (c : ascii) : string :=
  let n := nat_of_ascii c in
  if Ascii.eqb c "034" then "\" +:+ String "034" EmptyString
  else if Ascii.eqb c "\" then "\\"%string
  else if Ascii.eqb c "010" then "\n"%string else if Ascii.eqb c "013" then "\r"%string
  else if Ascii.eqb c "009" then "\t"%string else if Ascii.eqb c "012" then "\f"%string
  else if Ascii.eqb c "008" then "\b"%string
  else if (n <? 32)%nat || (126 <? n)%nat then "\u00" +:+ hex_fixed 2 (Z.of_nat n)
  else String c EmptyString.
Fixpoint escape (s : string) : string :=
  match s with
  | EmptyString => EmptyString
  | String c s' => escape_char c +:+ escape s'
  end.
Definition quote (s : string) : string := String "034" (escape s +:+ String "034" EmptyString).

(** [json.dumps] *)
Fixpoint json_dumps (v : json) : string :=
  match v with
  | JNull => "null"
  | JBool true => "true"
  | JBool false => "false"
  | JInt n => show_int n
  | JFloat r => r
  | JStr s => quote s
  | JList l => "[" +:+ join_str ", " (map json_dumps l) +:+ "]"
  | JDict d => "{" +:+ join_str ", " (map (λ kv, quote (fst kv) +:+ ": " +:+ json_dumps (snd kv)) d) +:+ "}"
  end.

(* ------------------------------------------------------------------ *)
(** * What is written is read back *)

#[local] Close Scope char_scope.

(** Text that cannot continue a number: the end, or a separator. *)
Definition stops (s : string) : bool :=
  match s with
  | EmptyString => true
  | String c _ => Ascii.eqb c "," || Ascii.eqb c "]" || Ascii.eqb c "}"
  end.

(** Values whose floats are float literals and whose keys are distinct. *)
Fixpoint json_ok (v : json) : Prop :=
  match v with
  | JFloat r => scan_number r = Some (JFloat r, "")
  | JList l => foldr (λ x P, json_ok x ∧ P) True l
  | JDict d => NoDup (map fst d) ∧ foldr (λ kv P, json_ok (snd kv) ∧ P) True d
  | _ => True
  end.

(** The calls that reading a value takes. *)
Fixpoint cost (v : json) : nat :=
  match v with
  | JList l => S (foldr (λ x n, S (cost x) + n)%nat 0%nat l)
  | JDict d => S (foldr (λ kv n, S (cost (snd kv)) + n)%nat 0%nat d)
  | _ => 1%nat
  end.

Lemma json_rect_nested (P : json → Prop) :
  P JNull → (∀ b, P (JBool b)) → (∀ n, P (JInt n)) → (∀ r, P (JFloat r)) → (∀ s, P (JStr s)) →
  (∀ l, Forall P l → P (JList l)) → (∀ d, Forall (λ kv, P (snd kv)) d → P (JDict d)) → ∀ v, P v.
Proof.
  intros Hn Hb Hi Hf Hs Hl Hd. fix IH 1. intros [|b|n|r|s|l|d]; [exact Hn|apply Hb|apply Hi|apply Hf|apply Hs|..].
  - apply Hl. induction l as [|x l IHl]; constructor; [apply IH|exact IHl].
  - apply Hd. induction d as [|[k x] d IHd]; constructor; [apply IH|exact IHd].
Qed.

(** ** Strings *)

Lemma scanstring_char c s : scanstring (escape_char c +:+ s) = '(t, r) ← scanstring s; Some (String c t, r).
Proof. destruct c as [[] [] [] [] [] [] [] []]; reflexivity. Qed.

Lemma scanstring_escape s rest : scanstring (escape s +:+ String "034" rest) = Some (s, rest).
Proof.
  induction s as [|c s IH]; [done|]. cbn [escape]. rewrite str_app_assoc, scanstring_char, IH. done.
Qed.

(** ** Numbers *)

Lemma stops_not_digit s : stops s = true → digits s = ("", s).
Proof. destruct s as [|c s]; [done|]. cbn. destruct c as [[] [] [] [] [] [] [] []]; done. Qed.

Lemma digits_app s rest : stops rest = true → digits (s +:+ rest) = (fst (digits s), snd (digits s) +:+ rest).
Proof.
  intros Hr. induction s as [|c s IH]; [by apply stops_not_digit|]. cbn. destruct (is_digit c); [|done].
  rewrite IH. by destruct (digits s).
Qed.

(** What a number needs of the text after it. *)
Lemma frac_part_app s rest : stops rest = true → frac_part (s +:+ rest) = (fst (frac_part s), snd (frac_part s) +:+ rest).
Proof.
  intros Hr. destruct s as [|c s].
  - destruct rest as [|c rest]; [done|]. cbn in *. destruct c as [[] [] [] [] [] [] [] []]; done.
  - cbn. destruct c as [[] [] [] [] [] [] [] []]; try done. rewrite digits_app by done. by destruct (digits s) as [[]].
Qed.

Lemma exp_sign_app s rest : stops rest = true → exp_sign (s +:+ rest) = (fst (exp_sign s), snd (exp_sign s) +:+ rest).
Proof.
  intros Hr. destruct s as [|c s].
  - destruct rest as [|c rest]; [done|]. cbn in *. destruct c as [[] [] [] [] [] [] [] []]; done.
  - destruct c as [[] [] [] [] [] [] [] []]; done.
Qed.

Lemma exp_part_app s rest : stops rest = true → exp_part (s +:+ rest) = (fst (exp_part s), snd (exp_part s) +:+ rest).
Proof.
  intros Hr. destruct s as [|c s].
  - destruct rest as [|c rest]; [done|]. cbn in *. destruct c as [[] [] [] [] [] [] [] []]; done.
  - cbn. destruct (_ || _); [|done]. rewrite exp_sign_app by done. destruct (exp_sign s) as [sg u]. cbn.
    rewrite digits_app by done. by destruct (digits u) as [[]].
Qed.

Lemma int_part_app s rest :
  stops rest = true → int_part (s +:+ rest) = (λ r, (fst r, snd r +:+ rest)) <$> int_part s.
Proof.
  intros Hr. destruct s as [|c s].
  - cbn. destruct rest as [|c rest]; [done|]. cbn in Hr. destruct c as [[] [] [] [] [] [] [] []]; done.
  - unfold int_part. cbn [String.append]. destruct c as [[] [] [] [] [] [] [] []]; try done;
      change (String ?x (s +:+ rest)) with (String x s +:+ rest); rewrite digits_app by done; by destruct (digits _) as [[]].
Qed.

Lemma scan_number_app s rest :
  stops rest = true → scan_number (s +:+ rest) = (λ r, (fst r, snd r +:+ rest)) <$> scan_number s.
Proof.
  intros Hr.
  assert (∀ neg u, ('(i, s2) ← int_part (u +:+ rest); let '(f, s3) := frac_part s2 in let '(e, s4) := exp_part s3 in
      if String.eqb f "" && String.eqb e "" then Some (JInt (if neg : bool then - decimal 0 i else decimal 0 i), s4)
      else Some (JFloat ((if neg then "-" else "") +:+ i +:+ f +:+ e), s4)) =
    (λ r, (fst r, snd r +:+ rest)) <$> ('(i, s2) ← int_part u; let '(f, s3) := frac_part s2 in let '(e, s4) := exp_part s3 in
      if String.eqb f "" && String.eqb e "" then Some (JInt (if neg : bool then - decimal 0 i else decimal 0 i), s4)
      else Some (JFloat ((if neg then "-" else "") +:+ i +:+ f +:+ e), s4))) as Hbody.
  { intros neg u. rewrite int_part_app by done. destruct (int_part u) as [[i s2]|]; [|done]. cbn.
    rewrite frac_part_app by done. destruct (frac_part s2) as [f s3]. cbn. rewrite exp_part_app by done.
    destruct (exp_part s3) as [e s4]. cbn. by destruct (_ && _). }
  unfold scan_number. destruct s as [|c s].
  - destruct rest as [|c rest]; [done|]. cbn in Hr. destruct c as [[] [] [] [] [] [] [] []]; done.
  - cbn [String.append]. destruct (decide (c = "-"%char)) as [->|Hne]; [apply (Hbody true)|].
    specialize (Hbody false (String c s)). cbn [String.append] in Hbody.
    destruct c as [[] [] [] [] [] [] [] []]; (exact Hbody || by destruct Hne).
Qed.

(** Numerals: digits only, without a zero in front, and of the right value. *)
Definition numeral (n : Z) (s : string) : Prop :=
  str_forallb is_digit s = true ∧ decimal 0 s = n
  ∧ match s with EmptyString => False | String c s' => c = "0"%char → s' = "" end.

Lemma decimal_snoc s a c : decimal a (s +:+ String c "") = (10 * decimal a s + (Z.of_nat (nat_of_ascii c) - 48))%Z.
Proof. revert a. induction s as [|x s IH]; intros a; [done|]. cbn. by rewrite IH. Qed.

Lemma digit_char_spec n :
  is_digit (digit_char n) = true ∧ (Z.of_nat (nat_of_ascii (digit_char n)) - 48 = n mod 10)%Z ∧ (digit_char n = "0"%char → n mod 10 = 0)%Z.
Proof.
  unfold digit_char. pose proof (Z.mod_pos_bound n 10). set (d := (n mod 10)%Z) in *.
  assert (d ∈ map Z.of_nat (seq 0 10)) as Hin.
  { apply list_elem_of_fmap. exists (Z.to_nat d). rewrite elem_of_seq. lia. }
  clearbody d. repeat (apply elem_of_cons in Hin as [-> |Hin]; [by vm_compute|]). by apply elem_of_nil in Hin.
Qed.

Lemma show_digits_spec fuel n acc :
  (0 < fuel)%nat → (0 ≤ n < 2 ^ Z.of_nat fuel)%Z → ∃ s, show_digits fuel n acc = s +:+ acc ∧ numeral n s ∧ (n ≠ 0%Z → String.get 0 s ≠ Some "0"%char).
Proof.
  revert n acc. induction fuel as [|fuel IH]; intros n acc Hf Hn; [lia|]. cbn [show_digits].
  destruct (digit_char_spec n) as (Hd & Hv & Hz). destruct (Z.ltb_spec n 10) as [Hlt|Hge].
  - rewrite Z.mod_small in Hv, Hz by lia. exists (String (digit_char n) ""). split; [done|]. split.
    + split; [cbn; by rewrite Hd|]. split; [cbn; lia|done].
    + intros Hne [= E]. by apply Hne, Hz.
  - destruct (IH (n / 10)%Z (String (digit_char n) acc)) as (s & -> & (Hs & Hdec & Hh) & Hnz).
    { destruct fuel; [change (2 ^ Z.of_nat 1)%Z with 2%Z in Hn; lia|lia]. }
    { rewrite Nat2Z.inj_succ, Z.pow_succ_r in Hn by lia. split; [apply Z.div_pos; lia|]. apply Z.div_lt_upper_bound; lia. }
    exists (s +:+ String (digit_char n) ""). split; [by rewrite str_app_assoc|].
    assert (n / 10 ≠ 0)%Z as Hne by (pose proof (Z.div_mod n 10); pose proof (Z.mod_pos_bound n 10); lia).
    specialize (Hnz Hne). destruct s as [|c s]; [done|]. split; [|by intros _].
    split; [rewrite str_forallb_app, Hs; cbn; by rewrite Hd|]. split; [|cbn; by intros ->].
    rewrite decimal_snoc, Hdec, Hv. rewrite <- (Z.div_mod n 10) by lia. done.
Qed.

Lemma digits_all s : str_forallb is_digit s = true → digits s = (s, "").
Proof. induction s as [|c s IH]; [done|]. cbn. intros [-> Hs]%andb_true_iff. by rewrite IH. Qed.

Lemma int_part_numeral n s : numeral n s → int_part s = Some (s, "").
Proof.
  intros (Hd & _ & Hz). destruct s as [|c s]; [done|]. unfold int_part. pose proof (digits_all _ Hd) as E.
  destruct (decide (c = "0"%char)) as [->|Hne]; [by rewrite (Hz eq_refl)|].
  destruct c as [[] [] [] [] [] [] [] []]; (by rewrite E) || by destruct Hne.
Qed.

Lemma scan_number_int n : scan_number (show_int n) = Some (JInt n, "").
Proof.
  assert (∀ m, 0 ≤ m → ∃ s, show_nat m = s ∧ numeral m s)%Z as Hshow.
  { intros m Hm. destruct (show_digits_spec (S (Z.to_nat (Z.log2 m))) m "") as (s & E & Hs & _); [lia|split; [done|]|].
    { rewrite Nat2Z.inj_succ, Z2Nat.id by apply Z.log2_nonneg. destruct (decide (m = 0%Z)) as [->|]; [done|]. apply Z.log2_spec. lia. }
    exists s. split; [|done].
    unfold show_nat. rewrite E. clear. induction s as [|c s IH]; [done|]. cbn. by rewrite IH. }
  unfold show_int. destruct (Z.ltb_spec n 0) as [Hlt|Hge].
  - destruct (Hshow (- n)%Z) as (s & -> & Hs); [lia|]. unfold scan_number. rewrite (int_part_numeral _ _ Hs). cbn.
    destruct Hs as (_ & -> & _). do 3 f_equal. lia.
  - destruct (Hshow n) as (s & -> & Hs); [lia|]. pose proof (int_part_numeral _ _ Hs) as Ei. destruct Hs as (Hd & Hv & _).
    assert (match s with String "-" s1 => (true, s1) | _ => (false, s) end = (false, s)) as Esign.
    { destruct s as [|c s]; [done|]. cbn in Hd. destruct c as [[] [] [] [] [] [] [] []]; done. }
    unfold scan_number. rewrite Esign, Ei. cbn. by rewrite Hv.
Qed.

(** ** Values *)

(** A number is no literal, and starts neither a string nor a container. *)
Lemma number_once s r fuel : scan_number s = Some r → scan_once (S fuel) s = Some r.
Proof.
  intros Hn. assert (scan_literal s = Some r) as Hl.
  { unfold scan_literal. rewrite Hn. destruct s as [|c s]; [done|]. destruct c as [[] [] [] [] [] [] [] []]; done. }
  destruct s as [|c s]; [done|]. destruct c as [[] [] [] [] [] [] [] []]; (exact Hl || done).
Qed.

Lemma number_head s r : scan_number s = Some r → ∃ c t, s = String c t ∧ is_ws c = false ∧ c ≠ "]"%char.
Proof.
  destruct s as [|c s]; [done|]. intros Hn. exists c, s. split; [done|]. destruct c as [[] [] [] [] [] [] [] []]; done.
Qed.

Lemma dumps_head v : json_ok v → ∃ c t, json_dumps v = String c t ∧ is_ws c = false ∧ c ≠ "]"%char.
Proof.
  destruct v as [|[]|n|r|s|l|d]; cbn [json_ok json_dumps]; intros Hok.
  1-3: by eexists _, _.
  - eapply number_head, scan_number_int.
  - by eapply number_head.
  - by eexists _, _.
  - by eexists _, _.
  - by eexists _, _.
Qed.

Lemma skip_ws_dumps v rest : json_ok v → skip_ws (json_dumps v +:+ rest) = json_dumps v +:+ rest.
Proof. intros (c & t & -> & Hc & _)%dumps_head. cbn. by rewrite Hc. Qed.

Definition reads v : Prop := json_ok v → ∀ fuel rest, stops rest = true → (cost v ≤ fuel)%nat → scan_once fuel (json_dumps v +:+ rest) = Some (v, rest).

Lemma scan_elements_dumps l fuel rest :
  Forall reads l → json_ok (JList l) → l ≠ [] → (cost (JList l) ≤ S fuel)%nat →
  scan_elements fuel (join_str ", " (map json_dumps l) +:+ "]" +:+ rest) = Some (l, rest).
Proof.
  intros Hl. revert fuel. induction Hl as [|x l Hx Hl IH]; intros fuel Hok Hne Hf; [done|]. destruct Hok as [Hokx Hok]. cbn in Hf.
  destruct fuel as [|fuel]; [lia|]. destruct l as [|y l].
  - cbn. rewrite Hx by (done || lia). done.
  - change (join_str ", " (map json_dumps (x :: y :: l))) with (json_dumps x +:+ ", " +:+ join_str ", " (map json_dumps (y :: l))).
    remember (join_str ", " (map json_dumps (y :: l))) as t eqn:Edef in *. rewrite !str_app_assoc. cbn [scan_elements].
    rewrite Hx by (done || (cbn; lia)). cbn -[scan_elements].
    assert (skip_ws (t +:+ String "]" rest) = t +:+ String "]" rest) as ->.
    { destruct Hok as [Hoky _]. rewrite Edef. destruct l; cbn [join_str map]; rewrite ?str_app_assoc; by apply skip_ws_dumps. }
    specialize (IH fuel). cbn [String.append] in IH. rewrite IH; [done|done|done|cbn in *; lia].
Qed.

Lemma assoc_set_new {A} k (v : A) d : k ∉ map fst d → assoc_set k v d = d ++ [(k, v)].
Proof.
  induction d as [|[k' v'] d IH]; [done|]. cbn. intros [Hne Hn]%not_elem_of_cons.
  destruct (String.eqb_spec k k'); [done|]. by rewrite IH.
Qed.

Definition dump_entry (kv : string * json) : string := quote (fst kv) +:+ ": " +:+ json_dumps (snd kv).

Lemma scan_members_dumps d acc fuel rest :
  Forall (λ kv, reads (snd kv)) d → NoDup (map fst (acc ++ d)) → json_ok (JDict d) → d ≠ [] → (cost (JDict d) ≤ S fuel)%nat →
  scan_members fuel acc (str_drop 1 (join_str ", " (map dump_entry d) +:+ "}" +:+ rest)) = Some (acc ++ d, rest).
Proof.
  intros Hd. revert acc fuel. induction Hd as [|[k v] d Hv Hd IH]; intros acc fuel Hnd Hok Hne Hf; [done|].
  destruct Hok as [Hk [Hokv Hok]]. cbn in Hf, Hokv, Hv. destruct fuel as [|fuel]; [lia|].
  assert (assoc_set k v acc = acc ++ [(k, v)]) as Hset.
  { apply assoc_set_new. rewrite map_app in Hnd. cbn in Hnd. apply NoDup_app in Hnd as (_ & Hdis & _). intros Hin. apply (Hdis k Hin). left. }
  assert (∀ s', scan_members (S fuel) acc (str_drop 1 (dump_entry (k, v) +:+ s')) =
    '(v', r2) ← scan_once fuel (json_dumps v +:+ s');
    match skip_ws r2 with
    | String "}" r3 => Some (assoc_set k v' acc, r3)
    | String "," r3 => match skip_ws r3 with String "034" r4 => scan_members fuel (assoc_set k v' acc) r4 | _ => None end
    | _ => None
    end) as Hstep.
  { intros s'. unfold dump_entry. cbn [fst snd]. unfold quote. rewrite !str_app_assoc. cbn [str_drop String.append].
    rewrite !str_app_assoc. cbn [scan_members String.append]. rewrite scanstring_escape. cbn. by rewrite skip_ws_dumps. }
  destruct d as [|[k2 v2] d].
  - change (join_str ", " (map dump_entry [(k, v)])) with (dump_entry (k, v)).
    rewrite Hstep, Hv by (done || lia). cbn. by rewrite Hset.
  - change (join_str ", " (map dump_entry ((k, v) :: (k2, v2) :: d))) with
      (dump_entry (k, v) +:+ ", " +:+ join_str ", " (map dump_entry ((k2, v2) :: d))).
    remember (join_str ", " (map dump_entry ((k2, v2) :: d))) as t eqn:Edef in *. rewrite !str_app_assoc, Hstep.
    rewrite Hv by (done || (cbn; lia)). cbn -[scan_members].
    assert (∃ t', t = String "034" t') as [t' Ht] by (rewrite Edef; destruct d; by eexists).
    specialize (IH (acc ++ [(k, v)]) fuel). rewrite Ht in IH |- *. cbn -[scan_members] in IH |- *. rewrite Hset, IH.
    + by rewrite <- app_assoc.
    + by rewrite <- app_assoc.
    + split; [|done]. cbn in Hk. by apply NoDup_cons in Hk as [_ Hk].
    + done.
    + cbn in Hf. lia.
Qed.

Lemma scan_dumps v : reads v.
Proof.
  induction v as [|b|n|r|s|l Hl|d Hd] using json_rect_nested; intros Hok fuel rest Hr Hf;
    (destruct fuel as [|fuel]; [cbn in Hf; lia|]).
  - by destruct rest.
  - by destruct b, rest.
  - apply number_once. cbn [json_dumps]. rewrite scan_number_app, scan_number_int by done. done.
  - apply number_once. cbn [json_dumps]. cbn in Hok. rewrite scan_number_app, Hok by done. done.
  - cbn -[scanstring]. rewrite str_app_assoc. cbn [String.append]. by rewrite scanstring_escape.
  - destruct l as [|x l]; [done|]. cbn [json_dumps]. rewrite !str_app_assoc. pose proof Hok as [Hokx _].
    pose proof (scan_elements_dumps (x :: l) fuel rest Hl Hok) as He. remember (join_str ", " (map json_dumps (x :: l))) as t eqn:Edef in *.
    assert (∃ c t', t = String c t' ∧ is_ws c = false ∧ c ≠ "]"%char) as (c & t' & Et & Hc & Hne).
    { rewrite Edef. destruct (dumps_head x Hokx) as (c & u & E & Hc). destruct l; cbn [map join_str]; rewrite E; by eexists _, _. }
    cbn -[scan_elements]. cbn -[scan_elements] in He. rewrite Et in *. cbn -[scan_elements] in He |- *. rewrite Hc.
    specialize (He ltac:(done) ltac:(cbn in Hf; lia)).
    destruct c as [[] [] [] [] [] [] [] []]; (by rewrite He) || by destruct Hne.
  - destruct d as [|[k v] d]; [done|]. cbn [json_dumps]. rewrite !str_app_assoc.
    change (λ kv : string * json, quote (fst kv) +:+ ": " +:+ json_dumps (snd kv)) with dump_entry.
    pose proof (scan_members_dumps ((k, v) :: d) [] fuel rest Hd (proj1 Hok) Hok) as He.
    remember (join_str ", " (map dump_entry ((k, v) :: d))) as t eqn:Edef in *.
    assert (∃ t', t = String "034" t') as [t' Et] by (rewrite Edef; destruct d; by eexists).
    cbn -[scan_members]. cbn -[scan_members] in He. rewrite Et in *. cbn -[scan_members] in He |- *. rewrite He; [done|done|]. cbn in Hf. lia.
Qed.

Lemma length_app_str s t : String.length (s +:+ t) = (String.length s + String.length t)%nat.
Proof. induction s as [|c s IH]; [done|]. cbn. by rewrite IH. Qed.

(** The text of a value is longer than the calls that reading it takes. *)
Lemma joined_length {A} (f : A → string) (g : A → nat) l :
  Forall (λ x, g x ≤ String.length (f x))%nat l → l ≠ [] →
  (S (foldr (λ x n, S (g x) + n) 0 l) ≤ 2 + String.length (join_str ", " (map f l)))%nat.
Proof.
  induction 1 as [|x l Hx Hl IH]; [done|]. intros _. destruct l as [|y l]; [cbn in *; lia|].
  change (join_str ", " (map f (x :: y :: l))) with (f x +:+ ", " +:+ join_str ", " (map f (y :: l))).
  rewrite !length_app_str. specialize (IH ltac:(done)). cbn [foldr String.length] in *. lia.
Qed.

Lemma cost_length v : json_ok v → (cost v ≤ String.length (json_dumps v))%nat.
Proof.
  induction v as [|b|n|r|s|l Hl|d Hd] using json_rect_nested; intros Hok; cbn [cost json_dumps].
  1-5: destruct (dumps_head _ Hok) as (c & t & E & _); cbn in E; rewrite ?E; cbn; lia.
  - destruct l as [|x l]; [cbn; lia|]. rewrite !length_app_str.
    assert (Forall (λ x, cost x ≤ String.length (json_dumps x))%nat (x :: l)) as Hall.
    { clear -Hl Hok. induction Hl as [|y l' Hy Hl IH]; [constructor|]. destruct Hok as [Hy' Hok]. constructor; [by apply Hy|by apply IH]. }
    pose proof (joined_length json_dumps cost (x :: l) Hall ltac:(done)). cbn [String.length] in *. lia.
  - destruct d as [|kv d]; [cbn; lia|]. rewrite !length_app_str.
    change (λ kv : string * json, quote (fst kv) +:+ ": " +:+ json_dumps (snd kv)) with dump_entry.
    assert (Forall (λ kv, cost (snd kv) ≤ String.length (dump_entry kv))%nat (kv :: d)) as Hall.
    { destruct Hok as [_ Hok]. clear -Hd Hok. induction Hd as [|y d' Hy Hd IH]; [constructor|]. destruct Hok as [Hy' Hok]. constructor; [|by apply IH].
      unfold dump_entry. rewrite !length_app_str. specialize (Hy Hy'). lia. }
    pose proof (joined_length dump_entry (λ kv, cost (snd kv)) (kv :: d) Hall ltac:(done)). cbn [String.length] in *. lia.
Qed.

Lemma loads_dumps v : json_ok v → json_loads (json_dumps v) = Ok v.
Proof.
  intros Hok. assert (json_dumps v +:+ "" = json_dumps v) as E by (clear; induction (json_dumps v) as [|c s IH]; [done|cbn; by rewrite IH]).
  pose proof (skip_ws_dumps v "" Hok) as Hs. pose proof (scan_dumps v Hok (S (String.length (json_dumps v))) "" eq_refl) as Hr.
  rewrite E in Hs, Hr. unfold json_loads. rewrite Hs, Hr; [done|]. pose proof (cost_length v Hok). lia.
Qed.
