(* ===== verification/RelationTypes.v ===== *)
(** Relation tuples: rbac/management/inventory_replicator/types.py,
    rbac/migration_tool/utils.py and the log key of
    rbac/management/inventory_replicator/logging_replicator.py.

    A tuple names a resource, a relation and a subject.  The dataclasses of the
    source validate their fields when they are built; the constructors [mk_*]
    below do the same and raise what the source raises. *)

From S2P Require Import Prelude.
From S2P Require Import PyString.
From S2P Require Import Config.

(* ------------------------------------------------------------------ *)
(** * Field validation *)

(** [_validate_required_str]: None and non-strings are TypeErrors, the empty
    string a ValueError. *)
Definition validate_required_str (value : json) : result string :=
  match value with
  | JStr s => if str_truth s then Ok s else Raise ValueError
  | _ => Raise TypeError
  end.

(** [_validate_optional_str] *)
Definition validate_optional_str (value : json) : result (option string) :=
  match value with
  | JNull => Ok None
  | JStr s => if str_truth s then Ok (Some s) else Raise ValueError
  | _ => Raise TypeError
  end.

(** [_validate_pattern], the pattern as the predicate of its full matches. *)
Definition validate_pattern (pattern : string → bool) (value : string) : result unit :=
  raise_if (negb (pattern value)) ValueError.

(** [_type_regex]: one or more of A-Z, a-z, 0-9 and underscore. *)
Definition type_regex (s : string) : bool :=
  str_truth s && str_forallb (λ c, is_alnum_ascii c || Ascii.eqb c "_") s.

Definition id_char (c : ascii) : bool :=
  is_alnum_ascii c || existsb (Ascii.eqb c) ["/"; "_"; "|"; "-"; "="; "+"]%char.

(** [_id_regex]: one or more id characters, or exactly an asterisk. *)
Definition id_regex (s : string) : bool :=
  (str_truth s && str_forallb id_char s) || String.eqb s "*".

(* ------------------------------------------------------------------ *)
(** * The dataclasses *)

Record ObjectType := mkObjectType { namespace : string; name : string }.
Record ObjectReference := mkObjectReference { otype : ObjectType; oid : string }.
Record SubjectReference := mkSubjectReference { subj : ObjectReference; srelation : option string }.
Record RelationTuple := mkRelationTuple {
  resource : ObjectReference; relation : string; subject : SubjectReference }.

#[export] Instance ObjectType_eq_dec : EqDecision ObjectType.
Proof. solve_decision. Defined.
#[export] Instance ObjectReference_eq_dec : EqDecision ObjectReference.
Proof. solve_decision. Defined.
#[export] Instance SubjectReference_eq_dec : EqDecision SubjectReference.
Proof. solve_decision. Defined.
#[export] Instance RelationTuple_eq_dec : EqDecision RelationTuple.
Proof. solve_decision. Defined.

#[export] Instance ObjectType_countable : Countable ObjectType :=
  inj_countable' (λ t, (namespace t, name t)) (λ p, mkObjectType p.1 p.2)
    (λ t, match t with mkObjectType _ _ => eq_refl end).
#[export] Instance ObjectReference_countable : Countable ObjectReference :=
  inj_countable' (λ t, (otype t, oid t)) (λ p, mkObjectReference p.1 p.2)
    (λ t, match t with mkObjectReference _ _ => eq_refl end).
#[export] Instance SubjectReference_countable : Countable SubjectReference :=
  inj_countable' (λ t, (subj t, srelation t)) (λ p, mkSubjectReference p.1 p.2)
    (λ t, match t with mkSubjectReference _ _ => eq_refl end).
#[export] Instance RelationTuple_countable : Countable RelationTuple :=
  inj_countable' (λ t, (resource t, relation t, subject t))
    (λ p, mkRelationTuple p.1.1 p.1.2 p.2)
    (λ t, match t with mkRelationTuple _ _ _ => eq_refl end).

(** [ObjectType.__post_init__] *)
Definition mk_ObjectType (ns nm : json) : result ObjectType :=
  ns' ← validate_required_str ns;
  nm' ← validate_required_str nm;
  _ ← validate_pattern type_regex nm';
  mret (mkObjectType ns' nm').

(** [ObjectReference.__post_init__] *)
Definition mk_ObjectReference (ty : ObjectType) (id : json) : result ObjectReference :=
  id' ← validate_required_str id;
  _ ← validate_pattern id_regex id';
  mret (mkObjectReference ty id').

(** [SubjectReference.__post_init__] *)
Definition mk_SubjectReference (s : ObjectReference) (rel : json) : result SubjectReference :=
  rel' ← validate_optional_str rel;
  mret (mkSubjectReference s rel').

(** [RelationTuple.__post_init__] *)
Definition mk_RelationTuple (res : ObjectReference) (rel : json) (s : SubjectReference) :
    result RelationTuple :=
  rel' ← validate_required_str rel;
  _ ← raise_if (String.eqb (oid res) "*") ValueError;
  mret (mkRelationTuple res rel' s).

(** The invariant the constructors establish. *)
Definition valid_type (t : ObjectType) : bool :=
  str_truth (namespace t) && type_regex (name t).
Definition valid_ref (r : ObjectReference) : bool :=
  valid_type (otype r) && id_regex (oid r).
Definition valid_subject (s : SubjectReference) : bool :=
  valid_ref (subj s) && match srelation s with Some r => str_truth r | None => true end.
Definition valid_tuple (t : RelationTuple) : bool :=
  valid_ref (resource t) && negb (String.eqb (oid (resource t)) "*")
  && str_truth (relation t) && valid_subject (subject t).

(** [create_relationship] of migration_tool/utils.py.  The arguments are built
    left to right: the resource, the subject, then the tuple. *)
Definition create_relationship (resource_name : string * string) (resource_id : string)
    (subject_name : string * string) (subject_id : string) (rel : string)
    (subject_relation : option string) : result RelationTuple :=
  rt ← mk_ObjectType (JStr resource_name.1) (JStr resource_name.2);
  r ← mk_ObjectReference rt (JStr resource_id);
  st ← mk_ObjectType (JStr subject_name.1) (JStr subject_name.2);
  so ← mk_ObjectReference st (JStr subject_id);
  s ← mk_SubjectReference so (match subject_relation with Some x => JStr x | None => JNull end);
  mk_RelationTuple r (JStr rel) s.

(** The tuple [create_relationship] builds when its arguments are valid. *)
Definition rel_tuple (resource_name : string * string) (resource_id : string)
    (subject_name : string * string) (subject_id : string) (rel : string)
    (subject_relation : option string) : RelationTuple :=
  mkRelationTuple
    (mkObjectReference (mkObjectType resource_name.1 resource_name.2) resource_id) rel
    (mkSubjectReference
       (mkObjectReference (mkObjectType subject_name.1 subject_name.2) subject_id)
       subject_relation).

(* ------------------------------------------------------------------ *)
(** * Messages *)

(** A protobuf [Relationship] message.  Its string fields default to the empty
    string; the subject's relation has explicit presence. *)
Record Message := mkMessage {
  m_res_ns : string; m_res_name : string; m_res_id : string;
  m_relation : string;
  m_sub_ns : string; m_sub_name : string; m_sub_id : string;
  m_sub_relation : option string }.

#[export] Instance Message_eq_dec : EqDecision Message.
Proof. solve_decision. Defined.

(** Reading an unset string field of a message. *)
Definition proto_str (o : option string) : string := match o with Some s => s | None => "" end.

Definition as_optional (value : json) : json :=
  match value with JStr "" => JNull | v => v end.

(** [RelationTuple.from_message] *)
Definition from_message (m : Message) : result RelationTuple :=
  rt ← mk_ObjectType (JStr (m_res_ns m)) (JStr (m_res_name m));
  r ← mk_ObjectReference rt (JStr (m_res_id m));
  st ← mk_ObjectType (JStr (m_sub_ns m)) (JStr (m_sub_name m));
  so ← mk_ObjectReference st (JStr (m_sub_id m));
  s ← mk_SubjectReference so (as_optional (JStr (proto_str (m_sub_relation m))));
  mk_RelationTuple r (JStr (m_relation m)) s.

(** [RelationTuple.as_message] *)
Definition as_message (t : RelationTuple) : Message :=
  {| m_res_ns := namespace (otype (resource t)); m_res_name := name (otype (resource t));
     m_res_id := oid (resource t); m_relation := relation t;
     m_sub_ns := namespace (otype (subj (subject t)));
     m_sub_name := name (otype (subj (subject t)));
     m_sub_id := oid (subj (subject t)); m_sub_relation := srelation (subject t) |}.

(** [RelationTuple.to_dict] *)
Definition to_dict (t : RelationTuple) : json :=
  let ref r := [("type", JDict [("namespace", JStr (namespace (otype r)));
                                ("name", JStr (name (otype r)))]);
                ("id", JStr (oid r))] in
  let subject_dict := [("subject", JDict (ref (subj (subject t))))] in
  let subject_dict' := match srelation (subject t) with
                       | Some r => subject_dict ++ [("relation", JStr r)]
                       | None => subject_dict
                       end in
  JDict [("resource", JDict (ref (resource t))); ("relation", JStr (relation t));
         ("subject", JDict subject_dict')].

(** [RelationTuple.from_message_dict] *)
Definition from_message_dict (d : json) : result RelationTuple :=
  res ← jindex d "resource";
  rty ← jindex res "type";
  rns ← jindex rty "namespace";
  rnm ← jindex rty "name";
  rt ← mk_ObjectType rns rnm;
  rid ← jindex res "id";
  r ← mk_ObjectReference rt rid;
  rel ← jindex d "relation";
  sb ← jindex d "subject";
  ss ← jindex sb "subject";
  sty ← jindex ss "type";
  sns ← jindex sty "namespace";
  snm ← jindex sty "name";
  st ← mk_ObjectType sns snm;
  sid ← jindex ss "id";
  so ← mk_ObjectReference st sid;
  srel ← jget sb "relation" (JStr "");
  s ← mk_SubjectReference so (as_optional srel);
  mk_RelationTuple r rel s.

(** [RelationTuple.validate_message] *)
Definition validate_message (m : Message) : result unit :=
  parsed ← from_message m;
  raise_if (negb (bool_decide (as_message parsed = m))) AssertionError.

(** [RelationTuple.stringify] *)
Definition stringify (t : RelationTuple) : string :=
  let part r := namespace (otype r) +:+ "/" +:+ name (otype r) +:+ ":" +:+ oid r in
  let subject_part := match srelation (subject t) with
                      | Some r => if str_truth r then part (subj (subject t)) +:+ "#" +:+ r
                                  else part (subj (subject t))
                      | None => part (subj (subject t))
                      end in
  part (resource t) +:+ "#" +:+ relation t +:+ "@" +:+ subject_part.

(** [stringify_spicedb_relationship]: the key the duplicate checks use. *)
Definition stringify_spicedb_relationship (t : RelationTuple) : string :=
  name (otype (resource t)) +:+ ":" +:+ oid (resource t) +:+ "#" +:+ relation t +:+ "@"
  +:+ name (otype (subj (subject t))) +:+ ":" +:+ oid (subj (subject t)).

(* ------------------------------------------------------------------ *)
(** * Lemmas *)

Lemma validate_required_str_spec v s :
  validate_required_str v = Ok s ↔ v = JStr s ∧ str_truth s = true.
Proof.
  destruct v as [| | | |s'| |]; cbn; try by split; [discriminate | intros [[=] _]].
  destruct (str_truth s') eqn:Hs; split; try done.
  - by intros [= <-].
  - by intros [[= ->] _].
  - intros [[= ->] H]. congruence.
Qed.

Lemma validate_optional_str_spec v o :
  validate_optional_str v = Ok o ↔
  match o with None => v = JNull | Some s => v = JStr s ∧ str_truth s = true end.
Proof.
  destruct v as [| | | |s| |]; cbn; destruct o as [r|];
    try by split; [discriminate | first [intros [[=] _] | intros [=]]].
  - done.
  - destruct (str_truth s) eqn:Hs; split; try done.
    + by intros [= <-].
    + by intros [[= ->] _].
    + intros [[= ->] H]. congruence.
  - destruct (str_truth s); split; discriminate.
Qed.

Lemma validate_pattern_spec p s u : validate_pattern p s = Ok u ↔ p s = true.
Proof. unfold validate_pattern. rewrite raise_if_Ok. destruct (p s); naive_solver. Qed.

Lemma mk_ObjectType_spec ns nm t :
  mk_ObjectType ns nm = Ok t ↔
  ns = JStr (namespace t) ∧ nm = JStr (name t) ∧ valid_type t = true.
Proof.
  unfold mk_ObjectType, valid_type, type_regex. split.
  - intros H. inv_ok.
    repeat match goal with
    | H : validate_required_str _ = Ok _ |- _ => apply validate_required_str_spec in H as [-> ?]
    | H : validate_pattern _ _ = Ok _ |- _ => apply validate_pattern_spec in H
    end. cbn. unfold type_regex in *.
    repeat split; try done. by rewrite andb_true_iff.
  - destruct t as [n1 n2]; cbn. intros (-> & -> & [H1 [H2 H3]%andb_true_iff]%andb_true_iff).
    cbn. rewrite H1, H2. cbn. unfold validate_pattern, type_regex. by rewrite H2, H3.
Qed.

Lemma mk_ObjectReference_spec t id r :
  mk_ObjectReference t id = Ok r ↔ otype r = t ∧ id = JStr (oid r) ∧ id_regex (oid r) = true.
Proof.
  unfold mk_ObjectReference. split.
  - intros H. inv_ok.
    repeat match goal with
    | H : validate_required_str _ = Ok _ |- _ => apply validate_required_str_spec in H as [-> ?]
    | H : validate_pattern _ _ = Ok _ |- _ => apply validate_pattern_spec in H
    end. done.
  - destruct r as [t' i]; cbn. intros (-> & -> & Hi). cbn.
    assert (str_truth i = true) as ->.
    { unfold id_regex in Hi. destruct i; [done|done]. }
    cbn. unfold validate_pattern. by rewrite Hi.
Qed.

Lemma mk_SubjectReference_spec o rel s :
  mk_SubjectReference o rel = Ok s ↔
  subj s = o ∧ rel = (match srelation s with Some x => JStr x | None => JNull end)
  ∧ match srelation s with Some r => str_truth r | None => true end = true.
Proof.
  unfold mk_SubjectReference. split.
  - intros H. inv_ok.
    match goal with H : validate_optional_str _ = Ok _ |- _ =>
      apply validate_optional_str_spec in H end.
    cbn. case_match; naive_solver.
  - destruct s as [o' [r|]]; cbn; intros (-> & -> & Hr); cbn; [by rewrite Hr | done].
Qed.

Lemma mk_RelationTuple_spec r rel s t :
  mk_RelationTuple r rel s = Ok t ↔
  resource t = r ∧ rel = JStr (relation t) ∧ subject t = s
  ∧ str_truth (relation t) = true ∧ String.eqb (oid r) "*" = false.
Proof.
  unfold mk_RelationTuple. split.
  - intros H. inv_ok.
    match goal with H : validate_required_str _ = Ok _ |- _ =>
      apply validate_required_str_spec in H as [-> ?] end. done.
  - destruct t as [r' rl s']; cbn. intros (-> & -> & -> & Hr & Hs). cbn [validate_required_str].
    by rewrite Hr; cbn; rewrite Hs.
Qed.

Lemma mk_ObjectType_ok ns nm :
  valid_type (mkObjectType ns nm) = true →
  mk_ObjectType (JStr ns) (JStr nm) = Ok (mkObjectType ns nm).
Proof. intros H. by apply mk_ObjectType_spec. Qed.

Lemma mk_ObjectReference_ok t id :
  id_regex id = true → mk_ObjectReference t (JStr id) = Ok (mkObjectReference t id).
Proof. intros H. by apply mk_ObjectReference_spec. Qed.

Lemma mk_SubjectReference_ok o sr :
  match sr with Some r => str_truth r | None => true end = true →
  mk_SubjectReference o (match sr with Some x => JStr x | None => JNull end)
  = Ok (mkSubjectReference o sr).
Proof. intros H. by apply mk_SubjectReference_spec. Qed.

Lemma valid_tuple_iff t :
  valid_tuple t = true ↔
  (valid_type (otype (resource t)) = true ∧ id_regex (oid (resource t)) = true)
  ∧ String.eqb (oid (resource t)) "*" = false ∧ str_truth (relation t) = true
  ∧ (valid_type (otype (subj (subject t))) = true ∧ id_regex (oid (subj (subject t))) = true)
  ∧ match srelation (subject t) with Some r => str_truth r | None => true end = true.
Proof.
  unfold valid_tuple, valid_subject, valid_ref. rewrite !andb_true_iff, negb_true_iff. tauto.
Qed.

Arguments mk_ObjectType : simpl never.
Arguments mk_ObjectReference : simpl never.
Arguments mk_SubjectReference : simpl never.
Arguments mk_RelationTuple : simpl never.

Ltac inv_mk :=
  repeat match goal with
  | H : mk_ObjectType _ _ = Ok _ |- _ => apply mk_ObjectType_spec in H as (? & ? & ?)
  | H : mk_ObjectReference _ _ = Ok _ |- _ => apply mk_ObjectReference_spec in H as (? & ? & ?)
  | H : mk_SubjectReference _ _ = Ok _ |- _ => apply mk_SubjectReference_spec in H as (? & ? & ?)
  | H : mk_RelationTuple _ _ _ = Ok _ |- _ =>
      apply mk_RelationTuple_spec in H as (? & ? & ? & ? & ?)
  end.

(** What [create_relationship] returns is [rel_tuple] of the same arguments,
    and it returns exactly on valid ones. *)
Lemma create_relationship_spec rn ri sn si rel sr t :
  create_relationship rn ri sn si rel sr = Ok t ↔
  t = rel_tuple rn ri sn si rel sr ∧ valid_tuple t = true.
Proof.
  unfold create_relationship. split.
  - intros H. inv_ok. inv_mk. destruct rn, sn, t as [[[] ?] ? [[[] ?] ?]]; cbn in *.
    simplify_eq/=. split.
    + unfold rel_tuple; cbn. repeat f_equal. destruct sr; cbn in *; repeat case_match; naive_solver.
    + apply valid_tuple_iff; cbn. tauto.
  - intros [-> Hv]. apply valid_tuple_iff in Hv as ([H1 H2] & H3 & H4 & [H5 H6] & H7).
    unfold rel_tuple in *; cbn in *.
    rewrite (mk_ObjectType_ok _ _ H1); cbn. rewrite (mk_ObjectReference_ok _ _ H2); cbn.
    rewrite (mk_ObjectType_ok _ _ H5); cbn. rewrite (mk_ObjectReference_ok _ _ H6); cbn.
    rewrite (mk_SubjectReference_ok _ _ H7); cbn. by apply mk_RelationTuple_spec.
Qed.

(** On strings, the only failure is a ValueError. *)
Lemma create_relationship_Raise rn ri sn si rel sr e :
  create_relationship rn ri sn si rel sr = Raise e → e = ValueError.
Proof.
  assert (Hreq : ∀ s e, validate_required_str (JStr s) = Raise e → e = ValueError).
  { intros s e'. cbn. case_match; congruence. }
  assert (Hif : ∀ b e, raise_if b ValueError = Raise e → e = ValueError).
  { intros b e' [_ ->]%raise_if_Raise. done. }
  revert e. unfold create_relationship, mk_ObjectType, mk_ObjectReference, mk_SubjectReference,
    mk_RelationTuple, validate_pattern.
  repeat (first [apply Hreq | apply Hif | apply bind_Raise; [|intros ?] | done]).
  intros e. destruct sr as [r|]; cbn; [case_match|]; congruence.
Qed.

Lemma rel_tuple_of t :
  t = rel_tuple (namespace (otype (resource t)), name (otype (resource t))) (oid (resource t))
        (namespace (otype (subj (subject t))), name (otype (subj (subject t))))
        (oid (subj (subject t))) (relation t) (srelation (subject t)).
Proof. by destruct t as [[[] ?] ? [[[] ?] ?]]. Qed.

Lemma valid_srelation t r : valid_tuple t = true → srelation (subject t) = Some r → r ≠ "".
Proof.
  intros (_ & _ & _ & _ & H)%valid_tuple_iff Hr. rewrite Hr in H. by intros ->.
Qed.

Lemma type_regex_no_char c s :
  type_regex s = true → is_alnum_ascii c || Ascii.eqb c "_" = false → has_char c s = false.
Proof.
  intros [_ Hs]%andb_true_iff Hc. eapply str_forallb_has_char; [exact Hs|exact Hc].
Qed.

Lemma id_regex_no_char c s :
  id_regex s = true → id_char c = false → Ascii.eqb c "*" = false → has_char c s = false.
Proof.
  intros [[_ Hs]%andb_true_iff| ->%String.eqb_eq]%orb_true_iff Hc Hst.
  - eapply str_forallb_has_char; [exact Hs|exact Hc].
  - cbn. by rewrite Hst.
Qed.

Lemma valid_type_regex t : valid_type t = true → type_regex (name t) = true.
Proof. by intros [_ H]%andb_true_iff. Qed.

(** The part of a key from the resource's type name on determines the tuple's
    resource, relation and subject names. *)
Lemma spicedb_key_parts (n1 n1' i1 i1' r r' n2 n2' i2 i2' : string) :
  type_regex n1 = true → type_regex n1' = true → id_regex i1 = true → id_regex i1' = true →
  has_char "@" r = false → has_char "@" r' = false →
  type_regex n2 = true → type_regex n2' = true →
  n1 +:+ ":" +:+ i1 +:+ "#" +:+ r +:+ "@" +:+ n2 +:+ ":" +:+ i2 =
  n1' +:+ ":" +:+ i1' +:+ "#" +:+ r' +:+ "@" +:+ n2' +:+ ":" +:+ i2' →
  n1 = n1' ∧ i1 = i1' ∧ r = r' ∧ n2 = n2' ∧ i2 = i2'.
Proof.
  intros Hn1 Hn1' Hi1 Hi1' Hr Hr' Hn2 Hn2' Heq.
  apply (app_sep_inj ":" n1 n1') in Heq as [-> Heq]; [|by apply type_regex_no_char..].
  apply (app_sep_inj "#" i1 i1') in Heq as [-> Heq]; [|by apply id_regex_no_char..].
  apply (app_sep_inj "@" r r') in Heq as [-> Heq]; [|done..].
  apply (app_sep_inj ":" n2 n2') in Heq as [-> Heq]; [|by apply type_regex_no_char..].
  done.
Qed.

Lemma from_message_as_message t :
  valid_tuple t = true → from_message (as_message t) = Ok t.
Proof.
  intros Hv. pose proof Hv as Hv'. rewrite (rel_tuple_of t) in Hv' at 1.
  pose proof (proj2 (create_relationship_spec _ _ _ _ _ _ _) (conj eq_refl Hv')) as Hc.
  rewrite <- (rel_tuple_of t) in Hc. unfold create_relationship in Hc. cbn in Hc.
  unfold from_message; cbn.
  destruct (srelation (subject t)) as [r|] eqn:Hr; cbn; [|done].
  pose proof (valid_srelation t r Hv Hr). by destruct r.
Qed.

Lemma validate_message_as_message t :
  valid_tuple t = true → validate_message (as_message t) = Ok tt.
Proof.
  intros Hv. unfold validate_message. rewrite (from_message_as_message t Hv); cbn.
  by rewrite bool_decide_true.
Qed.

Lemma from_message_dict_to_dict t :
  valid_tuple t = true → from_message_dict (to_dict t) = Ok t.
Proof.
  intros Hv. pose proof (from_message_as_message t Hv) as Hm.
  unfold from_message, as_message in Hm; cbn in Hm.
  unfold from_message_dict, to_dict; cbn.
  destruct (srelation (subject t)) as [r|] eqn:Hr; cbn in *; done.
Qed.

Lemma spicedb_key_eq t1 t2 :
  valid_tuple t1 = true → valid_tuple t2 = true →
  has_char "@" (relation t1) = false → has_char "@" (relation t2) = false →
  namespace (otype (resource t1)) = namespace (otype (resource t2)) →
  namespace (otype (subj (subject t1))) = namespace (otype (subj (subject t2))) →
  (name (otype (subj (subject t1))) = name (otype (subj (subject t2))) →
   srelation (subject t1) = srelation (subject t2)) →
  stringify_spicedb_relationship t1 = stringify_spicedb_relationship t2 → t1 = t2.
Proof.
  intros Hv1 Hv2 Hr1 Hr2 Hns Hsns Hsr Hkey.
  apply valid_tuple_iff in Hv1 as ([Ha%valid_type_regex Hb] & _ & _ & [Hc%valid_type_regex _] & _).
  apply valid_tuple_iff in Hv2 as ([Ha'%valid_type_regex Hb'] & _ & _ & [Hc'%valid_type_regex _] & _).
  apply spicedb_key_parts in Hkey as (? & ? & ? & ? & ?); [|done..].
  destruct t1 as [[[] ?] ? [[[] ?] ?]], t2 as [[[] ?] ? [[[] ?] ?]]; cbn in *; subst.
  by rewrite Hsr.
Qed.

(** The tuples the services write: both ends in the namespace [rbac], a relation
    without [@], and the subject relation [member] on groups and only there. *)
Definition rbac_tuple (t : RelationTuple) : bool :=
  valid_tuple t && negb (has_char "@" (relation t))
  && String.eqb (namespace (otype (resource t))) "rbac"
  && String.eqb (namespace (otype (subj (subject t)))) "rbac"
  && bool_decide (srelation (subject t)
       = if String.eqb (name (otype (subj (subject t)))) "group" then Some "member" else None).

Lemma rbac_tuple_key_inj t1 t2 :
  rbac_tuple t1 = true → rbac_tuple t2 = true →
  stringify_spicedb_relationship t1 = stringify_spicedb_relationship t2 → t1 = t2.
Proof.
  unfold rbac_tuple. rewrite !andb_true_iff, !negb_true_iff, !String.eqb_eq, !bool_decide_eq_true.
  intros ((((? & ?) & ?) & ?) & Hs1) ((((? & ?) & ?) & ?) & Hs2).
  intros Hk. apply spicedb_key_eq; try congruence.
  intros Hn. by rewrite Hs1, Hs2, Hn.
Qed.

Definition member_of_group (g u : string) : RelationTuple :=
  rel_tuple ("rbac", "group") g ("rbac", "principal") u "member" None.

Definition group_subject (b g : string) (sr : option string) : RelationTuple :=
  rel_tuple ("rbac", "role_binding") b ("rbac", "group") g "subject" sr.

(* ------------------------------------------------------------------ *)
(** * Properties *)

Section properties.
Implicit Types t : RelationTuple.

(** Every tuple a constructor of the module returns satisfies the type
    invariant, and the constructors accept exactly the arguments that do:
    [create_relationship] returns the tuple of its arguments when that tuple is
    valid, and raises otherwise. *)
Theorem create_relationship_type_invariant rn ri sn si rel sr :
  (valid_tuple (rel_tuple rn ri sn si rel sr) = true
   ∧ create_relationship rn ri sn si rel sr = Ok (rel_tuple rn ri sn si rel sr))
  ∨ (valid_tuple (rel_tuple rn ri sn si rel sr) = false
     ∧ ∃ e, create_relationship rn ri sn si rel sr = Raise e ∧ (e = ValueError)).
Proof.
  destruct (valid_tuple (rel_tuple rn ri sn si rel sr)) eqn:Hv.
  - left. split; [done|]. by apply create_relationship_spec.
  - right. split; [done|].
    destruct (create_relationship rn ri sn si rel sr) as [t|e] eqn:Hc.
    + apply create_relationship_spec in Hc as [-> Hc]. congruence.
    + exists e. split; [done|]. revert Hc.
      apply create_relationship_Raise.
Qed.

(** Messages and JSON payloads carry tuples without loss: a valid tuple
    survives the trip through its protobuf message and through its dictionary,
    and its message passes [validate_message]. *)
Theorem relation_tuple_roundtrip t (Hv : valid_tuple t = true) :
  from_message (as_message t) = Ok t
  ∧ from_message_dict (to_dict t) = Ok t
  ∧ validate_message (as_message t) = Ok tt.
Proof.
  split_and!; [by apply from_message_as_message | by apply from_message_dict_to_dict
              | by apply validate_message_as_message].
Qed.

(** A message is accepted by [validate_message] exactly when it is the
    message of a valid tuple. *)
Theorem validate_message_iff m :
  validate_message m = Ok tt ↔ ∃ t, valid_tuple t = true ∧ m = as_message t.
Proof.
  split.
  - unfold validate_message. intros H. inv_ok. exists x.
    rename H0 into Hm. rewrite negb_false_iff, bool_decide_eq_true in H. split; [|done].
    unfold from_message in Hm. inv_ok. inv_mk. simplify_eq.
    apply valid_tuple_iff. simplify_eq/=. naive_solver.
  - intros (t & Hv & ->). by apply validate_message_as_message.
Qed.

(** The key of the duplicate checks separates tuples: valid tuples whose
    types live in the same namespaces, whose relations contain no [@] and whose
    subjects carry the same relation have the same key only when equal. *)
Theorem spicedb_key_injective t1 t2
    (Hv1 : valid_tuple t1 = true) (Hv2 : valid_tuple t2 = true)
    (Hr1 : has_char "@" (relation t1) = false) (Hr2 : has_char "@" (relation t2) = false)
    (Hns : namespace (otype (resource t1)) = namespace (otype (resource t2)))
    (Hsns : namespace (otype (subj (subject t1))) = namespace (otype (subj (subject t2))))
    (Hsr : srelation (subject t1) = srelation (subject t2))
    (Hkey : stringify_spicedb_relationship t1 = stringify_spicedb_relationship t2) :
  t1 = t2.
Proof. by apply spicedb_key_eq. Qed.

(** Without the side conditions the key does not separate tuples: a binding
    to a group and a binding to the members of that group are different tuples
    with one key, because the key leaves the subject's relation out. *)
Theorem spicedb_key_collision :
  valid_tuple (group_subject "b1" "g1" (Some "member")) = true
  ∧ valid_tuple (group_subject "b1" "g1" None) = true
  ∧ group_subject "b1" "g1" (Some "member") ≠ group_subject "b1" "g1" None
  ∧ stringify_spicedb_relationship (group_subject "b1" "g1" (Some "member"))
    = stringify_spicedb_relationship (group_subject "b1" "g1" None).
Proof. by repeat split. Qed.

Lemma relation_tuple_roundtrip_witness :
  from_message (as_message (member_of_group "g1" "localhost/7"))
  = Ok (member_of_group "g1" "localhost/7").
Proof. apply (relation_tuple_roundtrip (member_of_group "g1" "localhost/7")). reflexivity. Defined.

Lemma spicedb_key_injective_witness :
  member_of_group "g1" "localhost/7" = member_of_group "g1" "localhost/7".
Proof. apply spicedb_key_injective; reflexivity. Defined.
End properties.
