(* ===== verification/TupleStore.v ===== *)
(** The in-memory tuple store: rbac/migration_tool/in_memory_tuples.py.

    A [TupleSet] of the source holds a filtered set of tuples and a reference to
    the full store it was filtered from; the store is mutable, so an operation
    that looks at the full store takes its current contents [full] as an
    argument.  Sets are iterated in the order [PySetOrder]. *)

From S2P Require Import Prelude.
From S2P Require Import PyString.
From S2P Require Import Config.
From S2P Require Import RelationTypes.

Abbreviation tuples := (gset RelationTuple).
Abbreviation RelationPredicate := (RelationTuple → bool).

(* ------------------------------------------------------------------ *)
(** * Predicates *)

Module Pred.

(** [all_of], [one_of] and [none_of]; a single predicate is returned as is. *)
Definition all_of (ps : list RelationPredicate) : RelationPredicate :=
  match ps with
  | [p] => p
  | _ => λ rel, forallb (λ p, p rel) ps
  end.

Definition one_of (ps : list RelationPredicate) : RelationPredicate :=
  match ps with
  | [p] => p
  | _ => λ rel, existsb (λ p, p rel) ps
  end.

Definition none_of (ps : list RelationPredicate) : RelationPredicate :=
  λ rel, negb (existsb (λ p, p rel) ps).

Definition resource_type (ns nm : string) : RelationPredicate := λ rel,
  String.eqb (namespace (otype (RelationTypes.resource rel))) ns
  && String.eqb (name (otype (RelationTypes.resource rel))) nm.

Definition resource_id (id : string) : RelationPredicate := λ rel,
  String.eqb (oid (RelationTypes.resource rel)) id.

Definition resource (ns nm id : string) : RelationPredicate :=
  all_of [resource_type ns nm; resource_id id].

Definition relation (r : string) : RelationPredicate := λ rel,
  String.eqb (RelationTypes.relation rel) r.

(** [subject_type]: asking for a relation and for any relation at once is an
    error. *)
Definition subject_type (ns nm : string) (r : option string) (any_relation : bool) :
    result RelationPredicate :=
  if any_relation && match r with Some _ => true | None => false end then Raise ValueError
  else Ok (λ rel,
    String.eqb (namespace (otype (subj (RelationTypes.subject rel)))) ns
    && String.eqb (name (otype (subj (RelationTypes.subject rel)))) nm
    && (any_relation || bool_decide (srelation (RelationTypes.subject rel) = r))).

Definition subject_id (id : string) : RelationPredicate := λ rel,
  String.eqb (oid (subj (RelationTypes.subject rel))) id.

(** [subject]: the default relation [None] is matched exactly. *)
Definition subject (ns nm id : string) (r : option string) : result RelationPredicate :=
  p ← subject_type ns nm r false;
  mret (all_of [p; subject_id id]).

End Pred.

(* ------------------------------------------------------------------ *)
(** * Filtered sets *)

Definition bfilter (p : RelationPredicate) (s : tuples) : tuples := filter (λ t, p t = true) s.

(** [find_tuples] and [count_tuples] *)
Definition find_tuples (p : RelationPredicate) (s : tuples) : tuples := bfilter p s.
Definition count_tuples (p : RelationPredicate) (s : tuples) : nat := size (find_tuples p s).

Section store.
Context `{PySetOrder}.

(** The property [only]. *)
Definition only (s : tuples) : result RelationTuple :=
  if negb (Nat.eqb (size s) 1) then Raise ValueError
  else match set_iter s with t :: _ => Ok t | [] => Raise ValueError end.

(** One step of the grouping loops: [grouped[key].add(rel)] on a defaultdict. *)
Definition group_add {K} `{Countable K} (key : K) (rel : RelationTuple)
    (grouped : gmap K tuples) : gmap K tuples :=
  <[key := {[rel]} ∪ default ∅ (grouped !! key)]> grouped.

(** [find_tuples_grouped] *)
Definition find_tuples_grouped {K} `{Countable K} (p : RelationPredicate)
    (group_by : RelationTuple → K) (s : tuples) : gmap K tuples :=
  foldl (λ g rel, if p rel then group_add (group_by rel) rel g else g) ∅ (set_iter s).

(** The inner loop of [find_group_with_tuples] for one predicate when each
    predicate is used once: the first match is taken out. *)
Fixpoint take_first (p : RelationPredicate) (l : list RelationTuple) :
    option (RelationTuple * list RelationTuple) :=
  match l with
  | [] => None
  | t :: l' => if p t then Some (t, l')
               else match take_first p l' with
                    | Some (u, l'') => Some (u, t :: l'')
                    | None => None
                    end
  end.

(** The same loop when a predicate may match many tuples: all matches are taken
    out. *)
Definition take_all (p : RelationPredicate) (l : list RelationTuple) :
    list RelationTuple * list RelationTuple :=
  (List.filter p l, List.filter (λ t, negb (p t)) l).

(** The loop over the predicates of one group: the tuples that matched, the
    tuples that remain, and whether every predicate found one. *)
Fixpoint match_predicates (match_once : bool) (ps : list RelationPredicate)
    (remaining : list RelationTuple) (matching : tuples) :
    tuples * list RelationTuple * bool :=
  match ps with
  | [] => (matching, remaining, true)
  | p :: ps' =>
      if match_once then
        match take_first p remaining with
        | Some (t, remaining') => match_predicates match_once ps' remaining' ({[t]} ∪ matching)
        | None => (matching, remaining, false)
        end
      else
        match take_all p remaining with
        | ([], _) => (matching, remaining, false)
        | (found, remaining') =>
            match_predicates match_once ps' remaining' (list_to_set found ∪ matching)
        end
  end.

(** What becomes of one group: [inl] the matching tuples, [inr] the group. *)
Definition classify_group (ps : list RelationPredicate) (require_full_match match_once : bool)
    (group : tuples) : tuples + tuples :=
  let '(matching, remaining, success) :=
    match_predicates match_once ps (set_iter group) ∅ in
  if (require_full_match && negb (Nat.eqb (length remaining) 0)) || negb success
  then inr group else inl matching.

(** [find_group_with_tuples] *)
Definition find_group_with_tuples {K} `{Countable K} (ps : list RelationPredicate)
    (group_by : RelationTuple → K) (group_filter : K → bool)
    (require_full_match match_once : bool) (s : tuples) : gmap K tuples * gmap K tuples :=
  let grouped := foldl (λ g rel, let key := group_by rel in
      if group_filter key then group_add key rel g else g) ∅ (set_iter s) in
  (omap (λ g, match classify_group ps require_full_match match_once g with
              | inl m => Some m | inr _ => None end) grouped,
   omap (λ g, match classify_group ps require_full_match match_once g with
              | inl _ => None | inr u => Some u end) grouped).

Definition resource_key (t : RelationTuple) : string * string * string :=
  (namespace (otype (resource t)), name (otype (resource t)), oid (resource t)).

(** [traverse_subject] *)
Definition traverse_subject (ps : list RelationPredicate) (require_full_match match_once : bool)
    (full s : tuples) : tuples :=
  foldl (λ matched t,
    let o := subj (subject t) in
    let traversed := find_tuples (Pred.resource (namespace (otype o)) (name (otype o)) (oid o)) full in
    let '(matching, _) :=
      find_group_with_tuples ps resource_key (λ _, true) require_full_match match_once traversed in
    map_fold (λ _ g acc, g ∪ acc) matched matching) ∅ (set_iter s).

(** [resource_is_subject_of] *)
Definition resource_is_subject_of (tuple_matching : RelationPredicate) (s : tuples)
    (rel : RelationTuple) : result bool :=
  let o := resource rel in
  sub ← Pred.subject (namespace (otype o)) (name (otype o)) (oid o) None;
  mret (Nat.ltb 0 (count_tuples (Pred.all_of [tuple_matching; sub]) s)).

(** [subject_is_resource_of] *)
Definition subject_is_resource_of (ps : list RelationPredicate) (only_matched : bool)
    (s : tuples) (rel : RelationTuple) : bool :=
  let o := subj (subject rel) in
  let res := Pred.resource (namespace (otype o)) (name (otype o)) (oid o) in
  forallb (λ p, negb (Nat.eqb (count_tuples (Pred.all_of [p; res]) s) 0)) ps
  && negb (only_matched && Nat.ltb 0 (count_tuples (Pred.all_of [Pred.none_of ps; res]) s)).

(* ------------------------------------------------------------------ *)
(** * The store *)

(** [add] and [remove] *)
Definition store_add (t : RelationTuple) (s : tuples) : tuples := {[t]} ∪ s.
Definition store_remove (t : RelationTuple) (s : tuples) : tuples := s ∖ {[t]}.

(** The duplicate check at the head of [write]. *)
Fixpoint check_batch (seen_in_batch : tuples) (add : list RelationTuple) : result unit :=
  match add with
  | [] => Ok tt
  | key :: add' => if decide (key ∈ seen_in_batch) then Raise ValueError
                   else check_batch ({[key]} ∪ seen_in_batch) add'
  end.

(** [write]: the removals first, then the additions. *)
Definition write (add remove : list RelationTuple) (s : tuples) : result tuples :=
  _ ← check_batch ∅ add;
  let removed := foldl (λ s t, store_remove t s) s remove in
  mret (foldl (λ s t, store_add t s) removed add).

(** [clear] *)
Definition store_clear (s : tuples) : tuples := ∅.
End store.

(* ------------------------------------------------------------------ *)
(** * Lemmas *)

Lemma elem_of_bfilter p s t : t ∈ bfilter p s ↔ p t = true ∧ t ∈ s.
Proof. unfold bfilter. by rewrite elem_of_filter. Qed.

Lemma foldl_store_remove l s : foldl (λ s t, store_remove t s) s l = s ∖ list_to_set l.
Proof.
  revert s. induction l as [|t l IH]; cbn; intros s; [set_solver|].
  rewrite IH. unfold store_remove. set_solver.
Qed.

Lemma foldl_store_add l s : foldl (λ s t, store_add t s) s l = list_to_set l ∪ s.
Proof.
  revert s. induction l as [|t l IH]; cbn; intros s; [set_solver|].
  rewrite IH. unfold store_add. set_solver.
Qed.

Lemma check_batch_spec seen l :
  check_batch seen l =
  if decide (NoDup l ∧ Forall (λ t, t ∉ seen) l) then Ok tt else Raise ValueError.
Proof.
  revert seen. induction l as [|t l IH]; cbn; intros seen.
  - rewrite decide_True; [done|]. split; constructor.
  - destruct (decide (t ∈ seen)) as [Hin|Hin].
    + rewrite decide_False; [done|]. rewrite Forall_cons. tauto.
    + rewrite IH. apply decide_ext. rewrite NoDup_cons, Forall_cons, !Forall_forall.
      set_solver.
Qed.

Lemma write_eq add remove s :
  write add remove s =
  if decide (NoDup add) then Ok (list_to_set add ∪ (s ∖ list_to_set remove))
  else Raise ValueError.
Proof.
  unfold write. rewrite check_batch_spec, foldl_store_remove, foldl_store_add.
  destruct (decide (NoDup add)) as [Hn|Hn].
  - rewrite decide_True; [done|]. split; [done|]. apply Forall_forall. set_solver.
  - rewrite decide_False; [done|]. by intros [? _].
Qed.

Lemma take_first_spec p l t l' :
  take_first p l = Some (t, l') → p t = true ∧ l ≡ₚ t :: l'.
Proof.
  revert t l'. induction l as [|u l IH]; cbn; intros t l'; [done|].
  destruct (p u) eqn:Hu.
  - intros [= <- <-]. done.
  - destruct (take_first p l) as [[v l2]|]; [|done]. intros [= <- <-].
    destruct (IH v l2 eq_refl) as [Hv Hl]. split; [done|]. rewrite Hl. by constructor.
Qed.

Lemma take_first_None p l : take_first p l = None → ∀ t, t ∈ l → p t = false.
Proof.
  induction l as [|u l IH]; cbn; intros Hl t Ht; [by apply not_elem_of_nil in Ht|].
  destruct (p u) eqn:Hu; [done|]. destruct (take_first p l) as [[]|]; [done|].
  apply elem_of_cons in Ht as [->|Ht]; auto.
Qed.

(** A successful run that uses each predicate once assigns a tuple of its own to
    every predicate. *)
Lemma match_once_sound ps remaining matching matching' remaining' :
  match_predicates true ps remaining matching = (matching', remaining', true) →
  ∃ ts, Forall2 (λ p t, p t = true) ps ts ∧ remaining ≡ₚ ts ++ remaining'
        ∧ matching' = list_to_set ts ∪ matching.
Proof.
  revert remaining matching. induction ps as [|p ps IH]; cbn; intros remaining matching.
  - intros [= <- <-]. exists []. cbn. split; [constructor|]. split; [done | set_solver].
  - destruct (take_first p remaining) as [[t rem]|] eqn:Ht; [|done].
    apply take_first_spec in Ht as [Hp Hperm].
    intros (ts & Hts & Hrem & ->)%IH. exists (t :: ts). split; [by constructor|]. split.
    + rewrite Hperm. cbn. by rewrite Hrem.
    + cbn. set_solver.
Qed.

Lemma list_filter_elem (p : RelationPredicate) l t : t ∈ List.filter p l ↔ t ∈ l ∧ p t = true.
Proof. rewrite !list_elem_of_In. apply filter_In. Qed.

(** A successful run that lets predicates match many tuples collects the tuples
    some predicate accepts and leaves the others. *)
Lemma match_many_sound ps remaining matching matching' remaining' :
  match_predicates false ps remaining matching = (matching', remaining', true) →
  (∀ t, t ∈ matching' ↔ t ∈ matching ∨ (t ∈ remaining ∧ existsb (λ p, p t) ps = true))
  ∧ (∀ t, t ∈ remaining' ↔ t ∈ remaining ∧ existsb (λ p, p t) ps = false).
Proof.
  revert remaining matching. induction ps as [|p ps IH]; cbn; intros remaining matching.
  - intros [= <- <-]. naive_solver.
  - destruct (List.filter p remaining) as [|u found] eqn:Hf; [done|].
    intros H. apply IH in H as [Hm Hr]. rewrite <- Hf in Hm.
    split; intros t.
    + rewrite Hm, elem_of_union, elem_of_list_to_set, !list_filter_elem.
      destruct (p t); cbn; naive_solver.
    + rewrite Hr, list_filter_elem. destruct (p t); cbn; naive_solver.
Qed.

Section grouping.
Context `{PySetOrder} {K : Type} `{Countable K}.
Implicit Types (f : RelationTuple → K) (q : RelationTuple → bool).

(** The loops that group tuples: the group of [k] is every tuple that passes the
    filter and has key [k], and only non-empty groups are present. *)
Lemma foldl_group f q l (g0 : gmap K tuples) k :
  foldl (λ g rel, if q rel then group_add (f rel) rel g else g) g0 l !! k =
  let new := list_to_set (List.filter (λ t, q t && bool_decide (f t = k)) l) in
  if decide (new = ∅) then g0 !! k else Some (new ∪ default ∅ (g0 !! k)).
Proof.
  revert g0. induction l as [|t l IH]; cbn; intros g0.
  - by rewrite decide_True.
  - rewrite IH. unfold group_add. destruct (q t) eqn:Hq; cbn; [|done].
    destruct (decide (f t = k)) as [<-|Hk].
    + rewrite bool_decide_true by done. rewrite lookup_insert_eq. cbn.
      rewrite (decide_False (P := {[t]} ∪ _ = ∅)) by set_solver.
      case_decide as He; f_equal; [rewrite He|]; set_solver.
    + rewrite bool_decide_false by done. by rewrite lookup_insert_ne.
Qed.

(** The group of [k] in [s]. *)
Definition group_of f q (s : tuples) (k : K) : tuples :=
  bfilter (λ t, q t && bool_decide (f t = k)) s.

Lemma grouped_lookup f q s k :
  foldl (λ g rel, if q rel then group_add (f rel) rel g else g) ∅ (set_iter s) !! k =
  if decide (group_of f q s k = ∅) then None else Some (group_of f q s k).
Proof.
  rewrite foldl_group. cbn zeta.
  assert (list_to_set (List.filter (λ t, q t && bool_decide (f t = k)) (set_iter s))
          = group_of f q s k) as ->.
  { apply set_eq. intros t. unfold group_of.
    rewrite elem_of_list_to_set, list_filter_elem, elem_of_set_iter, elem_of_bfilter. tauto. }
  case_decide; [done|]. rewrite lookup_empty. cbn. f_equal. set_solver.
Qed.
End grouping.

Section grouping_results.
Context `{PySetOrder} {K : Type} `{Countable K}.
Implicit Types (f : RelationTuple → K) (kf : K → bool) (s : tuples).

Lemma find_group_lookup ps f kf full once s k :
  let g := group_of f (λ t, kf (f t)) s k in
  let r := find_group_with_tuples ps f kf full once s in
  fst r !! k = (if decide (g = ∅) then None else
                match classify_group ps full once g with inl m => Some m | inr _ => None end)
  ∧ snd r !! k = (if decide (g = ∅) then None else
                match classify_group ps full once g with inl _ => None | inr u => Some u end).
Proof.
  cbn zeta. unfold find_group_with_tuples. cbn.
  rewrite !lookup_omap, !(grouped_lookup f (λ t, kf (f t))).
  by case_decide.
Qed.

Lemma classify_group_inr ps full once g u : classify_group ps full once g = inr u → u = g.
Proof.
  unfold classify_group. destruct (match_predicates _ _ _ _) as [[??]?].
  by case_match; intros [=].
Qed.

Lemma classify_group_once ps full g m :
  classify_group ps full true g = inl m →
  ∃ ts, NoDup ts ∧ Forall2 (λ p t, p t = true) ps ts ∧ m = list_to_set ts ∧ m ⊆ g
        ∧ (full = true → m = g).
Proof.
  unfold classify_group.
  destruct (match_predicates _ _ _ _) as [[m' rem] b] eqn:Hm.
  destruct b; [|by rewrite orb_true_r]. rewrite orb_false_r.
  destruct (full && _) eqn:Hf; [done|]. intros [= <-].
  apply match_once_sound in Hm as (ts & Hts & Hp & ->). exists ts.
  assert (∀ t, t ∈ g ↔ t ∈ ts ++ rem) as Hg.
  { intros t. by rewrite <- elem_of_set_iter, Hp. }
  pose proof (NoDup_set_iter g) as Hnd. rewrite Hp in Hnd. apply NoDup_app in Hnd as [? _].
  split_and!; [done|done|set_solver|set_solver|].
  intros ->. destruct rem; [|done]. apply set_eq. intros t. rewrite Hg. set_solver.
Qed.

Lemma classify_group_many ps full g m :
  classify_group ps full false g = inl m →
  m = bfilter (λ t, existsb (λ p, p t) ps) g ∧ (full = true → m = g).
Proof.
  unfold classify_group.
  destruct (match_predicates _ _ _ _) as [[m' rem] b] eqn:Hm.
  destruct b; [|by rewrite orb_true_r]. rewrite orb_false_r.
  destruct (full && _) eqn:Hf; [done|]. intros [= <-].
  apply match_many_sound in Hm as [Hm Hr].
  assert (∀ t, t ∈ m' ↔ t ∈ bfilter (λ t, existsb (λ p, p t) ps) g) as Hm'.
  { intros t. rewrite Hm, elem_of_bfilter, elem_of_set_iter. set_solver. }
  split; [by apply set_eq|]. intros ->. destruct rem; [|done]. apply set_eq. intros t.
  rewrite Hm', elem_of_bfilter. specialize (Hr t). rewrite elem_of_set_iter in Hr.
  destruct (existsb _ ps); set_solver.
Qed.
End grouping_results.

(** The reverse of the order used to run the definitions. *)
Definition reversed_order : PySetOrder := {|
  set_iter := λ A _ _ s, reverse (elements s);
  set_iter_perm := λ A _ _ s, reverse_Permutation _;
|}.

Definition sample_binding_tuple (rel : string) : RelationTuple :=
  rel_tuple ("rbac", "role_binding") "b1" ("rbac", "role") "r1" rel None.

(* ------------------------------------------------------------------ *)
(** * Properties *)

(** [InMemoryTuples.write] accepts a batch exactly when its additions have no
    duplicate, and then the store holds the added tuples and the old ones that
    were not removed: a tuple both added and removed stays. *)
Theorem write_spec add remove s :
  write add remove s =
  if decide (NoDup add) then Ok (list_to_set add ∪ (s ∖ list_to_set remove))
  else Raise ValueError.
Proof. apply write_eq. Qed.

(** [find_group_with_tuples] with each predicate used once, for every
    iteration order of sets: each non-empty group that passes the filter is in
    exactly one of the two dictionaries; an unmatched group is kept whole; a
    matched group comes with one tuple of the group per predicate, all distinct,
    which are the whole group when a full match is required. *)
Theorem find_group_once_sound `{PySetOrder} {K} `{Countable K} ps
    (f : RelationTuple → K) (kf : K → bool) full s k :
  let g := group_of f (λ t, kf (f t)) s k in
  let '(matched, unmatched) := find_group_with_tuples ps f kf full true s in
  (g ≠ ∅ ↔ is_Some (matched !! k) ∨ is_Some (unmatched !! k))
  ∧ (matched !! k = None ∨ unmatched !! k = None)
  ∧ (∀ u, unmatched !! k = Some u → u = g)
  ∧ (∀ m, matched !! k = Some m →
       ∃ ts, NoDup ts ∧ Forall2 (λ p t, p t = true) ps ts ∧ m = list_to_set ts ∧ m ⊆ g
             ∧ (full = true → m = g)).
Proof.
  cbn zeta. destruct (find_group_with_tuples _ _ _ _ _ _) as [mt um] eqn:Hr.
  pose proof (find_group_lookup ps f kf full true s k) as Hk. rewrite Hr in Hk.
  cbn in Hk. destruct Hk as [-> ->].
  destruct (decide (group_of _ _ s k = ∅)) as [Hg|Hg].
  { split_and!; [|by left|done|done]. split; [done|]. by intros [[? [=]]|[? [=]]]. }
  destruct (classify_group _ _ _ _) eqn:Hc.
  - split_and!; [naive_solver|by right|done|]. intros m [= <-]. by eapply classify_group_once.
  - split_and!; [naive_solver|by left| |done]. intros u [= <-]. by eapply classify_group_inr.
Qed.

(** [find_group_with_tuples] with predicates that may match many tuples:
    a matched group comes with exactly its tuples that some predicate accepts,
    and these are the whole group when a full match is required. *)
Theorem find_group_many_sound `{PySetOrder} {K} `{Countable K} ps
    (f : RelationTuple → K) (kf : K → bool) full s k m
    (Hm : fst (find_group_with_tuples ps f kf full false s) !! k = Some m) :
  let g := group_of f (λ t, kf (f t)) s k in
  m = bfilter (λ t, existsb (λ p, p t) ps) g ∧ (full = true → m = g).
Proof.
  cbn zeta. pose proof (find_group_lookup ps f kf full false s k) as [Hk _].
  rewrite Hk in Hm. case_decide; [done|].
  destruct (classify_group _ _ _ _) eqn:Hc; simplify_eq. by apply classify_group_many.
Qed.

(** The assignment of tuples to predicates is greedy: with predicates that
    overlap, the same group is matched or not depending on the iteration order
    of the set, although one assignment serves every predicate. *)
Theorem find_group_once_order_dependent :
  let s : tuples := {[sample_binding_tuple "role"; sample_binding_tuple "subject"]} in
  let ps := [Pred.resource_id "b1"; Pred.relation "role"] in
  let run order := fst (@find_group_with_tuples order _ _ _ ps resource_key (λ _, true) true true s) in
  let k := ("rbac", "role_binding", "b1") in
  (run elements_order !! k = None ∧ run reversed_order !! k = Some s)
  ∨ (run elements_order !! k = Some s ∧ run reversed_order !! k = None).
Proof. cbn zeta. by_compute. Qed.

Lemma find_group_many_sound_witness :
  let s : tuples := {[sample_binding_tuple "role"; sample_binding_tuple "subject"]} in
  s = bfilter (λ t, existsb (λ p, p t) [Pred.relation "role"; Pred.relation "subject"])
    (group_of resource_key (λ _, true) s ("rbac", "role_binding", "b1")).
Proof.
  intros s.
  refine (proj1 (find_group_many_sound [Pred.relation "role"; Pred.relation "subject"]
    resource_key (λ _, true) true s ("rbac", "role_binding", "b1") s _)).
  by_compute.
Defined.
