(* ===== verification/Permissions.v ===== *)
(** Permissions: rbac/management/permission/model.py and the V2 names of
    permissions in rbac/migration_tool/models.py. *)

From S2P Require Import Prelude.
From S2P Require Import PyString.
From S2P Require Import Config.

(* ------------------------------------------------------------------ *)
(** * Permission values *)

Record PermissionValue := mkPermissionValue {
  application : string;
  resource_type : string;
  verb : string;
}.

#[global] Instance PermissionValue_eq_dec : EqDecision PermissionValue.
Proof. solve_decision. Defined.
#[global] Instance PermissionValue_countable : Countable PermissionValue.
Proof.
  refine (inj_countable' (λ p, (application p, resource_type p, verb p))
    (λ '(a, r, v), mkPermissionValue a r v) _).
  by intros [].
Defined.

(** [_check_valid_component]; the component is returned when it is valid. *)
Definition check_valid_component (value : option string) : result string :=
  match value with
  | None => Raise ValueError
  | Some v =>
      _ ← raise_if (has_char ":" v) ValueError;
      _ ← raise_if (negb (String.eqb v "*") && has_char "*" v) ValueError;
      mret v
  end.

(** The constructor with [__post_init__]. *)
Definition mk_PermissionValue (app res vrb : option string) : result PermissionValue :=
  a ← check_valid_component app;
  r ← check_valid_component res;
  v ← check_valid_component vrb;
  _ ← raise_if (has_char "*" a) ValueError;
  mret (mkPermissionValue a r v).

(** What [__post_init__] enforces. *)
Definition valid_component (v : string) : bool :=
  negb (has_char ":" v) && (String.eqb v "*" || negb (has_char "*" v)).
Definition valid_permission (p : PermissionValue) : bool :=
  valid_component (application p) && valid_component (resource_type p)
  && valid_component (verb p) && negb (has_char "*" (application p)).

(** [parse_v1] *)
Definition parse_v1 (permission_str : string) : result PermissionValue :=
  match split_on ":" permission_str with
  | [a; r; v] => mk_PermissionValue (Some a) (Some r) (Some v)
  | _ => Raise ValueError
  end.

(** [with_unconstrained_resource_type], [with_unconstrained_verb] and
    [with_application_only]; the wildcard is a valid component, so the
    constructor's checks pass again. *)
Definition with_unconstrained_resource_type (p : PermissionValue) : PermissionValue :=
  mkPermissionValue (application p) "*" (verb p).
Definition with_unconstrained_verb (p : PermissionValue) : PermissionValue :=
  mkPermissionValue (application p) (resource_type p) "*".
Definition with_application_only (p : PermissionValue) : PermissionValue :=
  mkPermissionValue (application p) "*" "*".

(** [v1_string] *)
Definition v1_string (p : PermissionValue) : string :=
  application p +:+ ":" +:+ resource_type p +:+ ":" +:+ verb p.

(** [is_wildcard] *)
Definition is_wildcard (p : PermissionValue) : bool :=
  String.eqb (resource_type p) "*" || String.eqb (verb p) "*".

(** [subsumes] *)
Definition subsumes (self other : PermissionValue) : bool :=
  if negb (String.eqb (application self) (application other)) then false
  else if negb (String.eqb (resource_type self) "*")
          && negb (String.eqb (resource_type self) (resource_type other)) then false
  else if negb (String.eqb (verb self) "*")
          && negb (String.eqb (verb self) (verb other)) then false
  else true.

(** A request dictionary whose values are strings or None. *)
Definition dict_get (d : list (string * option string)) (k : string) : option string :=
  match assoc k d with Some v => v | None => None end.

(** Python's [a or b] on optional strings, and their truth value. *)
Definition opt_truth (o : option string) : bool :=
  match o with Some s => str_truth s | None => false end.
Definition opt_or (a b : option string) : option string := if opt_truth a then a else b.

(** [from_v2_dict] *)
Definition from_v2_dict (data : list (string * option string)) : result PermissionValue :=
  let application := dict_get data "application" in
  let resource_type := dict_get data "resource_type" in
  let operation := dict_get data "operation" in
  let verb := dict_get data "verb" in
  _ ← raise_if (opt_truth operation && opt_truth verb) InvalidPermissionDataError;
  _ ← raise_if (negb (bool_decide (is_Some application))) (RequiredFieldError "application");
  _ ← raise_if (negb (bool_decide (is_Some resource_type))) (RequiredFieldError "resource_type");
  let verb_value := opt_or operation verb in
  _ ← raise_if (negb (bool_decide (is_Some verb_value))) (RequiredFieldError "operation");
  mk_PermissionValue application resource_type verb_value.

(** [to_v2_dict] *)
Definition to_v2_dict (p : PermissionValue) : list (string * option string) :=
  [("application", Some (application p)); ("resource_type", Some (resource_type p));
   ("operation", Some (verb p))].

(* ------------------------------------------------------------------ *)
(** * Permission rows and their V2 names *)

(** [cleanNameForV2SchemaCompatibility] *)
Definition cleanNameForV2SchemaCompatibility (name : string) : string :=
  replace_char "*" "all" (replace_char " " "_" (replace_char ":" "_"
    (replace_char "." "_" (replace_char "-" "_" (lower name))))).

(** The row: [save] fills the three parts from the permission string. *)
Record Permission := mkPermission {
  p_id : Z;
  p_permission : string;
  p_parts : PermissionValue;
}.

Definition permission_save (id : Z) (permission : string) : result Permission :=
  match split_on ":" permission with
  | a :: r :: v :: _ => Ok (mkPermission id permission (mkPermissionValue a r v))
  | _ => Raise IndexError
  end.

(** [v2_string] *)
Definition v2_string (p : PermissionValue) : string :=
  cleanNameForV2SchemaCompatibility
    (application p +:+ "_" +:+ resource_type p +:+ "_" +:+ verb p).

(** [split_v2_perm] *)
Definition split_v2_perm (perm : string) : result (string * string * string) :=
  if String.eqb perm "read" then Ok ("inventory", "groups", "read")
  else if String.eqb perm "write" then Ok ("inventory", "groups", "write")
  else match find_char "_" perm, rfind_char "_" perm with
       | Some first, Some last =>
           if Nat.eqb first last then Raise ValueError
           else Ok (str_take first perm, str_take (last - (first + 1)) (str_drop (first + 1) perm),
                    str_drop (last + 1) perm)
       | _, _ => Raise ValueError
       end.

(** [V1permission]; its resource definitions play no part in [matches]. *)
Record V1permission := mkV1permission { app : string; v1_resource : string; perm : string }.

(** [V1permission.matches] *)
Definition matches (self : V1permission) (v2perm : string) : result bool :=
  '(a, r, v) ← split_v2_perm v2perm;
  mret (
    if negb (String.eqb (app self) "*")
       && negb (String.eqb (cleanNameForV2SchemaCompatibility (app self)) a) then false
    else if negb (String.eqb (v1_resource self) "*")
       && negb (String.eqb (cleanNameForV2SchemaCompatibility (v1_resource self)) r) then false
    else if negb (String.eqb (perm self) "*")
       && negb (String.eqb (cleanNameForV2SchemaCompatibility (perm self)) v) then false
    else true).

(* ------------------------------------------------------------------ *)
(** * Lemmas *)

Lemma check_valid_component_spec o v :
  check_valid_component o = Ok v ↔ o = Some v ∧ valid_component v = true.
Proof.
  destruct o as [w|]; cbn; [|naive_solver]. unfold valid_component.
  destruct (has_char ":" w) eqn:H1, (String.eqb w "*") eqn:H2, (has_char "*" w) eqn:H3; cbn;
    (split; [intros [=]; subst; rewrite ?H1, ?H2, ?H3; done
            | intros [[= <-] H]; rewrite ?H1, ?H2, ?H3 in H; done]).
Qed.

Lemma mk_PermissionValue_spec a r v p :
  mk_PermissionValue a r v = Ok p ↔
  a = Some (application p) ∧ r = Some (resource_type p) ∧ v = Some (verb p)
  ∧ valid_permission p = true.
Proof.
  unfold mk_PermissionValue, valid_permission. split.
  - intros H. inv_ok.
    repeat match goal with
           | H : check_valid_component _ = Ok _ |- _ =>
               apply check_valid_component_spec in H as [? ?]
           end. cbn.
    subst. split_and!; [done|done|done|]. rewrite !andb_true_iff, negb_true_iff. done.
  - intros (-> & -> & -> & Hv). rewrite !andb_true_iff, negb_true_iff in Hv.
    destruct Hv as [[[Ha Hr] Hv] Hs].
    assert (∀ x, valid_component x = true → check_valid_component (Some x) = Ok x) as Hc.
    { intros x Hx. by apply check_valid_component_spec. }
    rewrite (Hc _ Ha), (Hc _ Hr), (Hc _ Hv). cbn. rewrite Hs. by destruct p.
Qed.

Lemma mk_PermissionValue_Raise a r v e : mk_PermissionValue a r v = Raise e → e = ValueError.
Proof.
  unfold mk_PermissionValue, check_valid_component, raise_if.
  destruct a, r, v; cbn; intros H; cases_in_code; simplify_eq/=; try done;
    repeat (case_match; simplify_eq/=); done.
Qed.

Lemma valid_component_no_colon v : valid_component v = true → has_char ":" v = false.
Proof. unfold valid_component. by destruct (has_char ":" v). Qed.

Lemma valid_permission_parts p :
  valid_permission p = true →
  valid_component (application p) = true ∧ valid_component (resource_type p) = true
  ∧ valid_component (verb p) = true ∧ has_char "*" (application p) = false.
Proof. unfold valid_permission. rewrite !andb_true_iff, negb_true_iff. tauto. Qed.

Lemma parse_v1_v1_string p : valid_permission p = true → parse_v1 (v1_string p) = Ok p.
Proof.
  intros Hv. destruct (valid_permission_parts p Hv) as (Ha & Hr & Hb & _).
  unfold parse_v1, v1_string.
  change (application p +:+ ":" +:+ resource_type p +:+ ":" +:+ verb p)
    with (join_with ":" [application p; resource_type p; verb p]).
  rewrite split_on_join; [|done|].
  - by apply mk_PermissionValue_spec.
  - intros w Hw. rewrite !elem_of_cons in Hw.
    destruct Hw as [->|[->|[->|Hw]]]; [by apply valid_component_no_colon..|].
    by apply not_elem_of_nil in Hw.
Qed.

Lemma parse_v1_Ok s p : parse_v1 s = Ok p → s = v1_string p ∧ valid_permission p = true.
Proof.
  unfold parse_v1. pose proof (join_split_on ":" s) as Hj.
  destruct (split_on ":" s) as [|a [|r [|v [|]]]]; try done.
  intros (Ha & Hr & Hv & Hp)%mk_PermissionValue_spec. split; [|done].
  rewrite <- Hj. simplify_eq. done.
Qed.

Lemma parse_v1_Raise s e : parse_v1 s = Raise e → e = ValueError.
Proof.
  unfold parse_v1. destruct (split_on ":" s) as [|a [|r [|v [|]]]]; try congruence.
  apply mk_PermissionValue_Raise.
Qed.

Lemma subsumes_spec p q :
  subsumes p q = true ↔
  application p = application q
  ∧ (resource_type p = "*" ∨ resource_type p = resource_type q)
  ∧ (verb p = "*" ∨ verb p = verb q).
Proof.
  unfold subsumes.
  destruct (String.eqb_spec (application p) (application q)),
    (String.eqb_spec (resource_type p) "*"), (String.eqb_spec (resource_type p) (resource_type q)),
    (String.eqb_spec (verb p) "*"), (String.eqb_spec (verb p) (verb q)); cbn; naive_solver.
Qed.

Lemma subsumes_refl p : subsumes p p = true.
Proof. apply subsumes_spec. auto. Qed.

Lemma subsumes_trans p q r : subsumes p q = true → subsumes q r = true → subsumes p r = true.
Proof. rewrite !subsumes_spec. intros (? & ? & ?) (? & ? & ?). naive_solver congruence. Qed.

Lemma subsumes_antisym p q : subsumes p q = true → subsumes q p = true → p = q.
Proof.
  rewrite !subsumes_spec. destruct p, q; cbn. intros (-> & [-> | ->] & [-> | ->]) (_ & [?|?] & [?|?]);
    congruence.
Qed.

Lemma clean_app s t :
  cleanNameForV2SchemaCompatibility (s +:+ t)
  = cleanNameForV2SchemaCompatibility s +:+ cleanNameForV2SchemaCompatibility t.
Proof. unfold cleanNameForV2SchemaCompatibility. by rewrite lower_app, !replace_char_app. Qed.

Lemma v2_string_parts p :
  v2_string p = cleanNameForV2SchemaCompatibility (application p) +:+ String "_"
    (cleanNameForV2SchemaCompatibility (resource_type p) +:+ String "_"
      (cleanNameForV2SchemaCompatibility (verb p))).
Proof. unfold v2_string. by rewrite !clean_app. Qed.

Lemma split_v2_perm_parts a r v :
  has_char "_" a = false → has_char "_" v = false →
  split_v2_perm (a +:+ String "_" (r +:+ String "_" v)) = Ok (a, r, v).
Proof.
  intros Ha Hv. set (s := a +:+ String "_" (r +:+ String "_" v)).
  assert (has_char "_" s = true) as Hs.
  { unfold s. rewrite has_char_app, has_char_cons. cbn. apply orb_true_r. }
  unfold split_v2_perm.
  destruct (String.eqb_spec s "read") as [E|_]; [by rewrite E in Hs|].
  destruct (String.eqb_spec s "write") as [E|_]; [by rewrite E in Hs|].
  assert (find_char "_" s = Some (String.length a)) as -> by (by apply find_char_app).
  assert (rfind_char "_" s = Some (String.length a + 1 + String.length r)) as ->.
  { replace s with ((a +:+ "_" +:+ r) +:+ String "_" v) by (unfold s; by rewrite !str_app_assoc).
    rewrite rfind_char_app by done. f_equal. rewrite !str_length_app. cbn. lia. }
  destruct (Nat.eqb_spec (String.length a) (String.length a + 1 + String.length r)); [lia|].
  assert (str_take (String.length a) s = a) as -> by apply str_take_app.
  assert (str_drop (String.length a + 1) s = r +:+ String "_" v) as ->.
  { replace s with ((a +:+ "_") +:+ (r +:+ String "_" v)) by (unfold s; by rewrite !str_app_assoc).
    replace (String.length a + 1) with (String.length (a +:+ "_")) by (rewrite str_length_app; done).
    apply str_drop_app. }
  replace (String.length a + 1 + String.length r - (String.length a + 1)) with (String.length r) by lia.
  rewrite str_take_app.
  replace s with ((a +:+ "_" +:+ r +:+ "_") +:+ v) by (unfold s; by rewrite !str_app_assoc).
  replace (String.length a + 1 + String.length r + 1) with (String.length (a +:+ "_" +:+ r +:+ "_"))
    by (rewrite !str_length_app; cbn; lia).
  by rewrite str_drop_app.
Qed.

(** A component different from [x] and free of special characters. *)
Definition other_component (x : string) : string := if String.eqb x "a" then "b" else "a".

Lemma other_component_spec x :
  other_component x ≠ x ∧ valid_component (other_component x) = true ∧ other_component x ≠ "*".
Proof. unfold other_component. destruct (String.eqb_spec x "a") as [->|]; naive_solver. Qed.

(** A concrete permission covered by [q], and by [p] only if [p] covers [q]. *)
Definition sample_of (p q : PermissionValue) : PermissionValue :=
  mkPermissionValue (application q)
    (if String.eqb (resource_type q) "*" then other_component (resource_type p)
     else resource_type q)
    (if String.eqb (verb q) "*" then other_component (verb p) else verb q).

Lemma sample_of_concrete p q :
  valid_permission q = true →
  valid_permission (sample_of p q) = true ∧ is_wildcard (sample_of p q) = false
  ∧ subsumes q (sample_of p q) = true.
Proof.
  intros (Ha & Hr & Hv & Hs)%valid_permission_parts. rewrite subsumes_spec.
  unfold valid_permission, is_wildcard, sample_of. cbn. rewrite Ha, Hs.
  destruct (other_component_spec (resource_type p)) as (? & Hr' & Hrs).
  destruct (other_component_spec (verb p)) as (? & Hv' & Hvs).
  apply String.eqb_neq in Hrs, Hvs.
  destruct (String.eqb_spec (resource_type q) "*") as [|Hq]; [|apply String.eqb_neq in Hq];
  destruct (String.eqb_spec (verb q) "*") as [|Hq']; try apply String.eqb_neq in Hq';
    rewrite ?Hr, ?Hr', ?Hv, ?Hv', ?Hrs, ?Hvs, ?Hq, ?Hq'; cbn; naive_solver.
Qed.

Lemma sample_of_complete p q : subsumes p (sample_of p q) = true → subsumes p q = true.
Proof.
  rewrite !subsumes_spec. unfold sample_of. cbn. intros (Ha & Hr & Hv).
  pose proof (other_component_spec (resource_type p)). pose proof (other_component_spec (verb p)).
  destruct (String.eqb_spec (resource_type q) "*"), (String.eqb_spec (verb q) "*"); naive_solver.
Qed.

(* ------------------------------------------------------------------ *)
(** * Properties *)

(** [PermissionValue.parse_v1] and [v1_string] are inverse to each other:
    a string is parsed to a permission exactly when it is the printed form of
    that permission and the permission satisfies the class invariant (no colon
    in a part, a wildcard only as a whole part and never as the application);
    every other string raises ValueError. *)
Theorem parse_v1_print :
  (∀ s p, parse_v1 s = Ok p ↔ s = v1_string p ∧ valid_permission p = true)
  ∧ (∀ s e, parse_v1 s = Raise e → e = ValueError).
Proof.
  split; [|apply parse_v1_Raise]. intros s p. split; [apply parse_v1_Ok|].
  intros [-> Hv]. by apply parse_v1_v1_string.
Qed.

(** A permission survives the V2 dictionary form exactly when its verb is not
    empty; an empty verb comes back as a missing "operation" field. *)
Theorem v2_dict_roundtrip p (Hv : valid_permission p = true) :
  from_v2_dict (to_v2_dict p)
  = if String.eqb (verb p) "" then Raise (RequiredFieldError "operation") else Ok p.
Proof.
  destruct p as [a r v]. cbn in *. unfold from_v2_dict, opt_or. cbn -[mk_PermissionValue].
  destruct (String.eqb_spec v "") as [->|Hne]; cbn -[mk_PermissionValue]; [done|].
  assert (str_truth v = true) as Ht by (by destruct v).
  rewrite Ht. cbn -[mk_PermissionValue]. by apply mk_PermissionValue_spec.
Qed.

(** C31: [subsumes] is exactly coverage of concrete permissions: a pattern
    subsumes another when every concrete permission (no wildcard) that the other
    matches is matched by it too. *)
Theorem subsumes_semantics p q (Hq : valid_permission q = true) :
  subsumes p q = true ↔
  ∀ c, valid_permission c = true → is_wildcard c = false →
       subsumes q c = true → subsumes p c = true.
Proof.
  split.
  - intros Hpq c _ _ Hqc. by eapply subsumes_trans.
  - intros Hall. destruct (sample_of_concrete p q Hq) as (Hv & Hw & Hs).
    apply sample_of_complete. by apply Hall.
Qed.

(** The V2 name of a permission can be taken apart again when its application
    and verb have no character that becomes an underscore (the resource type may
    have any), and a V1 pattern that subsumes the permission matches that name. *)
Theorem v2_name_split p q
    (Ha : has_char "_" (cleanNameForV2SchemaCompatibility (application q)) = false)
    (Hv : has_char "_" (cleanNameForV2SchemaCompatibility (verb q)) = false) :
  split_v2_perm (v2_string q)
  = Ok (cleanNameForV2SchemaCompatibility (application q),
        cleanNameForV2SchemaCompatibility (resource_type q),
        cleanNameForV2SchemaCompatibility (verb q))
  ∧ (subsumes p q = true →
     matches (mkV1permission (application p) (resource_type p) (verb p)) (v2_string q) = Ok true).
Proof.
  assert (split_v2_perm (v2_string q)
    = Ok (cleanNameForV2SchemaCompatibility (application q),
          cleanNameForV2SchemaCompatibility (resource_type q),
          cleanNameForV2SchemaCompatibility (verb q))) as Hsplit.
  { rewrite v2_string_parts. by apply split_v2_perm_parts. }
  split; [done|]. intros (Happ & Hr & Hb)%subsumes_spec. unfold matches. rewrite Hsplit. cbn.
  rewrite Happ, String.eqb_refl, andb_false_r.
  destruct Hr as [-> | ->]; destruct Hb as [-> | ->];
    rewrite ?String.eqb_refl, ?andb_false_r; done.
Qed.

Lemma v2_dict_roundtrip_witness :
  from_v2_dict (to_v2_dict (mkPermissionValue "inventory" "groups" "read"))
  = Ok (mkPermissionValue "inventory" "groups" "read").
Proof. exact (v2_dict_roundtrip (mkPermissionValue "inventory" "groups" "read") eq_refl). Defined.

Lemma subsumes_semantics_witness :
  subsumes (mkPermissionValue "inventory" "*" "*") (mkPermissionValue "inventory" "groups" "read") = true.
Proof.
  exact (proj1 (subsumes_semantics (mkPermissionValue "inventory" "*" "*")
    (mkPermissionValue "inventory" "*" "read") eq_refl) eq_refl
    (mkPermissionValue "inventory" "groups" "read") eq_refl eq_refl eq_refl).
Defined.

Lemma v2_name_split_witness :
  split_v2_perm "inventory_group_hosts_read" = Ok ("inventory", "group_hosts", "read").
Proof.
  exact (proj1 (v2_name_split (mkPermissionValue "inventory" "*" "*")
    (mkPermissionValue "inventory" "group-hosts" "read") eq_refl eq_refl)).
Defined.
