(* ===== verification/ScopeService.v ===== *)
(** Scopes of permissions: rbac/management/permission/scope_service.py. *)

From stdpp Require Import sorting.
From S2P Require Import Prelude.
From S2P Require Import PyString.
From S2P Require Import Config.
From S2P Require Import Permissions.

(* ------------------------------------------------------------------ *)
(** * Scopes *)

Module Scope.
Inductive t := DEFAULT | ROOT | TENANT | ALL.

(** The members are integers, ordered from the lowest to the highest. *)
Definition value (s : t) : nat :=
  match s with DEFAULT => 1 | ROOT => 2 | TENANT => 3 | ALL => 4 end.
Definition of_value (n : nat) : t :=
  match n with 1 => DEFAULT | 2 => ROOT | 3 => TENANT | _ => ALL end.

#[global] Instance t_eq_dec : EqDecision t.
Proof. solve_decision. Defined.
#[global] Instance t_countable : Countable t.
Proof. refine (inj_countable' value of_value _). by intros []. Defined.

Definition members : list t := [DEFAULT; ROOT; TENANT; ALL].
End Scope.
Abbreviation Scope := Scope.t.

Definition scope_eqb (a b : Scope) : bool := bool_decide (a = b).
Definition scope_le (a b : Scope) : Prop := (Scope.value a ≤ Scope.value b)%nat.
#[global] Instance scope_le_dec : RelDecision scope_le.
Proof. intros a b. unfold scope_le. apply _. Defined.

(* ------------------------------------------------------------------ *)
(** * ImplicitResourceService *)

(** The service is its dictionary [_permissions_map]. *)
Abbreviation ImplicitResourceService := (gmap PermissionValue Scope).

(** [add_permission] of the constructor. *)
Definition add_permission (m : ImplicitResourceService) (permission : PermissionValue)
    (scope : Scope) : result ImplicitResourceService :=
  match m !! permission with
  | Some previous_scope => if scope_eqb previous_scope scope then Ok (<[permission := scope]> m)
                           else Raise ValueError
  | None => Ok (<[permission := scope]> m)
  end.

Definition add_permissions (scope : Scope) (m : ImplicitResourceService) (l : list string) :
    result ImplicitResourceService :=
  foldM (λ m str, p ← parse_v1 str; add_permission m p scope) m l.

(** The constructor. *)
Definition mk_ImplicitResourceService (root_scope_permissions tenant_scope_permissions : list string)
    (default_scope_permissions all_scope_permissions : option (list string)) :
    result ImplicitResourceService :=
  m ← add_permissions Scope.ROOT ∅ root_scope_permissions;
  m ← add_permissions Scope.TENANT m tenant_scope_permissions;
  m ← add_permissions Scope.DEFAULT m (default [] default_scope_permissions);
  add_permissions Scope.ALL m (default [] all_scope_permissions).

(** [from_settings] *)
Definition parse_setting (value : string) : list string :=
  if String.eqb (strip value) "" then [] else map strip (split_on "," value).

Definition from_settings `{Settings} : result ImplicitResourceService :=
  mk_ImplicitResourceService (parse_setting ROOT_SCOPE_PERMISSIONS)
    (parse_setting TENANT_SCOPE_PERMISSIONS) (Some (parse_setting DEFAULT_SCOPE_PERMISSIONS))
    (Some (parse_setting ALL_SCOPE_PERMISSIONS)).

(** [_wildcard_candidates] *)
Definition wildcard_candidates (parsed : PermissionValue) : list PermissionValue :=
  parsed :: List.filter (λ wildcard, negb (bool_decide (wildcard = parsed)))
    [with_unconstrained_verb parsed; with_unconstrained_resource_type parsed;
     with_application_only parsed].
#[global] Arguments wildcard_candidates : simpl never.

(** The loop of [scope_for_permission] over the candidates. *)
Fixpoint first_configured (m : ImplicitResourceService) (cs : list PermissionValue) :
    option Scope :=
  match cs with
  | [] => None
  | c :: cs' => match m !! c with Some s => Some s | None => first_configured m cs' end
  end.

Section service.
Context `{PySetOrder}.
Variable self : ImplicitResourceService.

(** [is_explicitly_scoped] *)
Definition is_explicitly_scoped (permission : string) : result bool :=
  parsed ← parse_v1 permission;
  mret (existsb (λ c, bool_decide (is_Some (self !! c))) (wildcard_candidates parsed)).

(** [scope_for_permission] *)
Definition scope_for_permission (permission : string) : result Scope :=
  parsed ← parse_v1 permission;
  mret (default Scope.DEFAULT (first_configured self (wildcard_candidates parsed))).

(** [all_scopes_for_permission] *)
Definition all_scopes_for_permission (permission : string) : result (gset Scope) :=
  parsed ← parse_v1 permission;
  primary_scope ← scope_for_permission permission;
  if negb (is_wildcard parsed) then mret {[primary_scope]}
  else mret (foldl (λ scopes '(configured_perm, configured_scope),
               if scope_eqb configured_scope primary_scope then scopes
               else if subsumes parsed configured_perm then {[configured_scope]} ∪ scopes
               else scopes) {[primary_scope]} (map_to_list self)).

(** [highest_scope_for_permissions] *)
Definition highest_scope_for_permissions (permissions : list string) : result Scope :=
  scopes ← mapM scope_for_permission permissions;
  let concrete := List.filter (λ s, negb (scope_eqb s Scope.ALL)) scopes in
  mret (match concrete with
        | [] => Scope.DEFAULT
        | s :: ss => foldl (λ m s, if Nat.ltb (Scope.value m) (Scope.value s) then s else m) s ss
        end).

(** [all(self.scope_for_permission(p) == Scope.ALL for p in permissions)], which
    stops at the first permission with another scope. *)
Fixpoint all_are_all_scope (permissions : list string) : result bool :=
  match permissions with
  | [] => Ok true
  | p :: ps => s ← scope_for_permission p;
               if scope_eqb s Scope.ALL then all_are_all_scope ps else Ok false
  end.

(** [is_all_scope_only] *)
Definition is_all_scope_only (permissions : list string) : result bool :=
  match permissions with [] => Ok false | _ => all_are_all_scope permissions end.

(* ------------------------------------------------------------------ *)
(** * Splitting permissions by binding scope *)

(** [permissions_by_scope.setdefault(scope, set()).update(perms)] *)
Definition scope_update (scope : Scope) (perms : gset string)
    (d : gmap Scope (gset string)) : gmap Scope (gset string) :=
  <[scope := perms ∪ default ∅ (d !! scope)]> d.

(** The loops that fill [permissions_by_scope]. *)
Definition permissions_by_scope (permissions : list string) :
    result (gmap Scope (gset string)) :=
  foldM (λ d perm,
    scopes ← all_scopes_for_permission perm;
    mret (foldl (λ d scope, scope_update scope {[perm]} d) d (set_iter scopes)))
    ∅ permissions.

(** The permissions of scope ALL go to every scope present, or to DEFAULT. *)
Definition distribute_all (d : gmap Scope (gset string)) : gmap Scope (gset string) :=
  match d !! Scope.ALL with
  | None => d
  | Some all_perms =>
      let d' := delete Scope.ALL d in
      if decide (all_perms = ∅) then d'
      else let target_scopes := if decide (d' = ∅) then [Scope.DEFAULT]
                                else map fst (map_to_list d') in
           foldl (λ d s, scope_update s all_perms d) d' target_scopes
  end.

(** ROOT takes over DEFAULT when both are present. *)
Definition merge_default (d : gmap Scope (gset string)) : gmap Scope (gset string) :=
  match d !! Scope.DEFAULT, d !! Scope.ROOT with
  | Some default_perms, Some _ =>
      delete Scope.DEFAULT (scope_update Scope.ROOT default_perms d)
  | _, _ => d
  end.

(** [split_permissions_by_binding_scope] *)
Definition split_permissions_by_binding_scope (permissions : list string) :
    result (gmap Scope (list string)) :=
  match permissions with
  | [] => Ok ∅
  | _ =>
      d ← permissions_by_scope permissions;
      if decide (d = ∅) then mret {[Scope.DEFAULT := permissions]}
      else mret (set_iter <$> merge_default (distribute_all d))
  end.

(** [binding_scopes_for_permissions] *)
Definition binding_scopes_for_permissions (permissions : list string) : result (list Scope) :=
  split ← split_permissions_by_binding_scope permissions;
  if decide (split = ∅) then mret [Scope.DEFAULT]
  else mret (merge_sort scope_le (map fst (map_to_list split))).

End service.

(* ------------------------------------------------------------------ *)
(** * PermissionScopeCache *)

(** Permission rows as the cache reads them: id and permission string. *)
Abbreviation permission_rows := (list (Z * string)).

(** The body of the loop of [_build] for one row. *)
Definition cache_step (service : ImplicitResourceService)
    (acc : gmap Scope (gset Z) * gset Z) (row : Z * string) :
    result (gmap Scope (gset Z) * gset Z) :=
  let '(ids, explicit_default) := acc in
  let '(id, permission) := row in
  scope ← scope_for_permission service permission;
  explicit ← is_explicitly_scoped service permission;
  mret (<[scope := {[id]} ∪ default ∅ (ids !! scope)]> ids,
        if scope_eqb scope Scope.DEFAULT && explicit then {[id]} ∪ explicit_default
        else explicit_default).

(** The buckets of [_build]: one per scope, and the explicitly DEFAULT ids. *)
Definition cache_build (service : ImplicitResourceService) (rows : permission_rows) :
    result (gmap Scope (gset Z) * gset Z) :=
  foldM (cache_step service) (list_to_map (map (λ s, (s, ∅)) Scope.members), ∅) rows.

(** [PermissionScopeCache]: [None] until first used and after [invalidate].  The
    two fields of the source are always set together. *)
Abbreviation PermissionScopeCache := (option (gmap Scope (gset Z) * gset Z)).

Definition cache_invalidate (c : PermissionScopeCache) : PermissionScopeCache := None.

(** The properties [ids_by_scope] and [explicit_default_ids]; a build that raises
    leaves the cache empty. *)
Definition cache_get (service : ImplicitResourceService) (rows : permission_rows)
    (c : PermissionScopeCache) : result (gmap Scope (gset Z) * gset Z) * PermissionScopeCache :=
  match c with
  | Some v => (Ok v, c)
  | None => match cache_build service rows with
            | Ok v => (Ok v, Some v)
            | Raise e => (Raise e, None)
            end
  end.

(** [ids_for_scopes]: with no scope the cache is not even read. *)
Definition ids_for_scopes (service : ImplicitResourceService) (rows : permission_rows)
    (scopes : list Scope) (c : PermissionScopeCache) : result (gset Z) * PermissionScopeCache :=
  match scopes with
  | [] => (Ok ∅, c)
  | _ => let '(r, c') := cache_get service rows c in
         ((λ v, ⋃ (map (λ s, default ∅ (fst v !! s)) scopes)) <$> r, c')
  end.

(* ------------------------------------------------------------------ *)
(** * Lemmas *)

Lemma add_permission_Ok m p s m' :
  add_permission m p s = Ok m' ↔ (m !! p = None ∨ m !! p = Some s) ∧ m' = <[p := s]> m.
Proof.
  unfold add_permission, scope_eqb. destruct (m !! p) as [s'|].
  - case_bool_decide; subst; naive_solver.
  - naive_solver.
Qed.

(** What a run of [add_permissions] adds, and that it never changes an entry. *)
Lemma add_permissions_lookup s l m m' :
  add_permissions s m l = Ok m' →
  ∀ p s', m' !! p = Some s' ↔ m !! p = Some s' ∨ (s' = s ∧ ∃ str, str ∈ l ∧ parse_v1 str = Ok p).
Proof.
  unfold add_permissions. revert m. induction l as [|str l IH]; cbn; intros m.
  - intros [= <-] p s'. set_solver.
  - intros H. destruct (parse_v1 str) as [q|] eqn:Hq; cbn in H; [|done].
    destruct (add_permission m q s) as [m1|] eqn:Hm; [|done].
    apply add_permission_Ok in Hm as [Hold ->].
    intros p s'. rewrite (IH _ H). destruct (decide (p = q)) as [->|Hne].
    + rewrite lookup_insert_eq. split.
      * intros [[= <-]|(-> & _)]; right; (split; [done|]; exists str; split; [left|done]).
      * intros [Hs|(-> & _)]; [|by left]. left. destruct Hold as [Ho|Ho]; congruence.
    + rewrite lookup_insert_ne by done. split; [set_solver|].
      intros [?|(-> & str' & [->|?]%elem_of_cons & Hp)]; [by left|congruence|].
      right. eauto.
Qed.

Lemma elem_of_candidates p c : c ∈ wildcard_candidates p ↔
  c = p ∨ c = with_unconstrained_verb p ∨ c = with_unconstrained_resource_type p
  ∨ c = with_application_only p.
Proof.
  unfold wildcard_candidates. rewrite elem_of_cons, list_elem_of_In, filter_In, <- list_elem_of_In.
  rewrite negb_true_iff, bool_decide_eq_false, !elem_of_cons, elem_of_nil.
  destruct (decide (c = p)); naive_solver.
Qed.

(** The candidates of a permission are the patterns that subsume it. *)
Lemma candidates_subsumes p c : c ∈ wildcard_candidates p ↔ subsumes c p = true.
Proof.
  rewrite elem_of_candidates, subsumes_spec. destruct p as [a r v], c as [a' r' v']. cbn.
  unfold with_unconstrained_verb, with_unconstrained_resource_type, with_application_only. cbn.
  naive_solver.
Qed.

Lemma first_configured_Some m cs s :
  first_configured m cs = Some s ↔
  ∃ before c after, cs = before ++ c :: after ∧ m !! c = Some s ∧ ∀ b, b ∈ before → m !! b = None.
Proof.
  induction cs as [|c cs IH]; cbn.
  - split; [done|]. intros ([|??] & ? & ? & [=] & _).
  - destruct (m !! c) as [s'|] eqn:Hc.
    + split.
      * intros [= <-]. exists [], c, cs. split_and!; [done|done|set_solver].
      * intros ([|b bs] & d & after & [= <- ->] & Hd & Hb); [congruence|].
        rewrite (Hb c) in Hc by left. done.
    + rewrite IH. split.
      * intros (bs & d & after & -> & Hd & Hb). exists (c :: bs), d, after.
        split_and!; [done|done|]. intros b [->|?]%elem_of_cons; auto.
      * intros ([|b bs] & d & after & [= <- ->] & Hd & Hb); [congruence|].
        exists bs, d, after. split_and!; [done|done|]. intros b' ?. apply Hb. by right.
Qed.

Lemma first_configured_None m cs : first_configured m cs = None ↔ ∀ c, c ∈ cs → m !! c = None.
Proof.
  induction cs as [|c cs IH]; cbn; [set_solver|].
  destruct (m !! c) eqn:Hc.
  - split; [done|]. intros Hall. rewrite Hall in Hc by left. done.
  - rewrite IH. set_solver.
Qed.

(** Among the patterns that subsume [p], the order of the candidates: a strictly
    more specific pattern never comes later. *)
Lemma candidates_order p before c after d :
  wildcard_candidates p = before ++ c :: after → d ∈ after → subsumes c d = true → d = c.
Proof.
  intros Hc Hd Hs. apply subsumes_antisym; [|done].
  destruct p as [a r v]. unfold wildcard_candidates, with_unconstrained_verb,
    with_unconstrained_resource_type, with_application_only in Hc. cbn in Hc.
  rewrite subsumes_spec in Hs. rewrite subsumes_spec.
  repeat case_bool_decide; cbn in Hc; simplify_eq/=;
  destruct before as [|b1 [|b2 [|b3 [|b4 ?]]]]; simplify_list_eq; cbn in *;
  rewrite ?elem_of_cons, ?elem_of_nil in Hd; try discriminate_list;
  destruct_or? Hd; subst; cbn in *; intuition congruence.
Qed.

(** [app:resource:*] comes right after the permission itself. *)
Lemma candidates_prefer_verb (m : ImplicitResourceService) p before c after s s' :
  wildcard_candidates p = before ++ c :: after → m !! c = Some s →
  (∀ b, b ∈ before → m !! b = None) → m !! with_unconstrained_verb p = Some s' →
  subsumes (with_unconstrained_verb p) c = true.
Proof.
  intros Hc Hs Hb Hv.
  assert (subsumes (with_unconstrained_verb p) p = true) as Hp by (apply subsumes_spec; cbn; auto).
  unfold wildcard_candidates in Hc. cbn in Hc.
  destruct before as [|b1 before]; [by injection Hc as -> _|]. injection Hc as -> Hc.
  case_bool_decide as He; cbn in Hc.
  - rewrite He in Hv. rewrite (Hb b1) in Hv by left. done.
  - destruct before as [|b2 before].
    + injection Hc as <- _. apply subsumes_refl.
    + injection Hc as <- _. rewrite (Hb (with_unconstrained_verb b1)) in Hv; [done|set_solver].
Qed.

Lemma scope_for_valid self p :
  valid_permission p = true →
  scope_for_permission self (v1_string p)
  = Ok (default Scope.DEFAULT (first_configured self (wildcard_candidates p))).
Proof. intros Hp. unfold scope_for_permission. by rewrite parse_v1_v1_string. Qed.

Lemma scope_for_configured self q s :
  valid_permission q = true → self !! q = Some s → scope_for_permission self (v1_string q) = Ok s.
Proof. intros Hv Hq. rewrite scope_for_valid by done.
  unfold wildcard_candidates. cbn. by rewrite Hq. Qed.

Lemma concrete_subsumes p c : is_wildcard p = false → subsumes p c = true → p = c.
Proof.
  rewrite subsumes_spec. unfold is_wildcard. rewrite orb_false_iff, !String.eqb_neq.
  destruct p, c; cbn. naive_solver.
Qed.

(** The patterns above a wildcard form a chain. *)
Lemma subsumers_chain p q q' :
  is_wildcard p = true → subsumes q p = true → subsumes q' p = true →
  subsumes q q' = true ∨ subsumes q' q = true.
Proof.
  rewrite !subsumes_spec. unfold is_wildcard. rewrite orb_true_iff, !String.eqb_eq.
  destruct p, q, q'; cbn. intros Hw (-> & Hr & Hv) (-> & Hr' & Hv'). subst.
  destruct Hw, Hr, Hv, Hr', Hv'; subst; auto 10.
Qed.

(** A pattern above [p] that decides a permission below [p] also decides [p]. *)
Lemma first_configured_above (m : ImplicitResourceService) p c before q after s :
  is_wildcard p = true → subsumes p c = true → subsumes q p = true →
  wildcard_candidates c = before ++ q :: after → m !! q = Some s →
  (∀ b, b ∈ before → m !! b = None) → first_configured m (wildcard_candidates p) = Some s.
Proof.
  intros Hw Hpc Hqp Hc Hq Hb.
  destruct (first_configured m (wildcard_candidates p)) as [s'|] eqn:Hf.
  - apply first_configured_Some in Hf as (before' & q' & after' & Hp & Hq' & Hb').
    assert (subsumes q' p = true) as Hq'p by (apply candidates_subsumes; rewrite Hp; set_solver).
    assert (q' ∈ wildcard_candidates c) as Hin
      by (apply candidates_subsumes; by eapply subsumes_trans).
    assert (q ∈ wildcard_candidates p) as Hin' by (by apply candidates_subsumes).
    rewrite Hc in Hin. rewrite Hp in Hin'.
    apply elem_of_app in Hin as [Hin|[->|Hin]%elem_of_cons]; [by rewrite (Hb q' Hin) in Hq'|congruence|].
    apply elem_of_app in Hin' as [Hin'|[->|Hin']%elem_of_cons]; [by rewrite (Hb' q Hin') in Hq|congruence|].
    destruct (subsumers_chain p q q') as [Hs|Hs]; [done..| |].
    + rewrite (candidates_order _ _ _ _ _ Hc Hin Hs) in Hq'. congruence.
    + rewrite (candidates_order _ _ _ _ _ Hp Hin' Hs) in Hq. congruence.
  - rewrite first_configured_None in Hf. rewrite (Hf q) in Hq; [done|]. by apply candidates_subsumes.
Qed.

Lemma all_scopes_cover self p c s s0 :
  valid_permission p = true → valid_permission c = true →
  (∀ q c, is_Some (self !! q) → subsumes p c = true → subsumes q c = true →
          subsumes p q = true ∨ subsumes q p = true) →
  subsumes p c = true → scope_for_permission self (v1_string p) = Ok s0 →
  scope_for_permission self (v1_string c) = Ok s →
  s = s0 ∨ (is_wildcard p = true ∧ ∃ q, self !! q = Some s ∧ subsumes p q = true).
Proof.
  intros Hp Hc Hcross Hpc. destruct (is_wildcard p) eqn:Hw.
  2:{ rewrite (concrete_subsumes p c) by done. intros -> [= ->]. by left. }
  rewrite !scope_for_valid by done. intros ->%Ok_inj ->%Ok_inj.
  destruct (first_configured self (wildcard_candidates c)) as [s|] eqn:Hf; cbn.
  - pose proof Hf as (before & q & after & Hcs & Hq & Hb)%first_configured_Some.
    assert (subsumes q c = true) as Hqc by (apply candidates_subsumes; rewrite Hcs; set_solver).
    destruct (Hcross q c) as [?|Hqp]; eauto.
    left. by rewrite (first_configured_above self p c before q after s).
  - left. rewrite first_configured_None in Hf.
    destruct (first_configured self (wildcard_candidates p)) as [s'|] eqn:Hfp; [|done].
    apply first_configured_Some in Hfp as (before & q & after & Hps & Hq & _).
    rewrite (Hf q) in Hq; [done|]. apply candidates_subsumes. eapply subsumes_trans; [|exact Hpc].
    apply candidates_subsumes. rewrite Hps. set_solver.
Qed.

Lemma foldl_scope_update P l d s :
  foldl (λ d sc, scope_update sc P d) d l !! s
  = if decide (s ∈ l) then Some (P ∪ default ∅ (d !! s)) else d !! s.
Proof.
  revert d. induction l as [|sc l IH]; cbn; intros d; [done|].
  rewrite IH. unfold scope_update. destruct (decide (s = sc)) as [->|Hne].
  - rewrite lookup_insert_eq. cbn. rewrite (decide_True (P := sc ∈ sc :: l)) by left.
    case_decide; f_equal; set_solver.
  - rewrite lookup_insert_ne by done.
    destruct (decide (s ∈ l)); [rewrite decide_True | rewrite decide_False]; set_solver.
Qed.

Lemma merge_default_lookup (d : gmap Scope (gset string)) s :
  merge_default d !! s =
  match d !! Scope.DEFAULT, d !! Scope.ROOT with
  | Some a, Some b => if scope_eqb s Scope.DEFAULT then None
                      else if scope_eqb s Scope.ROOT then Some (a ∪ b) else d !! s
  | _, _ => d !! s
  end.
Proof.
  unfold merge_default, scope_update, scope_eqb.
  destruct (d !! Scope.DEFAULT) as [a|] eqn:Ha; [|done].
  destruct (d !! Scope.ROOT) as [b|] eqn:Hb; [|done]. cbn.
  repeat case_bool_decide; subst; [by rewrite lookup_delete_eq| |].
  - by rewrite lookup_delete_ne, lookup_insert_eq.
  - by rewrite lookup_delete_ne, lookup_insert_ne.
Qed.

Lemma merge_default_empty (d : gmap Scope (gset string)) : merge_default d = ∅ → d = ∅.
Proof.
  intros He. apply map_eq. intros s. pose proof (merge_default_lookup d s) as Hs.
  pose proof (merge_default_lookup d Scope.ROOT) as Hr. rewrite He, lookup_empty in Hs, Hr.
  rewrite lookup_empty. unfold scope_eqb in *. destruct (d !! Scope.DEFAULT), (d !! Scope.ROOT); cbn in *; done.
Qed.

Section split_lemmas.
Context `{PySetOrder}.
Variable self : ImplicitResourceService.

(** [perm] belongs to scope [s]. *)
Definition in_scope (perm : string) (s : Scope) : Prop :=
  ∃ S, all_scopes_for_permission self perm = Ok S ∧ s ∈ S.

Lemma permissions_by_scope_from perms d0 d :
  foldM (λ d perm,
    scopes ← all_scopes_for_permission self perm;
    mret (foldl (λ d scope, scope_update scope {[perm]} d) d (set_iter scopes)))
    d0 perms = Ok d →
  (∀ s perm, perm ∈ default ∅ (d !! s) ↔
    perm ∈ default ∅ (d0 !! s) ∨ (perm ∈ perms ∧ in_scope perm s))
  ∧ (∀ s, is_Some (d !! s) ↔ is_Some (d0 !! s) ∨ ∃ perm, perm ∈ perms ∧ in_scope perm s).
Proof.
  revert d0. induction perms as [|q perms IH]; cbn; intros d0.
  { intros [= <-]. split; set_solver. }
  destruct (all_scopes_for_permission self q) as [S|] eqn:HS; cbn; [|done].
  assert (∀ s, in_scope q s ↔ s ∈ S) as Hq.
  { intros s. unfold in_scope. rewrite HS. naive_solver. }
  intros [Hin Hdom]%IH. split; intros s.
  - intros perm. rewrite Hin, foldl_scope_update, elem_of_cons.
    case_decide as Hs; rewrite elem_of_set_iter in Hs; cbn; specialize (Hq s); set_solver.
  - rewrite Hdom, foldl_scope_update.
    case_decide as Hs; rewrite elem_of_set_iter, <- Hq in Hs.
    + split; [|eauto]. intros _. right. exists q. split; [left|done].
    + set_solver.
Qed.

Lemma permissions_by_scope_spec perms d :
  permissions_by_scope self perms = Ok d →
  ∀ s, match d !! s with
       | Some g => g ≠ ∅ ∧ ∀ perm, perm ∈ g ↔ perm ∈ perms ∧ in_scope perm s
       | None => ∀ perm, perm ∈ perms → ¬ in_scope perm s
       end.
Proof.
  intros [Hin Hdom]%permissions_by_scope_from s. specialize (Hin s). specialize (Hdom s).
  rewrite lookup_empty in Hin, Hdom. cbn in Hin. destruct (d !! s) as [g|] eqn:Hs; cbn in Hin.
  - assert (∀ perm, perm ∈ g ↔ perm ∈ perms ∧ in_scope perm s) as Hg by set_solver.
    split; [|done]. destruct Hdom as [[[? [=]]|(perm & Hp)] _]; [eauto|].
    apply Hg in Hp. set_solver.
  - intros perm Hp Hi. destruct Hdom as [_ Hd]. destruct Hd; [eauto | done].
Qed.

Lemma permissions_by_scope_nonempty perms d :
  permissions_by_scope self perms = Ok d → ∀ s g, d !! s = Some g → g ≠ ∅.
Proof.
  intros Hd s g Hg. pose proof (permissions_by_scope_spec _ _ Hd s) as Hs.
  rewrite Hg in Hs. by destruct Hs.
Qed.

Lemma distribute_all_lookup d s :
  (∀ s g, d !! s = Some g → g ≠ ∅) →
  distribute_all d !! s =
  if scope_eqb s Scope.ALL then None else
  match d !! Scope.ALL with
  | None => d !! s
  | Some A => if decide (delete Scope.ALL d = ∅)
              then (if scope_eqb s Scope.DEFAULT then Some A else None)
              else (λ g, A ∪ g) <$> d !! s
  end.
Proof.
  intros Hne. unfold distribute_all, scope_eqb.
  destruct (d !! Scope.ALL) as [A|] eqn:HA.
  - rewrite (decide_False (P := A = ∅)) by eauto. rewrite foldl_scope_update.
    destruct (decide (delete Scope.ALL d = ∅)) as [He|He].
    + rewrite He, lookup_empty. cbn. rewrite (right_id_L ∅ (∪)).
      repeat case_bool_decide; subst; case_decide; set_solver.
    + assert (s ∈ map fst (map_to_list (delete Scope.ALL d)) ↔ is_Some (delete Scope.ALL d !! s)) as Hm.
      { rewrite list_elem_of_fmap. split.
        - intros ([k g] & -> & Hk%elem_of_map_to_list). eauto.
        - intros [g Hg]. exists (s, g). by rewrite elem_of_map_to_list. }
      destruct (decide (s = Scope.ALL)) as [->|Hs].
      * rewrite bool_decide_true by done. rewrite decide_False; [by rewrite lookup_delete_eq|].
        rewrite Hm, lookup_delete_eq. by intros [? [=]].
      * rewrite bool_decide_false by done. rewrite lookup_delete_ne in Hm |- * by done.
        destruct (d !! s); cbn; [rewrite decide_True by naive_solver; done|].
        rewrite decide_False; [done|]. rewrite Hm. by intros [? [=]].
  - case_bool_decide; by subst.
Qed.

(** The group a permission of scope [s] ends in, and whether the split has it. *)
Definition effective_scope (has_root : bool) (s : Scope) : Scope :=
  match s with Scope.DEFAULT => if has_root then Scope.ROOT else Scope.DEFAULT | _ => s end.

Lemma delete_all_empty (d : gmap Scope (gset string)) :
  delete Scope.ALL d = ∅ ↔
  d !! Scope.DEFAULT = None ∧ d !! Scope.ROOT = None ∧ d !! Scope.TENANT = None.
Proof.
  split.
  - intros He. rewrite <- !(lookup_delete_ne d Scope.ALL) by done. by rewrite He, !lookup_empty.
  - intros (? & ? & ?). apply map_eq. intros s. rewrite lookup_empty.
    destruct s; rewrite ?lookup_delete_eq, ?lookup_delete_ne; done.
Qed.

Lemma all_scopes_elem str S :
  all_scopes_for_permission self str = Ok S →
  ∃ p s0, parse_v1 str = Ok p ∧ scope_for_permission self str = Ok s0 ∧
    ∀ s, s ∈ S ↔ s = s0 ∨ (is_wildcard p = true ∧ ∃ q, self !! q = Some s ∧ subsumes p q = true).
Proof.
  unfold all_scopes_for_permission. intros (p & Hp & HS)%bind_Ok.
  apply bind_Ok in HS as (s0 & Hs0 & HS). exists p, s0. split_and!; [done|done|].
  destruct (is_wildcard p); cbn in HS; inv_ok; [|set_solver].
  intros s.
  assert (∀ X l, s ∈ foldl (λ (scopes : gset Scope) '(configured_perm, configured_scope),
      if scope_eqb configured_scope s0 then scopes
      else if subsumes p configured_perm then {[configured_scope]} ∪ scopes else scopes) X l
    ↔ s ∈ X ∨ (s ≠ s0 ∧ ∃ q, (q, s) ∈ l ∧ subsumes p q = true)) as Hf.
  { intros X l. revert X. induction l as [|[c cs] l IH]; cbn; intros X; [set_solver|].
    rewrite IH. unfold scope_eqb. setoid_rewrite elem_of_cons.
    case_bool_decide; [|destruct (subsumes p c) eqn:Hc; rewrite ?elem_of_union, ?elem_of_singleton];
      (split; [naive_solver|]; intros [?|(Hs & q & [[= -> ->]|Hq] & ?)]; naive_solver congruence). }
  rewrite Hf, elem_of_singleton. setoid_rewrite elem_of_map_to_list.
  destruct (decide (s = s0)); naive_solver.
Qed.

Lemma distribute_all_spec perms D :
  permissions_by_scope self perms = Ok D →
  ∀ s, match distribute_all D !! s with
       | Some g => s ≠ Scope.ALL ∧ g ≠ ∅ ∧
           ∀ perm, perm ∈ g ↔ perm ∈ perms ∧ (in_scope perm s ∨ in_scope perm Scope.ALL)
       | None => s = Scope.ALL ∨ ∀ perm, perm ∈ perms → ¬ in_scope perm s
       end.
Proof.
  intros HD s. pose proof (permissions_by_scope_spec _ _ HD) as Hspec.
  rewrite distribute_all_lookup.
  2:{ by eapply permissions_by_scope_nonempty. }
  unfold scope_eqb. case_bool_decide as Hs; [by left|].
  pose proof (Hspec s) as Hs'. pose proof (Hspec Scope.ALL) as HA.
  destruct (D !! Scope.ALL) as [A|].
  - case_decide as He; [|destruct (D !! s); set_solver].
    apply delete_all_empty in He as (H1 & H2 & H3).
    assert (D !! s = None) as Hn by (by destruct s). rewrite Hn in Hs'.
    case_bool_decide; set_solver.
  - destruct (D !! s); set_solver.
Qed.

Lemma distribute_all_nonempty D :
  (∀ s g, D !! s = Some g → g ≠ ∅) → distribute_all D = ∅ → D = ∅.
Proof.
  intros Hne He.
  assert (∀ s, distribute_all D !! s = None) as Hn by (intros; by rewrite He, lookup_empty).
  setoid_rewrite distribute_all_lookup in Hn; [|done]. unfold scope_eqb in Hn.
  destruct (D !! Scope.ALL) as [A|] eqn:HA.
  - exfalso. case_decide as Hd; [by specialize (Hn Scope.DEFAULT)|]. apply Hd, delete_all_empty.
    pose proof (Hn Scope.DEFAULT) as H1. pose proof (Hn Scope.ROOT) as H2.
    pose proof (Hn Scope.TENANT) as H3. cbn in H1, H2, H3.
    by destruct (D !! Scope.DEFAULT), (D !! Scope.ROOT), (D !! Scope.TENANT).
  - apply map_eq. intros s. rewrite lookup_empty. destruct s; [apply (Hn Scope.DEFAULT)
    |apply (Hn Scope.ROOT)|apply (Hn Scope.TENANT)|done].
Qed.

(** The map a non-empty request is split into, before groups become lists. *)
Lemma split_groups perms d :
  perms ≠ [] → split_permissions_by_binding_scope self perms = Ok d →
  ∃ D, permissions_by_scope self perms = Ok D ∧ D ≠ ∅
       ∧ d = set_iter <$> merge_default (distribute_all D).
Proof.
  intros Hne. unfold split_permissions_by_binding_scope.
  destruct perms as [|p perms]; [done|]. intros (D & HD & Hd)%bind_Ok. exists D. split; [done|].
  case_decide as He; [|by inv_ok]. exfalso. subst D.
  pose proof (permissions_by_scope_spec _ _ HD) as Hspec.
  destruct (all_scopes_for_permission self p) as [S|] eqn:HS.
  - destruct (all_scopes_elem _ _ HS) as (q & s0 & _ & _ & Hel). specialize (Hspec s0).
    rewrite lookup_empty in Hspec. apply (Hspec p); [left|]. exists S. rewrite Hel. auto.
  - unfold permissions_by_scope in HD. cbn in HD. by rewrite HS in HD.
Qed.

(** The groups of the split: who is in them and which are absent. *)
Lemma merge_default_spec perms D :
  permissions_by_scope self perms = Ok D →
  let d := merge_default (distribute_all D) in
  (d !! Scope.DEFAULT = None ∨ d !! Scope.ROOT = None) ∧
  ∀ s, match d !! s with
       | Some g => s ≠ Scope.ALL ∧ g ≠ ∅ ∧
           ∀ perm, perm ∈ g ↔ perm ∈ perms ∧
             (in_scope perm Scope.ALL ∨ in_scope perm s
              ∨ (s = Scope.ROOT ∧ in_scope perm Scope.DEFAULT))
       | None => s = Scope.ALL ∨ (s = Scope.DEFAULT ∧ is_Some (d !! Scope.ROOT))
                 ∨ ∀ perm, perm ∈ perms → ¬ in_scope perm s
       end.
Proof.
  intros HD. cbn zeta. pose proof (distribute_all_spec _ _ HD) as HE.
  set (E := distribute_all D) in *. pose proof (merge_default_lookup E) as Hl.
  pose proof (HE Scope.DEFAULT) as Hd. pose proof (HE Scope.ROOT) as Hr. unfold scope_eqb in Hl.
  destruct (E !! Scope.DEFAULT) as [gd|] eqn:Ed, (E !! Scope.ROOT) as [gr|] eqn:Er.
  - pose proof (Hl Scope.DEFAULT) as Hld. pose proof (Hl Scope.ROOT) as Hlr. cbn in Hld, Hlr.
    split; [by left|]. intros s. destruct (decide (s = Scope.DEFAULT)) as [->|Hs1].
    { rewrite Hld, Hlr. right; left. eauto. }
    destruct (decide (s = Scope.ROOT)) as [->|Hs2]; [rewrite Hlr; split_and!; [done|set_solver|]; clear Hl HE; intros perm; rewrite elem_of_union; naive_solver|].
    rewrite Hl, !bool_decide_false by done. specialize (HE s). clear Hl Hd Hr Hld Hlr. destruct (E !! s); naive_solver.
  - split; [right; by rewrite Hl|]. intros s. rewrite Hl. specialize (HE s).
    destruct (decide (s = Scope.ROOT)) as [->|]; [rewrite Er; naive_solver|].
    clear Hl Hd Hr. destruct (E !! s); naive_solver.
  - split; [left; by rewrite Hl|]. intros s. rewrite Hl. specialize (HE s).
    destruct (decide (s = Scope.ROOT)) as [->|]; [rewrite Er; clear Hl HE; naive_solver|].
    clear Hl Hd Hr. destruct (E !! s); naive_solver.
  - split; [left; by rewrite Hl|]. intros s. rewrite Hl. specialize (HE s).
    destruct (decide (s = Scope.ROOT)) as [->|]; [rewrite Er; naive_solver|].
    clear Hl Hd Hr. destruct (E !! s); naive_solver.
Qed.

Lemma split_keys perms d :
  split_permissions_by_binding_scope self perms = Ok d →
  d !! Scope.ALL = None ∧ (d !! Scope.DEFAULT = None ∨ d !! Scope.ROOT = None).
Proof.
  intros Hd. destruct (decide (perms = [])) as [->|Hne].
  { cbn in Hd. inv_ok. split; [|left]; apply lookup_empty. }
  apply split_groups in Hd as (D & HD & _ & ->); [|done].
  destruct (merge_default_spec _ _ HD) as [Hdr HM]. rewrite !lookup_fmap, !fmap_None.
  split; [|done]. specialize (HM Scope.ALL). by destruct (_ !! Scope.ALL); [destruct HM|].
Qed.

End split_lemmas.

#[global] Instance scope_le_trans : Transitive scope_le.
Proof. intros a b c. unfold scope_le. lia. Qed.
#[global] Instance scope_le_total : Total scope_le.
Proof. intros a b. unfold scope_le. lia. Qed.
#[global] Instance scope_le_antisymm : AntiSymm (=) scope_le.
Proof. intros [] [] ?? ; unfold scope_le in *; cbn in *; (reflexivity || lia). Qed.

(** Sorting the keys lists the members of the dictionary in their fixed order. *)
Lemma sorted_scopes {A} (d : gmap Scope A) :
  merge_sort scope_le (map fst (map_to_list d))
  = List.filter (λ s, bool_decide (is_Some (d !! s))) Scope.members.
Proof.
  apply (Sorted_unique scope_le).
  - apply Sorted_merge_sort, _.
  - unfold Scope.members, scope_le. cbn. repeat case_bool_decide; repeat constructor; cbn; lia.
  - rewrite merge_sort_Permutation. apply NoDup_Permutation.
    + apply NoDup_fst_map_to_list.
    + apply NoDup_ListNoDup, List.NoDup_filter, NoDup_ListNoDup. by_compute.
    + intros s. rewrite list_elem_of_fmap. rewrite (list_elem_of_In (List.filter _ _) s), filter_In.
      rewrite bool_decide_eq_true. split.
      * intros ([k v] & -> & Hk%elem_of_map_to_list). split; [destruct k; cbn; auto|eauto].
      * intros [_ [v Hv]]. exists (s, v). by rewrite elem_of_map_to_list.
Qed.

Lemma foldl_max_scope (l : list Scope) m :
  let r := foldl (λ m s, if Nat.ltb (Scope.value m) (Scope.value s) then s else m) m l in
  (r = m ∨ r ∈ l) ∧ scope_le m r ∧ ∀ s, s ∈ l → scope_le s r.
Proof.
  cbn zeta. revert m. induction l as [|x l IH]; intros m; cbn [foldl].
  - split_and!; [auto|unfold scope_le; lia|set_solver].
  - destruct (Nat.ltb_spec (Scope.value m) (Scope.value x));
      [destruct (IH x) as (Hin & Hm & Hall) | destruct (IH m) as (Hin & Hm & Hall)];
      unfold scope_le in *; (split_and!; [rewrite elem_of_cons; tauto|lia|intros s [->|Hs]%elem_of_cons; [lia|auto]]).
Qed.

Lemma cache_build_from service rows ids0 ex0 ids ex :
  foldM (cache_step service) (ids0, ex0) rows = Ok (ids, ex) →
  (∀ s id, id ∈ default ∅ (ids !! s) ↔
     id ∈ default ∅ (ids0 !! s) ∨
     ∃ perm, (id, perm) ∈ rows ∧ scope_for_permission service perm = Ok s)
  ∧ (∀ id, id ∈ ex ↔ id ∈ ex0 ∨
     ∃ perm, (id, perm) ∈ rows ∧ scope_for_permission service perm = Ok Scope.DEFAULT
             ∧ is_explicitly_scoped service perm = Ok true).
Proof.
  revert ids0 ex0. induction rows as [|[i q] rows IH]; cbn [foldM]; intros ids0 ex0.
  { intros [= <- <-]. set_solver. }
  unfold cache_step at 1.
  destruct (scope_for_permission service q) as [s0|] eqn:Hs0; cbn -[cache_step]; [|done].
  destruct (is_explicitly_scoped service q) as [b|] eqn:Hb; cbn -[cache_step]; [|done].
  intros [Hi He]%IH. setoid_rewrite elem_of_cons. unfold scope_eqb in He. split.
  - intros s id. rewrite Hi. destruct (decide (s = s0)) as [->|Hne].
    + rewrite lookup_insert_eq. cbn. rewrite elem_of_union, elem_of_singleton. naive_solver.
    + rewrite lookup_insert_ne by done. naive_solver congruence.
  - intros id. rewrite He. case_bool_decide; destruct b; cbn;
      rewrite ?elem_of_union, ?elem_of_singleton; naive_solver congruence.
Qed.

Lemma cache_build_spec service rows ids ex :
  cache_build service rows = Ok (ids, ex) →
  (∀ s id, id ∈ default ∅ (ids !! s) ↔
     ∃ perm, (id, perm) ∈ rows ∧ scope_for_permission service perm = Ok s)
  ∧ (∀ id, id ∈ ex ↔
     ∃ perm, (id, perm) ∈ rows ∧ scope_for_permission service perm = Ok Scope.DEFAULT
             ∧ is_explicitly_scoped service perm = Ok true).
Proof.
  intros [Hi He]%cache_build_from. split; [|set_solver].
  intros s id. rewrite Hi.
  assert (default ∅ ((list_to_map (map (λ s, (s, ∅)) Scope.members) : gmap Scope (gset Z)) !! s) = ∅)
    as -> by (destruct s; by_compute).
  set_solver.
Qed.

Lemma highest_scope_bounds self perms s
    (Hs : highest_scope_for_permissions self perms = Ok s) :
  s ≠ Scope.ALL
  ∧ (∀ p s', p ∈ perms → scope_for_permission self p = Ok s' → s' = Scope.ALL ∨ scope_le s' s)
  ∧ (s = Scope.DEFAULT ∨ ∃ p, p ∈ perms ∧ scope_for_permission self p = Ok s).
Proof.
  unfold highest_scope_for_permissions in Hs. apply bind_Ok in Hs as (ss & Hss & Hs).
  apply mapM_result_Ok in Hss. inv_ok.
  assert (∀ p s', p ∈ perms → scope_for_permission self p = Ok s' → s' ∈ ss) as Hin.
  { intros p s' Hp Hs'. apply (Forall2_elem_l _ _ _ _ Hss) in Hp as (y & Hy & Hpy). congruence. }
  assert (∀ s', s' ∈ ss → ∃ p, p ∈ perms ∧ scope_for_permission self p = Ok s') as Hout.
  { intros s' Hs'. by apply (Forall2_elem_r _ _ _ _ Hss) in Hs'. }
  set (concrete := List.filter (λ s, negb (scope_eqb s Scope.ALL)) ss) in *.
  assert (∀ s', s' ∈ concrete ↔ s' ∈ ss ∧ s' ≠ Scope.ALL) as Hc.
  { intros s'. unfold concrete. rewrite !list_elem_of_In, filter_In, negb_true_iff.
    unfold scope_eqb. by rewrite bool_decide_eq_false. }
  destruct concrete as [|s1 l].
  - split_and!; [done| |by left]. intros p s' Hp Hs'. left.
    destruct (decide (s' = Scope.ALL)) as [|Hne]; [done|].
    destruct (Hc s') as [_ H]. apply elem_of_nil in H; [done|]. eauto.
  - destruct (foldl_max_scope l s1) as (Hr & Hm & Hall). set (r := foldl _ s1 l) in *.
    assert (r ∈ s1 :: l) as Hrin by (destruct Hr as [-> |]; [left | by right]).
    apply Hc in Hrin as [Hrs Hne]. split_and!; [done| |right; eauto].
    intros p s' Hp Hs'. destruct (decide (s' = Scope.ALL)) as [|Hne']; [by left|]. right.
    assert (s' ∈ s1 :: l) as Hs1 by (apply Hc; eauto).
    apply elem_of_cons in Hs1 as [->|?]; auto.
Qed.

(* ------------------------------------------------------------------ *)
(** * Properties *)

(** [split_permissions_by_binding_scope], for every iteration order of sets:
    no group is keyed by ALL, ROOT and DEFAULT never both appear, groups are
    non-empty and duplicate free; a permission of a concrete scope is in the
    group of that scope (in ROOT's for DEFAULT when there is one), a permission
    of scope ALL is in every group, and nothing else is in a group. *)
Theorem split_permissions_spec `{PySetOrder} self perms d
    (Hd : split_permissions_by_binding_scope self perms = Ok d) :
  d !! Scope.ALL = None
  ∧ (d !! Scope.DEFAULT = None ∨ d !! Scope.ROOT = None)
  ∧ (∀ s l, d !! s = Some l → NoDup l ∧ l ≠ [])
  ∧ (∀ perm s, perm ∈ perms → in_scope self perm s → s ≠ Scope.ALL →
       ∃ l, d !! effective_scope (bool_decide (is_Some (d !! Scope.ROOT))) s = Some l ∧ perm ∈ l)
  ∧ (∀ perm, perm ∈ perms → in_scope self perm Scope.ALL →
       d ≠ ∅ ∧ ∀ s l, d !! s = Some l → perm ∈ l)
  ∧ (∀ perm s l, d !! s = Some l → perm ∈ l → perm ∈ perms ∧
       (in_scope self perm Scope.ALL ∨ in_scope self perm s
        ∨ (s = Scope.ROOT ∧ in_scope self perm Scope.DEFAULT))).
Proof.
  destruct (decide (perms = [])) as [->|Hne].
  { cbn in Hd. inv_ok. split_and!; set_solver. }
  apply split_groups in Hd as (D & HD & HDne & ->); [|done].
  destruct (merge_default_spec _ _ _ HD) as [Hdr HM].
  assert (merge_default (distribute_all D) ≠ ∅) as Hne2.
  { intros He%merge_default_empty. apply HDne, distribute_all_nonempty; [|done].
    by eapply permissions_by_scope_nonempty. }
  set (M := merge_default (distribute_all D)) in *.
  rewrite !lookup_fmap, !fmap_None. setoid_rewrite lookup_fmap. setoid_rewrite fmap_Some.
  split_and!; [by specialize (HM Scope.ALL); destruct (M !! Scope.ALL); naive_solver|done| | | |].
  - intros s l (g & Hg & ->). specialize (HM s). rewrite Hg in HM. destruct HM as (_ & Hg' & _).
    split; [apply NoDup_set_iter | by rewrite set_iter_nil].
  - intros perm s Hp Hi Hs. case_bool_decide as Hroot; rewrite fmap_is_Some in Hroot;
    pose proof (HM s) as HMs; pose proof (HM Scope.ROOT) as HMr;
    pose proof (HM (effective_scope true s)) as HMe;
    destruct s; cbn in *; try done;
    match goal with |- ∃ l, (∃ x, M !! ?k = Some x ∧ _) ∧ _ => destruct (M !! k) as [g|] eqn:Hg end.
    all: try (exists (set_iter g); split; [by exists g | apply elem_of_set_iter; naive_solver]).
    all: try (exfalso; naive_solver).
  - intros perm Hp Hi. split; [by rewrite fmap_empty_iff|].
    intros s l (g & Hg & ->). specialize (HM s). rewrite Hg in HM. apply elem_of_set_iter.
    apply HM. auto.
  - intros perm s l (g & Hg & ->). rewrite elem_of_set_iter. specialize (HM s). rewrite Hg in HM.
    intros Hp. by apply HM in Hp.
Qed.

(** The constructor of [ImplicitResourceService] accepts a configuration
    exactly as listed: when it succeeds, a permission is configured with a scope
    iff one of that scope's strings parses to it, so no permission has two
    scopes. *)
Theorem service_configuration root tenant dflt all m
    (Hm : mk_ImplicitResourceService root tenant dflt all = Ok m) p s :
  m !! p = Some s ↔
  ∃ str, parse_v1 str = Ok p ∧
    str ∈ match s with
          | Scope.ROOT => root
          | Scope.TENANT => tenant
          | Scope.DEFAULT => default [] dflt
          | Scope.ALL => default [] all
          end.
Proof.
  unfold mk_ImplicitResourceService in Hm. inv_ok.
  rewrite (add_permissions_lookup _ _ _ _ Hm).
  repeat match goal with H : add_permissions _ _ _ = Ok _ |- _ =>
    rewrite (add_permissions_lookup _ _ _ _ H); clear H end.
  rewrite lookup_empty. destruct s; naive_solver.
Qed.

(** [scope_for_permission] answers with the scope of a configured pattern
    that covers the permission and that no other configured covering pattern
    refines, preferring [app:resource:*] to [app:*:verb]; it answers DEFAULT
    without such a pattern exactly when [is_explicitly_scoped] is false. *)
Theorem scope_for_permission_precedence self p (Hp : valid_permission p = true) :
  ∃ s, scope_for_permission self (v1_string p) = Ok s ∧
  ((is_explicitly_scoped self (v1_string p) = Ok true ∧
    ∃ c, self !! c = Some s ∧ subsumes c p = true
         ∧ (∀ d, is_Some (self !! d) → subsumes d p = true → subsumes c d = true → d = c)
         ∧ (is_Some (self !! with_unconstrained_verb p) →
            subsumes (with_unconstrained_verb p) c = true))
   ∨ (is_explicitly_scoped self (v1_string p) = Ok false ∧ s = Scope.DEFAULT
      ∧ ∀ c, subsumes c p = true → self !! c = None)).
Proof.
  unfold scope_for_permission, is_explicitly_scoped. rewrite parse_v1_v1_string by done. cbn.
  destruct (first_configured self (wildcard_candidates p)) as [s|] eqn:Hf; cbn.
  - exists s. split; [done|]. left.
    pose proof Hf as (before & c & after & Hc & Hs & Hb)%first_configured_Some.
    assert (c ∈ wildcard_candidates p) as Hin by (rewrite Hc; set_solver).
    split.
    { unfold mret, result_ret. f_equal. apply existsb_exists. exists c.
      rewrite <- list_elem_of_In. split; [done|]. apply bool_decide_eq_true. eauto. }
    exists c. split_and!; [done|by apply candidates_subsumes| |].
    + intros d [s' Hd] Hdp Hcd. apply candidates_subsumes in Hdp. rewrite Hc in Hdp.
      apply elem_of_app in Hdp as [Hdp|[->|Hdp]%elem_of_cons]; [|done|].
      * rewrite (Hb d Hdp) in Hd. done.
      * by eapply candidates_order.
    + intros [s' Hv]. by eapply candidates_prefer_verb.
  - exists Scope.DEFAULT. split; [done|]. right.
    pose proof Hf as Hnone. rewrite first_configured_None in Hnone. split_and!; [|done|].
    { unfold mret, result_ret. f_equal. apply not_true_iff_false. rewrite existsb_exists.
      intros (c & Hc & Hs). rewrite <- list_elem_of_In in Hc. rewrite (Hnone c Hc) in Hs. done. }
    intros c Hc%candidates_subsumes. auto.
Qed.

(** C30: [all_scopes_for_permission] is sound, and complete when no configured
    pattern overlaps the permission without being comparable to it: each scope
    it returns is the scope of a permission covered by the argument, and the
    scope of every concrete permission covered by the argument is returned. *)
Theorem all_scopes_sound_complete self p (Hp : valid_permission p = true)
    (Hcross : ∀ q c, is_Some (self !! q) → subsumes p c = true → subsumes q c = true →
                     subsumes p q = true ∨ subsumes q p = true)
    (Hvalid : ∀ q, is_Some (self !! q) → valid_permission q = true) :
  ∃ S, all_scopes_for_permission self (v1_string p) = Ok S
  ∧ (∀ s, s ∈ S → ∃ q, valid_permission q = true ∧ subsumes p q = true
                       ∧ scope_for_permission self (v1_string q) = Ok s)
  ∧ (∀ c s, valid_permission c = true → is_wildcard c = false → subsumes p c = true →
            scope_for_permission self (v1_string c) = Ok s → s ∈ S).
Proof.
  destruct (all_scopes_for_permission self (v1_string p)) as [S|e] eqn:HS.
  2:{ unfold all_scopes_for_permission, scope_for_permission in HS.
      rewrite parse_v1_v1_string in HS by done. cbn in HS. by destruct (is_wildcard p). }
  exists S. split; [done|].
  destruct (all_scopes_elem _ _ _ HS) as (p' & s0 & Hpp & Hs0 & Hel).
  rewrite parse_v1_v1_string in Hpp by done. injection Hpp as <-. split.
  - intros s [->|(_ & q & Hq & Hpq)]%Hel; [exists p; by rewrite subsumes_refl|].
    exists q. split_and!; eauto. by apply scope_for_configured; eauto.
  - intros c s Hc Hw Hpc Hs. apply Hel. by eapply all_scopes_cover.
Qed.


Lemma binding_scopes_nonempty `{PySetOrder} service perms l : binding_scopes_for_permissions service perms = Ok l → l ≠ [].
Proof.
  unfold binding_scopes_for_permissions. intros (d & _ & Hr)%bind_Ok. case_decide as Hd; injection Hr as <-; [done|].
  intros E%(f_equal length). rewrite merge_sort_Permutation in E. cbn in E. rewrite length_map, length_map_to_list in E.
  by apply map_size_empty_inv in E.
Qed.

(** [binding_scopes_for_permissions] only returns the five shapes its
    documentation allows, in increasing order: one workspace scope, TENANT alone,
    or one workspace scope followed by TENANT. *)
Theorem binding_scopes_shape `{PySetOrder} self perms l
    (Hl : binding_scopes_for_permissions self perms = Ok l) :
  l ∈ [[Scope.DEFAULT]; [Scope.ROOT]; [Scope.TENANT];
       [Scope.DEFAULT; Scope.TENANT]; [Scope.ROOT; Scope.TENANT]].
Proof.
  unfold binding_scopes_for_permissions in Hl. apply bind_Ok in Hl as (d & Hd & Hl).
  case_decide as He; inv_ok; [left|]. rewrite sorted_scopes.
  apply split_keys in Hd as [HA HDR].
  assert (¬ (d !! Scope.DEFAULT = None ∧ d !! Scope.ROOT = None ∧ d !! Scope.TENANT = None)) as Hne.
  { intros (? & ? & ?). apply He, map_eq. intros []; by rewrite lookup_empty. }
  cbn. rewrite HA. destruct (d !! Scope.DEFAULT), (d !! Scope.ROOT), (d !! Scope.TENANT);
    cbn; set_solver.
Qed.

(** [highest_scope_for_permissions] returns a concrete scope, at least as
    high as that of each permission that is not scope-agnostic, and the scope of
    one of them unless it is DEFAULT. *)
Theorem highest_scope_spec self perms s
    (Hs : highest_scope_for_permissions self perms = Ok s) :
  s ≠ Scope.ALL
  ∧ (∀ p s', p ∈ perms → scope_for_permission self p = Ok s' → s' = Scope.ALL ∨ scope_le s' s)
  ∧ (s = Scope.DEFAULT ∨ ∃ p, p ∈ perms ∧ scope_for_permission self p = Ok s).
Proof. by apply highest_scope_bounds. Qed.

(** C29: [PermissionScopeCache] after [invalidate]: the ids returned for a set of
    scopes are exactly those of the rows whose permission has one of the scopes,
    the explicitly DEFAULT ids are those that match a configured entry, and until
    the next [invalidate] later calls answer from the same buckets whatever the
    rows have become. *)
Theorem scope_cache_spec service rows scopes c ids c'
    (Hne : scopes ≠ [])
    (Hr : ids_for_scopes service rows scopes (cache_invalidate c) = (Ok ids, c')) :
  (∀ id, id ∈ ids ↔ ∃ perm s, (id, perm) ∈ rows ∧ scope_for_permission service perm = Ok s
                              ∧ s ∈ scopes)
  ∧ (∀ rows', ids_for_scopes service rows' scopes c' = (Ok ids, c'))
  ∧ ∃ buckets explicit, c' = Some (buckets, explicit) ∧
      ∀ id, id ∈ explicit ↔ ∃ perm, (id, perm) ∈ rows
        ∧ scope_for_permission service perm = Ok Scope.DEFAULT
        ∧ is_explicitly_scoped service perm = Ok true.
Proof.
  assert (∀ rows c, ids_for_scopes service rows scopes c =
    let '(r, c') := cache_get service rows c in
    ((λ v, ⋃ (map (λ s, default ∅ (fst v !! s)) scopes)) <$> r, c')) as Heq by by destruct scopes.
  rewrite Heq in Hr. setoid_rewrite Heq. unfold cache_invalidate, cache_get in Hr.
  destruct (cache_build service rows) as [[buckets explicit]|] eqn:Hb; [|done].
  apply cache_build_spec in Hb as [Hi He].
  assert (ids = ⋃ (map (λ s, default ∅ (buckets !! s)) scopes)) as -> by (cbn in Hr; congruence).
  assert (c' = Some (buckets, explicit)) as -> by congruence.
  split_and!; [|done|eauto].
  intros id. rewrite elem_of_union_list. setoid_rewrite list_elem_of_fmap.
  split.
  - intros (X & (s & -> & Hs) & (perm & ? & ?)%Hi). eauto 10.
  - intros (perm & s & ? & ? & Hs). exists (default ∅ (buckets !! s)).
    split; [by exists s|]. apply Hi. eauto.
Qed.

(* ------------------------------------------------------------------ *)
(** * Witnesses *)

(** The service of a configuration with entries in three scopes. *)
Definition sample_service : ImplicitResourceService :=
  match mk_ImplicitResourceService ["inventory:groups:*"] ["rbac:*:*"] None (Some ["cost:*:*"]) with
  | Ok m => m
  | Raise _ => ∅
  end.

Lemma split_permissions_spec_witness :
  ∃ l, default [] (match split_permissions_by_binding_scope sample_service
                      ["rbac:role:read"; "inventory:groups:read"; "foo:bar:read"; "cost:a:read"] with
                   | Ok d => d !! Scope.ROOT | Raise _ => None end) = l ∧ NoDup l.
Proof.
  destruct (split_permissions_by_binding_scope sample_service
    ["rbac:role:read"; "inventory:groups:read"; "foo:bar:read"; "cost:a:read"]) as [d|] eqn:Hd;
    [|exfalso; revert Hd; vm_compute; discriminate].
  eexists. split; [reflexivity|].
  destruct (split_permissions_spec _ _ _ Hd) as (_ & _ & Hl & _).
  destruct (d !! Scope.ROOT) as [l|] eqn:Hr; cbn; [by apply (Hl Scope.ROOT) | constructor].
Defined.

Lemma service_configuration_witness :
  sample_service !! mkPermissionValue "rbac" "*" "*" = Some Scope.TENANT.
Proof.
  apply (service_configuration ["inventory:groups:*"] ["rbac:*:*"] None (Some ["cost:*:*"])
    sample_service eq_refl).
  exists "rbac:*:*". split; [reflexivity | left].
Defined.

Lemma scope_for_permission_precedence_witness :
  ∃ s, scope_for_permission sample_service "inventory:groups:read" = Ok s.
Proof.
  destruct (scope_for_permission_precedence sample_service
    (mkPermissionValue "inventory" "groups" "read") eq_refl) as (s & Hs & _).
  exists s. exact Hs.
Defined.

Lemma all_scopes_sound_complete_witness :
  ∃ S, all_scopes_for_permission {[mkPermissionValue "inventory" "groups" "*" := Scope.ROOT]}
         "inventory:*:*" = Ok S ∧ Scope.ROOT ∈ S.
Proof.
  destruct (all_scopes_sound_complete {[mkPermissionValue "inventory" "groups" "*" := Scope.ROOT]}
    (mkPermissionValue "inventory" "*" "*") eq_refl) as (S & HS & _ & Hc).
  - intros q c [s [<- _]%lookup_singleton_Some]. left. reflexivity.
  - intros q [s [<- _]%lookup_singleton_Some]. reflexivity.
  - exists S. split; [exact HS|].
    apply (Hc (mkPermissionValue "inventory" "groups" "read")); by_compute.
Defined.

Lemma binding_scopes_shape_witness :
  [Scope.ROOT; Scope.TENANT] ∈ [[Scope.DEFAULT]; [Scope.ROOT]; [Scope.TENANT];
       [Scope.DEFAULT; Scope.TENANT]; [Scope.ROOT; Scope.TENANT]].
Proof.
  apply (binding_scopes_shape sample_service
    ["rbac:role:read"; "inventory:groups:read"; "foo:bar:read"] [Scope.ROOT; Scope.TENANT]).
  by_compute.
Defined.

Lemma highest_scope_spec_witness : Scope.TENANT ≠ Scope.ALL.
Proof.
  refine (proj1 (highest_scope_spec sample_service ["rbac:role:read"; "cost:a:read"] Scope.TENANT _)).
  by_compute.
Defined.

Lemma scope_cache_spec_witness :
  (1 : Z) ∈ ({[1%Z]} : gset Z) ↔ ∃ perm s, ((1 : Z), perm) ∈ [(1%Z, "rbac:role:read"); (2%Z, "foo:a:b")]
    ∧ scope_for_permission sample_service perm = Ok s ∧ s ∈ [Scope.TENANT].
Proof.
  refine (proj1 (scope_cache_spec sample_service [(1%Z, "rbac:role:read"); (2%Z, "foo:a:b")]
    [Scope.TENANT] None {[1%Z]}
    (snd (ids_for_scopes sample_service [(1%Z, "rbac:role:read"); (2%Z, "foo:a:b")] [Scope.TENANT] None))
    ltac:(discriminate) _) 1%Z).
  by_compute.
Defined.
