(* ===== verification/Outbox.v ===== *)
(** Replication events and the transactional outbox:
    rbac/management/inventory_replicator/inventory_replicator.py and
    outbox_replicator.py, rbac/internal/migration_coordination.py, the
    de-duplication of rbac/management/role/relations.py, the in-memory replicator
    of rbac/migration_tool/in_memory_tuples.py and the retry loop of
    rbac/management/atomic_transactions.py. *)

From S2P Require Import Prelude.
From S2P Require Import PyString.
From S2P Require Import Config.
From S2P Require Import RelationTypes.
From S2P Require Import TupleStore.

(* ------------------------------------------------------------------ *)
(** * Events *)

Inductive ReplicationEventType :=
| CREATE_SYSTEM_ROLE | UPDATE_SYSTEM_ROLE | DELETE_SYSTEM_ROLE
| CREATE_CUSTOM_ROLE | UPDATE_CUSTOM_ROLE | DELETE_CUSTOM_ROLE
| ASSIGN_ROLE | UNASSIGN_ROLE
| CREATE_GROUP | UPDATE_GROUP | DELETE_GROUP
| ADD_PRINCIPALS_TO_GROUP | REMOVE_PRINCIPALS_FROM_GROUP
| BOOTSTRAP_TENANT | BULK_BOOTSTRAP_TENANT
| EXTERNAL_USER_UPDATE | EXTERNAL_USER_DISABLE | BULK_EXTERNAL_USER_UPDATE
| MIGRATE_CUSTOM_ROLE | MIGRATE_TENANT_GROUPS | CUSTOMIZE_DEFAULT_GROUP
| MIGRATE_SYSTEM_ROLE_ASSIGNMENT
| APPROVE_CROSS_ACCOUNT_REQUEST | DENY_CROSS_ACCOUNT_REQUEST
| EXPIRE_CROSS_ACCOUNT_REQUEST | MIGRATE_CROSS_ACCOUNT_REQUEST
| DELETE_BINDING_MAPPINGS | CREATE_UNGROUPED_HOSTS_WORKSPACE | FIX_RESOURCE_DEFINITIONS
| MIGRATE_BINDING_SCOPE | REMIGRATE_ROLE_BINDING | DUPLICATE_BINDING_CLEANUP
| WORKSPACE_IMPORT | CREATE_WORKSPACE | UPDATE_WORKSPACE | DELETE_WORKSPACE | MOVE_WORKSPACE
| CLEANUP_ORPHAN_BINDINGS | REMOVE_UNASSIGNED_BINDING_MAPPINGS
| BATCH_CREATE_ROLE_BINDING | UPDATE_ROLE_BINDINGS_FOR_SUBJECT
| REMOVE_DELETED_WORKSPACE_BINDINGS | UPDATE_ROOT_WORKSPACE_TENANTS
| REMOVE_ROOT_PARENT_TENANT_RELATIONSHIPS
| DR_CORRECTIVE_ADD | DR_CORRECTIVE_REMOVE.

#[global] Instance ReplicationEventType_eq_dec : EqDecision ReplicationEventType.
Proof. solve_decision. Defined.

(** The string value of a member. *)
Definition event_value (e : ReplicationEventType) : string :=
  match e with
  | CREATE_SYSTEM_ROLE => "create_system_role"
  | UPDATE_SYSTEM_ROLE => "update_system_role"
  | DELETE_SYSTEM_ROLE => "delete_system_role"
  | CREATE_CUSTOM_ROLE => "create_custom_role"
  | UPDATE_CUSTOM_ROLE => "update_custom_role"
  | DELETE_CUSTOM_ROLE => "delete_custom_role"
  | ASSIGN_ROLE => "assign_role"
  | UNASSIGN_ROLE => "unassign_role"
  | CREATE_GROUP => "create_group"
  | UPDATE_GROUP => "update_group"
  | DELETE_GROUP => "delete_group"
  | ADD_PRINCIPALS_TO_GROUP => "add_principals_to_group"
  | REMOVE_PRINCIPALS_FROM_GROUP => "remove_principals_from_group"
  | BOOTSTRAP_TENANT => "bootstrap_tenant"
  | BULK_BOOTSTRAP_TENANT => "bulk_bootstrap_tenant"
  | EXTERNAL_USER_UPDATE => "external_user_update"
  | EXTERNAL_USER_DISABLE => "external_user_disable"
  | BULK_EXTERNAL_USER_UPDATE => "bulk_external_user_update"
  | MIGRATE_CUSTOM_ROLE => "migrate_custom_role"
  | MIGRATE_TENANT_GROUPS => "migrate_tenant_groups"
  | CUSTOMIZE_DEFAULT_GROUP => "customize_default_group"
  | MIGRATE_SYSTEM_ROLE_ASSIGNMENT => "migrate_system_role_assignment"
  | APPROVE_CROSS_ACCOUNT_REQUEST => "approve_cross_account_request"
  | DENY_CROSS_ACCOUNT_REQUEST => "deny_cross_account_request"
  | EXPIRE_CROSS_ACCOUNT_REQUEST => "expire_cross_account_request"
  | MIGRATE_CROSS_ACCOUNT_REQUEST => "migrate_cross_account_request"
  | DELETE_BINDING_MAPPINGS => "delete_binding_mappings"
  | CREATE_UNGROUPED_HOSTS_WORKSPACE => "create_ungrouped_hosts_workspace"
  | FIX_RESOURCE_DEFINITIONS => "fix_resource_definitions"
  | MIGRATE_BINDING_SCOPE => "migrate_binding_scope"
  | REMIGRATE_ROLE_BINDING => "remigrate_role_binding"
  | DUPLICATE_BINDING_CLEANUP => "duplicate_binding_cleanup"
  | WORKSPACE_IMPORT => "workspace_import"
  | CREATE_WORKSPACE => "create_workspace"
  | UPDATE_WORKSPACE => "update_workspace"
  | DELETE_WORKSPACE => "delete_workspace"
  | MOVE_WORKSPACE => "move_workspace"
  | CLEANUP_ORPHAN_BINDINGS => "cleanup_orphan_bindings"
  | REMOVE_UNASSIGNED_BINDING_MAPPINGS => "remove_unassigned_binding_mappings"
  | BATCH_CREATE_ROLE_BINDING => "batch_create_role_binding"
  | UPDATE_ROLE_BINDINGS_FOR_SUBJECT => "update_role_bindings_for_subject"
  | REMOVE_DELETED_WORKSPACE_BINDINGS => "remove_deleted_workspace_bindings"
  | UPDATE_ROOT_WORKSPACE_TENANTS => "update_root_workspace_tenants"
  | REMOVE_ROOT_PARENT_TENANT_RELATIONSHIPS => "remove_root_parent_tenant_relationships"
  | DR_CORRECTIVE_ADD => "dr_corrective_add"
  | DR_CORRECTIVE_REMOVE => "dr_corrective_remove"
  end.

(** The values of [event_info]: a string (or something printed as one) or None. *)
Abbreviation info_dict := (list (string * option string)).

(** [str(v)] of such a value. *)
Definition py_str (v : option string) : string := match v with Some s => s | None => "None" end.

(** An event; every event is partitioned by the environment. *)
Record ReplicationEvent := mkReplicationEvent {
  event_type : ReplicationEventType;
  event_info : info_dict;
  ev_add : list RelationTuple;
  ev_remove : list RelationTuple;
}.

(** [EnvironmentPartitionKey.__str__] *)
Definition environment_partition_key `{Settings} : string := ENV_NAME.

(* ------------------------------------------------------------------ *)
(** * Resource contexts *)

(** [ReplicationEventResourceContext.to_json] *)
Definition resource_context_json (org_id event_type : string) (created_at : Z)
    (resource_type resource_id : option string) : list (string * json) :=
  [("org_id", JStr org_id); ("event_type", JStr event_type); ("created_at", JInt created_at)]
  ++ match resource_type with Some t => [("resource_type", JStr t)] | None => [] end
  ++ match resource_id with Some i => [("resource_id", JStr i)] | None => [] end.

Record MigrationNotifyCoordination := mkMigrationNotifyCoordination {
  channel : string;
  include_org_id_in_context : bool;
  require_notify_token : bool;
}.

(** [migration_notify_coordination], a lookup by the event's string value. *)
Definition migration_notify_coordination (event_type : string) : option MigrationNotifyCoordination :=
  if String.eqb event_type "remove_root_parent_tenant_relationships" then
    Some (mkMigrationNotifyCoordination "remove_legacy_root_workspace_parent_batch" false true)
  else if String.eqb event_type "migrate_binding_scope" then
    Some (mkMigrationNotifyCoordination "migrate_binding_scope_batch" true false)
  else None.

(** [build_migration_notify_resource_context] *)
Definition build_migration_notify_resource_context (event_type : string) (event_info : info_dict)
    (coordination : MigrationNotifyCoordination) (now : Z) : option (list (string * json)) :=
  match assoc "notify_token" event_info with
  | Some (Some token) =>
      if str_truth token then
        let org_id := if include_org_id_in_context coordination
                      then py_str (default (Some "") (assoc "org_id" event_info)) else "" in
        Some [("org_id", JStr org_id); ("event_type", JStr event_type);
              ("created_at", JInt now); ("notify_token", JStr token)]
      else None
  | _ => None
  end.

(** [ReplicationEvent.resource_context] after the coordinated migrations. *)
Definition plain_resource_context (e : ReplicationEvent) (now : Z) : option (list (string * json)) :=
  let org_id := py_str (default (Some "") (assoc "org_id" (event_info e))) in
  if decide (event_type e = CREATE_WORKSPACE) then
    match assoc "workspace_id" (event_info e) with
    | None => None
    | Some w => Some (resource_context_json org_id (event_value (event_type e)) now
                        (Some "Workspace") (Some (py_str w)))
    end
  else Some (resource_context_json org_id (event_value (event_type e)) now None None).

(** [ReplicationEvent.resource_context] *)
Definition resource_context (e : ReplicationEvent) (now : Z) : option (list (string * json)) :=
  match migration_notify_coordination (event_value (event_type e)) with
  | Some coordination =>
      match build_migration_notify_resource_context (event_value (event_type e)) (event_info e)
              coordination now with
      | Some ctx => Some ctx
      | None => if require_notify_token coordination then None else plain_resource_context e now
      end
  | None => plain_resource_context e now
  end.

(* ------------------------------------------------------------------ *)
(** * The outbox *)

Inductive AggregateTypes := RELATIONS | WORKSPACE | WORKSPACE_BULK.
Definition aggregate_value (a : AggregateTypes) : string :=
  match a with
  | RELATIONS => "relations-replication-event"
  | WORKSPACE => "workspace"
  | WORKSPACE_BULK => "workspace-bulk"
  end.

Inductive WorkspaceEventStream := STANDARD_STREAM | BULK_STREAM.
Definition aggregate_type (s : WorkspaceEventStream) : AggregateTypes :=
  match s with STANDARD_STREAM => WORKSPACE | BULK_STREAM => WORKSPACE_BULK end.

(** An outbox row. *)
Record Outbox := mkOutbox {
  aggregatetype : string;
  aggregateid : string;
  ob_event_type : ReplicationEventType;
  payload : json;
}.

(** The log the rows go to: [InMemoryLog] keeps them in a list; [OutboxWAL]
    inserts and deletes each row, which leaves the same sequence of insertions in
    the write-ahead log. *)
Abbreviation outbox_log := (list Outbox).
Definition log_row (row : Outbox) (log : outbox_log) : outbox_log := log ++ [row].

(** The loop of [_check_for_duplicate_relationships]. *)
Fixpoint duplicate_keys (seen : gset string) (relationships : list RelationTuple) : list string :=
  match relationships with
  | [] => []
  | rel :: rels =>
      let key := stringify_spicedb_relationship rel in
      if decide (key ∈ seen) then key :: duplicate_keys seen rels
      else duplicate_keys ({[key]} ∪ seen) rels
  end.

Definition check_for_duplicate_relationships (relationships : list RelationTuple) : result unit :=
  raise_if (negb (Nat.eqb (length (duplicate_keys ∅ relationships)) 0)) ValueError.

(** [_build_replication_event] *)
Definition build_replication_event (e : ReplicationEvent) (now : Z) : result json :=
  _ ← check_for_duplicate_relationships (ev_add e);
  let base := [("relations_to_add", JList (map to_dict (ev_add e)));
               ("relations_to_remove", JList (map to_dict (ev_remove e)))] in
  mret (JDict (base ++ match resource_context e now with
                       | Some ctx => [("resource_context", JDict ctx)]
                       | None => []
                       end)).

(** [_save_replication_event]: an event without tuples is skipped. *)
Definition save_replication_event `{Settings} (p : json) (e : ReplicationEvent)
    (log : outbox_log) : outbox_log :=
  match ev_add e, ev_remove e with
  | [], [] => log
  | _, _ => log_row (mkOutbox (aggregate_value RELATIONS) environment_partition_key
                      (event_type e) p) log
  end.

(** [OutboxReplicator.replicate] *)
Definition outbox_replicate `{Settings} (e : ReplicationEvent) (now : Z) (log : outbox_log) :
    result outbox_log :=
  p ← build_replication_event e now;
  mret (save_replication_event p e log).

(** The replicator a service is built with: the outbox when replication is
    enabled, otherwise [NoopReplicator].  [emit] is the effect of one call of
    [replicate] as the events that reach the log. *)
Definition emit `{Settings} (e : ReplicationEvent) : result (list ReplicationEvent) :=
  if REPLICATION_TO_RELATION_ENABLED then
    _ ← check_for_duplicate_relationships (ev_add e);
    mret (match ev_add e, ev_remove e with [], [] => [] | _, _ => [e] end)
  else mret [].

(** A workspace event and [OutboxReplicator.replicate_workspace]; only three
    event types have an operation. *)
Record WorkspaceEvent := mkWorkspaceEvent {
  we_org_id : string;
  we_account_number : string;
  we_workspace : list (string * json);
  we_event_type : ReplicationEventType;
}.

Definition operation_mapping (e : ReplicationEventType) : option string :=
  match e with
  | CREATE_WORKSPACE => Some "create"
  | DELETE_WORKSPACE => Some "delete"
  | UPDATE_WORKSPACE => Some "update"
  | _ => None
  end.

Definition replicate_workspace `{Settings} (e : WorkspaceEvent) (stream : WorkspaceEventStream)
    (log : outbox_log) : result outbox_log :=
  operation ← or_raise KeyError (operation_mapping (we_event_type e));
  mret (log_row (mkOutbox (aggregate_value (aggregate_type stream)) environment_partition_key
    (we_event_type e)
    (JDict [("org_id", JStr (we_org_id e)); ("account_number", JStr (we_account_number e));
            ("workspace", JDict (we_workspace e)); ("operation", JStr operation)])) log).

(** [InMemoryRelationReplicator.replicate] *)
Definition in_memory_replicate (store : tuples) (e : ReplicationEvent) : result tuples :=
  write (ev_add e) (ev_remove e) store.

(** What a consumer reads back from a row: the two lists of tuples. *)
Definition read_relations (k : string) (p : json) : result (list RelationTuple) :=
  v ← jindex p k;
  match v with JList l => mapM from_message_dict l | _ => Raise TypeError end.

Definition apply_row (store : tuples) (row : Outbox) : result tuples :=
  if String.eqb (aggregatetype row) (aggregate_value RELATIONS) then
    add ← read_relations "relations_to_add" (payload row);
    remove ← read_relations "relations_to_remove" (payload row);
    write add remove store
  else Ok store.

(* ------------------------------------------------------------------ *)
(** * De-duplication and errors *)

(** [deduplicate_role_permission_relationships] *)
Definition is_role_permission (rel : RelationTuple) : bool :=
  String.eqb (namespace (otype (resource rel))) "rbac"
  && String.eqb (name (otype (resource rel))) "role"
  && String.eqb (namespace (otype (subj (subject rel)))) "rbac"
  && String.eqb (name (otype (subj (subject rel)))) "principal"
  && String.eqb (oid (subj (subject rel))) "*".

Fixpoint dedup_role_permissions (seen : gset string) (relationships : list RelationTuple) :
    list RelationTuple :=
  match relationships with
  | [] => []
  | rel :: rels =>
      let key := stringify_spicedb_relationship rel in
      if bool_decide (key ∈ seen) && is_role_permission rel then dedup_role_permissions seen rels
      else rel :: dedup_role_permissions ({[key]} ∪ seen) rels
  end.

Definition deduplicate_role_permission_relationships (relationships : list RelationTuple) :
    list RelationTuple := dedup_role_permissions ∅ relationships.

(** [role_child_relationship] and [role_owner_relationship] *)
Definition role_child_relationship (parent_uuid child_uuid : string) : result RelationTuple :=
  create_relationship ("rbac", "role") parent_uuid ("rbac", "role") child_uuid "child" None.
Definition role_owner_relationship (role_uuid tenant_resource_id : string) : result RelationTuple :=
  create_relationship ("rbac", "role") role_uuid ("rbac", "tenant") tenant_resource_id "owner" None.

(** [raise_dual_write_exception]: what a handler failure becomes. *)
Definition raise_dual_write_exception {A} (e : exn) : result A :=
  match e with
  | OperationalError true => Raise (OperationalError true)
  | _ => Raise DualWriteException
  end.

Definition dual_write {A} (m : result A) : result A :=
  match m with Ok a => Ok a | Raise e => raise_dual_write_exception e end.

(** [run_nested_transaction_retries]: the attempts [i], [i+1], ... of a callable
    that works on a state; a failed attempt is rolled back, so the next starts
    from the same state.  [last] is [last_exception]. *)
Fixpoint retry_loop {St A} (callable : nat → St → result (A * St)) (s : St) (i n : nat) (last : exn) :
    result (A * St) :=
  match n with
  | 0 => Raise last
  | S n' => match callable i s with
            | Ok r => Ok r
            | Raise (OperationalError true) =>
                retry_loop callable s (i + 1) n' (OperationalError true)
            | Raise e => Raise e
            end
  end.

Definition run_nested_transaction_retries {St A} (retries : Z)
    (callable : nat → St → result (A * St)) (s : St) : result (A * St) :=
  if Z.ltb retries 1 then Raise ValueError
  else retry_loop callable s 0 (Z.to_nat retries) TypeError.

(* ------------------------------------------------------------------ *)
(** * Lemmas *)

Lemma duplicate_keys_nil seen l :
  duplicate_keys seen l = [] ↔
  NoDup (map stringify_spicedb_relationship l)
  ∧ Forall (λ t, stringify_spicedb_relationship t ∉ seen) l.
Proof.
  revert seen. induction l as [|t l IH]; cbn; intros seen.
  - split; [intros _; split; constructor | done].
  - case_decide as Hin; rewrite NoDup_cons, Forall_cons.
    + split; [done|]. naive_solver.
    + rewrite IH, !Forall_forall, list_elem_of_fmap. split.
      * intros [Hnd Hall]. split_and!; [|done|done|set_solver].
        intros (t' & Ht & Hin'). specialize (Hall t' Hin'). set_solver.
      * intros [[Hn Hnd] [_ Hall]]. split; [done|]. intros t' Hin'.
        rewrite elem_of_union, elem_of_singleton. intros [He|Hs]; [|by apply (Hall t')].
        apply Hn. eauto.
Qed.

Lemma check_for_duplicates_eq l :
  check_for_duplicate_relationships l =
  if decide (NoDup (map stringify_spicedb_relationship l)) then Ok tt else Raise ValueError.
Proof.
  unfold check_for_duplicate_relationships.
  pose proof (duplicate_keys_nil ∅ l) as Hd.
  assert (Forall (λ t, stringify_spicedb_relationship t ∉ (∅ : gset string)) l) as Hf
    by (apply Forall_forall; set_solver).
  case_decide as Hn.
  - assert (duplicate_keys ∅ l = []) as -> by (apply Hd; done). done.
  - destruct (duplicate_keys ∅ l) as [|k ks] eqn:He; [|done].
    exfalso. apply Hn. by apply Hd.
Qed.

Lemma NoDup_of_map {A B} (f : A → B) l : NoDup (map f l) → NoDup l.
Proof.
  induction l as [|x l IH]; cbn; [constructor|]. rewrite !NoDup_cons, list_elem_of_fmap.
  intros [Hn Hl]. split; [|auto]. intros Hx. apply Hn. eauto.
Qed.

Lemma NoDup_map_keys l :
  Forall (λ t, rbac_tuple t = true) l →
  NoDup (map stringify_spicedb_relationship l) ↔ NoDup l.
Proof.
  intros Hl. split; [apply NoDup_of_map|]. rewrite Forall_forall in Hl.
  induction l as [|t l IH]; cbn; [constructor|]. rewrite !NoDup_cons, list_elem_of_fmap.
  intros [Hn Hnd]. split; [|apply IH; [|done]; intros; apply Hl; by right].
  intros (t' & Ht & Hin). apply Hn. rewrite (rbac_tuple_key_inj t t'); [done|..|done];
    apply Hl; [left | by right].
Qed.

Lemma rbac_tuple_valid t : rbac_tuple t = true → valid_tuple t = true.
Proof. unfold rbac_tuple. rewrite !andb_true_iff. tauto. Qed.

Lemma read_dicts l :
  Forall (λ t, valid_tuple t = true) l → mapM from_message_dict (map to_dict l) = Ok l.
Proof.
  intros Hl. apply mapM_result_Ok. induction Hl as [|t l Ht _ IH]; cbn; constructor; [|done].
  by apply from_message_dict_to_dict.
Qed.

Lemma build_replication_event_Ok e now p :
  build_replication_event e now = Ok p →
  NoDup (map stringify_spicedb_relationship (ev_add e))
  ∧ jindex p "relations_to_add" = Ok (JList (map to_dict (ev_add e)))
  ∧ jindex p "relations_to_remove" = Ok (JList (map to_dict (ev_remove e))).
Proof.
  unfold build_replication_event. rewrite check_for_duplicates_eq. case_decide; cbn; [|done].
  by intros [= <-].
Qed.

(** [emit] agrees with [replicate] on the outbox: same errors, and the row logged
    is the row of the emitted event. *)
Lemma emit_replicate `{Settings} e now log :
  REPLICATION_TO_RELATION_ENABLED = true →
  match outbox_replicate e now log, emit e with
  | Ok log', Ok es => length log' = length log + length es
  | Raise x, Raise y => x = y
  | _, _ => False
  end.
Proof.
  intros He. unfold outbox_replicate, build_replication_event, emit. rewrite He.
  destruct (check_for_duplicate_relationships (ev_add e)); cbn; [|done].
  unfold save_replication_event, log_row.
  destruct (ev_add e), (ev_remove e); cbn; rewrite ?length_app; cbn; lia.
Qed.

(** A run of events on a store. *)
Definition replay (store : tuples) (events : list ReplicationEvent) : result tuples :=
  foldM in_memory_replicate store events.

(** An event of distinct tuples is accepted, and the emitted events have the
    effect of the event on any store. *)
Lemma emit_effect `{Settings} e :
  REPLICATION_TO_RELATION_ENABLED = true →
  Forall (λ t, rbac_tuple t = true) (ev_add e) → NoDup (ev_add e) →
  ∃ es, emit e = Ok es ∧
    ∀ store, replay store es = Ok (list_to_set (ev_add e) ∪ (store ∖ list_to_set (ev_remove e))).
Proof.
  intros He Hv Hn. unfold emit. rewrite He, check_for_duplicates_eq, decide_True by by apply NoDup_map_keys.
  cbn. eexists. split; [done|]. intros store.
  assert (replay store [e] = Ok (list_to_set (ev_add e) ∪ (store ∖ list_to_set (ev_remove e)))) as Hr.
  { unfold replay, in_memory_replicate. cbn. by rewrite write_eq, decide_True. }
  destruct (ev_add e) as [|a l] eqn:Ha, (ev_remove e) as [|r l'] eqn:Hb; [|done..].
  cbn. f_equal. set_solver.
Qed.

(** What a run does to the membership of [t] does not depend on the store beyond
    whether [t] was there: [effect] is the last word on [t], if any. *)
Fixpoint effect (t : RelationTuple) (events : list ReplicationEvent) : option bool :=
  match events with
  | [] => None
  | e :: es => match effect t es with
               | Some b => Some b
               | None => if decide (t ∈ ev_add e) then Some true
                         else if decide (t ∈ ev_remove e) then Some false else None
               end
  end.

Lemma replay_effect events s s' :
  replay s events = Ok s' →
  ∀ t, t ∈ s' ↔ match effect t events with Some b => b = true | None => t ∈ s end.
Proof.
  unfold replay. revert s. induction events as [|e es IH]; cbn; intros s.
  - by intros [= <-].
  - unfold in_memory_replicate at 1. rewrite write_eq. case_decide; [|done].
    intros Hr t. rewrite (IH _ Hr t). destruct (effect t es); [done|].
    rewrite elem_of_union, elem_of_difference, !elem_of_list_to_set.
    repeat case_decide; naive_solver.
Qed.

Lemma replay_ok events s :
  is_ok (replay s events) = forallb (λ e, bool_decide (NoDup (ev_add e))) events.
Proof.
  unfold replay. revert s. induction events as [|e es IH]; cbn; intros s; [done|].
  unfold in_memory_replicate at 1. rewrite write_eq.
  case_decide; [rewrite bool_decide_true by done | rewrite bool_decide_false by done]; cbn; auto.
Qed.

Lemma retry_loop_spec {St A} (callable : nat → St → result (A * St)) s n i last :
  let r := retry_loop callable s i n last in
  (∃ k, k < n ∧ r = callable (i + k) s ∧ r ≠ Raise (OperationalError true)
        ∧ ∀ j, j < k → callable (i + j) s = Raise (OperationalError true))
  ∨ (r = Raise (match n with 0 => last | _ => OperationalError true end)
     ∧ ∀ j, j < n → callable (i + j) s = Raise (OperationalError true)).
Proof.
  cbn zeta. revert i last. induction n as [|n IH]; cbn; intros i last.
  { right. split; [done|]. lia. }
  destruct (callable i s) as [r|e] eqn:Hc.
  { left. exists 0. rewrite Nat.add_0_r, Hc. split_and!; [lia|done|done|lia]. }
  destruct (decide (e = OperationalError true)) as [->|Hne].
  - destruct (IH (i + 1) (OperationalError true)) as [(k & Hk & Hr & Hne & Hj)|[Hr Hj]].
    + left. exists (S k). rewrite Hr, <- !Nat.add_assoc in *. split_and!; [lia|done|done|].
      intros [|j] Hlt; [by rewrite Nat.add_0_r|]. rewrite <- (Hj j) by lia. f_equal. lia.
    + right. split; [rewrite Hr; by destruct n|]. intros [|j] Hlt; [by rewrite Nat.add_0_r|].
      rewrite <- (Hj j) by lia. f_equal. lia.
  - left. exists 0. rewrite Nat.add_0_r, Hc.
    destruct e; try (match goal with b : bool |- _ => destruct b end);
      (split_and!; [lia|done|congruence|lia]).
Qed.

Lemma dedup_elem seen l t :
  Forall (λ t, rbac_tuple t = true) l →
  (t ∈ dedup_role_permissions seen l → t ∈ l)
  ∧ (t ∈ l → t ∈ dedup_role_permissions seen l ∨ stringify_spicedb_relationship t ∈ seen).
Proof.
  intros Hl. revert seen. induction Hl as [|u l Hu Hl IH]; cbn; intros seen; [set_solver|].
  destruct (bool_decide _ && _) eqn:Hb.
  - apply andb_true_iff in Hb as [Hk%bool_decide_eq_true _]. destruct (IH seen) as [H1 H2].
    split; [set_solver|]. intros [->|?]%elem_of_cons; auto.
  - destruct (IH ({[stringify_spicedb_relationship u]} ∪ seen)) as [H1 H2].
    split; [set_solver|]. intros [->|Hin]%elem_of_cons; [left; left|].
    destruct (H2 Hin) as [?|[Hk%elem_of_singleton|?]%elem_of_union]; [by left; right| |by right].
    left. rewrite Forall_forall in Hl. rewrite (rbac_tuple_key_inj t u); [left|auto..].
Qed.

Lemma dedup_NoDup seen l :
  Forall (λ t, rbac_tuple t = true) l →
  NoDup (List.filter (λ t, negb (is_role_permission t)) l) →
  (∀ t, t ∈ l → is_role_permission t = false → stringify_spicedb_relationship t ∉ seen) →
  NoDup (map stringify_spicedb_relationship (dedup_role_permissions seen l))
  ∧ ∀ t, t ∈ dedup_role_permissions seen l → stringify_spicedb_relationship t ∉ seen.
Proof.
  intros Hl. revert seen. induction Hl as [|u l Hu Hl IH]; cbn; intros seen Hnd Hseen.
  { split; [constructor | set_solver]. }
  destruct (bool_decide _ && _) eqn:Hb.
  - apply andb_true_iff in Hb as [_ Hp]. rewrite Hp in Hnd. apply IH; [done|]. set_solver.
  - assert (stringify_spicedb_relationship u ∉ seen) as Hus.
    { apply andb_false_iff in Hb as [Hb%bool_decide_eq_false|Hp]; [done|]. apply Hseen; [left|done]. }
    destruct (IH ({[stringify_spicedb_relationship u]} ∪ seen)) as [H1 H2].
    + destruct (is_role_permission u); cbn in Hnd; [done|]. by apply NoDup_cons in Hnd as [_ ?].
    + intros t Ht Hp. rewrite not_elem_of_union, not_elem_of_singleton. split; [|set_solver].
      intros Hk. rewrite Forall_forall in Hl. assert (t = u) as -> by (apply rbac_tuple_key_inj; auto).
      rewrite Hp in Hnd. cbn in Hnd. apply NoDup_cons in Hnd as [Hn _]. apply Hn.
      rewrite list_elem_of_In, filter_In, <- list_elem_of_In. by rewrite Hp.
    + cbn. rewrite NoDup_cons, list_elem_of_fmap. split; [split; [|done]|].
      * intros (t & Ht & Hin%H2). set_solver.
      * intros t [->|Hin%H2]%elem_of_cons; set_solver.
Qed.

(* ------------------------------------------------------------------ *)
(** * Properties *)

(** [OutboxReplicator.replicate] loses nothing: an accepted event of valid
    tuples is skipped when it is empty and otherwise appends one row, and reading
    that row back and applying it to any tuple store succeeds with the same
    result as handing the event to the in-memory replicator. *)
Theorem outbox_refines_in_memory `{Settings} e now log log'
    (Hadd : Forall (λ t, valid_tuple t = true) (ev_add e))
    (Hrem : Forall (λ t, valid_tuple t = true) (ev_remove e))
    (Hr : outbox_replicate e now log = Ok log') :
  (ev_add e = [] ∧ ev_remove e = [] ∧ log' = log)
  ∨ ∃ row, log' = log ++ [row] ∧
      ∀ store, apply_row store row = in_memory_replicate store e
               ∧ is_ok (in_memory_replicate store e) = true.
Proof.
  unfold outbox_replicate in Hr. apply bind_Ok in Hr as (p & Hp & [= <-]).
  apply build_replication_event_Ok in Hp as (Hn & Ha & Hb).
  assert (∀ store, apply_row store (mkOutbox (aggregate_value RELATIONS) environment_partition_key
    (event_type e) p) = in_memory_replicate store e ∧ is_ok (in_memory_replicate store e) = true) as Hrow.
  { intros store. unfold apply_row, read_relations, in_memory_replicate. cbn -[from_message_dict].
    rewrite Ha, Hb. cbn -[from_message_dict]. rewrite !read_dicts by done. cbn.
    split; [done|]. rewrite write_eq, decide_True; [done|]. by eapply NoDup_of_map. }
  unfold save_replication_event. destruct (ev_add e), (ev_remove e); eauto.
Qed.

(** The duplicate check of the outbox is exact on the tuples the services
    write: an event is rejected with ValueError iff its additions contain a tuple
    twice. *)
Theorem outbox_duplicate_check `{Settings} e now log
    (Hadd : Forall (λ t, rbac_tuple t = true) (ev_add e)) :
  (NoDup (ev_add e) ∧ is_ok (outbox_replicate e now log) = true)
  ∨ (¬ NoDup (ev_add e) ∧ outbox_replicate e now log = Raise ValueError).
Proof.
  unfold outbox_replicate, build_replication_event. rewrite check_for_duplicates_eq.
  pose proof (NoDup_map_keys _ Hadd) as Hk.
  case_decide as Hn; cbn; [left | right]; split; naive_solver.
Qed.

(** Redelivery is harmless: after a run of events has been applied, applying
    any final segment of the run again succeeds and leaves the store as it is. *)
Theorem replay_suffix_idempotent events1 events2 s s'
    (Hr : replay s (events1 ++ events2) = Ok s') :
  replay s' events2 = Ok s'.
Proof.
  unfold replay in Hr. rewrite foldM_app in Hr. apply bind_Ok in Hr as (s1 & _ & Hr).
  pose proof (replay_ok events2 s1) as Hok. unfold replay in Hok. rewrite Hr in Hok. cbn in Hok.
  pose proof (replay_ok events2 s') as Hok'. rewrite <- Hok in Hok'.
  destruct (replay s' events2) as [s2|] eqn:Hr2; [|done]. f_equal. apply set_eq. intros t.
  rewrite (replay_effect _ _ _ Hr2 t). pose proof (replay_effect _ _ _ Hr t) as Ht.
  destruct (effect t events2); tauto.
Qed.

(** [deduplicate_role_permission_relationships] keeps the set of tuples, and
    when only role-to-principal permission tuples repeat its output passes the
    duplicate check of the outbox. *)
Theorem deduplicate_role_permissions_spec l
    (Hl : Forall (λ t, rbac_tuple t = true) l) :
  (∀ t, t ∈ deduplicate_role_permission_relationships l ↔ t ∈ l)
  ∧ (NoDup (List.filter (λ t, negb (is_role_permission t)) l) →
     check_for_duplicate_relationships (deduplicate_role_permission_relationships l) = Ok tt).
Proof.
  unfold deduplicate_role_permission_relationships. split.
  - intros t. destruct (dedup_elem ∅ l t Hl) as [H1 H2]. set_solver.
  - intros Hnd. rewrite check_for_duplicates_eq, decide_True; [done|].
    apply dedup_NoDup; [done|done|]. set_solver.
Qed.

(** [run_nested_transaction_retries] terminates after at most [retries]
    attempts with the outcome of the first attempt that does not end in a
    serialization failure or deadlock, run on the initial state; when all of them
    do, with that error; and with ValueError when [retries] is below one. *)
Theorem run_nested_transaction_retries_spec {St A} (callable : nat → St → result (A * St)) s retries :
  let r := run_nested_transaction_retries retries callable s in
  (retries < 1 ∧ r = Raise ValueError)%Z
  ∨ (∃ k, Z.of_nat k < retries ∧ r = callable k s ∧ r ≠ Raise (OperationalError true)
        ∧ ∀ j, (j < k)%nat → callable j s = Raise (OperationalError true))%Z
  ∨ (1 ≤ retries ∧ r = Raise (OperationalError true)
     ∧ ∀ j, Z.of_nat j < retries → callable j s = Raise (OperationalError true))%Z.
Proof.
  cbn zeta. unfold run_nested_transaction_retries.
  destruct (Z.ltb_spec retries 1); [by left|]. right.
  destruct (retry_loop_spec callable s (Z.to_nat retries) 0 TypeError)
    as [(k & Hk & Hr & Hne & Hj)|[Hr Hj]].
  - left. exists k. split_and!; [lia|done|done|done].
  - right. split_and!; [lia| |intros j Hlt; apply Hj; lia].
    rewrite Hr. destruct (Z.to_nat retries) eqn:?; [lia|done].
Qed.

Definition sample_event (add remove : list RelationTuple) : ReplicationEvent :=
  mkReplicationEvent ADD_PRINCIPALS_TO_GROUP [("org_id", Some "12345")] add remove.

Lemma outbox_refines_in_memory_witness :
  ∃ row, apply_row ∅ row = in_memory_replicate ∅ (sample_event [member_of_group "g1" "localhost/7"] []).
Proof.
  destruct (@outbox_refines_in_memory sample_settings
    (sample_event [member_of_group "g1" "localhost/7"] []) 0%Z [] _
    ltac:(repeat constructor) ltac:(constructor) eq_refl) as [(H & _)|(row & _ & Hrow)].
  - discriminate H.
  - exists row. apply Hrow.
Defined.

Lemma outbox_duplicate_check_witness :
  @outbox_replicate sample_settings
    (sample_event [member_of_group "g1" "localhost/7"; member_of_group "g1" "localhost/7"] []) 0%Z []
  = Raise ValueError.
Proof.
  destruct (@outbox_duplicate_check sample_settings
    (sample_event [member_of_group "g1" "localhost/7"; member_of_group "g1" "localhost/7"] []) 0%Z []
    ltac:(repeat constructor)) as [[Hn _]|[_ H]].
  - exfalso. apply NoDup_cons in Hn as [Hn _]. apply Hn. left.
  - exact H.
Defined.

Lemma replay_suffix_idempotent_witness :
  let e1 := sample_event [member_of_group "g1" "localhost/7"] [] in
  let e2 := sample_event [] [member_of_group "g1" "localhost/7"] in
  replay ∅ [e2] = Ok ∅.
Proof.
  intros e1 e2. apply (replay_suffix_idempotent [e1] [e2] ∅ ∅). by_compute.
Defined.

Lemma deduplicate_role_permissions_spec_witness :
  let p := rel_tuple ("rbac", "role") "r1" ("rbac", "principal") "*" "inventory_hosts_read" None in
  check_for_duplicate_relationships (deduplicate_role_permission_relationships [p; p]) = Ok tt.
Proof.
  intros p. apply (deduplicate_role_permissions_spec [p; p]); [repeat constructor|].
  apply (bool_decide_unpack _). vm_compute. exact I.
Defined.
