(* ===== verification/KafkaConsumer.v ===== *)
(** The consumer of replication events: rbac/core/kafka_consumer.py, the calls of
    rbac/management/inventory_replicator/inventory_api_replicator.py it makes, and the end of
    rbac/internal/migration_coordination.py.

    The Inventory API, the Kafka client, the database connection, the clock and the random
    numbers are not code of the repository: they are the operations of the class [Env] on a
    world of type [W].  Code that uses them is a state transformer [M S A]: it returns or
    raises, in a new state, or is still running when its fuel is used up.  Metrics, log
    messages and the time stamps of the last activity are left out. *)

From S2P Require Import Prelude.
From S2P Require Import PyString.
From S2P Require Import Config.
From S2P Require Import PyJson.
From S2P Require Import RelationTypes.
From S2P Require Import Outbox.
From Stdlib Require Import QArith Qminmax.

(* ------------------------------------------------------------------ *)
(** * Effects *)

Definition M (S A : Type) : Type := S → option (result A * S).
#[global] Instance M_ret S : MRet (M S) := λ A a s, Some (Ok a, s).
#[global] Instance M_bind S : MBind (M S) := λ A B k m s,
  match m s with
  | Some (Ok a, s') => k a s'
  | Some (Raise e, s') => Some (Raise e, s')
  | None => None
  end.
Definition of_result {S A} (r : result A) : M S A := λ s, Some (r, s).

(** [try: m except Exception as e: h(e)] *)
Definition catch {S A} (m : M S A) (h : exn → M S A) : M S A := λ s,
  match m s with Some (Raise e, s') => h e s' | r => r end.

Record TopicPartition := mkTopicPartition { tp_topic : string; tp_partition : Z }.
#[global] Instance TopicPartition_eq_dec : EqDecision TopicPartition.
Proof. solve_decision. Defined.
#[global] Instance TopicPartition_countable : Countable TopicPartition.
Proof.
  refine (inj_countable' (λ t, (tp_topic t, tp_partition t)) (λ p, mkTopicPartition (fst p) (snd p)) _). by intros [].
Defined.

Record FencingCheck := mkFencingCheck { fc_lock_id : string; fc_lock_token : string }.

(** The filter of one DeleteTuples request. *)
Record RelationTupleFilter := mkRelationTupleFilter {
  rf_resource_namespace : string;
  rf_resource_type : string;
  rf_resource_id : string;
  rf_relation : string;
  rf_subject_namespace : string;
  rf_subject_type : string;
  rf_subject_id : string;
  rf_subject_relation : string;
}.

(** The calls that leave the program: creating the client; the lock, DeleteTuples and
    CreateTuples requests, which answer a token; the partitions assigned to the client, a
    commit of offsets (with the leader epoch), the committed offset and the metadata of the
    topic; [random.random()] and a wait for the shutdown event, which answers whether it was
    set; the two database writes whose errors are only logged: the token of a tenant, and a
    NOTIFY whose payload is the text of a value, stripped when the flag says so. *)
Class Env (W : Type) := {
  env_connect : list (string * json) → W → result unit * W;
  env_acquire : string → W → result string * W;
  env_delete : option FencingCheck → RelationTupleFilter → W → result string * W;
  env_create : option FencingCheck → list Message → W → result string * W;
  env_assignment : W → list TopicPartition;
  env_commit : gmap TopicPartition (Z * option Z) → W → result unit * W;
  env_committed : TopicPartition → W → result (option Z) * W;
  env_metadata : string → W → result unit * W;
  env_random : W → Q * W;
  env_wait : Q → W → bool * W;
  env_sleep : Q → W → W;
  env_save_token : json → string → W → W;
  env_notify : string → json → bool → W → W;
}.

(* ------------------------------------------------------------------ *)
(** * Configuration and state *)

Record RetryConfig := mkRetryConfig {
  operation_max_retries : Z;
  backoff_factor : Z;
  max_backoff_seconds : Z;
  base_delay : Q;
  jitter_factor : Q;
}.
Definition default_retry_config : RetryConfig := mkRetryConfig 10 5 30 (3 # 10) (1 # 10).

Record CommitConfig := mkCommitConfig {
  commit_modulo : Z;
  commit_on_rebalance : bool;
  commit_on_shutdown : bool;
}.
Definition default_commit_config : CommitConfig := mkCommitConfig 10 true true.

(** [calculate_delay], in exact arithmetic. *)
Definition calculate_delay (c : RetryConfig) (attempt : nat) (random : Q) : Q :=
  let delay := (inject_Z (backoff_factor c) * inject_Z (Z.of_nat attempt + 1) * base_delay c)%Q in
  let delay := Qmin delay (inject_Z (max_backoff_seconds c)) in
  let jitter := (delay * jitter_factor c * random)%Q in
  (delay + jitter)%Q.

(** The settings the consumer reads, and the two configurations of its constructor. *)
Record ConsumerConfig := mkConsumerConfig {
  cc_topic : string;
  cc_retry : RetryConfig;
  cc_commit : CommitConfig;
  KAFKA_ENABLED : bool;
  RBAC_KAFKA_CUSTOM_CONSUMER_BROKER : string;
  KAFKA_AUTH : list (string * json);
  KAFKA_SERVERS : json;
  RBAC_KAFKA_CONSUMER_GROUP_ID : string;
  RBAC_KAFKA_LOCK_ACQUISITION_MAX_RETRIES : nat;
  RBAC_KAFKA_LOCK_ACQUISITION_BACKOFF_BASE : Q;
  RBAC_KAFKA_LOCK_ACQUISITION_MAX_BACKOFF : Q;
  READ_YOUR_WRITES_CHANNEL : string;
}.

(** The attributes of [RBACKafkaConsumer] that change, with the offsets stored by its offset
    manager, which exists after the set-up, and the two health files. *)
Record Consumer := mkConsumer {
  has_offset_manager : bool;
  stored_offsets : gmap TopicPartition (Z * option Z);
  lock_id : option string;
  lock_token : option string;
  lock_acquisition_failed : bool;
  is_paused_for_retry : bool;
  shutdown_in_progress : bool;
  is_consuming : bool;
  has_consumer : bool;
  is_healthy : bool;
  liveness_file : bool;
  readiness_file : bool;
}.
(** [RBACKafkaConsumer.__init__] *)
Definition new_consumer (liveness readiness : bool) : Consumer :=
  mkConsumer false ∅ None None false false false false false false liveness readiness.

Definition with_offsets (m : gmap TopicPartition (Z * option Z)) (c : Consumer) : Consumer :=
  let '(mkConsumer om _ li lt lf pa sh ic hc he lv rd) := c in mkConsumer om m li lt lf pa sh ic hc he lv rd.
Definition with_lock (li lt : option string) (c : Consumer) : Consumer :=
  let '(mkConsumer om so _ _ lf pa sh ic hc he lv rd) := c in mkConsumer om so li lt lf pa sh ic hc he lv rd.
Definition with_lock_failed (lf : bool) (c : Consumer) : Consumer :=
  let '(mkConsumer om so li lt _ pa sh ic hc he lv rd) := c in mkConsumer om so li lt lf pa sh ic hc he lv rd.
Definition with_paused (pa : bool) (c : Consumer) : Consumer :=
  let '(mkConsumer om so li lt lf _ sh ic hc he lv rd) := c in mkConsumer om so li lt lf pa sh ic hc he lv rd.
Definition with_shutdown (c : Consumer) : Consumer :=
  let '(mkConsumer om so li lt lf pa _ _ hc he lv rd) := c in mkConsumer om so li lt lf pa true false hc he lv rd.
Definition with_consumer (hc : bool) (c : Consumer) : Consumer :=
  let '(mkConsumer om so li lt lf pa sh ic _ he lv rd) := c in mkConsumer om so li lt lf pa sh ic hc he lv rd.
Definition with_health (he lv rd : bool) (c : Consumer) : Consumer :=
  let '(mkConsumer om so li lt lf pa sh ic hc _ _ _) := c in mkConsumer om so li lt lf pa sh ic hc he lv rd.
Definition with_setup (c : Consumer) : Consumer :=
  let '(mkConsumer _ _ li lt lf pa sh _ _ he lv rd) := c in mkConsumer true ∅ li lt lf pa sh true true he lv rd.

(* ------------------------------------------------------------------ *)
(** * Reading messages *)

(** The truth of a JSON value.  A float is zero when its digits are, or when it rounds to
    zero: at most half the smallest double. *)
Definition float_exponent (e : string) : Z :=
  match e with
  | String _ r => let '(sign, d) := exp_sign r in if String.eqb sign "-" then - decimal 0 d else decimal 0 d
  | EmptyString => 0
  end.
Definition float_is_zero (s : string) : bool :=
  match int_part (match s with String "-" s' => s' | _ => s end) with
  | Some (i, s2) =>
      let '(f, s3) := frac_part s2 in
      let f' := str_drop 1 f in
      let m := decimal 0 (i +:+ f') in
      let k := (float_exponent (fst (exp_part s3)) - Z.of_nat (String.length f'))%Z in
      (m =? 0)%Z || ((k <? 0) && (m * 2 ^ 1075 <=? 10 ^ (- k)))%Z
  | None => false
  end.
Definition truthy (v : json) : bool :=
  match v with
  | JNull => false
  | JBool b => b
  | JInt n => negb (n =? 0)%Z
  | JFloat s => negb (float_is_zero s)
  | JStr s => str_truth s
  | JList l => negb (Nat.eqb (length l) 0)
  | JDict d => negb (Nat.eqb (length d) 0)
  end.

(** [key in v] for a JSON value, and [a or b] of two such tests. *)
Definition py_in (k : string) (v : json) : result bool :=
  match v with
  | JDict d => mret (bool_decide (is_Some (assoc k d)))
  | JList l => mret (existsb (λ x, match x with JStr s => String.eqb s k | _ => false end) l)
  | JStr s => mret (contains k s)
  | _ => Raise TypeError
  end.
Definition or_test (a b : result bool) : result bool := x ← a; if x : bool then mret true else b.

(** Text is UTF-8; code points above 255 are outside of the model's text. *)
Definition is_continuation (c : ascii) : bool := ((128 <=? nat_of_ascii c) && (nat_of_ascii c <? 192))%nat.
Fixpoint utf8_decode (s : string) : result string :=
  match s with
  | EmptyString => mret ""
  | String c s1 =>
      if (nat_of_ascii c <? 128)%nat then String c <$> utf8_decode s1
      else match s1 with
           | String d s2 =>
               if ((nat_of_ascii c =? 194) || (nat_of_ascii c =? 195))%nat && is_continuation d
               then String (ascii_of_nat ((nat_of_ascii c - 192) * 64 + (nat_of_ascii d - 128))) <$> utf8_decode s2
               else Raise UnicodeDecodeError
           | EmptyString => Raise UnicodeDecodeError
           end
  end.

(** [_parse_message_value] *)
Definition parse_message_value (value : string) : result json := s ← utf8_decode value; json_loads s.

(** Building the message of a ValidationError looks at the keys of the value. *)
Definition validation_error {A} (v : json) : result A :=
  match v with JDict _ => Raise MessageValidationError | _ => Raise AttributeError end.

Record DebeziumMessage := mkDebeziumMessage {
  dm_aggregatetype : json;
  dm_aggregateid : json;
  dm_event_type : json;
  dm_payload : json;
}.

(** [_parse_debezium_message], as the [DebeziumMessage] that is made of its result *)
Definition parse_debezium_message (message_value : json) : result DebeziumMessage :=
  malformed ← or_test (negb <$> py_in "schema" message_value) (negb <$> py_in "payload" message_value);
  if malformed : bool then validation_error message_value else
  payload_str ← jget message_value "payload" JNull;
  payload_data ← match payload_str with
                 | JStr s => json_loads s
                 | JDict _ => mret payload_str
                 | _ => Raise MessageValidationError
                 end;
  known ← or_test (py_in "relations_to_add" payload_data) (py_in "relations_to_remove" payload_data);
  if known : bool then
    aggregatetype ← jget payload_data "aggregatetype" (JStr "");
    aggregateid ← jget payload_data "aggregateid" (JStr "");
    ty ← jget payload_data "type" (JStr "");
    mret (mkDebeziumMessage aggregatetype aggregateid ty payload_data)
  else validation_error payload_data.

(** [MessageValidator.validate_parsed_message] and [validate_replication_message]: anything
    raised on the way is a failed validation. *)
Definition validate_parsed_message (m : json) : bool :=
  match m with
  | JDict d => forallb (λ k, bool_decide (is_Some (assoc k d))) ["aggregatetype"; "aggregateid"; "type"; "payload"]
               && match assoc "payload" d with Some (JDict _) => true | _ => false end
  | _ => false
  end.
Definition relation_list (k : string) (d : list (string * json)) : option (list json) :=
  match assoc k d with Some (JList l) => Some l | Some _ => None | None => Some [] end.
Definition valid_relation (r : json) : bool :=
  match r with
  | JDict d => bool_decide (is_Some (assoc "resource" d)) && bool_decide (is_Some (assoc "subject" d))
  | _ => false
  end.
Definition validate_replication_message (p : json) : bool :=
  match p with
  | JDict d =>
      match relation_list "relations_to_add" d, relation_list "relations_to_remove" d with
      | Some add, Some remove => negb (Nat.eqb (length (add ++ remove)) 0) && forallb valid_relation (add ++ remove)
      | _, _ => false
      end
  | _ => false
  end.

(** [ReplicationMessage.from_payload] of a validated payload, whose two entries are lists. *)
Definition from_payload (p : json) : result (list json * list json) :=
  add ← jget p "relations_to_add" (JList []);
  remove ← jget p "relations_to_remove" (JList []);
  match add, remove with
  | JList a, JList r => mret (a, r)
  | _, _ => Raise TypeError
  end.

(** [notify_migration_batch_completion]: the channel and the value whose stripped text is
    the payload.  The text of a value that is not a string names no migration. *)
Definition notify_migration_batch_completion (event_type resource_context : json) : result (option (string * json)) :=
  if negb (truthy event_type) || negb (truthy resource_context) then mret None
  else notify_token ← jget resource_context "notify_token" JNull;
       mret (if truthy notify_token then
               match event_type with
               | JStr e => c ← migration_notify_coordination e; Some (channel c, notify_token)
               | _ => None
               end
             else None).

(** [event_type in {...}]: a list or a dictionary is not hashable. *)
Definition is_system_role_event (event_type : json) : result bool :=
  match event_type with
  | JList _ | JDict _ => Raise TypeError
  | JStr s => mret (str_mem s ["create_system_role"; "update_system_role"; "delete_system_role"])
  | _ => mret false
  end.
Definition no_org (org_id : json) : bool :=
  match org_id with JNull => true | JStr s => str_mem s [""; "None"] | _ => false end.

(** [float(created_at)]: of the errors, the code catches ValueError and TypeError. *)
Definition latency_error (created_at : json) : result unit :=
  match created_at with
  | JInt n => raise_if (2 ^ 1024 - 2 ^ 970 <=? Z.abs n)%Z OverflowError
  | _ => mret tt
  end.

(* ------------------------------------------------------------------ *)
(** * Operations *)

Section operations.
Context {W : Type} `{Env W}.
(** [json_format.ParseDict] into a [Relationship] message. *)
Context (ParseDict : json → result Message) (cfg : ConsumerConfig).

Abbreviation St := (Consumer * W)%type.
Definition call {A} (f : W → result A * W) : M St A := λ '(c, w), let '(r, w') := f w in Some (r, (c, w')).
Definition act (f : W → W) : M St unit := λ '(c, w), Some (Ok tt, (c, f w)).
Definition self : M St Consumer := λ '(c, w), Some (Ok c, (c, w)).
Definition update (f : Consumer → Consumer) : M St unit := λ '(c, w), Some (Ok tt, (f c, w)).
Definition assignment : M St (list TopicPartition) := λ '(c, w), Some (Ok (env_assignment w), (c, w)).

(** ** Retries *)

(** [_exceeded_max_retries] *)
Definition exceeded_max_retries (attempt : nat) : bool :=
  ((0 <=? operation_max_retries (cc_retry cfg)) && (operation_max_retries (cc_retry cfg) <=? Z.of_nat attempt))%Z.

(** The pause before a retry: [calculate_delay] and [shutdown_event.wait]. *)
Definition wait_before_retry (attempt : nat) : M St bool := λ '(c, w),
  let '(r, w1) := env_random w in
  let '(stopped, w2) := env_wait (calculate_delay (cc_retry cfg) attempt r) w1 in
  Some (Ok stopped, (c, w2)).

(** [RetryHelper.run] with [_should_retry]; the handler tells the errors that are not
    retried. *)
Fixpoint retry_run {A} (error_handler : exn → bool) (fn : M St A) (fuel attempt : nat) : M St A :=
  match fuel with
  | O => λ _, None
  | S fuel' =>
      catch fn (λ e,
        if error_handler e then of_result (Raise e)
        else if exceeded_max_retries attempt then of_result (Raise RuntimeError)
        else stopped ← wait_before_retry attempt;
             if stopped : bool then of_result (Raise InterruptedError)
             else retry_run error_handler fn fuel' (S attempt))
  end.

(** [_acquire_lock_with_retry], from an attempt on; an error that is not a gRPC error is not
    retried. *)
Definition lock_delay (attempt : nat) : Q :=
  Qmin (Qpower (RBAC_KAFKA_LOCK_ACQUISITION_BACKOFF_BASE cfg) (Z.of_nat attempt)) (RBAC_KAFKA_LOCK_ACQUISITION_MAX_BACKOFF cfg).
Fixpoint acquire_lock_from (lock : string) (left attempt : nat) : M St string :=
  match left with
  | O => of_result (Raise RuntimeError)
  | S left' =>
      catch (call (env_acquire lock)) (λ e,
        match e with
        | RpcError _ =>
            if Nat.eqb left' 0 then of_result (Raise RuntimeError)
            else _ ← act (env_sleep (lock_delay attempt)); acquire_lock_from lock left' (S attempt)
        | _ => of_result (Raise e)
        end)
  end.
Definition acquire_lock_with_retry (lock : string) : M St string :=
  acquire_lock_from lock (RBAC_KAFKA_LOCK_ACQUISITION_MAX_RETRIES cfg) 0.

(** ** Offsets *)

(** [OffsetManager.store], [should_commit] and [clear] *)
Definition store_offset (tp : TopicPartition) (offset : Z) (leader_epoch : option Z) : M St unit :=
  update (λ c, with_offsets (<[tp := (offset, leader_epoch)]> (stored_offsets c)) c).
Definition should_commit (offset : Z) : bool :=
  if (commit_modulo (cc_commit cfg) <=? 0)%Z then false
  else Z.eqb (Z.modulo (offset + 1) (commit_modulo (cc_commit cfg))) 0.
Definition clear_offsets : M St unit := update (with_offsets ∅).

(** The restore after a failed commit: an offset stored meanwhile stays when it is later. *)
Definition restored (copied now : gmap TopicPartition (Z * option Z)) : gmap TopicPartition (Z * option Z) :=
  union_with (λ a b : Z * option Z, Some (if (fst b <=? fst a)%Z then a else b)) copied now.

(** [OffsetManager.commit]: whether it succeeded and how many offsets were committed. *)
Definition commit : M St (bool * nat) :=
  c ← self;
  let offsets_to_commit := stored_offsets c in
  if decide (offsets_to_commit = ∅) then mret (true, 0%nat)
  else
    assigned ← assignment;
    let offset_dict := (λ o : Z * option Z, (fst o + 1, snd o)%Z) <$> offsets_to_commit in
    let committed := filter (λ e, fst e ∈ assigned) offset_dict in
    if decide (committed = ∅) then mret (false, 0%nat)
    else catch (_ ← call (env_commit committed); _ ← clear_offsets; mret (true, size committed))
               (λ _, _ ← update (λ c, with_offsets (restored offsets_to_commit (stored_offsets c)) c); mret (false, 0%nat)).

(** ** Health *)

(** [_update_health_status] *)
Definition update_health_status (healthy : bool) : M St unit :=
  update (λ c, if healthy then with_health true true true c else with_health false (liveness_file c) false c).

(** [_health_check_loop_iteration] *)
Definition health_check_loop_iteration : M St unit :=
  c ← self;
  if is_consuming c && has_consumer c then
    catch (_ ← call (env_metadata (cc_topic cfg)); update_health_status true)
          (λ _, update (λ c, with_health (is_healthy c) true false c))
  else if is_consuming c then update_health_status false
  else mret tt.

(** ** Rebalancing *)

(** [RebalanceListener.on_partitions_assigned] *)
Definition on_partitions_assigned (assigned : list TopicPartition) : M St unit :=
  match assigned with
  | [] => mret tt
  | partition :: _ =>
      let group_id := if str_truth (RBAC_KAFKA_CONSUMER_GROUP_ID cfg) then RBAC_KAFKA_CONSUMER_GROUP_ID cfg else "unknown" in
      let lock := group_id +:+ "/" +:+ show_int (tp_partition partition) in
      catch (token ← acquire_lock_with_retry lock;
             update (λ c, with_lock_failed false (with_lock (Some lock) (Some token) c)))
            (λ _, _ ← update (with_lock None None); _ ← update_health_status false; update (with_lock_failed true))
  end.

(** [_on_partitions_revoked] *)
Definition str_given (s : option string) : bool := match s with Some s => str_truth s | None => false end.
Definition on_partitions_revoked : M St unit :=
  c ← self;
  if negb (commit_on_rebalance (cc_commit cfg)) || shutdown_in_progress c then mret tt
  else
    _ ← (if has_offset_manager c then _ ← commit; mret tt else mret tt);
    update (λ c, if str_given (lock_token c) then with_lock None None c else c).

(** [_ensure_lock_token_on_assignment] *)
Definition ensure_lock_token_on_assignment : M St bool :=
  assigned ← assignment;
  match assigned with
  | [] => mret false
  | partition :: _ =>
      let expected := RBAC_KAFKA_CONSUMER_GROUP_ID cfg +:+ "/" +:+ show_int (tp_partition partition) in
      c ← self;
      if str_given (lock_token c) && bool_decide (lock_id c = Some expected) then mret true
      else
        _ ← update (λ c, if str_given (lock_token c) then with_lock None None c else c);
        catch (token ← acquire_lock_with_retry expected;
               _ ← update (λ c, with_lock_failed false (with_lock (Some expected) (Some token) c));
               mret true)
              (λ _, of_result (Raise RuntimeError))
  end.

(** ** Writing tuples *)

(** The filter that [delete_relationships] builds for a message. *)
Definition relation_filter (m : Message) : RelationTupleFilter :=
  mkRelationTupleFilter (m_res_ns m) (m_res_name m) (m_res_id m) (m_relation m)
    (m_sub_ns m) (m_sub_name m) (m_sub_id m) (proto_str (m_sub_relation m)).

(** [delete_relationships]: one request per message; the token of the last answer. *)
Fixpoint delete_each (fencing_check : option FencingCheck) (relationships : list Message) (last : option string) : M St (option string) :=
  match relationships with
  | [] => mret last
  | m :: ms => token ← call (env_delete fencing_check (relation_filter m)); delete_each fencing_check ms (Some token)
  end.
Definition delete_relationships (relationships : list Message) (fencing_check : option FencingCheck) : M St (option string) :=
  delete_each fencing_check relationships None.

(** [write_relationships]: one request. *)
Definition write_relationships (relationships : list Message) (fencing_check : option FencingCheck) : M St string :=
  call (env_create fencing_check relationships).

(** ** Processing *)

(** The fields of the resource context: org_id, event_type, resource_id and created_at. *)
Definition context_fields (ctx : json) : json * json * json * json :=
  match ctx with
  | JDict d => let get k := default JNull (assoc k d) in (get "org_id", get "event_type", get "resource_id", get "created_at")
  | _ => (JNull, JNull, JNull, JNull)
  end.

(** The fencing check of the lock that is held. *)
Definition fencing_check_of (c : Consumer) : result FencingCheck :=
  match lock_id c, lock_token c with
  | Some l, Some t => if str_truth l && str_truth t then mret (mkFencingCheck l t) else Raise RuntimeError
  | _, _ => Raise RuntimeError
  end.

(** What follows the writes: the token of the tenant and the notifications. *)
Definition after_writes (ctx : json) (token : option string) : M St unit :=
  let '(org_id, event_type, resource_id, created_at) := context_fields ctx in
  let normalized_org_id := match org_id with JStr s => JStr (strip s) | v => v end in
  system_role ← of_result (is_system_role_event event_type);
  let is_global_system_role_event := system_role && no_org normalized_org_id in
  _ ← match token with
      | Some t => if str_truth t && truthy normalized_org_id && negb is_global_system_role_event
                  then act (env_save_token normalized_org_id t) else mret tt
      | None => mret tt
      end;
  _ ← match event_type with
      | JStr e => if String.eqb e "create_workspace" && truthy resource_id
                  then act (env_notify (READ_YOUR_WRITES_CHANNEL cfg) resource_id false) else mret tt
      | _ => mret tt
      end;
  n ← of_result (notify_migration_batch_completion event_type ctx);
  _ ← match n with Some (ch, v) => act (env_notify ch v true) | None => mret tt end;
  of_result (latency_error created_at).

(** [_process_relations_message] *)
Definition relations_body (msg : DebeziumMessage) : M St bool :=
  _ ← of_result (raise_if (negb (validate_replication_message (dm_payload msg))) MessageValidationError);
  ctx ← of_result (jget (dm_payload msg) "resource_context" JNull);
  '(add, remove) ← of_result (from_payload (dm_payload msg));
  relations_to_add_pb ← of_result (mapM ParseDict add);
  relations_to_remove_pb ← of_result (mapM ParseDict remove);
  c ← self;
  fencing_check ← of_result (fencing_check_of c);
  deleted ← delete_relationships relations_to_remove_pb (Some fencing_check);
  added ← write_relationships relations_to_add_pb (Some fencing_check);
  let token := if str_truth added then Some added else deleted in
  _ ← after_writes ctx token;
  mret true.
Definition process_relations_message (msg : DebeziumMessage) : M St bool :=
  catch (relations_body msg) (λ e, of_result (Raise (match e with RpcError true => RuntimeError | _ => e end))).

(** [_process_single] with [_process_debezium_message] *)
Definition process_single (message_value : json) : M St bool :=
  parsed ← of_result (parse_debezium_message message_value);
  process_relations_message parsed.

(** [should_skip_retry] and [_process_message_with_retry]: False only when interrupted. *)
Definition should_skip_retry (e : exn) : bool :=
  match e with MessageValidationError | ParseError => true | _ => false end.
Definition process_wrapper (message_value : json) : M St bool :=
  success ← process_single message_value;
  of_result (if success : bool then mret true else Raise RuntimeError).
Definition process_message_with_retry (fuel : nat) (message_value : json) : M St bool :=
  catch (_ ← retry_run should_skip_retry (process_wrapper message_value) fuel 0; mret true)
        (λ e, match e with
              | InterruptedError => mret false
              | RuntimeError => _ ← update (with_paused true); of_result (Raise RuntimeError)
              | _ => of_result (Raise e)
              end).

(** ** The loop *)

Record ConsumerRecord := mkConsumerRecord {
  cr_topic : string;
  cr_partition : Z;
  cr_offset : Z;
  cr_leader_epoch : option Z;
  cr_value : option string;
}.

(** What happens next to the loop: a message arrives, the partitions are assigned or revoked
    while it waits for one, the health check runs, or the process is told to stop. *)
Inductive PollEvent :=
| Polled (message : ConsumerRecord)
| Assigned (partitions : list TopicPartition)
| Revoked
| HealthCheck
| Signalled.

Definition topic_partition (m : ConsumerRecord) : TopicPartition := mkTopicPartition (cr_topic m) (cr_partition m).

(** [_initialize_partition_offset_tracking] *)
Definition initialize_partition_offset_tracking (tp : TopicPartition) (last : gmap TopicPartition Z) : M St (gmap TopicPartition Z) :=
  catch (committed ← call (env_committed tp); mret (<[tp := default (-1)%Z committed]> last))
        (λ _, mret (<[tp := (-1)%Z]> last)).

(** Storing the offset of a handled message, with the batch commit. *)
Definition store_and_commit (m : ConsumerRecord) : M St bool :=
  _ ← store_offset (topic_partition m) (cr_offset m) (cr_leader_epoch m);
  if should_commit (cr_offset m) then '(success, _) ← commit; mret success else mret false.

(** [_handle_tombstone_message] *)
Definition handle_tombstone_message (m : ConsumerRecord) : M St unit := _ ← store_and_commit m; mret tt.

(** [_process_and_commit_message] *)
Definition process_and_commit_message (fuel : nat) (m : ConsumerRecord) (message_value : json) (last : gmap TopicPartition Z) :
    M St (bool * gmap TopicPartition Z) :=
  success ← process_message_with_retry fuel message_value;
  if success : bool then
    committed ← store_and_commit m;
    mret (true, if committed : bool then <[topic_partition m := (cr_offset m + 1)%Z]> last else last)
  else mret (false, last).

(** One message of [_run_message_loop]: whether to go on. *)
Definition on_message (fuel : nat) (m : ConsumerRecord) (last : gmap TopicPartition Z) : M St (bool * gmap TopicPartition Z) :=
  c ← self;
  _ ← of_result (raise_if (lock_acquisition_failed c) RuntimeError);
  _ ← (if decide (last = ∅) then
         token_acquired ← ensure_lock_token_on_assignment;
         of_result (raise_if (negb token_acquired) RuntimeError)
       else mret tt);
  last ← match last !! topic_partition m with
         | Some _ => mret last
         | None => initialize_partition_offset_tracking (topic_partition m) last
         end;
  match cr_value m with
  | None => _ ← handle_tombstone_message m; mret (true, last)
  | Some value =>
      message_value ← of_result (parse_message_value value);
      process_and_commit_message fuel m message_value last
  end.

(** [stop_consuming] *)
Definition commit_remaining : M St unit :=
  c ← self;
  if commit_on_shutdown (cc_commit cfg) && has_offset_manager c && negb (is_paused_for_retry c)
  then _ ← commit; mret tt else mret tt.
Definition stop_consuming : M St unit :=
  _ ← update with_shutdown;
  _ ← commit_remaining;
  _ ← update (with_consumer false);
  update_health_status false.

(** [_run_message_loop]; a signal runs [stop_consuming] and leaves with SystemExit. *)
Fixpoint run_message_loop (fuel : nat) (events : list PollEvent) (last : gmap TopicPartition Z) : M St unit :=
  match events with
  | [] => mret tt
  | Polled m :: events' =>
      '(continue, last') ← on_message fuel m last;
      if continue : bool then run_message_loop fuel events' last' else mret tt
  | Assigned tps :: events' => _ ← on_partitions_assigned tps; run_message_loop fuel events' last
  | Revoked :: events' => _ ← on_partitions_revoked; run_message_loop fuel events' last
  | HealthCheck :: events' => _ ← health_check_loop_iteration; run_message_loop fuel events' last
  | Signalled :: _ => _ ← stop_consuming; of_result (Raise SystemExit)
  end.

(** ** Starting *)

Definition PRODUCER_ONLY_CONFIGS : list string :=
  ["retries"; "max_in_flight_requests_per_connection"; "acks"; "enable_idempotence"; "transactional_id"; "transaction_timeout_ms";
   "compression_type"; "batch_size"; "linger_ms"; "buffer_memory"; "max_block_ms"; "delivery_timeout_ms"].

(** [_create_consumer]: the keyword arguments of the client. *)
Definition create_consumer : result (list (string * json)) :=
  _ ← raise_if (negb (KAFKA_ENABLED cfg)) RuntimeError;
  _ ← raise_if (negb (str_truth (cc_topic cfg))) RuntimeError;
  let custom_broker := RBAC_KAFKA_CUSTOM_CONSUMER_BROKER cfg in
  let '(kafka_servers, kafka_auth) :=
    if str_truth custom_broker then (JList [JStr custom_broker], []) else (KAFKA_SERVERS cfg, KAFKA_AUTH cfg) in
  let common := [("auto_offset_reset", JStr "earliest"); ("enable_auto_commit", JBool false);
                 ("group_id", JStr (RBAC_KAFKA_CONSUMER_GROUP_ID cfg)); ("session_timeout_ms", JInt 45000)] in
  match kafka_auth with
  | [] => mret (("bootstrap_servers", kafka_servers) :: common)
  | _ => let consumer_auth := List.filter (λ e, negb (str_mem (fst e) PRODUCER_ONLY_CONFIGS)) kafka_auth in
         _ ← raise_if (existsb (λ e, str_mem (fst e) (map fst common)) consumer_auth) TypeError;
         mret (common ++ consumer_auth)
  end.

(** [_initialize_consumer_setup] *)
Definition initialize_consumer_setup : M St unit :=
  kwargs ← of_result create_consumer;
  _ ← call (env_connect kwargs);
  _ ← update with_setup;
  update_health_status true.

(** [start_consuming]: an error marks the consumer as unhealthy (SystemExit is not caught),
    and the offsets that are left are committed in any case. *)
Definition start_consuming (fuel : nat) (events : list PollEvent) : M St unit := λ s,
  match catch (_ ← initialize_consumer_setup; run_message_loop fuel events ∅)
              (λ e, _ ← match e with SystemExit => mret tt | _ => update_health_status false end; of_result (Raise e)) s with
  | Some (r, s') => (_ ← update with_shutdown; _ ← commit_remaining; of_result r) s'
  | None => None
  end.

(** The command: [start_consuming], then [_cleanup], which a signal has already run. *)
Definition launch (fuel : nat) (events : list PollEvent) : M St unit := λ s,
  match start_consuming fuel events s with
  | Some (Raise SystemExit, s') => Some (Raise SystemExit, s')
  | Some (r, s') => (_ ← stop_consuming; of_result r) s'
  | None => None
  end.

End operations.
