(* ===== verification/KafkaWorld.v ===== *)
(** What the consumer relies on from outside, as the laws of the class [World], a small
    program logic for its code, and the specifications of the consumer's operations. *)

From S2P Require Import Prelude.
From S2P Require Import PyString.
From S2P Require Import Config.
From S2P Require Import PyJson.
From S2P Require Import RelationTypes.
From S2P Require Import KafkaConsumer.
From Stdlib Require Import QArith.
#[local] Close Scope Q_scope.

(* ------------------------------------------------------------------ *)
(** * A program logic *)

(** Running [m] from [s] ends with [Q], or is [stuck] when the fuel does not suffice: True
    for what holds of any run that ends, False for what ends. *)
Definition wp {S A} (stuck : Prop) (m : M S A) (Q : result A → S → Prop) (s : S) : Prop :=
  match m s with Some (r, s') => Q r s' | None => stuck end.

Lemma wp_mono {S A} stuck (m : M S A) (Q Q' : result A → S → Prop) s :
  wp stuck m Q s → (∀ r s', Q r s' → Q' r s') → wp stuck m Q' s.
Proof. unfold wp. destruct (m s) as [[r s']|]; auto. Qed.

Lemma wp_bind {S A B} stuck (m : M S A) (k : A → M S B) Q s :
  wp stuck m (λ r s', match r with Ok a => wp stuck (k a) Q s' | Raise e => Q (Raise e) s' end) s → wp stuck (m ≫= k) Q s.
Proof. unfold wp, mbind, M_bind. by destruct (m s) as [[[a|e] s']|]. Qed.

Lemma wp_catch {S A} stuck (m : M S A) (h : exn → M S A) Q s :
  wp stuck m (λ r s', match r with Ok a => Q (Ok a) s' | Raise e => wp stuck (h e) Q s' end) s → wp stuck (catch m h) Q s.
Proof. unfold wp, catch. by destruct (m s) as [[[a|e] s']|]. Qed.

(** Two calls whose answers are used together. *)
Lemma wp_bind2 {S A B C D} stuck (m1 : M S A) (m2 : M S B) (f : A → B → C) (k : C → M S D) Q s :
  wp stuck (a ← m1; b ← m2; mret (f a b)) (λ r s', match r with Ok c => wp stuck (k c) Q s' | Raise e => Q (Raise e) s' end) s →
  wp stuck (a ← m1; b ← m2; k (f a b)) Q s.
Proof. unfold wp, mbind, M_bind. destruct (m1 s) as [[[a|e] s1]|]; [|done..]. by destruct (m2 s1) as [[[b|e] s2]|]. Qed.

Lemma wp_of_result {S A} stuck (r : result A) Q (s : S) : Q r s → wp stuck (of_result r) Q s.
Proof. done. Qed.
Lemma wp_ret {S A} stuck (a : A) Q (s : S) : Q (Ok a) s → wp stuck (mret a) Q s.
Proof. done. Qed.

(** Steps through binds, handlers and pure computations. *)
Ltac wp_step := first [ apply wp_bind | apply wp_catch | apply wp_of_result | apply wp_ret ].

#[global] Instance RelationTupleFilter_eq_dec : EqDecision RelationTupleFilter.
Proof. solve_decision. Defined.
#[global] Instance Message_countable : Countable Message.
Proof.
  refine (inj_countable'
    (λ m, (m_res_ns m, m_res_name m, m_res_id m, m_relation m, m_sub_ns m, m_sub_name m, m_sub_id m, m_sub_relation m))
    (λ '(a, b, c, d, e, f, g, h), mkMessage a b c d e f g h) _). by intros [].
Defined.

(* ------------------------------------------------------------------ *)
(** * The world *)

(** What is observed of a world: the tuples of the relations store, the offsets committed at
    the broker, how many failures are still to come, and which fencing checks are valid. *)
Class Observed (W : Type) := {
  tuples_of : W → gset Message;
  committed_of : W → gmap TopicPartition Z;
  faults : W → nat;
  holds : FencingCheck → W → Prop;
}.

Section changes.
Context {W : Type} `{Env W, Observed W}.
(** A call that concerns neither the tuples nor the commits. *)
Definition still (w w' : W) : Prop :=
  tuples_of w' = tuples_of w ∧ committed_of w' = committed_of w ∧ env_assignment w' = env_assignment w.
Definition kept (w w' : W) : Prop := ∀ fc, holds fc w → holds fc w'.
(** A call that fails uses up a failure. *)
Definition spent {A} (r : result A) (w w' : W) : Prop :=
  (faults w' ≤ faults w)%nat ∧ (is_ok r = false → (faults w' < faults w)%nat).
Definition quiet {A} (r : result A) (w w' : W) : Prop := still w w' ∧ kept w w' ∧ spent r w w'.
End changes.

(** The laws.  Being told to stop counts as a failure; the token of an acquired lock is not
    empty and is valid; DeleteTuples deletes what the filter matches, CreateTuples with upsert
    adds the tuples, a commit replaces the offsets it names, and when one of them fails it may
    have had its effect, CreateTuples also in part. *)
Class World (W : Type) `{Env W, Observed W} : Prop := {
  law_connect kwargs (w : W) r w' : env_connect kwargs w = (r, w') → quiet r w w';
  law_committed tp (w : W) r w' : env_committed tp w = (r, w') → quiet r w w';
  law_metadata t (w : W) r w' : env_metadata t w = (r, w') → quiet r w w';
  law_random (w : W) q w' : env_random w = (q, w') → quiet (Ok q) w w';
  law_wait q (w : W) (b : bool) w' : env_wait q w = (b, w') → quiet (if b then Raise InterruptedError else Ok tt) w w';
  law_sleep q (w : W) : quiet (Ok tt) w (env_sleep q w);
  law_save_token o t (w : W) : quiet (Ok tt) w (env_save_token o t w);
  law_notify ch v b (w : W) : quiet (Ok tt) w (env_notify ch v b w);
  law_acquire l (w : W) r w' : env_acquire l w = (r, w') →
    still w w' ∧ spent r w w' ∧ ∀ t, r = Ok t → str_truth t = true ∧ holds (mkFencingCheck l t) w';
  law_delete fc f (w : W) r w' : env_delete (Some fc) f w = (r, w') →
    committed_of w' = committed_of w ∧ env_assignment w' = env_assignment w ∧ kept w w' ∧ (faults w' ≤ faults w)%nat
    ∧ (holds fc w → spent r w w')
    ∧ (tuples_of w' = filter (λ m, relation_filter m ≠ f) (tuples_of w) ∨ is_ok r = false ∧ tuples_of w' = tuples_of w);
  law_create fc ms (w : W) r w' : env_create (Some fc) ms w = (r, w') →
    committed_of w' = committed_of w ∧ env_assignment w' = env_assignment w ∧ kept w w' ∧ (faults w' ≤ faults w)%nat
    ∧ (holds fc w → spent r w w')
    ∧ (tuples_of w' = list_to_set ms ∪ tuples_of w
       ∨ is_ok r = false ∧ tuples_of w ⊆ tuples_of w' ∧ tuples_of w' ⊆ list_to_set ms ∪ tuples_of w);
  law_commit offsets (w : W) r w' : env_commit offsets w = (r, w') →
    tuples_of w' = tuples_of w ∧ env_assignment w' = env_assignment w ∧ kept w w' ∧ spent r w w'
    ∧ (committed_of w' = (fst <$> offsets) ∪ committed_of w ∨ is_ok r = false ∧ committed_of w' = committed_of w);
}.

(* ------------------------------------------------------------------ *)
(** * What a message means *)

(** The additions and removals of a message value, or the error it is refused with. *)
Abbreviation delta := (list Message * list Message)%type.
Definition decode (ParseDict : json → result Message) (message_value : json) : result delta :=
  msg ← parse_debezium_message message_value;
  _ ← raise_if (negb (validate_replication_message (dm_payload msg))) MessageValidationError;
  '(add, remove) ← from_payload (dm_payload msg);
  a ← mapM ParseDict add;
  r ← mapM ParseDict remove;
  mret (a, r).

(** What follows the writes of a message does not fail. *)
Definition context_ok (message_value : json) : bool :=
  is_ok (msg ← parse_debezium_message message_value;
         ctx ← jget (dm_payload msg) "resource_context" JNull;
         let '(_, event_type, _, created_at) := context_fields ctx in
         _ ← is_system_role_event event_type; latency_error created_at).

(** The tuples a delta concerns, and its effect on a store. *)
Definition matched (ms : list Message) (t : Message) : Prop := relation_filter t ∈ map relation_filter ms.
#[global] Instance matched_dec ms t : Decision (matched ms t) := decide (relation_filter t ∈ map relation_filter ms).
Lemma matched_cons m ms t : matched (m :: ms) t ↔ relation_filter t = relation_filter m ∨ matched ms t.
Proof. unfold matched. cbn. by rewrite elem_of_cons. Qed.
Definition touched (d : delta) (t : Message) : Prop := t ∈ fst d ∨ matched (snd d) t.
Definition apply_delta (d : delta) (G : gset Message) : gset Message :=
  list_to_set (fst d) ∪ filter (λ t, ¬ matched (snd d) t) G.

Lemma elem_of_apply_delta d G t : t ∈ apply_delta d G ↔ t ∈ fst d ∨ ¬ matched (snd d) t ∧ t ∈ G.
Proof. unfold apply_delta. rewrite elem_of_union, elem_of_list_to_set, elem_of_filter. done. Qed.

Lemma untouched d G t : ¬ touched d t → t ∈ apply_delta d G ↔ t ∈ G.
Proof. rewrite elem_of_apply_delta. unfold touched. tauto. Qed.

(* ------------------------------------------------------------------ *)
(** * Specifications of the operations *)

Section specs.
Context {W : Type} `{World W}.
Context (ParseDict : json → result Message) (cfg : ConsumerConfig) (stuck : Prop).

Definition frame (w w' : W) : Prop :=
  committed_of w' = committed_of w ∧ env_assignment w' = env_assignment w ∧ kept w w' ∧ (faults w' ≤ faults w)%nat.
Lemma frame_refl w : frame w w.
Proof. repeat split; auto. by intros fc. Qed.
Lemma frame_trans w1 w2 w3 : frame w1 w2 → frame w2 w3 → frame w1 w3.
Proof. intros (? & ? & Hk & ?) (? & ? & Hk' & ?). split_and!; [congruence|congruence|intros fc Hf; auto|lia]. Qed.
Lemma quiet_frame {A} (r : result A) w w' : quiet r w w' → frame w w'.
Proof. intros ((_ & ? & ?) & ? & ? & _). by split_and!. Qed.
Lemma spent_refl {A} (a : A) (w : W) : spent (Ok a) w w.
Proof. by split. Qed.
Lemma spent_trans {A B} (r1 : result A) (r2 : result B) (w1 w2 w3 : W) : spent r1 w1 w2 → spent r2 w2 w3 → spent r2 w1 w3.
Proof. intros [? _] [? ?]. split; [lia|]. intros. specialize (H4 H5). lia. Qed.

Lemma wp_call {A} (f : W → result A * W) Q c w :
  (∀ r w', f w = (r, w') → Q r (c, w')) → wp stuck (call f) Q (c, w).
Proof. intros HQ. unfold wp, call. destruct (f w) as [r w'] eqn:Hf. by apply HQ. Qed.

Lemma delete_each_spec fc ms last c w :
  wp stuck (delete_each (Some fc) ms last) (λ r '(c', w'),
    c' = c ∧ frame w w' ∧ (holds fc w → spent r w w')
    ∧ tuples_of w' ⊆ tuples_of w ∧ (∀ t, ¬ matched ms t → t ∈ tuples_of w → t ∈ tuples_of w')
    ∧ (is_ok r = true → ∀ t, matched ms t → t ∉ tuples_of w')) (c, w).
Proof.
  revert last w. induction ms as [|m ms IH]; intros last w; cbn [delete_each].
  - apply wp_ret. split_and!; auto using frame_refl, spent_refl. intros _ t Ht. by apply elem_of_nil in Ht.
  - apply wp_bind, wp_call. intros r w1 (Hc & Ha & Hk & Hf & Hs & Ht)%law_delete.
    assert (frame w w1) as Hfr by (by split_and!). destruct r as [tok|e].
    + eapply wp_mono; [apply IH|]. intros r [c' w'] (-> & Hfr' & Hs' & Hsub & Hun & Hok).
      destruct Ht as [Ht|[? _]]; [|done]. split_and!; [done|by eapply frame_trans|..].
      * intros Hh. eapply spent_trans; [by apply Hs|]. by apply Hs', Hk.
      * intros t Hin%Hsub. rewrite Ht, elem_of_filter in Hin. by destruct Hin.
      * intros t Hm Hin. rewrite matched_cons in Hm. apply Hun; [tauto|]. rewrite Ht, elem_of_filter. tauto.
      * intros Hr t [Hm|Hm]%matched_cons Hin; [|by apply (Hok Hr t)]. apply Hsub in Hin. rewrite Ht, elem_of_filter in Hin. tauto.
    + split_and!; auto.
      * destruct Ht as [->|[_ ->]]; set_solver.
      * intros t Hm Hin. destruct Ht as [->|[_ ->]]; [|done]. rewrite matched_cons in Hm. apply elem_of_filter. tauto.
      * done.
Qed.

(** The writes of a message under a fencing check. *)
Lemma writes_spec fc add remove c w :
  wp stuck (deleted ← delete_relationships remove (Some fc); added ← write_relationships add (Some fc);
            mret (if str_truth added then Some added else deleted)) (λ r '(c', w'),
    c' = c ∧ frame w w' ∧ (holds fc w → spent r w w')
    ∧ (∀ t, ¬ touched (add, remove) t → t ∈ tuples_of w' ↔ t ∈ tuples_of w)
    ∧ (is_ok r = true → tuples_of w' = apply_delta (add, remove) (tuples_of w))) (c, w).
Proof.
  apply wp_bind. eapply wp_mono; [apply delete_each_spec|]. intros r [c1 w1] (-> & Hfr & Hs & Hsub & Hun & Hok).
  destruct r as [deleted|e].
  - apply wp_bind, wp_call. intros r w2 (Hc & Ha & Hk & Hf & Hs' & Ht)%law_create.
    assert (frame w w2) as Hfr2 by (eapply frame_trans; [done|by split_and!]).
    assert (∀ t, ¬ touched (add, remove) t → t ∈ tuples_of w2 ↔ t ∈ tuples_of w) as Hto.
    { intros t Hn. unfold touched in Hn. cbn in Hn. specialize (Hun t). specialize (Hsub t).
      destruct Ht as [->|(_ & Ht1 & Ht2)]; [rewrite elem_of_union, elem_of_list_to_set; tauto|].
      specialize (Ht1 t). specialize (Ht2 t). rewrite elem_of_union, elem_of_list_to_set in Ht2. tauto. }
    assert (holds fc w → spent r w w2) as Hsp.
    { intros Hh. eapply spent_trans; [by apply Hs|]. apply Hs'. by apply Hfr. }
    destruct r as [added|e]; [|by split_and!]. apply wp_ret. split_and!; auto. intros _. apply set_eq. intros t.
    destruct Ht as [->|[? _]]; [|done]. rewrite elem_of_union, elem_of_list_to_set, elem_of_apply_delta. cbn.
    specialize (Hun t). specialize (Hsub t). specialize (Hok eq_refl t). destruct (decide (matched remove t)); tauto.
  - split_and!; auto; [|done]. intros t Hn. unfold touched in Hn. cbn in Hn. specialize (Hun t). specialize (Hsub t). tauto.
Qed.

Lemma quiet_refl (w : W) : quiet (Ok tt) w w.
Proof. split_and!; [done..|by intros fc|apply spent_refl]. Qed.
Lemma quiet_trans {A B} (r : result A) (r' : result B) w1 w2 w3 : quiet r w1 w2 → quiet r' w2 w3 → quiet r' w1 w3.
Proof.
  intros ((? & ? & ?) & Hk & Hs) ((? & ? & ?) & Hk' & Hs'). split; [split_and!; congruence|].
  split; [intros fc Hf; auto|by eapply spent_trans].
Qed.

(** Code that only acts quietly; [ok] says when it does not raise. *)
Definition calm {A} (ok : Prop) (m : M (Consumer * W) A) : Prop := ∀ c w,
  wp stuck m (λ r '(c', w'), c' = c ∧ quiet (Ok tt) w w' ∧ (ok → is_ok r = true)) (c, w).

Lemma calm_ret {A} (a : A) ok : calm ok (mret a).
Proof. intros c w. apply wp_ret. auto using quiet_refl. Qed.
Lemma calm_result {A} (r : result A) (ok : Prop) : (ok → is_ok r = true) → calm ok (of_result r).
Proof. intros Hr c w. apply wp_of_result. auto using quiet_refl. Qed.
Lemma calm_act (f : W → W) ok : (∀ w, quiet (Ok tt) w (f w)) → calm ok (act f).
Proof. intros Hq c w. unfold wp, act. auto. Qed.
Lemma calm_bind {A B} (m : M (Consumer * W) A) (k : A → M (Consumer * W) B) ok :
  calm ok m → (∀ a, calm ok (k a)) → calm ok (m ≫= k).
Proof.
  intros Hm Hk c w. apply wp_bind. eapply wp_mono; [apply Hm|]. intros r [c1 w1] (-> & Hq & Hok). destruct r as [a|e]; [|done].
  eapply wp_mono; [apply Hk|]. intros r [c2 w2] (-> & Hq' & Hok'). split_and!; [done|by eapply quiet_trans|done].
Qed.

Lemma notify_ok ctx :
  is_ok (notify_migration_batch_completion (snd (fst (fst (context_fields ctx)))) ctx) = true.
Proof. unfold notify_migration_batch_completion. by destruct ctx; cbn; repeat case_match. Qed.

Lemma after_writes_spec ctx token :
  calm (is_ok (let '(_, event_type, _, created_at) := context_fields ctx in
               _ ← is_system_role_event event_type; latency_error created_at) = true) (after_writes cfg ctx token).
Proof.
  unfold after_writes. pose proof (notify_ok ctx) as Hn. destruct (context_fields ctx) as [[[org ety] rid] cre]. cbn [fst snd] in Hn.
  set (ok := is_ok _ = true). apply calm_bind; [apply calm_result; unfold ok; by destruct (is_system_role_event ety)|].
  intros system_role. apply calm_bind; [repeat case_match; auto using calm_ret, calm_act, law_save_token|].
  intros _. apply calm_bind; [repeat case_match; auto using calm_ret, calm_act, law_notify|].
  intros _. apply calm_bind; [by apply calm_result|].
  intros n. apply calm_bind; [repeat case_match; auto using calm_ret, calm_act, law_notify|].
  intros _. apply calm_result. unfold ok. by destruct (is_system_role_event ety).
Qed.

(** One attempt at a message: its tuples are written when it succeeds, no other tuple changes
    in any case, and a message that is not refused only fails with a failure of the world. *)
Definition message_good (message_value : json) (c : Consumer) (w : W) : Prop :=
  is_ok (decode ParseDict message_value) = true ∧ context_ok message_value = true
  ∧ ∃ fc, fencing_check_of c = Ok fc ∧ holds fc w.
Definition attempted (message_value : json) {A} (r : result A) (c : Consumer) (w : W) (s' : Consumer * W) : Prop :=
  let '(c', w') := s' in
  c' = c ∧ frame w w' ∧ (message_good message_value c w → spent r w w')
  ∧ match decode ParseDict message_value with
    | Ok d => (∀ t, ¬ touched d t → t ∈ tuples_of w' ↔ t ∈ tuples_of w)
              ∧ (is_ok r = true → tuples_of w' = apply_delta d (tuples_of w))
    | Raise _ => tuples_of w' = tuples_of w ∧ is_ok r = false
    end.

Lemma refused {A} message_value e e' c w :
  decode ParseDict message_value = Raise e → attempted message_value (Raise (A := A) e') c w (c, w).
Proof. intros Hd. unfold attempted, message_good. rewrite Hd. split_and!; auto using frame_refl. by intros [? _]. Qed.

Lemma relations_body_spec message_value msg c w :
  parse_debezium_message message_value = Ok msg →
  wp stuck (relations_body ParseDict cfg msg) (λ r s', attempted message_value r c w s' ∧ r ≠ Ok false) (c, w).
Proof.
  intros Hp. unfold relations_body. apply wp_bind, wp_of_result.
  destruct (raise_if (negb (validate_replication_message (dm_payload msg))) MessageValidationError) as [u|e] eqn:Hv;
    [|split; [|done]; eapply (refused _ e); unfold decode; rewrite Hp; cbn; by rewrite Hv].
  apply wp_bind, wp_of_result. destruct (jget (dm_payload msg) "resource_context" JNull) as [ctx|e] eqn:Hx.
  2: { exfalso. apply raise_if_Ok in Hv. by destruct (dm_payload msg). }
  apply wp_bind, wp_of_result. destruct (from_payload (dm_payload msg)) as [[add remove]|e] eqn:Hf;
    [|split; [|done]; eapply (refused _ e); unfold decode; rewrite Hp; cbn; rewrite Hv; cbn; by rewrite Hf].
  apply wp_bind, wp_of_result. destruct (mapM ParseDict add) as [a|e] eqn:Ha;
    [|split; [|done]; eapply (refused _ e); unfold decode; rewrite Hp; cbn; rewrite Hv; cbn; rewrite Hf; cbn; by rewrite Ha].
  apply wp_bind, wp_of_result. destruct (mapM ParseDict remove) as [b|e] eqn:Hb;
    [|split; [|done]; eapply (refused _ e); unfold decode; rewrite Hp; cbn; rewrite Hv; cbn; rewrite Hf; cbn; rewrite Ha; cbn; by rewrite Hb].
  assert (decode ParseDict message_value = Ok (a, b)) as Hd
    by (unfold decode; rewrite Hp; cbn; rewrite Hv; cbn; rewrite Hf; cbn; rewrite Ha; cbn; by rewrite Hb).
  apply wp_bind. change (wp stuck self ?Q (c, w)) with (Q (Ok c) (c, w)). cbn beta iota.
  apply wp_bind, wp_of_result. destruct (fencing_check_of c) as [fc|e] eqn:Hfc.
  2: { split; [|done]. unfold attempted, message_good. rewrite Hd, Hfc. split_and!; auto using frame_refl; [|done]. intros (_ & _ & fc & [=] & _). }
  apply (wp_bind2 stuck _ _ (λ deleted added : _, if str_truth added then Some added else deleted)
           (λ token, _ ← after_writes cfg ctx token; mret true)).
  eapply wp_mono; [apply writes_spec|]. intros r [c1 w1] (-> & Hfr & Hs & Hun & Hok).
  assert (∀ w', message_good message_value c w' → holds fc w') as Hg
    by (intros w' (_ & _ & fc' & Heq & Hh); rewrite Hfc in Heq; by injection Heq as <-).
  destruct r as [token|e].
  - apply wp_bind. eapply wp_mono; [apply after_writes_spec|]. intros r [c2 w2] (-> & Hq & Hr).
    assert (attempted message_value r c w (c, w2)) as Hat.
    { unfold attempted. rewrite Hd. destruct Hq as ((Ht & Hc & Has) & Hk & Hsp). rewrite Ht.
      split_and!; [done| |..|done|auto]; [by eapply frame_trans; [|apply (quiet_frame (Ok tt))]|].
      intros Hgood. eapply spent_trans; [by apply Hs, Hg|]. destruct Hgood as (_ & Hcx & _). destruct Hsp as [Hsp _].
      split; [done|]. rewrite Hr; [done|]. unfold context_ok in Hcx. rewrite Hp in Hcx. cbn in Hcx. by rewrite Hx in Hcx. }
    destruct r; [by apply wp_ret|done].
  - split; [|done]. unfold attempted. rewrite Hd. split_and!; auto.
Qed.

Lemma process_wrapper_spec message_value c w :
  wp stuck (process_wrapper ParseDict cfg message_value) (λ r s', attempted message_value r c w s') (c, w).
Proof.
  unfold process_wrapper, process_single. apply wp_bind, wp_bind, wp_of_result.
  destruct (parse_debezium_message message_value) as [msg|e] eqn:Hp; [|eapply (refused _ e); unfold decode; by rewrite Hp].
  unfold process_relations_message. apply wp_catch. eapply wp_mono; [by apply relations_body_spec|]. intros r [c1 w1] [Hat Hb].
  destruct r as [[]|e]; [done..|].
  apply wp_of_result. unfold attempted in *. by destruct (decode ParseDict message_value).
Qed.

(** Attempts in a row. *)
Lemma attempted_trans {A B} message_value e (r : result B) w1 w2 c w s' :
  attempted message_value (Raise (A := A) e) c w (c, w1) → quiet (Ok tt) w1 w2 → attempted message_value r c w2 s' →
  attempted message_value r c w s'.
Proof.
  destruct s' as [c' w']. intros (_ & Hf & Hs & Hd) Hq (-> & Hf' & Hs' & Hd').
  assert (frame w w2) as Hfr by (by eapply frame_trans; [|apply (quiet_frame (Ok tt))]).
  split_and!; [done|by eapply frame_trans| |].
  - intros Hg. eapply spent_trans; [by apply Hs|]. destruct Hq as (_ & _ & Hq). eapply spent_trans; [exact Hq|]. apply Hs'.
    destruct Hg as (? & ? & fc & ? & ?). split_and!; [done..|]. exists fc. split; [done|]. by apply Hfr.
  - destruct Hq as ((Ht & _) & _). rewrite Ht in Hd'. destruct (decode ParseDict message_value) as [d|].
    + destruct Hd as [Hd _], Hd' as [Hd' Hok]. split.
      * intros t Hn. by rewrite Hd', Hd.
      * intros Hr. rewrite (Hok Hr). apply set_eq. intros t. rewrite !elem_of_apply_delta.
        destruct (decide (t ∈ d.1)); [tauto|]. destruct (decide (matched d.2 t)); [tauto|]. rewrite Hd; [done|]. by intros [|].
    + destruct Hd as [Hd _], Hd' as [Hd' ?]. by rewrite Hd', Hd.
Qed.

Lemma attempted_raise {A B} message_value e e' c w s' :
  attempted message_value (Raise (A := A) e) c w s' → attempted message_value (Raise (A := B) e') c w s'.
Proof. unfold attempted. destruct s', (decode ParseDict message_value); naive_solver. Qed.

Lemma attempted_quiet {A B} message_value e e' c w w1 w2 :
  attempted message_value (Raise (A := A) e) c w (c, w1) → quiet (Ok tt) w1 w2 →
  attempted message_value (Raise (A := B) e') c w (c, w2).
Proof.
  intros (_ & Hf & Hs & Hd) ((Ht & ? & ?) & ? & [? ?]). unfold attempted. rewrite Ht.
  split_and!; [done|by eapply frame_trans; [|split_and!]| |destruct (decode ParseDict message_value); naive_solver].
  intros Hg. destruct (Hs Hg) as [? Hlt]. split; [lia|]. intros _. specialize (Hlt eq_refl). lia.
Qed.

(** A failed attempt and the pause after it. *)
Lemma wait_spec attempt c w :
  wp stuck (wait_before_retry cfg attempt) (λ r '(c', w'), c' = c ∧ quiet (Ok tt) w w' ∧ ∃ b, r = Ok b) (c, w).
Proof.
  unfold wp, wait_before_retry. destruct (env_random w) as [q w1] eqn:Hr. apply law_random in Hr.
  destruct (env_wait _ w1) as [b w2] eqn:Hw. apply law_wait in Hw. split_and!; eauto.
  eapply quiet_trans; [exact Hr|]. destruct Hw as (? & ? & [? _]). by split_and!.
Qed.

Lemma retry_spec message_value fuel attempt c w :
  stuck ∨ message_good message_value c w ∧ (faults w < fuel)%nat →
  wp stuck (retry_run cfg should_skip_retry (process_wrapper ParseDict cfg message_value) fuel attempt)
     (λ r s', attempted message_value r c w s') (c, w).
Proof.
  revert attempt w. induction fuel as [|fuel IH]; intros attempt w Hfuel; cbn [retry_run].
  { destruct Hfuel as [?|[_ ?]]; [done|lia]. }
  apply wp_catch. eapply wp_mono; [apply process_wrapper_spec|]. intros r [c1 w1] Hat. destruct r as [b|e]; [done|].
  assert (c1 = c) as -> by apply Hat.
  destruct (should_skip_retry e); [done|]. destruct (exceeded_max_retries cfg attempt); [by eapply attempted_raise|].
  apply wp_bind. eapply wp_mono; [apply wait_spec|]. intros r [c2 w2] (-> & Hq & [] & ->).
  - apply wp_of_result. by eapply attempted_quiet.
  - eapply wp_mono; [apply IH|intros r s' Hat'; by eapply (attempted_trans _ e)].
    destruct Hfuel as [?|[Hg Hlt]]; [by left|right]. pose proof Hat as (_ & Hf & Hs & _). specialize (Hs Hg). destruct Hs as [_ Hs].
    specialize (Hs eq_refl). destruct Hg as (? & ? & fc & ? & ?), Hf as (_ & _ & Hk & _), Hq as (_ & Hk' & [? _]).
    split; [|lia]. split_and!; [done..|]. exists fc. split; [done|]. by apply Hk', Hk.
Qed.

(** A message with its retries: True when it was written, False when interrupted. *)
Definition processed (message_value : json) (r : result bool) (c : Consumer) (w : W) (s' : Consumer * W) : Prop :=
  let '(c', w') := s' in
  (c' = c ∨ c' = with_paused true c ∧ is_ok r = false) ∧ frame w w'
  ∧ (message_good message_value c w → r = Ok true ∨ (faults w' < faults w)%nat)
  ∧ match decode ParseDict message_value with
    | Ok d => (∀ t, ¬ touched d t → t ∈ tuples_of w' ↔ t ∈ tuples_of w)
              ∧ (r = Ok true → tuples_of w' = apply_delta d (tuples_of w))
    | Raise _ => tuples_of w' = tuples_of w ∧ r ≠ Ok true
    end.

Lemma process_message_spec message_value fuel c w :
  stuck ∨ message_good message_value c w ∧ (faults w < fuel)%nat →
  wp stuck (process_message_with_retry ParseDict cfg fuel message_value) (λ r s', processed message_value r c w s') (c, w).
Proof.
  intros Hfuel. unfold process_message_with_retry. apply wp_catch, wp_bind. eapply wp_mono; [by apply retry_spec|].
  intros r [c1 w1] Hat. assert (c1 = c) as -> by apply Hat. destruct Hat as (_ & Hf & Hs & Hd). destruct r as [b|e].
  - apply wp_ret. split_and!; auto. destruct (decode ParseDict message_value); naive_solver.
  - assert (∀ r c', (c' = c ∨ c' = with_paused true c ∧ is_ok r = false) → r ≠ Ok true → processed message_value r c w (c', w1)) as Hgen.
    { intros r c' Hc Hr. split_and!; [done..| |destruct (decode ParseDict message_value); naive_solver].
      intros Hg. right. by apply Hs. }
    assert (∀ e', wp stuck (of_result (Raise e')) (λ r s', processed message_value r c w s') (c, w1)) as Hraise
      by (intros e'; apply wp_of_result, Hgen; auto).
    destruct e; try apply Hraise; [|by apply wp_ret, Hgen; auto].
    apply wp_bind. unfold wp, update. apply Hgen; auto.
Qed.

(** ** Offsets *)

Lemma restored_same m : restored m m = m.
Proof.
  apply map_eq. intros k. unfold restored. rewrite lookup_union_with. destruct (m !! k) as [[o e]|]; cbn; [|done]. by rewrite Z.leb_refl.
Qed.
Lemma with_offsets_id c : with_offsets (stored_offsets c) c = c.
Proof. by destruct c. Qed.

(** What the consumer has noted for a partition: the offset that is stored, or else the
    committed one. *)
Definition stored_mark (tp : TopicPartition) (c : Consumer) : option Z := (λ o, (fst o + 1)%Z) <$> stored_offsets c !! tp.
Definition mark (tp : TopicPartition) (s : Consumer * W) : option Z :=
  match stored_mark tp (fst s) with Some o => Some o | None => committed_of (snd s) !! tp end.

(** A commit, seen from one partition. *)
Definition committed_step (tp : TopicPartition) (s s' : Consumer * W) : Prop :=
  let '(c, w) := s in let '(c', w') := s' in
  (c' = c ∨ c' = with_offsets ∅ c)
  ∧ tuples_of w' = tuples_of w ∧ env_assignment w' = env_assignment w ∧ kept w w' ∧ (faults w' ≤ faults w)%nat
  ∧ (committed_of w' !! tp = committed_of w !! tp ∨ ∃ o, stored_mark tp c = Some o ∧ committed_of w' !! tp = Some o)
  ∧ (tp ∈ env_assignment w → mark tp s' = mark tp s ∧ ((faults w' < faults w)%nat ∨ stored_offsets c' !! tp = None)).

Lemma committed_step_refl tp c w : stored_offsets c !! tp = None ∨ tp ∉ env_assignment w → committed_step tp (c, w) (c, w).
Proof. intros Hs. split_and!; auto; [by intros fc|]. intros Ha. split; [done|]. right. by destruct Hs. Qed.

Lemma committed_lookup tp (assigned : list TopicPartition) (offsets : gmap TopicPartition (Z * option Z)) :
  filter (λ e : TopicPartition * (Z * option Z), fst e ∈ assigned) ((λ o : Z * option Z, (fst o + 1, snd o)%Z) <$> offsets) !! tp =
  if decide (tp ∈ assigned) then (λ o : Z * option Z, (fst o + 1, snd o)%Z) <$> offsets !! tp else None.
Proof.
  case_decide as Ha.
  - destruct (offsets !! tp) as [o|] eqn:Ho; cbn.
    + apply map_lookup_filter_Some. rewrite lookup_fmap, Ho. done.
    + apply map_lookup_filter_None. left. by rewrite lookup_fmap, Ho.
  - apply map_lookup_filter_None. right. by intros x _.
Qed.

Lemma commit_spec tp c w :
  wp stuck commit (λ r s', is_ok r = true ∧ committed_step tp (c, w) s') (c, w).
Proof.
  unfold commit. apply wp_bind. change (wp stuck self ?Q (c, w)) with (Q (Ok c) (c, w)). cbn beta iota. case_decide as Hz.
  { apply wp_ret. split; [done|]. apply committed_step_refl. left. by rewrite Hz. }
  apply wp_bind. change (wp stuck assignment ?Q (c, w)) with (Q (Ok (env_assignment w)) (c, w)). cbn beta iota zeta.
  pose proof (committed_lookup tp (env_assignment w) (stored_offsets c)) as Hl.
  set (offs := filter _ _) in *. destruct (decide (offs = ∅)) as [Hoffs|_].
  { apply wp_ret. split; [done|]. apply committed_step_refl. rewrite Hoffs, lookup_empty in Hl. case_decide; [left|by right].
    by destruct (stored_offsets c !! tp). }
  apply wp_catch, wp_bind, wp_call. intros r w' (Ht & Ha & Hk & [Hf Hs] & Hc)%law_commit.
  assert (∀ o, (fst <$> offs) !! tp = Some o → stored_mark tp c = Some o) as Hm.
  { intros o. rewrite lookup_fmap, Hl. unfold stored_mark. case_decide; [|done]. by destruct (stored_offsets c !! tp). }
  assert (committed_of w' !! tp = committed_of w !! tp ∨ ∃ o, stored_mark tp c = Some o ∧ committed_of w' !! tp = Some o) as Hcm.
  { destruct Hc as [->|[_ ->]]; [|by left]. destruct ((fst <$> offs) !! tp) as [o|] eqn:Hx.
    - right. exists o. split; [by apply Hm|]. by apply lookup_union_Some_l.
    - left. by apply lookup_union_r. }
  destruct r as [u|e].
  - destruct Hc as [Hc|[? _]]; [|done]. apply wp_bind. unfold wp at 1, clear_offsets, update. apply wp_ret. split; [done|].
    split_and!; [by right|done..|]. intros Hin. split; [|right; by destruct c].
    unfold mark, stored_mark. cbn [fst snd]. rewrite Hc, lookup_union, lookup_fmap, Hl, decide_True by done.
    destruct c as [? so]. cbn. destruct (so !! tp); cbn; [by destruct (committed_of w !! tp)|]. by destruct (committed_of w !! tp).
  - apply wp_bind. unfold wp at 1, update. apply wp_ret. split; [done|]. rewrite restored_same, with_offsets_id.
    split_and!; auto. intros Hin. split; [|by left; apply Hs]. unfold mark. cbn [fst snd].
    destruct (stored_mark tp c) as [o|] eqn:Ho; [done|]. by destruct Hcm as [?|(? & ? & ?)].
Qed.

(** ** Locks *)

(** Nothing but the lock and its token may change at the Inventory API. *)
Definition lock_step {A} (r : result A) (w w' : W) : Prop :=
  still w w' ∧ (faults w' ≤ faults w)%nat
  ∧ ((0 < RBAC_KAFKA_LOCK_ACQUISITION_MAX_RETRIES cfg)%nat → is_ok r = false → (faults w' < faults w)%nat).

Lemma acquire_from_spec lock left attempt c w :
  wp stuck (acquire_lock_from cfg lock left attempt) (λ r '(c', w'), c' = c ∧ still w w' ∧ (faults w' ≤ faults w)%nat
    ∧ ((0 < left)%nat → is_ok r = false → (faults w' < faults w)%nat)
    ∧ ∀ t, r = Ok t → str_truth t = true ∧ holds (mkFencingCheck lock t) w') (c, w).
Proof.
  revert attempt w. induction left as [|left IH]; intros attempt w; cbn [acquire_lock_from].
  { apply wp_of_result. split_and!; try done; lia. }
  apply wp_catch, wp_call. intros r w1 (Hst & [Hle Hlt] & Hok)%law_acquire. destruct r as [t|e].
  { by split_and!. }
  assert (∀ e' : exn, wp stuck (of_result (Raise (A := string) e')) (λ r '(c', w'), c' = c ∧ still w w' ∧ (faults w' ≤ faults w)%nat
    ∧ ((0 < S left)%nat → is_ok r = false → (faults w' < faults w)%nat)
    ∧ ∀ t, r = Ok t → str_truth t = true ∧ holds (mkFencingCheck lock t) w') (c, w1)) as Hraise
    by (intros e'; apply wp_of_result; split_and!; [done..|by intros _ _; apply Hlt|done]).
  destruct e; try apply Hraise. destruct (Nat.eqb left 0) eqn:Hz; [apply Hraise|]. specialize (Hlt eq_refl).
  apply wp_bind. unfold wp at 1, act. pose proof (law_sleep (lock_delay cfg attempt) w1) as ((Ht & Hc & Ha) & _ & [Hf _]).
  eapply wp_mono; [apply IH|]. intros r [c' w'] (-> & (Ht' & Hc' & Ha') & Hf' & _ & Hok'). destruct Hst as (? & ? & ?).
  split_and!; [done|split_and!; congruence|lia|lia|done].
Qed.

Lemma still_refl (w : W) : still w w.
Proof. done. Qed.
Lemma still_trans (w1 w2 w3 : W) : still w1 w2 → still w2 w3 → still w1 w3.
Proof. intros (? & ? & ?) (? & ? & ?). split_and!; congruence. Qed.

(** The consumer holds the lock with this name. *)
Definition locked (lock : string) (c : Consumer) (w : W) : Prop :=
  lock_id c = Some lock ∧ lock_acquisition_failed c = false
  ∧ ∃ t, lock_token c = Some t ∧ str_truth t = true ∧ holds (mkFencingCheck lock t) w.

Lemma locked_fencing lock c w : str_truth lock = true → locked lock c w → ∃ fc, fencing_check_of c = Ok fc ∧ holds fc w.
Proof.
  intros Hl (Hi & _ & t & Ht & Hs & Hh). exists (mkFencingCheck lock t). unfold fencing_check_of. by rewrite Hi, Ht, Hl, Hs.
Qed.

(** The name both ways of locking a partition use, when the group has a name. *)
Definition lock_name (tp : TopicPartition) : string := RBAC_KAFKA_CONSUMER_GROUP_ID cfg +:+ "/" +:+ show_int (tp_partition tp).

(** A change of the consumer that leaves its offsets. *)
Definition same_offsets (c c' : Consumer) : Prop :=
  stored_offsets c' = stored_offsets c ∧ is_paused_for_retry c' = is_paused_for_retry c ∧ has_offset_manager c' = has_offset_manager c.

Lemma assigned_spec tps c w :
  wp stuck (on_partitions_assigned cfg tps) (λ r '(c', w'), is_ok r = true ∧ same_offsets c c' ∧ still w w' ∧ (faults w' ≤ faults w)%nat
    ∧ ∀ tp tps', tps = tp :: tps' → str_truth (RBAC_KAFKA_CONSUMER_GROUP_ID cfg) = true →
        (0 < RBAC_KAFKA_LOCK_ACQUISITION_MAX_RETRIES cfg)%nat →
        locked (lock_name tp) c' w' ∨ lock_acquisition_failed c' = true ∧ (faults w' < faults w)%nat) (c, w).
Proof.
  unfold on_partitions_assigned. destruct tps as [|tp tps].
  { apply wp_ret. split_and!; done. }
  apply wp_catch, wp_bind. eapply wp_mono; [apply acquire_from_spec|]. intros r [c1 w1] (-> & Hst & Hle & Hlt & Hok). destruct r as [t|e].
  - unfold wp, update. refine (conj eq_refl (conj _ (conj Hst (conj Hle _)))); [by destruct c|]. intros tp' tps' [= <- <-] Hg _. rewrite Hg in Hok. left.
    destruct (Hok t eq_refl) as [Hs Hh]. destruct c. split_and!; [by cbn; rewrite Hg|done|]. by exists t.
  - apply wp_bind. unfold wp at 1, update. apply wp_bind. unfold wp at 1, update_health_status, update. unfold wp, update.
    refine (conj eq_refl (conj _ (conj Hst (conj Hle _)))); [by destruct c|]. intros tp' tps' [= <- <-] _ Hr. right. split; [by destruct c|]. by apply Hlt.
Qed.

Lemma ensure_spec c w :
  wp stuck (ensure_lock_token_on_assignment cfg) (λ r '(c', w'), same_offsets c c' ∧ still w w' ∧ (faults w' ≤ faults w)%nat
    ∧ ∀ tp, env_assignment w = [tp] → locked (lock_name tp) c w → r = Ok true ∧ c' = c ∧ w' = w) (c, w).
Proof.
  unfold ensure_lock_token_on_assignment. apply wp_bind.
  change (wp stuck assignment ?Q (c, w)) with (Q (Ok (env_assignment w)) (c, w)). cbn beta iota zeta.
  destruct (env_assignment w) as [|tp tps]; [apply wp_ret; split_and!; by try intros tp|].
  apply wp_bind. change (wp stuck self ?Q (c, w)) with (Q (Ok c) (c, w)). cbn beta iota. fold (lock_name tp).
  destruct (str_given (lock_token c) && bool_decide (lock_id c = Some (lock_name tp))) eqn:Hl.
  { apply wp_ret. split_and!; try done. }
  apply wp_bind. unfold wp at 1, update. set (c1 := if str_given (lock_token c) then _ else c).
  assert (same_offsets c c1) as Hsame by (unfold c1; destruct (str_given (lock_token c)); by destruct c).
  assert (∀ tp', tp :: tps = [tp'] → locked (lock_name tp') c w → False) as Hno.
  { intros tp' [= <- _] (Hi & _ & t & Ht & Hs & _). rewrite Hi, Ht, bool_decide_eq_true_2 in Hl by done. cbn in Hl. by rewrite Hs in Hl. }
  apply wp_catch, wp_bind. eapply wp_mono; [apply acquire_from_spec|]. intros r [c2 w2] (-> & Hst & Hle & _). destruct r as [t|e].
  - apply wp_bind. unfold wp at 1, update. apply wp_ret. refine (conj _ (conj Hst (conj Hle _))); [|naive_solver].
    destruct Hsame as (? & ? & ?). by destruct c1.
  - apply wp_of_result. refine (conj Hsame (conj Hst (conj Hle _))). naive_solver.
Qed.

(** ** Code that writes no tuples *)

(** The tuples stay, and an offset that gets committed for the partition is the stored one. *)
Definition offsets_step (tp : TopicPartition) (s s' : Consumer * W) : Prop :=
  tuples_of (snd s') = tuples_of (snd s)
  ∧ (committed_of (snd s') !! tp = committed_of (snd s) !! tp
     ∨ ∃ o, stored_mark tp (fst s) = Some o ∧ committed_of (snd s') !! tp = Some o)
  ∧ (stored_mark tp (fst s') = stored_mark tp (fst s) ∨ stored_mark tp (fst s') = None)
  ∧ env_assignment (snd s') = env_assignment (snd s) ∧ (faults (snd s') ≤ faults (snd s))%nat.

Lemma offsets_step_refl tp s : offsets_step tp s s.
Proof. by split_and!; auto. Qed.
Lemma offsets_step_trans tp s1 s2 s3 : offsets_step tp s1 s2 → offsets_step tp s2 s3 → offsets_step tp s1 s3.
Proof.
  intros (Ht & Hc & Hm & Ha & Hf) (Ht' & Hc' & Hm' & Ha' & Hf'). split_and!; [congruence| | |congruence|lia].
  - destruct Hc' as [->|(o & Ho & ->)]; [done|]. right. exists o. destruct Hm as [Hm|Hm]; rewrite Hm in Ho; by split.
  - destruct Hm as [<-|Hm]; [done|]. right. destruct Hm' as [Hm'|Hm']; congruence.
Qed.
Lemma committed_offsets_step tp s s' : committed_step tp s s' → offsets_step tp s s'.
Proof. destruct s as [c w], s' as [c' w']. intros (Hc & ? & ? & _ & ? & ? & _). split_and!; try done. destruct Hc as [->| ->]; [by left|right]. by destruct c. Qed.
Lemma still_offsets_step tp c c' (w w' : W) :
  stored_offsets c' = stored_offsets c → still w w' → (faults w' ≤ faults w)%nat → offsets_step tp (c, w) (c', w').
Proof. intros Hs (? & Hc & ?) Hf. split_and!; try done; left; cbn; [by rewrite Hc|unfold stored_mark; by rewrite Hs]. Qed.

Definition writeless (tp : TopicPartition) {A} (m : M (Consumer * W) A) : Prop :=
  ∀ s, wp stuck m (λ _ s', offsets_step tp s s') s.

Lemma writeless_ret tp {A} (a : A) : writeless tp (mret a).
Proof. intros s. apply wp_ret, offsets_step_refl. Qed.
Lemma writeless_result tp {A} (r : result A) : writeless tp (of_result r).
Proof. intros s. apply wp_of_result, offsets_step_refl. Qed.
Lemma writeless_self tp : writeless tp self.
Proof. intros [c w]. apply offsets_step_refl. Qed.
Lemma writeless_assignment tp : writeless tp assignment.
Proof. intros [c w]. apply offsets_step_refl. Qed.
Lemma writeless_update tp f : (∀ c, stored_offsets (f c) = stored_offsets c) → writeless tp (update f).
Proof. intros Hf [c w]. unfold wp, update. by apply still_offsets_step. Qed.
Lemma writeless_bind tp {A B} (m : M (Consumer * W) A) (k : A → M (Consumer * W) B) :
  writeless tp m → (∀ a, writeless tp (k a)) → writeless tp (m ≫= k).
Proof.
  intros Hm Hk s. apply wp_bind. eapply wp_mono; [apply Hm|]. intros [a|e] s1 Hs; [|done].
  eapply wp_mono; [apply Hk|]. intros r s2 Hs'. by eapply offsets_step_trans.
Qed.
Lemma writeless_catch tp {A} (m : M (Consumer * W) A) h : writeless tp m → (∀ e, writeless tp (h e)) → writeless tp (catch m h).
Proof.
  intros Hm Hk s. apply wp_catch. eapply wp_mono; [apply Hm|]. intros [a|e] s1 Hs; [done|].
  eapply wp_mono; [apply Hk|]. intros r s2 Hs'. by eapply offsets_step_trans.
Qed.
Lemma writeless_commit tp : writeless tp commit.
Proof. intros [c w]. eapply wp_mono; [apply (commit_spec tp)|]. intros r s' [_ Hs]. by apply committed_offsets_step. Qed.
Lemma writeless_quiet tp {A} (f : W → result A * W) : (∀ w r w', f w = (r, w') → quiet r w w') → writeless tp (call f).
Proof. intros Hf [c w]. apply wp_call. intros r w' (? & ? & ? & ?)%Hf. by apply still_offsets_step. Qed.
Lemma writeless_assigned tp tps : writeless tp (on_partitions_assigned cfg tps).
Proof. intros [c w]. eapply wp_mono; [apply assigned_spec|]. intros r [c' w'] (_ & (? & _) & ? & ? & _). by apply still_offsets_step. Qed.
Lemma writeless_ensure tp : writeless tp (ensure_lock_token_on_assignment cfg).
Proof. intros [c w]. eapply wp_mono; [apply ensure_spec|]. intros r [c' w'] ((? & _) & ? & ? & _). by apply still_offsets_step. Qed.
End specs.

Create HintDb writeless.
#[export] Hint Resolve writeless_ret writeless_result writeless_self writeless_assignment writeless_commit writeless_assigned
  writeless_ensure : writeless.
(** Code that is put together from such code. *)
Ltac writeless := repeat first [ progress intros | solve [auto with writeless nocore] | apply writeless_bind | apply writeless_catch | solve [apply writeless_update; intros []; cbn; by repeat case_match]
  | by apply writeless_quiet; eauto using law_connect, law_committed, law_metadata | case_match ].

Section writeless.
Context {W : Type} `{World W} (cfg : ConsumerConfig) (stuck : Prop) (tp : TopicPartition).

Lemma writeless_health : writeless stuck tp (health_check_loop_iteration cfg).
Proof. unfold health_check_loop_iteration, update_health_status. writeless. Qed.
Lemma writeless_revoked : writeless stuck tp (on_partitions_revoked cfg).
Proof. unfold on_partitions_revoked. writeless. Qed.
Lemma writeless_remaining : writeless stuck tp (commit_remaining cfg).
Proof. unfold commit_remaining. writeless. Qed.
Lemma writeless_stop : writeless stuck tp (stop_consuming cfg).
Proof. unfold stop_consuming, update_health_status. pose proof writeless_remaining. writeless. Qed.
Lemma writeless_tracking last : writeless stuck tp (initialize_partition_offset_tracking tp last).
Proof. unfold initialize_partition_offset_tracking. writeless. Qed.
End writeless.
#[export] Hint Resolve writeless_health writeless_revoked writeless_remaining writeless_stop writeless_tracking : writeless.

(* ------------------------------------------------------------------ *)
(** * A world *)

(** A world that satisfies the laws: a store, a broker and a lock service, with a plan of
    which of the next calls fail, before or after they had their effect, and in which pause
    the consumer is told to stop. *)
Module Sim.
Inductive outcome := Fine | FailsBefore | FailsAfter | Stops.
Record t := mk {
  s_tuples : gset Message;
  s_committed : gmap TopicPartition Z;
  s_locks : gmap string string;
  s_tokens : Z;
  s_partitions : list TopicPartition;
  s_plan : list outcome;
}.

(** A call that has the effect [f] and answers [a]. *)
Definition attempt {A} (a : A) (f : t → t) (w : t) : result A * t :=
  let '(mk T C L n ps plan) := w in
  let w' := mk T C L n ps (tail plan) in
  match plan with
  | FailsBefore :: _ => (Raise (RpcError false), w')
  | FailsAfter :: _ => (Raise (RpcError false), f w')
  | _ => (Ok a, f w')
  end.
Definition on_tuples (f : gset Message → gset Message) (w : t) : t :=
  let '(mk T C L n ps plan) := w in mk (f T) C L n ps plan.
Definition on_commits (f : gmap TopicPartition Z → gmap TopicPartition Z) (w : t) : t :=
  let '(mk T C L n ps plan) := w in mk T (f C) L n ps plan.
Definition on_lock (l token : string) (w : t) : t :=
  let '(mk T C L n ps plan) := w in mk T C (<[l := token]> L) (n + 1) ps plan.
Definition valid_check (fc : FencingCheck) (w : t) : Prop := s_locks w !! fc_lock_id fc = Some (fc_lock_token fc).
#[global] Instance valid_check_dec fc w : Decision (valid_check fc w) := decide (s_locks w !! fc_lock_id fc = Some (fc_lock_token fc)).
Definition fenced {A} (fc : option FencingCheck) (k : t → result A * t) (w : t) : result A * t :=
  match fc with
  | Some fc => if decide (valid_check fc w) then k w else (Raise (RpcError true), w)
  | None => k w
  end.

Definition pause (w : t) : bool * t :=
  match w with mk T C L n ps (Stops :: plan) => (true, mk T C L n ps plan) | _ => (false, w) end.

#[global] Instance env : Env t := {|
  env_connect kwargs := attempt tt id;
  env_acquire l w := let token := "t" +:+ show_int (s_tokens w) in attempt token (on_lock l token) w;
  env_delete fc f := fenced fc (attempt "d" (on_tuples (filter (λ m, relation_filter m ≠ f))));
  env_create fc ms := fenced fc (attempt "c" (on_tuples (λ T, list_to_set ms ∪ T)));
  env_assignment := s_partitions;
  env_commit offsets := attempt tt (on_commits (λ C, (fst <$> offsets) ∪ C));
  env_committed tp w := attempt (s_committed w !! tp) id w;
  env_metadata topic := attempt tt id;
  env_random w := (1 # 2, w)%Q;
  env_wait q w := pause w;
  env_sleep q w := w;
  env_save_token o tok w := w;
  env_notify ch v b w := w;
|}.

Definition fails (o : outcome) : nat := match o with Fine => 0 | _ => 1 end.
#[global] Instance observed : Observed t := {|
  tuples_of := s_tuples;
  committed_of := s_committed;
  faults w := sum_list_with fails (s_plan w);
  holds := valid_check;
|}.

Lemma attempt_spec {A} (a : A) f w r w' :
  attempt a f w = (r, w') → ∃ w1, s_tuples w1 = s_tuples w ∧ s_committed w1 = s_committed w ∧ s_locks w1 = s_locks w
    ∧ s_partitions w1 = s_partitions w ∧ (faults w1 ≤ faults w)%nat ∧ (is_ok r = false → (faults w1 < faults w)%nat)
    ∧ (w' = f w1 ∨ is_ok r = false ∧ w' = w1) ∧ (r = Ok a ∨ is_ok r = false).
Proof.
  destruct w as [T C L n ps plan]. cbn [attempt]. set (w1 := mk T C L n ps (tail plan)). intros Heq. exists w1.
  split_and!; try done; destruct plan as [|[] plan]; cbn in Heq |- *; injection Heq as <- <-; cbn; auto; try done; try lia.
Qed.

Lemma attempt_quiet {A} (a : A) w r w' : attempt a id w = (r, w') → quiet r w w'.
Proof.
  intros (w1 & Ht & Hc & Hl & Hp & Hf & Hlt & Hw & _)%attempt_spec. assert (w' = w1) as -> by (destruct Hw as [->|[_ ->]]; done).
  split; [by split_and!|]. split; [|by split]. intros fc. unfold holds, valid_check. cbn. unfold valid_check. by rewrite Hl.
Qed.

#[global] Instance world : World t.
Proof.
  assert (∀ w : t, quiet (Ok tt) w w) as Hrefl by (intros w; apply quiet_refl).
  split; cbn.
  - intros kw w r w'. apply attempt_quiet.
  - intros tp w r w'. apply attempt_quiet.
  - intros tp w r w'. apply attempt_quiet.
  - intros w q w' [= <- <-]. destruct (Hrefl w) as (? & ? & ?). by split_and!.
  - intros q w b w'. destruct w as [T C L n ps [|[] plan]]; cbn; intros [= <- <-]; try apply Hrefl.
    split; [done|]. split; [by intros fc|]. split; cbn; lia.
  - intros _ w. apply Hrefl.
  - intros _ _ w. apply Hrefl.
  - intros _ _ _ w. apply Hrefl.
  - intros l w r w' (w1 & Ht & Hc & Hl & Hp & Hf & Hlt & Hw & Hr)%attempt_spec. destruct w1 as [T C L n ps plan]. cbn in *.
    refine (conj _ (conj _ _)).
    + by split_and!; destruct Hw as [->|[_ ->]].
    + split; by destruct Hw as [->|[_ ->]].
    + intros tok ->. destruct Hr as [[= ->]|?]; [|done]. split; [done|]. destruct Hw as [->|[? _]]; [|done]. unfold valid_check. cbn. by rewrite lookup_insert_eq.
  - intros fc f w r w' Heq. unfold fenced in Heq. case_decide as Hv.
    2: { injection Heq as <- <-. destruct (Hrefl w) as (? & ? & ?). split_and!; auto; done. }
    apply attempt_spec in Heq as (w1 & Ht & Hc & Hl & Hp & Hf & Hlt & Hw & Hr). destruct w1 as [T C L n ps plan]. cbn in *.
    assert (∀ fc, valid_check fc w → valid_check fc w') as Hk by (intros fc'; unfold valid_check; destruct Hw as [->|[_ ->]]; cbn; by rewrite <- Hl).
    refine (conj _ (conj _ (conj Hk (conj _ (conj _ _))))); [by destruct Hw as [->|[_ ->]]..| |].
    + intros _. split; by destruct Hw as [->|[_ ->]].
    + destruct Hw as [->|[Hr' ->]]; [left|right; split; [done|]]; cbn; by rewrite <- Ht.
  - intros fc ms w r w' Heq. unfold fenced in Heq. case_decide as Hv.
    2: { injection Heq as <- <-. destruct (Hrefl w) as (? & ? & ?). split_and!; auto; [done|right]. split_and!; [done..|]. set_solver. }
    apply attempt_spec in Heq as (w1 & Ht & Hc & Hl & Hp & Hf & Hlt & Hw & Hr). destruct w1 as [T C L n ps plan]. cbn in *.
    assert (∀ fc, valid_check fc w → valid_check fc w') as Hk by (intros fc'; unfold valid_check; destruct Hw as [->|[_ ->]]; cbn; by rewrite <- Hl).
    refine (conj _ (conj _ (conj Hk (conj _ (conj _ _))))); [by destruct Hw as [->|[_ ->]]..| |].
    + intros _. split; by destruct Hw as [->|[_ ->]].
    + destruct Hw as [->|[Hr' ->]]; [left|right; split; [done|]]; cbn; rewrite <- Ht; [done|set_solver].
  - intros offs w r w' (w1 & Ht & Hc & Hl & Hp & Hf & Hlt & Hw & Hr)%attempt_spec. destruct w1 as [T C L n ps plan]. cbn in *.
    assert (∀ fc, valid_check fc w → valid_check fc w') as Hk by (intros fc'; unfold valid_check; destruct Hw as [->|[_ ->]]; cbn; by rewrite <- Hl).
    refine (conj _ (conj _ (conj Hk (conj _ _)))); [by destruct Hw as [->|[_ ->]]..| |].
    + split; by destruct Hw as [->|[_ ->]].
    + destruct Hw as [->|[Hr' ->]]; [left|right; split; [done|]]; cbn; by rewrite <- Hc.
Qed.
End Sim.
