(* ===== verification/KafkaDelivery.v ===== *)
(** Delivery of the replication events by the consumer: nothing is lost whatever fails, and
    once the failures end the relations store has caught up with the log. *)

From S2P Require Import Prelude.
From S2P Require Import PyString.
From S2P Require Import Config.
From S2P Require Import PyUuid.
From S2P Require Import PyJson.
From S2P Require Import RelationTypes.
From S2P Require Import TupleStore.
From S2P Require Import Outbox.
From S2P Require Import KafkaConsumer.
From S2P Require Import KafkaWorld.
From Stdlib Require Import Sorting.Sorted QArith.
#[local] Close Scope Q_scope.

(* ------------------------------------------------------------------ *)
(** * The log of a partition *)

Section log.
Context (ParseDict : json → result Message).

(** The delta of a record; a tombstone has the empty one, a record that is refused none. *)
Definition delta_of (r : ConsumerRecord) : option delta :=
  match cr_value r with
  | None => Some ([], [])
  | Some v => match (x ← parse_message_value v; decode ParseDict x) with Ok d => Some d | Raise _ => None end
  end.
Definition effect_of (r : ConsumerRecord) : delta := default ([], []) (delta_of r).

Context (log : list ConsumerRecord) (G : gset Message).
Implicit Types P D R : list ConsumerRecord.

(** The store after a part of the log, and the tuples a part of the log concerns. *)
Definition graph (P : list ConsumerRecord) : gset Message := foldl (λ g r, apply_delta (effect_of r) g) G P.
Definition mentioned (D : list ConsumerRecord) (t : Message) : Prop := ∃ r, r ∈ D ∧ touched (effect_of r) t.

(** The store has everything of [P]; it may also have, in part and in any state of
    completion, what a further part [D] of the log does. *)
Definition lags (P : list ConsumerRecord) (T : gset Message) : Prop :=
  ∃ D, P ++ D `prefix_of` log ∧ ∀ t, ¬ mentioned D t → t ∈ T ↔ t ∈ graph P.

Lemma graph_app P R : graph (P ++ R) = foldl (λ g r, apply_delta (effect_of r) g) (graph P) R.
Proof. apply foldl_app. Qed.

Lemma mentioned_cons r D t : mentioned (r :: D) t ↔ touched (effect_of r) t ∨ mentioned D t.
Proof. unfold mentioned. set_solver. Qed.
Lemma mentioned_app D1 D2 t : mentioned (D1 ++ D2) t ↔ mentioned D1 t ∨ mentioned D2 t.
Proof. unfold mentioned. set_solver. Qed.

Lemma fold_untouched T R t : ¬ mentioned R t → t ∈ foldl (λ g r, apply_delta (effect_of r) g) T R ↔ t ∈ T.
Proof.
  revert T. induction R as [|r R IH]; intros T Hn; [done|]. rewrite mentioned_cons in Hn. cbn. rewrite IH by tauto. apply untouched. tauto.
Qed.

Lemma lags_back P P' T : P' `prefix_of` P → lags P T → lags P' T.
Proof.
  intros [Q ->] (D & HD & HT). exists (Q ++ D). rewrite <- app_assoc in HD. split; [done|]. intros t Hn. rewrite mentioned_app in Hn.
  rewrite HT by tauto. rewrite graph_app. apply fold_untouched. tauto.
Qed.

Lemma prefix_next P (r : ConsumerRecord) D : P ++ [r] `prefix_of` log → P ++ D `prefix_of` log → D = [] ∨ ∃ D', D = r :: D'.
Proof.
  intros [k ->] [k' Heq]. rewrite <- !app_assoc in Heq. apply app_inv_head in Heq. destruct D as [|r' D]; [by left|right]. injection Heq as <- _. eauto.
Qed.

Lemma lags_partial P r T T' :
  P ++ [r] `prefix_of` log → (∀ t, ¬ touched (effect_of r) t → t ∈ T' ↔ t ∈ T) → lags P T → lags P T'.
Proof.
  intros Hr Hu (D & HD & HT). destruct (prefix_next _ _ _ Hr HD) as [->|[D' ->]].
  - exists [r]. split; [done|]. intros t Hn. rewrite mentioned_cons in Hn. rewrite Hu by tauto. apply HT. unfold mentioned. set_solver.
  - exists (r :: D'). split; [done|]. intros t Hn. rewrite <- HT by done. apply Hu. rewrite mentioned_cons in Hn. tauto.
Qed.

Lemma lags_step P r T : P ++ [r] `prefix_of` log → lags P T → lags (P ++ [r]) (apply_delta (effect_of r) T).
Proof.
  intros Hr (D & HD & HT).
  assert (∃ D', (P ++ [r]) ++ D' `prefix_of` log ∧ ∀ t, mentioned D t → touched (effect_of r) t ∨ mentioned D' t) as (D' & HD' & Hm).
  { destruct (prefix_next _ _ _ Hr HD) as [->|[D' ->]].
    - exists []. rewrite app_nil_r. split; [done|]. intros t (r' & Hin & _). set_solver.
    - exists D'. rewrite <- app_assoc. split; [done|]. intros t. by rewrite mentioned_cons. }
  exists D'. split; [done|]. intros t Hn. rewrite graph_app. cbn. rewrite !elem_of_apply_delta.
  destruct (decide (t ∈ (effect_of r).1)); [tauto|]. destruct (decide (matched (effect_of r).2 t)); [tauto|].
  rewrite HT; [done|]. intros [Ht|?]%Hm; [|done]. destruct Ht; done.
Qed.

Lemma lags_end T : lags log T → T = graph log.
Proof.
  intros (D & HD & HT). apply set_eq. intros t. apply HT. intros (r & Hr & _). destruct D as [|r' D]; [set_solver|].
  apply prefix_length in HD. rewrite length_app in HD. cbn in HD. lia.
Qed.

(** Going through the rest of the log brings the store up to date. *)
Lemma lags_rest P R T : log = P ++ R → lags P T → foldl (λ g r, apply_delta (effect_of r) g) T R = graph log.
Proof.
  revert P T. induction R as [|r R IH]; intros P T Hlog HT; cbn.
  - rewrite app_nil_r in Hlog. apply lags_end. by rewrite Hlog.
  - apply (IH (P ++ [r])); [by rewrite <- app_assoc|]. apply lags_step; [|done]. exists R. by rewrite <- app_assoc.
Qed.

(** ** Offsets *)

(** The records before an offset. *)
Definition below (z : Z) : list ConsumerRecord := List.filter (λ r, (cr_offset r <? z)%Z) log.
Definition below_mark (o : option Z) : list ConsumerRecord := match o with Some z => below z | None => [] end.

Lemma below_app P R z :
  log = P ++ R → Forall (λ r, (cr_offset r < z)%Z) P → Forall (λ r, (z ≤ cr_offset r)%Z) R → below z = P.
Proof.
  intros Hlog HP HR. unfold below. rewrite Hlog, List.filter_app.
  assert (∀ l, Forall (λ r, (z ≤ cr_offset r)%Z) l → List.filter (λ r, (cr_offset r <? z)%Z) l = []) as Hz.
  { induction 1 as [|x l Hx _ IH]; cbn; [done|]. destruct (Z.ltb_spec (cr_offset x) z); [lia|done]. }
  rewrite (Hz R HR), app_nil_r. clear -HP. induction HP as [|x l Hx _ IH]; cbn; [done|].
  destruct (Z.ltb_spec (cr_offset x) z); [by rewrite IH|lia].
Qed.

Lemma sorted_app P R : StronglySorted (λ a b, (cr_offset a < cr_offset b)%Z) (P ++ R) →
  ∀ a b, a ∈ P → b ∈ R → (cr_offset a < cr_offset b)%Z.
Proof.
  induction P as [|x P IH]; cbn; intros Hs a b Ha Hb; [set_solver|]. inversion_clear Hs as [|? ? Hs' Hall].
  apply elem_of_cons in Ha as [->|Ha]; [|eauto]. rewrite Forall_forall in Hall. apply Hall. set_solver.
Qed.

Context (Hsorted : StronglySorted (λ a b, (cr_offset a < cr_offset b)%Z) log).

(** The offset after a record that was handled. *)
Lemma below_next P r : P ++ [r] `prefix_of` log → below (cr_offset r + 1) = P ++ [r].
Proof.
  intros [R Hlog]. pose proof Hsorted as Hso. rewrite Hlog in Hso. apply (below_app _ R); [done|..]; apply Forall_forall; intros x Hx.
  - apply elem_of_app in Hx as [Hx|Hx%list_elem_of_singleton]; [|subst; lia]. rewrite <- app_assoc in Hso.
    enough (cr_offset x < cr_offset r)%Z by lia. apply (sorted_app P ([r] ++ R)); set_solver.
  - enough (cr_offset r < cr_offset x)%Z by lia. apply (sorted_app (P ++ [r]) R); set_solver.
Qed.

Lemma below_prefix z : below z `prefix_of` log.
Proof.
  unfold below. pose proof Hsorted as Hso. induction Hso as [|r l Hs IH Hall]; cbn; [done|].
  destruct (Z.ltb_spec (cr_offset r) z) as [Hlt|Hge]; [by apply prefix_cons, IH|].
  replace (List.filter _ l) with (@nil ConsumerRecord); [apply prefix_nil|]. symmetry. clear -Hall Hge.
  induction Hall as [|x l Hx _ IH]; cbn; [done|]. destruct (Z.ltb_spec (cr_offset x) z); [lia|done].
Qed.
Lemma below_mark_prefix o : below_mark o `prefix_of` log.
Proof. destruct o; [apply below_prefix|apply prefix_nil]. Qed.
End log.

(* ------------------------------------------------------------------ *)
(** * Safety *)

Section delivery.
Context {W : Type} `{World W}.
Context (ParseDict : json → result Message) (cfg : ConsumerConfig).
Context (tp : TopicPartition) (log : list ConsumerRecord) (G : gset Message).

(** Where the broker resumes, and what is owed to it: the store has every record before the
    committed offset. *)
Definition position (w : W) : list ConsumerRecord := below_mark log (committed_of w !! tp).
Definition consistent (w : W) : Prop := lags ParseDict log G (position w) (tuples_of w).

(** The consumer has gone through [P]: neither the committed nor the stored offset is further. *)
Definition inv (P : list ConsumerRecord) (s : Consumer * W) : Prop :=
  lags ParseDict log G P (tuples_of (snd s)) ∧ position (snd s) `prefix_of` P ∧ below_mark log (stored_mark tp (fst s)) `prefix_of` P.

Lemma inv_consistent P s : inv P s → consistent (snd s).
Proof. intros (Hl & Hp & _). by eapply lags_back. Qed.

Lemma inv_step P s s' : offsets_step tp s s' → inv P s → inv P s'.
Proof.
  intros (Ht & Hc & Hm & _) (Hl & Hp & Hs). unfold inv, position in *. rewrite Ht. split_and!; [done| |].
  - destruct Hc as [->|(o & Ho & ->)]; [done|]. by rewrite Ho in Hs.
  - destruct Hm as [->| ->]; [done|apply prefix_nil].
Qed.

Lemma inv_writeless stuck P {A} (m : M (Consumer * W) A) s :
  writeless stuck tp m → inv P s → wp stuck m (λ _ s', inv P s') s.
Proof. intros Hm Hi. eapply wp_mono; [apply Hm|]. intros r s' Hs. exact (inv_step _ _ _ Hs Hi). Qed.

(** A change of the tuples alone. *)
Lemma inv_tuples P P' c w w' :
  inv P (c, w) → P `prefix_of` P' → committed_of w' = committed_of w → lags ParseDict log G P' (tuples_of w') → inv P' (c, w').
Proof. intros (_ & Hp & Hs) Hpre Hc Hl. unfold inv, position in *. cbn in *. rewrite Hc. split_and!; [done|by transitivity P..]. Qed.

Context (Hsorted : StronglySorted (λ a b, (cr_offset a < cr_offset b)%Z) log).
Context (Htp : Forall (λ r, topic_partition r = tp) log).

Lemma record_partition P m : P ++ [m] `prefix_of` log → topic_partition m = tp.
Proof. intros [R Hlog]. rewrite Forall_forall in Htp. apply Htp. rewrite Hlog. set_solver. Qed.

(** Storing the offset of a record that was handled. *)
Lemma store_and_commit_inv stuck P m c w :
  P ++ [m] `prefix_of` log → inv (P ++ [m]) (c, w) → wp stuck (store_and_commit cfg m) (λ _ s', inv (P ++ [m]) s') (c, w).
Proof.
  intros Hm (Hl & Hp & Hs). unfold store_and_commit. apply wp_bind. unfold wp at 1, store_offset, update. rewrite (record_partition _ _ Hm).
  apply inv_writeless; [writeless|]. split_and!; [done..|]. destruct c as [? so]. unfold stored_mark. cbn. rewrite lookup_insert_eq. cbn.
  by rewrite (below_next _ Hsorted P m Hm).
Qed.

Lemma process_and_commit_inv stuck fuel P m v mv last c w :
  stuck → cr_value m = Some v → parse_message_value v = Ok mv → P ++ [m] `prefix_of` log → inv P (c, w) →
  wp stuck (process_and_commit_message ParseDict cfg fuel m mv last)
     (λ r s', match r with Ok (true, _) => inv (P ++ [m]) s' | _ => ∃ P', inv P' s' end) (c, w).
Proof.
  intros Hst Hv Hmv Hm Hi. unfold process_and_commit_message. apply wp_bind. eapply wp_mono; [apply process_message_spec; by left|].
  intros r [c1 w1] (Hc1 & (Hc & Hf) & _ & Hd).
  assert (delta_of ParseDict m = match decode ParseDict mv with Ok d => Some d | Raise _ => None end) as Hdelta
    by (unfold delta_of; rewrite Hv; cbn; by rewrite Hmv).
  assert (inv P (c1, w1)) as Hi1.
  { assert (inv P (c, w1)) as Hi1.
    { eapply inv_tuples; [exact Hi|done|done|]. eapply lags_partial; [exact Hm| |apply Hi]. cbn. unfold effect_of. rewrite Hdelta.
      destruct (decode ParseDict mv) as [d|]; [apply Hd|]. destruct Hd as [-> _]. done. }
    destruct Hc1 as [->|[-> _]]; [done|]. by destruct c. }
  destruct r as [[]|e]; [|by exists P..]. destruct (decode ParseDict mv) as [d|]; [|by destruct Hd]. destruct Hd as [_ Hd]. specialize (Hd eq_refl).
  apply wp_bind. eapply wp_mono; [apply (store_and_commit_inv _ P); [done|]|].
  - destruct Hc1 as [->|[_ ?]]; [|done]. eapply inv_tuples; [exact Hi|by eexists|done|]. rewrite Hd.
    replace d with (effect_of ParseDict m) by (unfold effect_of; by rewrite Hdelta). apply lags_step; [done|]. apply Hi.
  - intros [b|e] s' Hi'; [by apply wp_ret|eauto].
Qed.

Lemma on_message_inv fuel P m last s :
  P ++ [m] `prefix_of` log → inv P s →
  wp True (on_message ParseDict cfg fuel m last) (λ r s', match r with Ok (true, _) => inv (P ++ [m]) s' | _ => ∃ P', inv P' s' end) s.
Proof.
  intros Hm Hi. unfold on_message. rewrite (record_partition _ _ Hm).
  apply wp_bind. eapply wp_mono; [apply (inv_writeless _ P); [writeless|done]|]. intros [c|e] s1 Hi1; [|eauto].
  apply wp_bind. eapply wp_mono; [apply (inv_writeless _ P); [writeless|done]|]. intros [u|e] s2 Hi2; [|eauto].
  apply wp_bind. eapply wp_mono; [apply (inv_writeless _ P); [writeless|done]|]. intros [u'|e] s3 Hi3; [|eauto].
  apply wp_bind. eapply wp_mono; [apply (inv_writeless _ P); [writeless|done]|]. intros [last'|e] [c4 w4] Hi4; [|eauto].
  destruct (cr_value m) as [v|] eqn:Hv.
  - apply wp_bind, wp_of_result. destruct (parse_message_value v) as [mv|e] eqn:Hmv; [|eauto]. by eapply process_and_commit_inv.
  - assert (inv (P ++ [m]) (c4, w4)) as Hi5.
    { eapply inv_tuples; [exact Hi4|by eexists|done|]. replace (tuples_of w4) with (apply_delta (effect_of ParseDict m) (tuples_of w4)).
      - apply lags_step; [done|]. apply Hi4.
      - unfold effect_of, delta_of. rewrite Hv. apply set_eq. intros t. apply untouched. intros [Ht|Ht]; by apply elem_of_nil in Ht. }
    apply wp_bind. unfold handle_tombstone_message. apply wp_bind. eapply wp_mono; [by apply store_and_commit_inv|].
    intros [b|e] s5 Hi6; [|eauto]. apply wp_ret. by apply wp_ret.
Qed.

(** The client delivers the records of the partition in order.  It starts, and restarts after
    the partition was assigned to it again, at the committed offset; no offset is then left
    from before the assignment. *)
Fixpoint deliverable (fuel : nat) (P : list ConsumerRecord) (events : list PollEvent) (last : gmap TopicPartition Z) (s : Consumer * W) : Prop :=
  match events with
  | [] => True
  | Polled m :: events' =>
      P ++ [m] `prefix_of` log
      ∧ match on_message ParseDict cfg fuel m last s with
        | Some (Ok (true, last'), s') => deliverable fuel (P ++ [m]) events' last' s'
        | _ => True
        end
  | Assigned tps :: events' =>
      match on_partitions_assigned cfg tps s with
      | Some (Ok _, s') =>
          if decide (tp ∈ tps) then stored_offsets (fst s') !! tp = None ∧ deliverable fuel (position (snd s')) events' last s'
          else deliverable fuel P events' last s'
      | _ => True
      end
  | Revoked :: events' => match on_partitions_revoked cfg s with Some (Ok _, s') => deliverable fuel P events' last s' | _ => True end
  | HealthCheck :: events' => match health_check_loop_iteration cfg s with Some (Ok _, s') => deliverable fuel P events' last s' | _ => True end
  | Signalled :: _ => True
  end.

(** One event, then the rest of the loop. *)
Lemma loop_next {A} P (m : M (Consumer * W) A) (k : A → M (Consumer * W) unit) s :
  writeless True tp m → inv P s →
  (∀ a s', m s = Some (Ok a, s') → inv P s' → wp True (k a) (λ _ s', ∃ P', inv P' s') s') →
  wp True (m ≫= k) (λ _ s', ∃ P', inv P' s') s.
Proof.
  intros Hm Hi Hk. apply wp_bind. pose proof (inv_writeless True P m s Hm Hi) as Hwp. unfold wp at 1 in Hwp. unfold wp at 1.
  destruct (m s) as [[[a|e] s']|] eqn:Heq; eauto.
Qed.

Lemma loop_inv fuel events P last s :
  inv P s → deliverable fuel P events last s → wp True (run_message_loop ParseDict cfg fuel events last) (λ _ s', ∃ P', inv P' s') s.
Proof.
  revert P last s. induction events as [|[m|tps| | |] events IH]; intros P last s Hi Hd; cbn [run_message_loop].
  - apply wp_ret. eauto.
  - destruct Hd as [Hm Hd]. apply wp_bind. pose proof (on_message_inv fuel P m last s Hm Hi) as Hwp. unfold wp at 1 in Hwp. unfold wp at 1.
    destruct (on_message _ _ _ _ _ _) as [[[[[] last']|e] s']|]; eauto.
  - apply (loop_next P); [apply writeless_assigned|done|]. intros a s' Heq Hi'. cbn in Hd. rewrite Heq in Hd. case_decide; [|by eapply IH].
    destruct Hd as [Hs Hd]. eapply IH; [|exact Hd]. destruct Hi' as (Hl & Hp & _). split_and!; [by eapply lags_back|done|].
    unfold stored_mark. rewrite Hs. apply prefix_nil.
  - apply (loop_next P); [apply writeless_revoked|done|]. intros a s' Heq Hi'. cbn in Hd. rewrite Heq in Hd. by eapply IH.
  - apply (loop_next P); [apply writeless_health|done|]. intros a s' Heq Hi'. cbn in Hd. rewrite Heq in Hd. by eapply IH.
  - apply (loop_next P); [apply writeless_stop|done|]. intros a s' _ Hi'. apply wp_of_result. eauto.
Qed.

Definition opened (w : W) (r : result unit) (s' : Consumer * W) : Prop :=
  let '(c', w') := s' in
  stored_offsets c' = ∅ ∧ lock_acquisition_failed c' = false ∧ is_paused_for_retry c' = false
  ∧ (is_ok r = true → has_offset_manager c' = true) ∧ quiet (Ok tt) w w'
  ∧ (is_ok (create_consumer cfg) = true → is_ok r = false → (faults w' < faults w)%nat).
Lemma setup_spec stuck lv rd w : wp stuck (initialize_consumer_setup cfg) (opened w) (new_consumer lv rd, w).
Proof.
  unfold initialize_consumer_setup. apply wp_bind, wp_of_result. destruct (create_consumer cfg) as [kw|e] eqn:Hk.
  2: { refine (conj eq_refl (conj eq_refl (conj eq_refl (conj _ (conj (quiet_refl w) _))))); [done|]. by rewrite Hk. }
  apply wp_bind, wp_call. intros r w1 (Hst & Hkt & Hs)%law_connect. assert (quiet (Ok tt) w w1) as Hq by (split; [done|]; split; [done|]; by split; [apply Hs|]).
  destruct r as [u|e].
  - apply wp_bind. unfold wp at 1, update. unfold wp, update_health_status, update.
    refine (conj eq_refl (conj eq_refl (conj eq_refl (conj _ (conj Hq _))))); done.
  - refine (conj eq_refl (conj eq_refl (conj eq_refl (conj _ (conj Hq _))))); [done|]. intros _. apply Hs.
Qed.

Lemma wp_finally {S A B} stuck (m : M S A) (k : result A → M S B) Q s :
  wp stuck m (λ r s', wp stuck (k r) Q s') s → wp stuck (λ s, match m s with Some (r, s') => k r s' | None => None end) Q s.
Proof. unfold wp. by destruct (m s) as [[r s']|]. Qed.

Definition somewhere (s : Consumer * W) : Prop := ∃ P, inv P s.
Lemma somewhere_writeless {A} (m : M (Consumer * W) A) s :
  writeless True tp m → somewhere s → wp True m (λ _ s', somewhere s') s.
Proof. intros Hm [P Hi]. eapply wp_mono; [by apply (inv_writeless _ P)|]. intros r s' Hi'. by exists P. Qed.

(** What code without writes keeps, the end of the consumer keeps. *)
Lemma launch_ends stuck (I : Consumer * W → Prop) fuel events s :
  (∀ A (m : M (Consumer * W) A) s, writeless stuck tp m → I s → wp stuck m (λ _ s', I s') s) →
  wp stuck (_ ← initialize_consumer_setup cfg; run_message_loop ParseDict cfg fuel events ∅) (λ _ s', I s') s →
  wp stuck (launch ParseDict cfg fuel events) (λ _ s', I s') s.
Proof.
  intros Hw Hrun.
  assert (wp stuck (start_consuming ParseDict cfg fuel events) (λ _ s', I s') s) as Hstart.
  { unfold start_consuming. apply (wp_finally _ _ (λ r, _ ← update with_shutdown; _ ← commit_remaining cfg; of_result r)).
    apply (wp_mono _ _ (λ _ s', I s')); [|intros r s' Hi; apply Hw; [writeless|done]].
    apply wp_catch. eapply wp_mono; [exact Hrun|]. intros [u|e] s' Hi; [done|]. apply Hw; [unfold update_health_status; writeless|done]. }
  unfold wp, launch in *. destruct (start_consuming _ _ _ _ _) as [[r s']|]; [|done].
  pose proof (Hw _ (_ ← stop_consuming cfg; of_result r) s' ltac:(writeless) Hstart) as Hstop. unfold wp in Hstop.
  destruct r as [u|[]]; try exact Hstop. done.
Qed.

Lemma launch_inv fuel events lv rd w :
  consistent w →
  (∀ c1 w1, initialize_consumer_setup cfg (new_consumer lv rd, w) = Some (Ok tt, (c1, w1)) → deliverable fuel (position w1) events ∅ (c1, w1)) →
  wp True (launch ParseDict cfg fuel events) (λ _ s', somewhere s') (new_consumer lv rd, w).
Proof.
  intros Hc Hd. apply launch_ends; [apply @somewhere_writeless|].
  apply wp_bind. pose proof (setup_spec True lv rd w) as Hs. unfold wp at 1 in Hs. unfold wp at 1.
  destruct (initialize_consumer_setup cfg _) as [[r [c1 w1]]|]; [|done]. destruct Hs as (Hso & _ & _ & _ & ((Ht & Hcm & _) & _) & _).
  assert (inv (position w1) (c1, w1)) as Hi.
  { unfold consistent, position in Hc. rewrite <- Hcm, <- Ht in Hc. split_and!; [done..|]. unfold stored_mark. cbn. rewrite Hso, lookup_empty. apply prefix_nil. }
  destruct r as [[]|e]; [|by eexists]. eapply wp_mono; [eapply loop_inv; [exact Hi|by apply Hd]|]. done.
Qed.


(* ------------------------------------------------------------------ *)
(** ** Progress *)

(** A record the consumer does not refuse. *)
Definition record_good (r : ConsumerRecord) : bool :=
  match cr_value r with
  | None => true
  | Some v => match parse_message_value v with Ok mv => is_ok (decode ParseDict mv) && context_ok mv | Raise _ => false end
  end.

(** The consumer holds its lock and has noted that it went through [P]. *)
Definition ready (P : list ConsumerRecord) (s : Consumer * W) : Prop :=
  locked (lock_name cfg tp) (fst s) (snd s) ∧ env_assignment (snd s) = [tp]
  ∧ below_mark log (mark tp s) = P ∧ is_paused_for_retry (fst s) = false ∧ has_offset_manager (fst s) = true.

Lemma ready_committed P c w s' : committed_step tp (c, w) s' → ready P (c, w) → ready P s' ∧ (faults (snd s') ≤ faults w)%nat.
Proof.
  destruct s' as [c' w']. intros (Hc & _ & Ha & Hk & Hf & _ & Hm) (Hl & Has & Hb & Hp & Ho). cbn in Has.
  destruct Hm as [Hm _]; [rewrite Has; set_solver|]. split; [|done]. unfold ready. rewrite Hm. cbn [fst snd]. rewrite Ha.
  assert (locked (lock_name cfg tp) c w') as Hl'.
  { destruct Hl as (? & ? & t & ? & ? & ?). split_and!; [done..|]. exists t. split_and!; [done..|]. by apply Hk. }
  destruct Hc as [->| ->]; [by split_and!|]. destruct c. by split_and!.
Qed.

Lemma store_and_commit_ready P m c w :
  P ++ [m] `prefix_of` log → ready P (c, w) →
  wp False (store_and_commit cfg m) (λ r s', is_ok r = true ∧ ready (P ++ [m]) s' ∧ (faults (snd s') ≤ faults w)%nat) (c, w).
Proof.
  intros Hm (Hl & Has & Hb & Hp & Ho). unfold store_and_commit. apply wp_bind. unfold wp at 1, store_offset, update. rewrite (record_partition _ _ Hm).
  set (c1 := with_offsets _ c).
  assert (ready (P ++ [m]) (c1, w)) as Hr.
  { unfold c1. destruct c as [? so]. split_and!; [done..| |done|done]. unfold mark, stored_mark. cbn. rewrite lookup_insert_eq. cbn.
    exact (below_next log Hsorted P m Hm). }
  destruct (should_commit cfg (cr_offset m)); [|by apply wp_ret]. apply wp_bind. eapply wp_mono; [apply (commit_spec False tp)|].
  intros r s' [Hok Hs]. destruct r as [[b n]|]; [|done]. apply wp_ret. split; [done|]. by eapply ready_committed.
Qed.

(** The lock stays across quiet calls. *)
Lemma ready_quiet {A} (r : result A) P c w w' : quiet r w w' → ready P (c, w) → ready P (c, w').
Proof.
  intros ((_ & Hc & Ha) & Hk & _) (Hl & Has & Hb & Hp & Ho). unfold ready, mark in *. cbn [fst snd] in *. rewrite Hc, Ha. split_and!; try done.
  destruct Hl as (? & ? & t & ? & ? & ?). split_and!; [done..|]. exists t. split_and!; [done..|]. by apply Hk.
Qed.

Lemma tracking_spec P last c w :
  ready P (c, w) →
  wp False (initialize_partition_offset_tracking tp last) (λ r s', is_ok r = true ∧ ready P s' ∧ fst s' = c ∧ (faults (snd s') ≤ faults w)%nat) (c, w).
Proof.
  intros Hr. unfold initialize_partition_offset_tracking. apply wp_catch, wp_bind, wp_call. intros r w' Hq%law_committed.
  pose proof (ready_quiet _ _ _ _ _ Hq Hr). destruct Hq as (_ & _ & [? _]). destruct r; by apply wp_ret.
Qed.

(** A message is handled, or a failure was used up. *)
Definition advanced (P : list ConsumerRecord) (w : W) {A} (r : result (bool * A)) (s' : Consumer * W) : Prop :=
  env_assignment (snd s') = [tp] ∧ (faults (snd s') ≤ faults w)%nat
  ∧ ((∃ a, r = Ok (true, a)) ∧ ready P s' ∨ (∀ a, r ≠ Ok (true, a)) ∧ (faults (snd s') < faults w)%nat).

Lemma lock_name_given : str_truth (lock_name cfg tp) = true.
Proof. unfold lock_name. by destruct (RBAC_KAFKA_CONSUMER_GROUP_ID cfg). Qed.

Lemma process_and_commit_ready fuel P m v mv last c w :
  cr_value m = Some v → parse_message_value v = Ok mv → record_good m = true → P ++ [m] `prefix_of` log →
  ready P (c, w) → (faults w < fuel)%nat →
  wp False (process_and_commit_message ParseDict cfg fuel m mv last) (advanced (P ++ [m]) w) (c, w).
Proof.
  intros Hv Hmv Hg Hm Hr Hf. unfold record_good in Hg. rewrite Hv, Hmv in Hg. apply andb_prop in Hg as [Hd Hx].
  assert (message_good ParseDict mv c w) as Hgood by (split_and!; [done..|]; apply (locked_fencing (lock_name cfg tp)); [apply lock_name_given|apply Hr]).
  unfold process_and_commit_message. apply wp_bind. eapply wp_mono; [apply process_message_spec; by right|].
  intros r [c1 w1] (Hc & (Hcm & Ha & Hk & Hle) & Hsp & _). specialize (Hsp Hgood). destruct Hr as (Hl & Has & Hb & Hp & Ho). cbn [fst snd] in *.
  destruct r as [[]|e].
  - destruct Hc as [->|[_ ?]]; [|done]. apply wp_bind. eapply wp_mono; [apply (store_and_commit_ready P); [done|]|].
    + unfold ready, mark in *. cbn [fst snd] in *. rewrite Hcm, Ha. split_and!; try done.
      destruct Hl as (? & ? & t & ? & ? & ?). split_and!; [done..|]. exists t. split_and!; [done..|]. by apply Hk.
    + intros r s' (Hok & Hr' & Hle'). destruct r as [b|]; [|done]. apply wp_ret. split_and!; [apply Hr'|lia|]. left. eauto.
  - apply wp_ret. destruct Hsp as [?|?]; [done|]. split_and!; [cbn; congruence|done|]. right. by split.
  - destruct Hsp as [?|?]; [done|]. split_and!; [cbn; congruence|done|]. right. by split.
Qed.

Lemma on_message_ready fuel P m last s :
  record_good m = true → P ++ [m] `prefix_of` log → ready P s → (faults (snd s) < fuel)%nat →
  wp False (on_message ParseDict cfg fuel m last) (advanced (P ++ [m]) (snd s)) s.
Proof.
  destruct s as [c w]. intros Hg Hm Hr Hf. unfold on_message. rewrite (record_partition _ _ Hm). pose proof Hr as ((Hid & Hnf & Hl) & Has & _).
  cbn [fst snd] in *. apply wp_bind. change (wp False self ?Q (c, w)) with (Q (Ok c) (c, w)). cbn beta iota. rewrite Hnf. cbn [raise_if].
  apply wp_bind, wp_of_result. apply wp_bind.
  apply (wp_mono _ _ (λ r s', is_ok r = true ∧ s' = (c, w))).
  { case_decide; [|by apply wp_ret]. apply wp_bind. eapply wp_mono; [apply (ensure_spec cfg False)|].
    intros r [c1 w1] (_ & _ & _ & Hl'). destruct (Hl' tp Has) as (-> & -> & ->); [by split_and!|]. by apply wp_of_result. }
  intros r s1 [Hok ->]. destruct r; [|done]. apply wp_bind.
  apply (wp_mono _ _ (λ r s', is_ok r = true ∧ ready P s' ∧ fst s' = c ∧ (faults (snd s') ≤ faults w)%nat)).
  { destruct (last !! tp); [by apply wp_ret|]. by apply tracking_spec. }
  intros r [c2 w2] (Hok' & Hr2 & Hc2 & Hf2). cbn [fst snd] in *. subst c2. destruct r as [last'|]; [|done].
  assert (∀ A (r : result (bool * A)) s', advanced (P ++ [m]) w2 r s' → advanced (P ++ [m]) w r s') as Hadv.
  { intros A r s' (? & ? & Hor). split_and!; [done|lia|]. destruct Hor as [?|[? ?]]; [by left|right]. split; [done|lia]. }
  destruct (cr_value m) as [v|] eqn:Hv.
  - apply wp_bind, wp_of_result. pose proof Hg as Hg'. unfold record_good in Hg. rewrite Hv in Hg.
    destruct (parse_message_value v) as [mv|] eqn:Hmv; [|done]. eapply wp_mono; [eapply process_and_commit_ready; try done; lia|]. apply Hadv.
  - apply wp_bind. unfold handle_tombstone_message. apply wp_bind. eapply wp_mono; [by apply store_and_commit_ready|].
    intros r s3 (Hok3 & Hr3 & Hf3). destruct r; [|done]. apply wp_ret, wp_ret, Hadv. split_and!; [apply Hr3|done|]. left. eauto.
Qed.

(** The loop reaches the end of the log, or a failure was used up. *)
Definition caught_up (w : W) (r : result unit) (s' : Consumer * W) : Prop :=
  env_assignment (snd s') = [tp] ∧ (faults (snd s') ≤ faults w)%nat ∧ (r = Ok tt ∧ ready log s' ∨ (faults (snd s') < faults w)%nat).

Lemma loop_ready fuel R P last s :
  log = P ++ R → Forall (λ m, record_good m = true) R → ready P s → (faults (snd s) < fuel)%nat →
  wp False (run_message_loop ParseDict cfg fuel (map Polled R) last) (caught_up (snd s)) s.
Proof.
  revert P last s. induction R as [|m R IH]; intros P last s Hlog Hg Hr Hf; cbn [map run_message_loop].
  - apply wp_ret. rewrite app_nil_r in Hlog. subst P. split_and!; [apply Hr|done|by left].
  - apply Forall_cons in Hg as [Hm Hg]. apply wp_bind.
    eapply wp_mono; [apply (on_message_ready fuel P); [done|exists R; by rewrite <- app_assoc|done|done]|].
    intros r s1 (Has & Hle & Hor). destruct r as [[b last']|e].
    + destruct Hor as [[[a [= ->]] Hr1]|[Hn Hlt]].
      * eapply wp_mono; [apply (IH (P ++ [m])); [by rewrite <- app_assoc|done|done|lia]|].
        intros r s2 (? & ? & Hor). split_and!; [done|lia|]. destruct Hor as [?|?]; [by left|right; lia].
      * destruct b; [by destruct (Hn last')|]. apply wp_ret. split_and!; auto.
    + destruct Hor as [[[a [=]] _]|[_ Hlt]]. split_and!; auto.
Qed.

(** Without the lock no message is handled. *)
Lemma loop_unlocked fuel R last c w :
  lock_acquisition_failed c = true →
  wp False (run_message_loop ParseDict cfg fuel (map Polled R) last) (λ _ s', s' = (c, w)) (c, w).
Proof.
  intros Hc. destruct R as [|m R]; [by apply wp_ret|]. cbn [map run_message_loop]. apply wp_bind. unfold on_message.
  apply wp_bind. change (wp False self ?Q (c, w)) with (Q (Ok c) (c, w)). cbn beta iota. rewrite Hc. by apply wp_bind, wp_of_result.
Qed.

(** One run of the consumer from the committed offset on, and runs in a row. *)
Definition remaining (w : W) : list ConsumerRecord := drop (length (position w)) log.
Definition session (fuel : nat) (lv rd : bool) (w : W) : option (result unit * (Consumer * W)) :=
  launch ParseDict cfg fuel (Assigned [tp] :: map Polled (remaining w)) (new_consumer lv rd, w).
Fixpoint sessions (fuel n : nat) (w : W) : option W :=
  match n with
  | O => Some w
  | S n' => match session fuel false false w with Some (_, (_, w')) => sessions fuel n' w' | None => None end
  end.

Lemma remaining_split w : log = position w ++ remaining w.
Proof.
  unfold remaining. destruct (below_mark_prefix log Hsorted (committed_of w !! tp)) as [R HR]. fold (position w) in HR.
  rewrite HR at 2. by rewrite drop_app_length.
Qed.

(** The session delivers what [at_least_once] asks for. *)
Lemma deliverable_polled fuel R P last s : log = P ++ R → deliverable fuel P (map Polled R) last s.
Proof.
  revert P last s. induction R as [|m R IH]; intros P last s Hlog; [done|]. cbn. split; [exists R; by rewrite <- app_assoc|].
  destruct (on_message _ _ _ _ _ _) as [[[[[] last']|e] s']|]; try done. apply IH. by rewrite <- app_assoc.
Qed.

Lemma session_deliverable fuel lv rd w c1 w1 :
  initialize_consumer_setup cfg (new_consumer lv rd, w) = Some (Ok tt, (c1, w1)) →
  deliverable fuel (position w1) (Assigned [tp] :: map Polled (remaining w)) ∅ (c1, w1).
Proof.
  intros Hopen. pose proof (setup_spec True lv rd w) as Ho. unfold wp in Ho. rewrite Hopen in Ho.
  destruct Ho as (Hso & _ & _ & _ & ((_ & Hcm & _) & _) & _). cbn [deliverable].
  pose proof (assigned_spec cfg True [tp] c1 w1) as Ha. unfold wp in Ha. destruct (on_partitions_assigned _ _ _) as [[[u|] [c2 w2]]|]; try done.
  destruct Ha as (_ & (Hso2 & _) & (_ & Hcm2 & _) & _). rewrite decide_True by set_solver. cbn [fst snd]. rewrite Hso2, Hso. split; [apply lookup_empty|].
  apply deliverable_polled. unfold position. rewrite Hcm2, Hcm. apply remaining_split.
Qed.

Lemma session_consistent fuel lv rd w r c' w' : consistent w → session fuel lv rd w = Some (r, (c', w')) → consistent w'.
Proof.
  intros Hc Hs. pose proof (launch_inv fuel (Assigned [tp] :: map Polled (remaining w)) lv rd w Hc) as Hl. unfold wp in Hl.
  unfold session in Hs. rewrite Hs in Hl. destruct Hl as [P Hi%inv_consistent]; [|done]. apply session_deliverable.
Qed.

(** Everything is committed, or a failure was used up. *)
Definition settled (w : W) (s' : Consumer * W) : Prop :=
  env_assignment (snd s') = [tp] ∧ (faults (snd s') ≤ faults w)%nat
  ∧ (position (snd s') = log ∧ stored_mark tp (fst s') = None ∨ (faults (snd s') < faults w)%nat).

Lemma settled_step w s s' : offsets_step tp s s' → settled w s → settled w s'.
Proof.
  intros (_ & Hc & Hm & Ha & Hf) (Has & Hle & Hor). split_and!; [congruence|lia|]. destruct Hor as [[Hp Hs]|?]; [left|right; lia].
  rewrite Hs in *. split; [|by destruct Hm]. unfold position in *. destruct Hc as [->|(o & [=] & _)]. done.
Qed.

Definition failed (w : W) (s' : Consumer * W) : Prop := env_assignment (snd s') = [tp] ∧ (faults (snd s') < faults w)%nat.
Lemma failed_settled w s : failed w s → settled w s.
Proof. intros [? ?]. split_and!; [done|lia|by right]. Qed.
Lemma failed_caught_up w r s : failed w s → caught_up w r s.
Proof. intros [? ?]. split_and!; [done|lia|by right]. Qed.
Lemma failed_stays w {A} (m : M (Consumer * W) A) s : writeless False tp m → failed w s → wp False m (λ _ s', failed w s') s.
Proof. intros Hm [Ha Hf]. eapply wp_mono; [apply Hm|]. intros r s' (_ & _ & _ & Ha' & Hf'). split; [congruence|lia]. Qed.

Context (Hcreate : is_ok (create_consumer cfg) = true) (Hgroup : str_truth (RBAC_KAFKA_CONSUMER_GROUP_ID cfg) = true).
Context (Hretries : (0 < RBAC_KAFKA_LOCK_ACQUISITION_MAX_RETRIES cfg)%nat) (Hshutdown : commit_on_shutdown (cc_commit cfg) = true).

(** The last commit. *)
Lemma shutdown_settled w (r : result unit) s :
  caught_up w r s → wp False (_ ← update with_shutdown; _ ← commit_remaining cfg; of_result r) (λ _ s', settled w s') s.
Proof.
  intros (Has & Hle & [[-> Hr]|Hlt]); [|eapply wp_mono; [apply (failed_stays w); [writeless|done]|eauto using failed_settled]].
  destruct s as [c1 w1].
  apply wp_bind. unfold wp at 1, update. set (c2 := with_shutdown c1).
  assert (ready log (c2, w1)) as Hr2 by (unfold c2; by destruct c1).
  pose proof Hr2 as (_ & _ & _ & Hp & Ho). cbn [fst snd] in *. apply wp_bind. unfold commit_remaining. apply wp_bind.
  change (wp False self ?Q (c2, w1)) with (Q (Ok c2) (c2, w1)). cbn beta iota. rewrite Hshutdown, Hp, Ho. cbn [andb negb].
  apply wp_bind. eapply wp_mono; [apply (commit_spec False tp)|]. intros r [c3 w3] [Hok Hs]. destruct r as [b|]; [|done]. apply wp_ret, wp_of_result.
  destruct (ready_committed _ _ _ _ Hs Hr2) as [Hr3 Hf3]. cbn [fst snd] in *. split_and!; [apply Hr3|cbn; lia|].
  destruct Hs as (_ & _ & _ & _ & _ & _ & Hm). destruct Hm as [_ Hm]; [rewrite Has; set_solver|].
  destruct Hm as [?|Hn]; [right; cbn; lia|left]. destruct Hr3 as (_ & _ & Hb & _). unfold mark in Hb. cbn [fst snd] in *.
  assert (stored_mark tp c3 = None) as Hz by (unfold stored_mark; by rewrite Hn). by rewrite Hz in Hb.
Qed.

Lemma start_settled fuel lv rd w :
  env_assignment w = [tp] → Forall (λ m, record_good m = true) log → (faults w < fuel)%nat →
  wp False (start_consuming ParseDict cfg fuel (Assigned [tp] :: map Polled (remaining w))) (λ _ s', settled w s') (new_consumer lv rd, w).
Proof.
  intros Has Hg Hf. unfold start_consuming.
  apply (wp_finally _ _ (λ r, _ ← update with_shutdown; _ ← commit_remaining cfg; of_result r)).
  apply (wp_mono _ _ (caught_up w)); [|apply shutdown_settled].
  apply wp_catch, (wp_mono _ _ (caught_up w)).
  2: { intros [u|e] s' Hcu; [done|]. destruct Hcu as (Has' & _ & [[[=] _]|Hlt]).
       eapply wp_mono; [apply (failed_stays w); [unfold update_health_status; writeless|done]|]. eauto using failed_caught_up. }
  apply wp_bind. eapply wp_mono; [apply setup_spec|]. intros r [c1 w1] (Hso & Hnf & Hp & Ho & Hq & Hlt).
  destruct Hq as ((Ht & Hcm & Ha) & _ & [Hf1 _]). destruct r as [u|e]; [|split_and!; [cbn; congruence|done|right; by apply Hlt]].
  cbn [run_message_loop]. apply wp_bind. eapply wp_mono; [apply (assigned_spec cfg False)|].
  intros r [c2 w2] (Hok & (Hso2 & Hp2 & Ho2) & (Ht2 & Hcm2 & Ha2) & Hf2 & Hlk). destruct r as [u'|]; [|done].
  destruct (Hlk tp [] eq_refl Hgroup Hretries) as [Hl|[Hfail Hlt2]].
  - eapply wp_mono; [apply (loop_ready fuel (remaining w) (position w)); [apply remaining_split|..]|].
    + rewrite (remaining_split w) in Hg. by apply Forall_app in Hg as [_ Hg].
    + split_and!; [done|cbn; congruence| |cbn; congruence|cbn; rewrite Ho2; by apply Ho]. unfold mark, stored_mark, position. cbn.
      by rewrite Hso2, Hso, lookup_empty, Hcm2, Hcm.
    + cbn. lia.
    + intros r s' (? & ? & Hor). cbn [snd] in *. split_and!; [done|lia|]. destruct Hor as [?|?]; [by left|right; lia].
  - eapply wp_mono; [by apply loop_unlocked|]. intros r s' ->. split_and!; cbn; [congruence|lia|right; lia].
Qed.

Lemma session_progress fuel lv rd w :
  env_assignment w = [tp] → Forall (λ m, record_good m = true) log → (faults w < fuel)%nat →
  ∃ r s', session fuel lv rd w = Some (r, s') ∧ settled w s'.
Proof.
  intros Has Hg Hf. pose proof (start_settled fuel lv rd w Has Hg Hf) as Hs. unfold wp, session, launch in *.
  destruct (start_consuming _ _ _ _ _) as [[r s']|]; [|done].
  assert (∃ r1 s1, (_ ← stop_consuming cfg; of_result r) s' = Some (r1, s1) ∧ settled w s1) as Hstop.
  { assert (writeless False tp (_ ← stop_consuming cfg; of_result r)) as Hw by writeless. specialize (Hw s'). unfold wp in Hw.
    destruct ((_ ← stop_consuming cfg; of_result r) s') as [[r1 s1]|]; [|done]. exists r1, s1. split; [done|]. by eapply settled_step. }
  destruct r as [u|[]]; try exact Hstop. eauto.
Qed.

(** A session with nothing left to do. *)
Definition idle (w : W) (s' : Consumer * W) : Prop :=
  stored_mark tp (fst s') = None ∧ committed_of (snd s') !! tp = committed_of w !! tp ∧ tuples_of (snd s') = tuples_of w.
Lemma idle_stays w {A} (m : M (Consumer * W) A) s : writeless True tp m → idle w s → wp True m (λ _ s', idle w s') s.
Proof.
  intros Hm (Hst & Hc & Ht). eapply wp_mono; [apply Hm|]. intros _ s1 (Ht' & Hc' & Hm' & _). rewrite Hst in *.
  split_and!; [by destruct Hm'| |congruence]. destruct Hc' as [->|(o & [=] & _)]. done.
Qed.

Lemma session_idle fuel lv rd w r s' :
  position w = log → session fuel lv rd w = Some (r, s') → position (snd s') = log ∧ tuples_of (snd s') = tuples_of w.
Proof.
  intros Hp Hs. unfold session, remaining in Hs. rewrite Hp, drop_all in Hs. cbn [map] in Hs.
  assert (wp True (launch ParseDict cfg fuel [Assigned [tp]]) (λ _ s', idle w s') (new_consumer lv rd, w)) as Hwp.
  { apply launch_ends; [apply @idle_stays|]. apply wp_bind. eapply wp_mono; [apply setup_spec|].
    intros r1 [c1 w1] (Hso & _ & _ & _ & ((Ht & Hcm & _) & _) & _).
    assert (idle w (c1, w1)) as Hi by (split_and!; [unfold stored_mark; cbn; by rewrite Hso|cbn; by rewrite Hcm|done]).
    destruct r1; [|done]. apply idle_stays; [cbn [run_message_loop]; writeless|done]. }
  unfold wp in Hwp. rewrite Hs in Hwp. destruct Hwp as (_ & Hc & Ht). split; [|done]. unfold position in *. by rewrite Hc.
Qed.

Lemma sessions_deliver fuel n w :
  consistent w → env_assignment w = [tp] → Forall (λ m, record_good m = true) log → (faults w < fuel)%nat →
  (faults w < n)%nat ∨ position w = log ∧ tuples_of w = graph ParseDict G log →
  ∃ w', sessions fuel n w = Some w' ∧ position w' = log ∧ tuples_of w' = graph ParseDict G log.
Proof.
  intros Hc Ha Hg Hf Hor. revert w Hc Ha Hf Hor. induction n as [|n IH]; intros w Hc Ha Hf Hor; cbn [sessions].
  { destruct Hor as [?|?]; [lia|]. by exists w. }
  destruct (session_progress fuel false false w Ha Hg Hf) as (r & [c' w'] & Hs & Ha' & Hle & Hset). cbn [fst snd] in *. rewrite Hs.
  pose proof (session_consistent _ _ _ _ _ _ _ Hc Hs) as Hc'.
  apply IH; [done|done|lia|]. destruct Hor as [Hlt|[Hp Ht]].
  - destruct Hset as [[Hp _]|?]; [right|left; lia]. split; [done|]. unfold consistent in Hc'. rewrite Hp in Hc'. by apply (lags_end ParseDict log G).
  - right. destruct (session_idle _ _ _ _ _ _ Hp Hs) as [? Ht']. cbn [snd] in *. split; [done|congruence].
Qed.

(** C5: the store catches up.  When the client is assigned the partition, the records are not
    refused and the world fails only finitely often, then after more runs of the consumer
    than there are failures every record was handled and committed, and the store is the one
    the log stands for; each run ends. *)
Theorem eventually_delivered fuel n w
  (Hc : consistent w) (Ha : env_assignment w = [tp]) (Hg : Forall (λ m, record_good m = true) log)
  (Hf : (faults w < fuel)%nat) (Hn : (faults w < n)%nat) :
  ∃ w', sessions fuel n w = Some w' ∧ position w' = log ∧ tuples_of w' = graph ParseDict G log.
Proof.
  apply sessions_deliver; auto.
Qed.
End delivery.

(* ------------------------------------------------------------------ *)
(** * Rows of the outbox *)

(** The record carries the event: its value is JSON with a schema and, as text, the payload
    of the row that the outbox writes for the event. *)
Definition carries `{Settings} (e : ReplicationEvent) (r : ConsumerRecord) : Prop :=
  ∃ value d text now row, cr_value r = Some value ∧ parse_message_value value = Ok (JDict d)
    ∧ is_Some (assoc "schema" d) ∧ assoc "payload" d = Some (JStr text) ∧ json_loads text = Ok (payload row)
    ∧ outbox_replicate e now [] = Ok [row] ∧ (Z.abs now < 2 ^ 63)%Z.

Definition valid_event (e : ReplicationEvent) : Prop :=
  Forall (λ t, valid_tuple t = true) (ev_add e) ∧ Forall (λ t, valid_tuple t = true) (ev_remove e).

Lemma resource_context_fields e now ctx :
  resource_context e now = Some ctx →
  (∃ s, assoc "event_type" ctx = Some (JStr s)) ∧ assoc "created_at" ctx = Some (JInt now).
Proof.
  assert (∀ ctx', plain_resource_context e now = Some ctx' →
    (∃ s, assoc "event_type" ctx' = Some (JStr s)) ∧ assoc "created_at" ctx' = Some (JInt now)) as Hp.
  { intros ctx'. unfold plain_resource_context. repeat case_match; intros [= <-]; cbn; eauto. }
  unfold resource_context. destruct (migration_notify_coordination _) as [co|]; [|auto].
  destruct (build_migration_notify_resource_context _ _ _ _) as [ctx'|] eqn:Hb; [|destruct (require_notify_token co); auto; done].
  intros [= <-]. unfold build_migration_notify_resource_context in Hb. repeat case_match; try done; injection Hb as <-; cbn; eauto.
Qed.

Lemma latency_ok now : (Z.abs now < 2 ^ 63)%Z → latency_error (JInt now) = Ok tt.
Proof. intros Hn. unfold latency_error. destruct (Z.leb_spec (2 ^ 1024 - 2 ^ 970) (Z.abs now)) as [Hle|]; [|done]. exfalso.
  assert (2 ^ 63 <= 2 ^ 1024 - 2 ^ 970)%Z by (apply Z.leb_le; vm_compute; reflexivity). lia.
Qed.

Lemma valid_relations l : forallb valid_relation (map to_dict l) = true.
Proof. induction l as [|t l IH]; [done|]. cbn. done. Qed.

Section rows.
Context `{Settings} (ParseDict : json → result Message).
Context (HParse : ∀ t, valid_tuple t = true → ParseDict (to_dict t) = Ok (as_message t)).

Lemma parse_dicts l : Forall (λ t, valid_tuple t = true) l → mapM ParseDict (map to_dict l) = Ok (map as_message l).
Proof. intros Hl. apply mapM_result_Ok. induction Hl as [|t l Ht _ IH]; cbn; constructor; [by apply HParse|done]. Qed.

Lemma row_decodes e r : valid_event e → carries e r →
  delta_of ParseDict r = Some (map as_message (ev_add e), map as_message (ev_remove e)) ∧ record_good ParseDict r = true.
Proof.
  intros Hv Hc. destruct Hc as (value & d & text & now & row & Hval & Hpm & Hsch & Hpay & Htext & Hout & Hnow).
  unfold outbox_replicate in Hout. apply bind_Ok in Hout as (p & Hp & Hsave).
  assert (payload row = p ∧ (ev_add e ++ ev_remove e ≠ [])) as [Hrow Hne].
  { injection Hsave as Hs. unfold save_replication_event in Hs. destruct (ev_add e), (ev_remove e); cbn in Hs; by inversion Hs. }
  rewrite Hrow in Htext. unfold build_replication_event in Hp. apply bind_Ok in Hp as (u & _ & [= Hp]).
  destruct Hv as [Hva Hvr].
  assert (parse_debezium_message (JDict d) = Ok (mkDebeziumMessage (JStr "") (JStr "") (JStr "") p)) as Hparse.
  { unfold parse_debezium_message. cbn [py_in]. rewrite (bool_decide_eq_true_2 _ Hsch), Hpay. cbn. rewrite Hpay, Htext, <- Hp.
    cbn. by destruct (resource_context e now). }
  assert (decode ParseDict (JDict d) = Ok (map as_message (ev_add e), map as_message (ev_remove e))) as Hdec.
  { unfold decode. rewrite Hparse, <- Hp. cbn -[valid_relation]. rewrite <- map_app, valid_relations.
    assert (Nat.eqb (length (map to_dict (ev_add e ++ ev_remove e))) 0 = false) as -> by (by destruct (ev_add e ++ ev_remove e)).
    cbn. by rewrite !parse_dicts. }
  unfold delta_of, record_good. rewrite Hval, Hpm. cbn [mbind result_bind]. rewrite Hdec. split; [done|]. cbn [is_ok andb].
  unfold context_ok. rewrite Hparse, <- Hp. cbn -[latency_error]. destruct (resource_context e now) as [ctx|] eqn:Hctx; cbn -[latency_error]; [|done].
  destruct (resource_context_fields _ _ _ Hctx) as [[s ->] ->]. cbn -[latency_error]. by rewrite latency_ok.
Qed.

(** C16: the consumer accepts what the outbox writes.  For every event the outbox accepts, the
    record of its row is decoded into exactly the event's tuples, and nothing that follows
    the writes refuses it. *)
Theorem outbox_rows_accepted e r (Hv : valid_event e) (Hc : carries e r) :
  delta_of ParseDict r = Some (map as_message (ev_add e), map as_message (ev_remove e)) ∧ record_good ParseDict r = true.
Proof. by apply row_decodes. Qed.
End rows.

(** Every accepted row can be carried: text that JSON escapes is plain ASCII. *)
Definition debezium_value (text : string) : string := json_dumps (JDict [("schema", JDict []); ("payload", JStr text)]).

Definition is_ascii (c : ascii) : bool := (nat_of_ascii c <? 128)%nat.
Lemma utf8_ascii s : str_forallb is_ascii s = true → utf8_decode s = Ok s.
Proof.
  induction s as [|c s IH]; [done|]. intros [Hc Hs]%andb_true_iff. cbn [utf8_decode]. unfold is_ascii in Hc. rewrite Hc, (IH Hs). done.
Qed.
Lemma escape_ascii s : str_forallb is_ascii (escape s) = true.
Proof.
  induction s as [|c s IH]; [done|]. cbn [escape]. rewrite str_forallb_app, IH, andb_true_r. by destruct c as [[] [] [] [] [] [] [] []].
Qed.
Lemma debezium_value_reads text :
  parse_message_value (debezium_value text) = Ok (JDict [("schema", JDict []); ("payload", JStr text)]).
Proof.
  unfold parse_message_value. rewrite utf8_ascii.
  - apply loads_dumps. cbn. split_and!; try done; [by_compute|constructor].
  - unfold debezium_value. cbn [json_dumps map join_str fst snd]. rewrite !str_forallb_app. unfold quote. cbn [str_forallb].
    by rewrite !str_forallb_app, !escape_ascii.
Qed.

Lemma to_dict_ok t : json_ok (to_dict t).
Proof. unfold to_dict. destruct (srelation (subject t)); cbn; split_and!; try done; by_compute. Qed.
Lemma resource_context_ok e now ctx : resource_context e now = Some ctx → json_ok (JDict ctx).
Proof.
  assert (∀ ctx', plain_resource_context e now = Some ctx' → json_ok (JDict ctx')) as Hp.
  { intros ctx'. unfold plain_resource_context. repeat case_match; intros [= <-]; cbn; split_and!; try done; by_compute. }
  unfold resource_context. destruct (migration_notify_coordination _) as [co|]; [|auto].
  destruct (build_migration_notify_resource_context _ _ _ _) as [ctx'|] eqn:Hb; [|destruct (require_notify_token co); auto; done].
  intros [= <-]. unfold build_migration_notify_resource_context in Hb. repeat case_match; try done; injection Hb as <-; cbn; split_and!; try done; by_compute.
Qed.

Lemma dumped_row_carries `{Settings} e now row r :
  outbox_replicate e now [] = Ok [row] → (Z.abs now < 2 ^ 63)%Z → cr_value r = Some (debezium_value (json_dumps (payload row))) → carries e r.
Proof.
  intros Hout Hnow Hv. eexists _, _, _, now, row. split_and!; [exact Hv|apply debezium_value_reads|by eexists|done| |done|done].
  apply loads_dumps. unfold outbox_replicate in Hout. apply bind_Ok in Hout as (p & Hp & [= Hs]).
  assert (payload row = p) as ->.
  { unfold save_replication_event in Hs. destruct (ev_add e), (ev_remove e); cbn in Hs; by inversion Hs. }
  unfold build_replication_event in Hp. apply bind_Ok in Hp as (u & _ & [= <-]).
  assert (∀ l, foldr (λ x P, json_ok x ∧ P) True (map to_dict l)) as Hl by (induction l as [|t l IH]; [done|]; split; [apply to_dict_ok|done]).
  destruct (resource_context e now) as [ctx|] eqn:Hc; cbn -[json_ok]; cbn; split_and!; auto; try by_compute.
  all: by apply (resource_context_ok e now ctx).
Qed.

(* ------------------------------------------------------------------ *)
(** * A delivery *)

(** Two events on one partition, and a world in which the lock, a deletion, an addition and a
    commit fail once each. *)
Definition sample_parse (d : json) : result Message :=
  match from_message_dict d with Ok t => Ok (as_message t) | Raise _ => Raise ParseError end.
Definition sample_config : ConsumerConfig :=
  mkConsumerConfig "relations" default_retry_config default_commit_config true "" [] (JList [JStr "broker:9092"]) "rbac" 5 (2 # 1)%Q (30 # 1)%Q "ryw".
Definition sample_tp : TopicPartition := mkTopicPartition "relations" 0.
Definition sample_value (p : json) : string := debezium_value (json_dumps p).
Definition sample_payload (e : ReplicationEvent) : json := match build_replication_event e 1700000000 with Ok p => p | Raise _ => JNull end.
Definition sample_record (offset : Z) (e : ReplicationEvent) : ConsumerRecord :=
  mkConsumerRecord "relations" 0 offset (Some 1%Z) (Some (sample_value (sample_payload e))).
Definition joins : ReplicationEvent := sample_event [member_of_group "g1" "localhost/7"] [].
Definition changes : ReplicationEvent := sample_event [member_of_group "g1" "localhost/8"] [member_of_group "g1" "localhost/7"].
Definition sample_log : list ConsumerRecord := [sample_record 3 joins; sample_record 5 changes].
Definition sample_world : Sim.t :=
  Sim.mk ∅ ∅ ∅ 0 [sample_tp] [Sim.Fine; Sim.FailsBefore; Sim.Fine; Sim.Fine; Sim.Fine; Sim.FailsBefore; Sim.Fine; Sim.FailsAfter; Sim.Fine; Sim.Fine; Sim.FailsBefore].

Lemma sample_sorted : StronglySorted (λ a b, (cr_offset a < cr_offset b)%Z) sample_log.
Proof. repeat constructor. Qed.
Lemma sample_partition : Forall (λ r, topic_partition r = sample_tp) sample_log.
Proof. repeat constructor. Qed.
Lemma sample_consistent : consistent sample_parse sample_tp sample_log ∅ sample_world.
Proof. exists []. split; [apply prefix_nil|done]. Qed.

Definition sample_run : option (result unit * (Consumer * Sim.t)) :=
  launch sample_parse sample_config 5 (Assigned [sample_tp] :: map Polled sample_log) (new_consumer false false, sample_world).
Lemma sample_run_ends : option_map fst sample_run = Some (Ok tt).
Proof. vm_compute. reflexivity. Qed.


Lemma eventually_delivered_witness :
  ∃ w', sessions sample_parse sample_config sample_tp sample_log 5 5 sample_world = Some w'
    ∧ tuples_of w' = graph sample_parse ∅ sample_log ∧ as_message (member_of_group "g1" "localhost/8") ∈ tuples_of w'.
Proof.
  destruct (eventually_delivered sample_parse sample_config sample_tp sample_log ∅ sample_sorted sample_partition eq_refl eq_refl
    ltac:(cbn; lia) eq_refl 5 5 sample_world sample_consistent eq_refl) as (w' & Hs & _ & Ht).
  - repeat (constructor; [vm_compute; reflexivity|]). constructor.
  - vm_compute. lia.
  - vm_compute. lia.
  - exists w'. rewrite Ht. split_and!; [exact Hs|done|]. by_compute.
Defined.

Lemma sample_parse_ok t : valid_tuple t = true → sample_parse (to_dict t) = Ok (as_message t).
Proof. intros Hv. unfold sample_parse. by rewrite from_message_dict_to_dict. Qed.

Lemma sample_carries : @carries sample_settings changes (sample_record 5 changes).
Proof.
  apply (@dumped_row_carries sample_settings _ 1700000000
    (mkOutbox (aggregate_value RELATIONS) (@environment_partition_key sample_settings) (event_type changes) (sample_payload changes)));
    [vm_compute; reflexivity|done|done].
Qed.

Lemma outbox_rows_accepted_witness :
  delta_of sample_parse (sample_record 5 changes)
  = Some ([as_message (member_of_group "g1" "localhost/8")], [as_message (member_of_group "g1" "localhost/7")]).
Proof.
  apply (@outbox_rows_accepted sample_settings sample_parse sample_parse_ok changes (sample_record 5 changes));
    [split; repeat constructor|exact sample_carries].
Defined.

