(* ===== verification/KafkaRetry.v ===== *)
(** The retry loop of the Kafka consumer: how often it tries, how long it waits, and what it
    does without a lock. *)

From S2P Require Import Prelude.
From S2P Require Import PyString.
From S2P Require Import Config.
From S2P Require Import PyJson.
From S2P Require Import RelationTypes.
From S2P Require Import KafkaConsumer.
From S2P Require Import KafkaWorld.
From Stdlib Require Import QArith Qminmax Lqa.

(* ------------------------------------------------------------------ *)
(** * Pauses *)

Section delays.
#[local] Open Scope Q_scope.

End delays.


(* ------------------------------------------------------------------ *)
(** * Attempts *)

Section attempts.
Context {W : Type} `{Env W} (cfg : ConsumerConfig).

(** What a retried call can end with: its own answer, an error that is not retried, the
    maximum of retries, or the shutdown. *)
Definition retry_outcome {A} (handler : exn → bool) (fn : M (Consumer * W) A) (r : result A) : Prop :=
  match r with
  | Ok a => ∃ s s', fn s = Some (Ok a, s')
  | Raise e => handler e = true ∨ e = RuntimeError ∧ (0 ≤ operation_max_retries (cc_retry cfg))%Z ∨ e = InterruptedError
  end.

Lemma wait_total attempt c w : ∃ b w', wait_before_retry cfg attempt (c, w) = Some (Ok b, (c, w')).
Proof. unfold wait_before_retry. destruct (env_random w) as [q w1]. destruct (env_wait _ w1) as [b w2]. eauto. Qed.

Lemma retry_fuel {A} (handler : exn → bool) (fn : M (Consumer * W) A) fuel attempt s :
  (∀ s, fn s ≠ None) → (Z.of_nat attempt ≤ operation_max_retries (cc_retry cfg) < Z.of_nat attempt + Z.of_nat fuel)%Z →
  ∃ r s', retry_run cfg handler fn fuel attempt s = Some (r, s') ∧ retry_outcome handler fn r.
Proof.
  intros Hfn. revert attempt s. induction fuel as [|fuel IH]; intros attempt s Hf; [lia|]. cbn [retry_run]. unfold catch.
  destruct (fn s) as [[[a|e] [c w]]|] eqn:Hs; [| |by destruct (Hfn s)].
  - exists (Ok a), (c, w). split; [done|]. by exists s, (c, w).
  - destruct (handler e) eqn:Hh; [exists (Raise e), (c, w); by split; [|left]|].
    destruct (exceeded_max_retries cfg attempt) eqn:Hx; [exists (Raise RuntimeError), (c, w); split; [done|]; right; left; split; [done|lia]|].
    destruct (wait_total attempt c w) as (b & w' & Hw). unfold mbind, M_bind. rewrite Hw.
    destruct b; [exists (Raise InterruptedError), (c, w'); split; [done|by right; right]|].
    apply IH. unfold exceeded_max_retries in Hx. apply andb_false_iff in Hx as [Hx|Hx]; apply Z.leb_gt in Hx; lia.
Qed.

(** C32: with a maximum of retries, a call that ends is tried at most once more than the
    maximum, and the loop ends with the answer of the call, an error that is not retried,
    RuntimeError or InterruptedError. *)
Theorem retry_terminates {A} (handler : exn → bool) (fn : M (Consumer * W) A) s
  (Hfn : ∀ s, fn s ≠ None) (Hmax : (0 ≤ operation_max_retries (cc_retry cfg))%Z) :
  ∃ r s', retry_run cfg handler fn (S (Z.to_nat (operation_max_retries (cc_retry cfg)))) 0 s = Some (r, s') ∧ retry_outcome handler fn r.
Proof. apply retry_fuel; [done|lia]. Qed.

(** ** Without a lock *)

Context (ParseDict : json → result Message).

Lemma no_lock_attempt message_value d c w :
  decode ParseDict message_value = Ok d → fencing_check_of c = Raise RuntimeError →
  process_wrapper ParseDict cfg message_value (c, w) = Some (Raise RuntimeError, (c, w)).
Proof.
  intros Hd Hc. unfold decode in Hd. apply bind_Ok in Hd as (msg & Hm & Hd). apply bind_Ok in Hd as (u & Hv & Hd).
  apply bind_Ok in Hd as ([add remove] & Hf & Hd). apply bind_Ok in Hd as (a & Ha & Hd). apply bind_Ok in Hd as (b & Hb & _).
  assert (∃ ctx, jget (dm_payload msg) "resource_context" JNull = Ok ctx) as [ctx Hx].
  { apply raise_if_Ok in Hv. destruct (dm_payload msg); try done. cbn. eauto. }
  unfold process_wrapper, process_single, process_relations_message, relations_body, catch, mbind, M_bind, of_result.
  rewrite Hm, Hv, Hx, Hf, Ha, Hb. cbn. by rewrite Hc.
Qed.

Context (message_value : json) (d : delta) (c : Consumer).
Context (Hd : decode ParseDict message_value = Ok d) (Hc : fencing_check_of c = Raise RuntimeError) (Hw : ∀ q (w : W), fst (env_wait q w) = false).
#[local] Abbreviation retried fuel attempt w :=
  (retry_run cfg should_skip_retry (process_wrapper ParseDict cfg message_value) fuel attempt (c, w)).

Lemma unlocked_step attempt w :
  exceeded_max_retries cfg attempt = false → ∃ w', ∀ fuel, retried (S fuel) attempt w = retried fuel (S attempt) w'.
Proof.
  intros Hx. destruct (env_random w) as [q w1] eqn:Hq. destruct (env_wait (calculate_delay (cc_retry cfg) attempt q) w1) as [b w2] eqn:Hb.
  pose proof (Hw (calculate_delay (cc_retry cfg) attempt q) w1) as Hf. rewrite Hb in Hf. cbn in Hf. subst b.
  exists w2. intros fuel. cbn [retry_run]. unfold catch. rewrite (no_lock_attempt _ _ _ _ Hd Hc). cbn [should_skip_retry]. rewrite Hx.
  unfold mbind, M_bind, wait_before_retry. by rewrite Hq, Hb.
Qed.

Lemma unlocked_none fuel attempt w :
  (∀ k, k < fuel → exceeded_max_retries cfg (attempt + k) = false)%nat → retried fuel attempt w = None.
Proof.
  revert attempt w. induction fuel as [|fuel IH]; intros attempt w Hk; [done|]. destruct (unlocked_step attempt w) as [w' ->].
  - specialize (Hk 0%nat). rewrite Nat.add_0_r in Hk. apply Hk. lia.
  - apply IH. intros k Hlt. replace (S attempt + k)%nat with (attempt + S k)%nat by lia. apply Hk. lia.
Qed.

Lemma unlocked_last fuel attempt w :
  exceeded_max_retries cfg (attempt + fuel) = true → (∀ k, k < fuel → exceeded_max_retries cfg (attempt + k) = false)%nat →
  ∃ w', retried (S fuel) attempt w = Some (Raise RuntimeError, (c, w')).
Proof.
  revert attempt w. induction fuel as [|fuel IH]; intros attempt w Hlast Hk.
  - exists w. rewrite Nat.add_0_r in Hlast. cbn [retry_run]. unfold catch. rewrite (no_lock_attempt _ _ _ _ Hd Hc). cbn [should_skip_retry].
    by rewrite Hlast.
  - destruct (unlocked_step attempt w) as [w' ->]; [specialize (Hk 0%nat); rewrite Nat.add_0_r in Hk; apply Hk; lia|].
    apply IH; [by rewrite <- Nat.add_succ_comm in Hlast|]. intros k Hlt. replace (S attempt + k)%nat with (attempt + S k)%nat by lia. apply Hk. lia.
Qed.

(** C33: a consumer without its lock does not stop at once.  The error that is raised when no
    token is held is retried like any other: up to the maximum of retries before RuntimeError
    stops the consumer, and for ever when the retries are not limited. *)
Theorem no_lock_is_retried w :
  if decide (0 ≤ operation_max_retries (cc_retry cfg))%Z
  then (∀ fuel, (Z.of_nat fuel ≤ operation_max_retries (cc_retry cfg))%Z →
         process_message_with_retry ParseDict cfg fuel message_value (c, w) = None)
       ∧ ∃ w', process_message_with_retry ParseDict cfg (S (Z.to_nat (operation_max_retries (cc_retry cfg)))) message_value (c, w)
               = Some (Raise RuntimeError, (with_paused true c, w'))
  else ∀ fuel, process_message_with_retry ParseDict cfg fuel message_value (c, w) = None.
Proof.
  pose proof unlocked_none as Hnone. pose proof unlocked_last as Hlast.
  unfold process_message_with_retry, catch, mbind, M_bind. unfold exceeded_max_retries in *. case_decide as Hmax.
  - split.
    + intros fuel Hle. rewrite Hnone; [done|]. intros k Hk. apply andb_false_iff. right. apply Z.leb_gt. lia.
    + destruct (Hlast (Z.to_nat (operation_max_retries (cc_retry cfg))) 0%nat w) as [w' Hr].
      * apply andb_true_iff. split; apply Z.leb_le; lia.
      * intros k Hk. apply andb_false_iff. right. apply Z.leb_gt. lia.
      * rewrite Hr. cbn. eauto.
  - intros fuel. rewrite Hnone; [done|]. intros k _. apply andb_false_iff. left. apply Z.leb_gt. lia.
Qed.
End attempts.

(* ------------------------------------------------------------------ *)
(** * Runs *)

Definition quick_config (max_retries : Z) : ConsumerConfig :=
  mkConsumerConfig "relations" (mkRetryConfig max_retries 5 30 (3 # 10)%Q (1 # 10)%Q) default_commit_config true "" [] (JList []) "rbac" 5 (2 # 1)%Q (30 # 1)%Q "ryw".
Definition empty_world : Sim.t := Sim.mk ∅ ∅ ∅ 0 [] [].
(** A world in which every call succeeds and nothing ever stops the consumer. *)
Definition calm_env : Env unit := {|
  env_connect _ w := (Ok tt, w); env_acquire _ w := (Ok "t", w); env_delete _ _ w := (Ok "d", w); env_create _ _ w := (Ok "c", w);
  env_assignment _ := []; env_commit _ w := (Ok tt, w); env_committed _ w := (Ok None, w); env_metadata _ w := (Ok tt, w);
  env_random w := ((1 # 2)%Q, w); env_wait _ w := (false, w); env_sleep _ w := w; env_save_token _ _ w := w; env_notify _ _ _ w := w;
|}.
Definition one_relation : json :=
  JDict [("schema", JDict []); ("payload", JDict [("relations_to_add", JList [JDict [("resource", JDict []); ("subject", JDict [])]])])].
Definition some_message : Message := mkMessage "rbac" "group" "g" "member" "rbac" "principal" "p" None.

Lemma retry_terminates_witness :
  ∃ r s', retry_run (W := Sim.t) (quick_config 2) (λ _, false) (of_result (A := unit) (Raise KeyError)) 3 0 (new_consumer false false, empty_world) = Some (r, s')
    ∧ r = Raise RuntimeError.
Proof.
  destruct (retry_terminates (W := Sim.t) (quick_config 2) (λ _, false) (of_result (A := unit) (Raise KeyError)) (new_consumer false false, empty_world))
    as (r & s' & Hr & _); [discriminate|cbn; lia|].
  exists r, s'. split; [exact Hr|]. vm_compute in Hr. by injection Hr as <- _.
Defined.

Lemma no_lock_is_retried_witness :
  @process_message_with_retry unit calm_env (λ _, Ok some_message) (quick_config (-1)) 7 one_relation (new_consumer false false, tt) = None.
Proof.
  exact (@no_lock_is_retried unit calm_env (quick_config (-1)) (λ _, Ok some_message) one_relation ([some_message], []) (new_consumer false false)
    eq_refl eq_refl (λ q w, eq_refl) tt 7%nat).
Defined.
