(* ===== verification/Tenants.v ===== *)
(** Tenants and the switch from V1 to V2 writes: rbac/api/models.py (Tenant),
    rbac/management/tenant_mapping/model.py and v2_activation.py. *)

From S2P Require Import Prelude.
From S2P Require Import PyString.
From S2P Require Import Config.
From S2P Require Import ScopeService.

(* ------------------------------------------------------------------ *)
(** * Tenant *)

Record Tenant := mkTenant {
  t_id : Z;
  tenant_name : string;
  account_id : option string;
  org_id : option string;
  org_config : json;
  t_ready : bool;
}.

Definition PUBLIC_TENANT_NAME : string := "public".
Definition ORG_CONFIG_WORKSPACE_CREATION_LIMIT : string := "workspace_creation_limit".

(** [workspace_creation_limit] *)
Definition workspace_creation_limit `{Settings} (t : Tenant) : Z :=
  let dflt := Z.of_nat WORKSPACE_ORG_CREATION_LIMIT in
  match org_config t with
  | JDict d =>
      match assoc ORG_CONFIG_WORKSPACE_CREATION_LIMIT d with
      | Some (JInt raw) => if Z.ltb raw 1 then dflt else raw
      | _ => dflt
      end
  | _ => dflt
  end.

(** [_validate_workspace_creation_limit_value] *)
Definition validate_workspace_creation_limit_value (value : json) : result unit :=
  match value with
  | JInt z => raise_if (Z.ltb z 1) ValueError
  | _ => Raise ValueError
  end.

(** [Tenant.clean] *)
Definition tenant_clean (t : Tenant) : result unit :=
  match org_config t with
  | JNull => Ok tt
  | JDict d =>
      match assoc ORG_CONFIG_WORKSPACE_CREATION_LIMIT d with
      | None | Some JNull => Ok tt
      | Some value =>
          match validate_workspace_creation_limit_value value with
          | Ok _ => Ok tt
          | Raise _ => Raise (ValidationError "org_config")
          end
      end
  | _ => Raise (ValidationError "org_config")
  end.

(** [Tenant.save] with the fields to update, [None] for all of them: the empty
    account becomes None, and [org_config] is validated only when it is named. *)
Definition tenant_save (update_fields : option (list string)) (t : Tenant) : result Tenant :=
  let t' := match account_id t with
            | Some "" => mkTenant (t_id t) (tenant_name t) None (org_id t) (org_config t) (t_ready t)
            | _ => t
            end in
  if str_mem "org_config" (default [] update_fields) then
    _ ← tenant_clean t'; mret t'
  else mret t'.

(** The loop of [merge_org_config] over the patch. *)
Definition merge_step (merged : list (string * json)) (kv : string * json) : list (string * json) :=
  if String.eqb (fst kv) ORG_CONFIG_WORKSPACE_CREATION_LIMIT then
    match snd kv with
    | JNull => assoc_pop (fst kv) merged
    | v => assoc_set (fst kv) v merged
    end
  else merged.

(** [merge_org_config]; [current or {}] is empty for None and for an empty dict. *)
Definition merge_org_config (current : option (list (string * json))) (patch : json) :
    result (list (string * json)) :=
  match patch with
  | JDict [] => Raise ValueError
  | JDict p =>
      _ ← raise_if (negb (forallb (λ kv, String.eqb (fst kv) ORG_CONFIG_WORKSPACE_CREATION_LIMIT) p))
            ValueError;
      mret (foldl merge_step (default [] current) p)
  | _ => Raise ValueError
  end.

(** Resource ids. *)
Section resource_ids.
Context `{Settings}.

Definition resource_id_prefix : string := PRINCIPAL_USER_DOMAIN +:+ "/".
Definition org_id_to_tenant_resource_id (org : string) : string := resource_id_prefix +:+ org.
Definition tenant_resource_id (t : Tenant) : option string :=
  org_id_to_tenant_resource_id <$> org_id t.

Definition tenant_resource_id_to_org_id (resource_id : string) : result string :=
  _ ← raise_if (negb (startswith resource_id_prefix resource_id)) ValueError;
  mret (str_drop (String.length resource_id_prefix) resource_id).

(** [Principal.user_id_to_principal_resource_id]; the user id of an unsynchronised
    principal is None and prints as such. *)
Definition user_id_to_principal_resource_id (user_id : option string) : string :=
  PRINCIPAL_USER_DOMAIN +:+ "/" +:+ match user_id with Some u => u | None => "None" end.
End resource_ids.

(* ------------------------------------------------------------------ *)
(** * TenantMapping *)

Inductive DefaultAccessType := USER | ADMIN.
#[global] Instance DefaultAccessType_eq_dec : EqDecision DefaultAccessType.
Proof. solve_decision. Defined.

Record TenantMapping := mkTenantMapping {
  tm_tenant : Z;
  v2_opted_in_at : option Z;
  v2_write_activated_at : option Z;
  default_group_uuid : string;
  default_admin_group_uuid : string;
  default_role_binding_uuid : string;
  default_admin_role_binding_uuid : string;
  root_scope_default_role_binding_uuid : string;
  root_scope_default_admin_role_binding_uuid : string;
  tenant_scope_default_role_binding_uuid : string;
  tenant_scope_default_admin_role_binding_uuid : string;
}.

(** The CHECK constraint of the table. *)
Definition mapping_check (m : TenantMapping) : bool :=
  match v2_write_activated_at m, v2_opted_in_at m with
  | Some _, None => false
  | _, _ => true
  end.

Definition group_uuid_for (m : TenantMapping) (access_type : DefaultAccessType) : string :=
  match access_type with
  | USER => default_group_uuid m
  | ADMIN => default_admin_group_uuid m
  end.

(** [default_role_binding_uuid_for]: there is no entry for the scope ALL. *)
Definition default_role_binding_uuid_for (m : TenantMapping) (access_type : DefaultAccessType)
    (scope : Scope) : result string :=
  match access_type, scope with
  | USER, Scope.DEFAULT => Ok (default_role_binding_uuid m)
  | USER, Scope.ROOT => Ok (root_scope_default_role_binding_uuid m)
  | USER, Scope.TENANT => Ok (tenant_scope_default_role_binding_uuid m)
  | ADMIN, Scope.DEFAULT => Ok (default_admin_role_binding_uuid m)
  | ADMIN, Scope.ROOT => Ok (root_scope_default_admin_role_binding_uuid m)
  | ADMIN, Scope.TENANT => Ok (tenant_scope_default_admin_role_binding_uuid m)
  | _, Scope.ALL => Raise KeyError
  end.

Definition role_binding_ids (m : TenantMapping) : list string :=
  [default_role_binding_uuid m; default_admin_role_binding_uuid m;
   root_scope_default_role_binding_uuid m; root_scope_default_admin_role_binding_uuid m;
   tenant_scope_default_role_binding_uuid m; tenant_scope_default_admin_role_binding_uuid m].

(** [source_for_role_binding_id] *)
Definition source_for_role_binding_id (m : TenantMapping) (id : string) :
    option (DefaultAccessType * Scope) :=
  if String.eqb id (default_role_binding_uuid m) then Some (USER, Scope.DEFAULT)
  else if String.eqb id (default_admin_role_binding_uuid m) then Some (ADMIN, Scope.DEFAULT)
  else if String.eqb id (root_scope_default_role_binding_uuid m) then Some (USER, Scope.ROOT)
  else if String.eqb id (root_scope_default_admin_role_binding_uuid m) then Some (ADMIN, Scope.ROOT)
  else if String.eqb id (tenant_scope_default_role_binding_uuid m) then Some (USER, Scope.TENANT)
  else if String.eqb id (tenant_scope_default_admin_role_binding_uuid m)
       then Some (ADMIN, Scope.TENANT)
  else None.

(** [mapping.save(update_fields=...)] of the two V2 fields. *)
Definition with_v2_state (opted activated : option Z) (m : TenantMapping) : TenantMapping :=
  mkTenantMapping (tm_tenant m) opted activated (default_group_uuid m) (default_admin_group_uuid m)
    (default_role_binding_uuid m) (default_admin_role_binding_uuid m)
    (root_scope_default_role_binding_uuid m) (root_scope_default_admin_role_binding_uuid m)
    (tenant_scope_default_role_binding_uuid m) (tenant_scope_default_admin_role_binding_uuid m).

(* ------------------------------------------------------------------ *)
(** * V2 activation *)

(** [lock_mapping_for_share]: the tenant's row, if it is bootstrapped. *)
Definition lock_mapping_for_share (row : option TenantMapping) : result TenantMapping :=
  or_raise TenantNotBootstrappedError row.

(** [ensure_v2_write_activated] *)
Definition ensure_v2_write_activated (now : Z) (row : option TenantMapping) : result TenantMapping :=
  m ← lock_mapping_for_share row;
  match v2_write_activated_at m with
  | Some _ => mret m
  | None =>
      let opted := match v2_opted_in_at m with None => Some now | o => o end in
      mret (with_v2_state opted (Some now) m)
  end.

(** [is_v2_write_activated] and [is_v2_opted_in] *)
Definition is_v2_write_activated (row : option TenantMapping) : bool :=
  match row with Some m => bool_decide (is_Some (v2_write_activated_at m)) | None => false end.
Definition is_v2_opted_in (row : option TenantMapping) : bool :=
  match row with Some m => bool_decide (is_Some (v2_opted_in_at m)) | None => false end.

(** [lock_tenant_version] *)
Inductive TenantVersion := VERSION_1 | VERSION_2.
Definition lock_tenant_version (row : option TenantMapping) : result TenantVersion :=
  m ← lock_mapping_for_share row;
  mret (match v2_write_activated_at m with None => VERSION_1 | Some _ => VERSION_2 end).

(** [lock_v2_opt_in_state] *)
Definition lock_v2_opt_in_state (row : option TenantMapping) : result bool :=
  m ← lock_mapping_for_share row;
  mret (bool_decide (is_Some (v2_opted_in_at m))).

(** [assert_v1_write_allowed] *)
Definition assert_v1_write_allowed (row : option TenantMapping) : result unit :=
  m ← lock_mapping_for_share row;
  match v2_write_activated_at m with None => mret tt | Some _ => Raise V1WriteBlockedError end.

(** [set_v2_opt_in_state]: the new row and whether the tenant newly opted in, in
    which case its default role bindings are created in the same transaction. *)
Definition set_v2_opt_in_state (opted_in : bool) (now : Z) (row : option TenantMapping) :
    result (TenantMapping * bool) :=
  m ← or_raise TenantNotBootstrappedError row;
  if opted_in then
    match v2_opted_in_at m with
    | None => mret (with_v2_state (Some now) (v2_write_activated_at m) m, true)
    | Some _ => mret (m, false)
    end
  else
    match v2_write_activated_at m with
    | Some _ => Raise InvalidV2OptOutError
    | None => mret (with_v2_state None None m, false)
    end.

(** A history of the row: operations that raise leave it as it is. *)
Inductive v2_op := Activate (now : Z) | SetOptIn (opted_in : bool) (now : Z).

Definition apply_v2_op (m : TenantMapping) (op : v2_op) : TenantMapping :=
  match op with
  | Activate now => match ensure_v2_write_activated now (Some m) with Ok m' => m' | Raise _ => m end
  | SetOptIn b now => match set_v2_opt_in_state b now (Some m) with Ok (m', _) => m' | Raise _ => m end
  end.

(* ------------------------------------------------------------------ *)
(** * The locking protocol *)

(** Transactions that write through V1 or V2, as the sequence of lock requests
    the code makes on the mapping row: FOR SHARE first, and for the first V2 write
    FOR UPDATE on top of it.  Locks are held until the transaction ends. *)
Module Locks.

Inductive pc := Idle | V1Shared | V1Writing | V2Shared | V2Updating | V2Writing.

Record state := mkState {
  activated : option Z;        (* the committed-or-owned value of the row *)
  pcs : nat → pc;
  sharers : nat → bool;        (* who holds FOR SHARE *)
  owner : option nat;          (* who holds FOR UPDATE *)
  saved : option Z;            (* the value to restore if the owner rolls back *)
}.

Definition initial (a : option Z) : state :=
  mkState a (λ _, Idle) (λ _, false) None a.

Definition upd {A} (f : nat → A) (i : nat) (v : A) : nat → A :=
  λ j, if Nat.eqb j i then v else f j.

(** FOR SHARE waits for another transaction's FOR UPDATE, FOR UPDATE for any
    other lock. *)
Definition can_share (s : state) (i : nat) : Prop :=
  owner s = None ∨ owner s = Some i.
Definition can_update (s : state) (i : nat) : Prop :=
  can_share s i ∧ ∀ j, j ≠ i → sharers s j = false.

Inductive step : state → state → Prop :=
| v1_lock s i :
    pcs s i = Idle → can_share s i →
    step s (mkState (activated s) (upd (pcs s) i V1Shared) (upd (sharers s) i true) (owner s) (saved s))
(* assert_v1_write_allowed passes *)
| v1_allowed s i :
    pcs s i = V1Shared → activated s = None →
    step s (mkState (activated s) (upd (pcs s) i V1Writing) (sharers s) (owner s) (saved s))
| v2_lock s i :
    pcs s i = Idle → can_share s i →
    step s (mkState (activated s) (upd (pcs s) i V2Shared) (upd (sharers s) i true) (owner s) (saved s))
(* already activated: return immediately *)
| v2_already s i :
    pcs s i = V2Shared → activated s ≠ None →
    step s (mkState (activated s) (upd (pcs s) i V2Writing) (sharers s) (owner s) (saved s))
(* escalate to FOR UPDATE *)
| v2_escalate s i :
    pcs s i = V2Shared → activated s = None → can_update s i →
    step s (mkState (activated s) (upd (pcs s) i V2Updating) (sharers s) (Some i) (activated s))
(* the write, after the value has been read again *)
| v2_activate s i now :
    pcs s i = V2Updating → owner s = Some i →
    step s (mkState (match activated s with None => Some now | a => a end)
                    (upd (pcs s) i V2Writing) (sharers s) (owner s) (saved s))
(* the end of a transaction: every lock is released *)
| commit s i :
    pcs s i ≠ Idle →
    step s (mkState (activated s) (upd (pcs s) i Idle) (upd (sharers s) i false)
                    (if decide (owner s = Some i) then None else owner s) (saved s))
| rollback s i :
    pcs s i ≠ Idle →
    step s (mkState (if decide (owner s = Some i) then saved s else activated s)
                    (upd (pcs s) i Idle) (upd (sharers s) i false)
                    (if decide (owner s = Some i) then None else owner s) (saved s)).

Definition reachable (a : option Z) (s : state) : Prop := rtc step (initial a) s.

(** A transaction that waits for its escalation. *)
Definition wants_update (s : state) (i : nat) : Prop :=
  pcs s i = V2Shared ∧ activated s = None ∧ ¬ can_update s i.

End Locks.

(* ------------------------------------------------------------------ *)
(** * Lemmas *)

Lemma apply_v2_op_invariant m op :
  mapping_check m = true →
  mapping_check (apply_v2_op m op) = true
  ∧ (∀ t, v2_write_activated_at m = Some t → apply_v2_op m op = m).
Proof.
  destruct op as [now|b now]; unfold apply_v2_op, mapping_check; cbn.
  - unfold ensure_v2_write_activated; cbn.
    destruct (v2_write_activated_at m) eqn:Ha; cbn; [rewrite Ha; naive_solver|].
    destruct (v2_opted_in_at m); cbn; naive_solver.
  - unfold set_v2_opt_in_state; cbn.
    destruct b, (v2_opted_in_at m) eqn:Ho, (v2_write_activated_at m) eqn:Ha; cbn;
      rewrite ?Ho, ?Ha; naive_solver.
Qed.

Lemma apply_v2_ops_invariant m ops :
  mapping_check m = true →
  mapping_check (foldl apply_v2_op m ops) = true
  ∧ (∀ t, v2_write_activated_at m = Some t → foldl apply_v2_op m ops = m).
Proof.
  revert m. induction ops as [|op ops IH]; cbn; intros m Hm; [done|].
  destruct (apply_v2_op_invariant m op Hm) as [Hc Hs].
  destruct (IH _ Hc) as [Hc' Hs']. split; [done|]. intros t Ht.
  rewrite (Hs t Ht) in *. by apply (Hs' t).
Qed.

Module LockLemmas.
Import Locks.

Record inv (s : state) : Prop := {
  inv_share : ∀ i, sharers s i = true ↔ pcs s i ≠ Idle;
  inv_owner : ∀ i, owner s = Some i →
    (pcs s i = V2Updating ∨ pcs s i = V2Writing) ∧ ∀ j, j ≠ i → sharers s j = false;
  inv_updating : ∀ i, pcs s i = V2Updating → owner s = Some i;
  inv_v1 : ∀ i, pcs s i = V1Writing → activated s = None;
  inv_v2 : ∀ i, pcs s i = V2Writing → activated s ≠ None;
}.

Lemma upd_eq {A} (f : nat → A) i v : upd f i v i = v.
Proof. unfold upd. by rewrite Nat.eqb_refl. Qed.
Lemma upd_ne {A} (f : nat → A) i j v : j ≠ i → upd f i v j = f j.
Proof. unfold upd. by intros ->%Nat.eqb_neq. Qed.

(** Steps that only move one transaction forward between states other than
    [Idle]. *)
Lemma others_idle s i j : inv s → owner s = Some i → j ≠ i → pcs s j = Idle.
Proof.
  intros Hi Ho Hj. destruct (inv_owner s Hi i Ho) as [_ Hs]. specialize (Hs j Hj).
  destruct (pcs s j) eqn:Hp; [done|..];
    (assert (sharers s j = true) by (apply (inv_share s Hi); congruence)); congruence.
Qed.

Lemma idle_not_owner s i : inv s → pcs s i = Idle → owner s ≠ Some i.
Proof. intros Hi Hp Ho. destruct (inv_owner s Hi i Ho) as [[?|?] _]; congruence. Qed.

Ltac by_index j i :=
  destruct (decide (j = i)) as [->|?]; rewrite ?upd_eq, ?upd_ne in * by done.

(** A transaction takes its first lock. *)
Lemma lock_inv s i p :
  inv s → pcs s i = Idle → can_share s i → p = V1Shared ∨ p = V2Shared →
  inv (mkState (activated s) (upd (pcs s) i p) (upd (sharers s) i true) (owner s) (saved s)).
Proof.
  intros Hi Hp Hc Hpc. pose proof Hi as [H1 H2 H3 H4 H5].
  assert (owner s = None) as Ho by (destruct Hc as [|Ho]; [done|by apply idle_not_owner in Ho]).
  split; cbn; intros j; try (rewrite Ho; done); by_index j i; naive_solver.
Qed.

(** A transaction that holds a lock moves on without asking for another. *)
Lemma move_inv s i p :
  inv s → pcs s i ≠ Idle → pcs s i ≠ V2Updating → p ≠ Idle → p ≠ V2Updating →
  (pcs s i = V2Writing → p = V2Writing) →
  (p = V1Writing → activated s = None) → (p = V2Writing → activated s ≠ None) →
  inv (mkState (activated s) (upd (pcs s) i p) (sharers s) (owner s) (saved s)).
Proof.
  intros Hi Hp Hp' Hpi Hpu Hpw Hv1 Hv2. pose proof Hi as [H1 H2 H3 H4 H5].
  split; cbn; intros j.
  - by_index j i; [|auto]. split; [done|]. intros _. by apply H1.
  - intros Hj. destruct (H2 j Hj) as [? ?]. by_index j i; naive_solver.
  - by_index j i; [done|auto].
  - by_index j i; [done|apply H4].
  - by_index j i; [done|apply H5].
Qed.

(** A transaction ends; the value changes only if it owned the row. *)
Lemma release_inv s i a :
  inv s → (owner s = Some i ∨ a = activated s) →
  inv (mkState a (upd (pcs s) i Idle) (upd (sharers s) i false)
         (if decide (owner s = Some i) then None else owner s) (saved s)).
Proof.
  intros Hi Ha. pose proof Hi as [H1 H2 H3 H4 H5]. split; cbn; intros j.
  - by_index j i; [done|auto].
  - case_decide as Ho; [done|]. intros Hj. destruct (H2 j Hj) as [Hpj Hsj].
    by_index j i; [done|]. split; [done|]. intros k Hk. by_index k i; auto.
  - by_index j i; [done|]. intros Hj. rewrite decide_False by (rewrite (H3 j Hj); congruence). auto.
  - by_index j i; [done|]. destruct Ha as [Ho| ->]; [by rewrite (others_idle s i j) | apply H4].
  - by_index j i; [done|]. destruct Ha as [Ho| ->]; [by rewrite (others_idle s i j) | apply H5].
Qed.

Lemma escalate_inv s i :
  inv s → pcs s i = V2Shared → can_update s i →
  inv (mkState (activated s) (upd (pcs s) i V2Updating) (sharers s) (Some i) (activated s)).
Proof.
  intros Hi Hp [_ Hs]. pose proof Hi as [H1 H2 H3 H4 H5]. split; cbn; intros j.
  - by_index j i; [|auto]. split; [done|]. intros _. apply H1. congruence.
  - intros [= <-]. rewrite upd_eq. auto.
  - by_index j i; [done|]. intros Hj. specialize (Hs j).
    assert (sharers s j = true) by (apply H1; congruence). naive_solver congruence.
  - by_index j i; [done|apply H4].
  - by_index j i; [done|apply H5].
Qed.

Lemma activate_inv s i a :
  inv s → pcs s i = V2Updating → owner s = Some i → a ≠ None →
  inv (mkState a (upd (pcs s) i V2Writing) (sharers s) (owner s) (saved s)).
Proof.
  intros Hi Hp Ho Ha. pose proof Hi as [H1 H2 H3 H4 H5].
  assert (∀ j, j ≠ i → pcs s j = Idle) as Hid by (intros; by eapply others_idle).
  split; cbn; intros j.
  - by_index j i; [|auto]. split; [done|]. intros _. apply H1. congruence.
  - rewrite Ho. intros [= <-]. rewrite upd_eq. split; [by right|]. apply (H2 i Ho).
  - by_index j i; [done|]. rewrite Hid; done.
  - by_index j i; [done|]. rewrite Hid; done.
  - by_index j i; [done|]. rewrite Hid; done.
Qed.

Lemma step_inv s s' : step s s' → inv s → inv s'.
Proof.
  destruct 1; intros Hi.
  - apply lock_inv; auto.
  - apply move_inv; congruence.
  - apply lock_inv; auto.
  - apply move_inv; congruence.
  - by apply escalate_inv.
  - apply activate_inv; try done. by destruct (activated s).
  - apply release_inv; auto.
  - apply release_inv; [done|]. case_decide; auto.
Qed.

Lemma reachable_inv a s : reachable a s → inv s.
Proof.
  intros Hr. assert (inv (initial a)) as Hi by (split; cbn; intros; congruence || naive_solver).
  revert Hi. induction Hr as [|s1 s2 s3 Hs _ IH]; [done|]. intros Hi. apply IH. by eapply step_inv.
Qed.
End LockLemmas.

(* ------------------------------------------------------------------ *)
(** * Properties *)

(** C26: The V2 state of a tenant only moves forward: whatever opt-in, opt-out and
    activation requests are made, a row that satisfies the table's CHECK (an
    activated tenant has opted in) keeps satisfying it, and once activated the row
    never changes again and V1 writes are refused. *)
Theorem v2_activation_permanent m ops1 ops2 t
    (Hc : mapping_check m = true)
    (Ht : v2_write_activated_at (foldl apply_v2_op m ops1) = Some t) :
  let m1 := foldl apply_v2_op m ops1 in
  let m2 := foldl apply_v2_op m (ops1 ++ ops2) in
  mapping_check m2 = true ∧ m2 = m1
  ∧ is_v2_opted_in (Some m2) = true
  ∧ assert_v1_write_allowed (Some m2) = Raise V1WriteBlockedError
  ∧ ∀ now, set_v2_opt_in_state false now (Some m2) = Raise InvalidV2OptOutError.
Proof.
  cbn zeta. rewrite foldl_app.
  destruct (apply_v2_ops_invariant m ops1 Hc) as [Hc1 _].
  destruct (apply_v2_ops_invariant _ ops2 Hc1) as [Hc2 Hs2]. specialize (Hs2 t Ht).
  rewrite Hs2 in *. unfold is_v2_opted_in, assert_v1_write_allowed, set_v2_opt_in_state. cbn.
  rewrite Ht. split_and!; try done.
  unfold mapping_check in Hc1. rewrite Ht in Hc1. by destruct (v2_opted_in_at _).
Qed.

(** C25: The locks keep V1 and V2 writes apart: in every reachable state of the
    locking protocol, while a transaction that passed [assert_v1_write_allowed] is
    still writing, the tenant is not activated and no transaction writes through
    V2. *)
Theorem v1_v2_write_exclusion a s (Hr : Locks.reachable a s) i
    (Hv1 : Locks.pcs s i = Locks.V1Writing) :
  Locks.activated s = None ∧ ∀ j, Locks.pcs s j ≠ Locks.V2Writing.
Proof.
  apply LockLemmas.reachable_inv in Hr. pose proof (LockLemmas.inv_v1 s Hr i Hv1) as Ha.
  split; [done|]. intros j Hj. by apply (LockLemmas.inv_v2 s Hr j) in Hj.
Qed.

(** Two transactions that both make the tenant's first V2 write can block each
    other: both hold FOR SHARE and both wait for FOR UPDATE, which neither can get
    while the other holds its lock. *)
Theorem first_v2_writes_can_deadlock :
  ∃ s, Locks.reachable None s ∧ Locks.wants_update s 0 ∧ Locks.wants_update s 1
       ∧ ∀ i, (2 ≤ i)%nat → Locks.pcs s i = Locks.Idle.
Proof.
  eexists. split_and!.
  - eapply rtc_l; [apply (Locks.v2_lock _ 0); [done|by left]|].
    eapply rtc_l; [apply (Locks.v2_lock _ 1); [done|by left]|]. apply rtc_refl.
  - split_and!; [done|done|]. intros [_ Hs]. by specialize (Hs 1 ltac:(done)).
  - split_and!; [done|done|]. intros [_ Hs]. by specialize (Hs 0 ltac:(done)).
  - intros [|[|i]] Hi; [lia|lia|done].
Qed.

(** [default_role_binding_uuid_for] and [source_for_role_binding_id] are
    inverse to each other when the six ids of a mapping are distinct. *)
Theorem role_binding_source_roundtrip m (Hd : NoDup (role_binding_ids m)) :
  ∀ id a s, source_for_role_binding_id m id = Some (a, s)
            ↔ default_role_binding_uuid_for m a s = Ok id.
Proof.
  intros id a s. unfold role_binding_ids in Hd.
  repeat match goal with H : NoDup (_ :: _) |- _ => apply NoDup_cons in H as [? H] end.
  rewrite !not_elem_of_cons in *. unfold source_for_role_binding_id.
  destruct (String.eqb_spec id (default_role_binding_uuid m)),
    (String.eqb_spec id (default_admin_role_binding_uuid m)),
    (String.eqb_spec id (root_scope_default_role_binding_uuid m)),
    (String.eqb_spec id (root_scope_default_admin_role_binding_uuid m)),
    (String.eqb_spec id (tenant_scope_default_role_binding_uuid m)),
    (String.eqb_spec id (tenant_scope_default_admin_role_binding_uuid m));
    destruct a, s; cbn; split; intros Hx; simplify_eq; try done; naive_solver.
Qed.

(** Tenant resource ids determine the organization: converting an org id to
    a resource id and back is the identity, and only strings with the tenant
    prefix are converted back. *)
Theorem tenant_resource_id_roundtrip `{Settings} :
  (∀ org, tenant_resource_id_to_org_id (org_id_to_tenant_resource_id org) = Ok org)
  ∧ (∀ rid org, tenant_resource_id_to_org_id rid = Ok org → rid = org_id_to_tenant_resource_id org).
Proof.
  unfold tenant_resource_id_to_org_id, org_id_to_tenant_resource_id. split.
  - intros org. rewrite startswith_app. cbn. by rewrite str_drop_app.
  - intros rid org. destruct (startswith resource_id_prefix rid) eqn:Hs; cbn; [|done].
    apply startswith_inv in Hs. intros [= <-]. exact Hs.
Qed.

(** Patching the organization's configuration: after a patch is merged and
    the tenant saved, the effective workspace limit is the patched integer, which
    is at least one, or the configured default when the patch removes the key. *)
Theorem org_config_patch_limit `{Settings} t patch_value merged t'
    (Hp : merge_org_config (match org_config t with JDict d => Some d | _ => None end)
            (JDict [(ORG_CONFIG_WORKSPACE_CREATION_LIMIT, patch_value)]) = Ok merged)
    (Hs : tenant_save (Some ["org_config"])
            (mkTenant (t_id t) (tenant_name t) (account_id t) (org_id t) (JDict merged) (t_ready t)) = Ok t') :
  (patch_value = JNull ∧ workspace_creation_limit t' = Z.of_nat WORKSPACE_ORG_CREATION_LIMIT)
  ∨ (∃ z, patch_value = JInt z ∧ (1 ≤ z)%Z ∧ workspace_creation_limit t' = z).
Proof.
  assert (org_config t' = JDict merged) as Ho.
  { unfold tenant_save in Hs. cbn in Hs. inv_ok. repeat case_match; done. }
  assert (tenant_clean t' = Ok tt) as Hc.
  { unfold tenant_save in Hs. cbn in Hs. inv_ok. done. }
  unfold merge_org_config in Hp. cbn in Hp. inv_ok.
  unfold tenant_clean in Hc. unfold workspace_creation_limit. rewrite Ho in *.
  destruct patch_value as [|b|z|f|str|l|d']; unfold merge_step in *; cbn -[assoc assoc_set] in *.
  - left. split; [done|]. by rewrite assoc_pop_eq.
  - by rewrite assoc_set_eq in Hc.
  - rewrite assoc_set_eq in *. cbn in Hc. right. exists z.
    destruct (Z.ltb_spec z 1); [done|]. split_and!; [done|lia|done].
  - by rewrite assoc_set_eq in Hc.
  - by rewrite assoc_set_eq in Hc.
  - by rewrite assoc_set_eq in Hc.
  - by rewrite assoc_set_eq in Hc.
Qed.

(* ------------------------------------------------------------------ *)
(** * Witnesses *)

Definition sample_mapping : TenantMapping :=
  mkTenantMapping 7 None None "group-user" "group-admin" "b1" "b2" "b3" "b4" "b5" "b6".

Lemma v2_activation_permanent_witness :
  assert_v1_write_allowed (Some (foldl apply_v2_op sample_mapping
    ([SetOptIn true 10; Activate 20] ++ [SetOptIn false 30]))) = Raise V1WriteBlockedError.
Proof.
  exact (proj1 (proj2 (proj2 (proj2 (v2_activation_permanent sample_mapping
    [SetOptIn true 10; Activate 20] [SetOptIn false 30] 20 eq_refl eq_refl))))).
Defined.

Definition sample_v1_writer : Locks.state :=
  Locks.mkState None
    (Locks.upd (Locks.upd (λ _, Locks.Idle) 0 Locks.V1Shared) 0 Locks.V1Writing)
    (Locks.upd (λ _, false) 0 true) None None.

Lemma sample_v1_writer_reachable : Locks.reachable None sample_v1_writer.
Proof.
  eapply rtc_l; [apply (Locks.v1_lock _ 0); [done|by left]|].
  eapply rtc_l; [apply (Locks.v1_allowed _ 0); done|]. apply rtc_refl.
Qed.

Lemma v1_v2_write_exclusion_witness :
  Locks.activated sample_v1_writer = None
  ∧ ∀ j, Locks.pcs sample_v1_writer j ≠ Locks.V2Writing.
Proof.
  exact (v1_v2_write_exclusion None sample_v1_writer sample_v1_writer_reachable 0 eq_refl).
Defined.

Lemma role_binding_source_roundtrip_witness :
  source_for_role_binding_id sample_mapping "b3" = Some (USER, Scope.ROOT).
Proof. apply (role_binding_source_roundtrip sample_mapping ltac:(by_compute)). reflexivity. Defined.

Lemma org_config_patch_limit_witness :
  ∃ z, JInt 25 = JInt z ∧ @workspace_creation_limit sample_settings
    (mkTenant 1 "t" None (Some "o") (JDict [(ORG_CONFIG_WORKSPACE_CREATION_LIMIT, JInt 25)]) true) = z.
Proof.
  destruct (@org_config_patch_limit sample_settings (mkTenant 1 "t" None (Some "o") (JDict []) true)
    (JInt 25) [(ORG_CONFIG_WORKSPACE_CREATION_LIMIT, JInt 25)]
    (mkTenant 1 "t" None (Some "o") (JDict [(ORG_CONFIG_WORKSPACE_CREATION_LIMIT, JInt 25)]) true)
    eq_refl eq_refl) as [[H _]|(z & Hz & _ & Hl)].
  - discriminate H.
  - exists z. split; [exact Hz | exact Hl].
Defined.
