(* ===== verification/Db.v ===== *)
(** The tables of the V2 domain: the rows of rbac/management/role/v2_model.py,
    role_binding/model.py, group/model.py, principal/model.py and
    workspace/model.py, the queries the services run on them, and the relation
    tuples each row stands for. *)

From S2P Require Import Prelude.
From S2P Require Import PyString.
From S2P Require Import Config.
From S2P Require Import RelationTypes.
From S2P Require Import TupleStore.
From S2P Require Import Permissions.
From S2P Require Import ScopeService.
From S2P Require Import Outbox.
From S2P Require Import Tenants.

(* ------------------------------------------------------------------ *)
(** * Rows *)

Record Group := mkGroup {
  g_id : Z;
  g_uuid : string;
  g_tenant : Z;
  platform_default : bool;
  admin_default : bool;
  g_system : bool;
  g_name : string;
  g_description : option string;
}.

Inductive PrincipalType := USER_PRINCIPAL | SERVICE_ACCOUNT.
#[global] Instance PrincipalType_eq_dec : EqDecision PrincipalType.
Proof. solve_decision. Defined.

Record Principal := mkPrincipal {
  pr_id : Z;
  pr_uuid : string;
  pr_tenant : Z;
  user_id : option string;
  pr_username : string;
  pr_type : PrincipalType;
  pr_service_account_id : option string;
  pr_cross_account : bool;
}.

Inductive RoleType := CUSTOM | SEEDED | PLATFORM.
#[global] Instance RoleType_eq_dec : EqDecision RoleType.
Proof. solve_decision. Defined.

(** A V2 role; [r_permissions] is the many-to-many relation to permissions and
    [r_ocm] says that the V1 source comes from the external tenant "ocm". *)
Record RoleV2 := mkRoleV2 {
  r_id : Z;
  r_uuid : string;
  r_name : string;
  r_description : option string;
  r_type : RoleType;
  r_tenant : Z;
  r_permissions : gset Z;
  r_ocm : bool;
}.

Record RoleBinding := mkRoleBinding {
  b_id : Z;
  b_uuid : string;
  b_role : Z;
  b_resource_type : string;
  b_resource_id : string;
  b_tenant : Z;
}.

#[global] Instance RoleBinding_eq_dec : EqDecision RoleBinding.
Proof. solve_decision. Defined.
#[global] Instance RoleV2_eq_dec : EqDecision RoleV2.
Proof. solve_decision. Defined.
#[global] Instance Group_eq_dec : EqDecision Group.
Proof. solve_decision. Defined.
#[global] Instance Principal_eq_dec : EqDecision Principal.
Proof. solve_decision. Defined.

Inductive WorkspaceType := STANDARD | DEFAULT_WS | ROOT_WS | UNGROUPED_HOSTS.
#[global] Instance WorkspaceType_eq_dec : EqDecision WorkspaceType.
Proof. solve_decision. Defined.

Record Workspace := mkWorkspace {
  w_id : string;
  w_name : string;
  w_description : option string;
  w_parent : option string;
  w_type : WorkspaceType;
  w_tenant : Z;
}.
#[global] Instance Workspace_eq_dec : EqDecision Workspace.
Proof. solve_decision. Defined.

(** The database: one map per table, keyed by primary key; the two many-to-many
    tables of role bindings as sets of (binding, group) and of (binding,
    principal, source). *)
Record Db := mkDb {
  db_permissions : gmap Z Permission;
  db_roles : gmap Z RoleV2;
  db_groups : gmap Z Group;
  db_principals : gmap Z Principal;
  db_bindings : gmap Z RoleBinding;
  db_group_entries : gset (Z * Z);
  db_principal_entries : gset (Z * Z * string);
  db_workspaces : gmap string Workspace;
  db_mappings : gmap Z TenantMapping;
  db_tenants : gmap Z Tenant;
}.

Definition with_bindings (f : gmap Z RoleBinding → gmap Z RoleBinding)
    (ge : gset (Z * Z) → gset (Z * Z)) (pe : gset (Z * Z * string) → gset (Z * Z * string))
    (d : Db) : Db :=
  mkDb (db_permissions d) (db_roles d) (db_groups d) (db_principals d) (f (db_bindings d))
    (ge (db_group_entries d)) (pe (db_principal_entries d)) (db_workspaces d) (db_mappings d) (db_tenants d).

Definition with_roles (f : gmap Z RoleV2 → gmap Z RoleV2) (d : Db) : Db :=
  mkDb (db_permissions d) (f (db_roles d)) (db_groups d) (db_principals d) (db_bindings d)
    (db_group_entries d) (db_principal_entries d) (db_workspaces d) (db_mappings d) (db_tenants d).

Definition with_mappings (f : gmap Z TenantMapping → gmap Z TenantMapping) (d : Db) : Db :=
  mkDb (db_permissions d) (db_roles d) (db_groups d) (db_principals d) (db_bindings d)
    (db_group_entries d) (db_principal_entries d) (db_workspaces d) (f (db_mappings d)) (db_tenants d).

(** The order in which a query without ORDER BY returns its rows: all that is
    known is that every row comes once. *)
Class RowOrder := {
  row_order : ∀ (K : Type) `{Countable K} (A : Type), gmap K A → list (K * A);
  row_order_perm : ∀ (K : Type) `{Countable K} (A : Type) (m : gmap K A),
    row_order K A m ≡ₚ map_to_list m;
}.
Arguments row_order {_ K _ _ A} m.

#[export] Instance map_to_list_order : RowOrder | 100 := {|
  row_order := λ K _ _ A m, map_to_list m;
  row_order_perm := λ K _ _ A m, reflexivity _;
|}.

(** [Model.objects.filter(...)] evaluated to a list. *)
Definition select `{RowOrder} {K} `{Countable K} {A} (p : A → bool) (m : gmap K A) : list A :=
  List.filter p (map snd (row_order m)).

(* ------------------------------------------------------------------ *)
(** * The tuples of a role binding *)

Section tuples.
Context `{Settings} `{PySetOrder} `{RowOrder}.

(** The tuples of a row, before the constructors check them. *)
Definition t_role (b : RoleBinding) (role_uuid : string) : RelationTuple :=
  rel_tuple ("rbac", "role_binding") (b_uuid b) ("rbac", "role") role_uuid "role" None.
Definition t_resource (b : RoleBinding) : RelationTuple :=
  rel_tuple ("rbac", b_resource_type b) (b_resource_id b) ("rbac", "role_binding") (b_uuid b)
    "binding" None.
Definition t_group (b : RoleBinding) (group_uuid : string) : RelationTuple :=
  rel_tuple ("rbac", "role_binding") (b_uuid b) ("rbac", "group") group_uuid "subject" (Some "member").
Definition t_user (b : RoleBinding) (uid : option string) : RelationTuple :=
  rel_tuple ("rbac", "role_binding") (b_uuid b) ("rbac", "principal")
    (user_id_to_principal_resource_id uid) "subject" None.

(** [b.role] *)
Definition binding_role (d : Db) (b : RoleBinding) : result RoleV2 :=
  or_raise (DoesNotExist "RoleV2") (db_roles d !! b_role b).

(** [_role_relation_tuple] *)
Definition role_relation_tuple (d : Db) (b : RoleBinding) : result RelationTuple :=
  r ← binding_role d b;
  create_relationship ("rbac", "role_binding") (b_uuid b) ("rbac", "role") (r_uuid r) "role" None.

(** [_resource_binding_tuple] *)
Definition resource_binding_tuple (b : RoleBinding) : result RelationTuple :=
  create_relationship ("rbac", b_resource_type b) (b_resource_id b) ("rbac", "role_binding")
    (b_uuid b) "binding" None.

(** [_group_subject_tuple] *)
Definition group_subject_tuple (b : RoleBinding) (g : Group) : result RelationTuple :=
  create_relationship ("rbac", "role_binding") (b_uuid b) ("rbac", "group") (g_uuid g)
    "subject" (Some "member").

(** [_user_subject_tuple] *)
Definition user_subject_tuple (b : RoleBinding) (p : Principal) : result RelationTuple :=
  create_relationship ("rbac", "role_binding") (b_uuid b) ("rbac", "principal")
    (user_id_to_principal_resource_id (user_id p)) "subject" None.

(** [binding_tuples] *)
Definition binding_tuples (d : Db) (b : RoleBinding) : result (list RelationTuple) :=
  r ← role_relation_tuple d b;
  s ← resource_binding_tuple b;
  mret [r; s].

(** The groups and the principals of a binding, one per entry. *)
Definition entry_groups (d : Db) (b : RoleBinding) : list Group :=
  omap (λ '(bid, gid), if Z.eqb bid (b_id b) then db_groups d !! gid else None)
    (set_iter (db_group_entries d)).
Definition entry_principal_ids (d : Db) (b : RoleBinding) : list Z :=
  omap (λ '(bid, pid, _), if Z.eqb bid (b_id b) then Some pid else None)
    (set_iter (db_principal_entries d)).

(** [all_tuples]: the principals are a set, so a principal bound through two
    sources counts once. *)
Definition all_tuples (d : Db) (b : RoleBinding) : result (list RelationTuple) :=
  base ← binding_tuples d b;
  gs ← mapM (group_subject_tuple b) (entry_groups d b);
  ps ← mapM (user_subject_tuple b)
         (omap (λ pid, db_principals d !! pid) (set_list (entry_principal_ids d b)));
  mret (base ++ gs ++ ps).

(** A subject of bindings. *)
Inductive Subject := SGroup (g : Group) | SPrincipal (p : Principal).

(** [subject_tuple] *)
Definition subject_tuple (b : RoleBinding) (s : Subject) : result RelationTuple :=
  match s with
  | SGroup g => group_subject_tuple b g
  | SPrincipal p => user_subject_tuple b p
  end.

(** [replication_tuples] *)
Definition replication_tuples (d : Db) (subject : Subject)
    (bindings_created bindings_deleted subject_linked_to subject_unlinked_from : list RoleBinding) :
    result (list RelationTuple * list RelationTuple) :=
  add1 ← mapM (binding_tuples d) bindings_created;
  rem1 ← mapM (binding_tuples d) bindings_deleted;
  add2 ← mapM (λ b, subject_tuple b subject) subject_linked_to;
  rem2 ← mapM (λ b, subject_tuple b subject) subject_unlinked_from;
  mret (concat add1 ++ add2, concat rem1 ++ rem2).

(** [orphaned]: the bindings without an entry of either kind. *)
Definition is_orphaned (d : Db) (b : RoleBinding) : bool :=
  negb (existsb (λ '(bid, _), Z.eqb bid (b_id b)) (elements (db_group_entries d)))
  && negb (existsb (λ '(bid, _, _), Z.eqb bid (b_id b)) (elements (db_principal_entries d))).

(** [for_resource] *)
Definition on_resource (resource_type resource_id : string) (tenant : Z) (b : RoleBinding) : bool :=
  String.eqb (b_resource_type b) resource_type && String.eqb (b_resource_id b) resource_id
  && Z.eqb (b_tenant b) tenant.

(** DELETE on bindings by primary key, with the cascade to both entry tables. *)
Definition delete_bindings (ids : gset Z) (d : Db) : Db :=
  with_bindings (filter (λ kb, fst kb ∉ ids))
    (filter (λ e, fst e ∉ ids)) (filter (λ e, fst (fst e) ∉ ids)) d.
End tuples.
