(* ===== verification/BindingGraph.v ===== *)
(** What the role binding tables mean in the relation graph: the set of tuples
    that should be stored for a database state, the integrity constraints of the
    tables, and how the elementary table updates change the set.  This is the
    specification the services' replication is measured against. *)

From S2P Require Import Prelude.
From S2P Require Import PyString.
From S2P Require Import Config.
From S2P Require Import RelationTypes.
From S2P Require Import TupleStore.
From S2P Require Import Permissions.
From S2P Require Import Outbox.
From S2P Require Import Tenants.
From S2P Require Import Db.

(* ------------------------------------------------------------------ *)
(** * Specification *)

Section spec.
Context `{Settings}.

(** Some tuple of the binding [b] in state [d]. *)
Inductive binding_has (d : Db) (b : RoleBinding) : RelationTuple → Prop :=
| has_role r : db_roles d !! b_role b = Some r → binding_has d b (t_role b (r_uuid r))
| has_resource : binding_has d b (t_resource b)
| has_group gid g : (b_id b, gid) ∈ db_group_entries d → db_groups d !! gid = Some g →
    binding_has d b (t_group b (g_uuid g))
| has_user pid src p : (b_id b, pid, src) ∈ db_principal_entries d →
    db_principals d !! pid = Some p → binding_has d b (t_user b (user_id p)).

(** The same as a finite set. *)
Definition snapshot (d : Db) (b : RoleBinding) : tuples :=
  (match db_roles d !! b_role b with Some r => {[t_role b (r_uuid r)]} | None => ∅ end)
  ∪ {[t_resource b]}
  ∪ list_to_set (omap (λ '(bid, gid), if Z.eqb bid (b_id b)
      then (λ g, t_group b (g_uuid g)) <$> db_groups d !! gid else None)
      (elements (db_group_entries d)))
  ∪ list_to_set (omap (λ '(bid, pid, _), if Z.eqb bid (b_id b)
      then (λ p, t_user b (user_id p)) <$> db_principals d !! pid else None)
      (elements (db_principal_entries d))).

(** The tuples of all bindings. *)
Definition bindings_graph (d : Db) : tuples :=
  ⋃ (map (λ kb, snapshot d (snd kb)) (map_to_list (db_bindings d))).

(** The integrity constraints: primary keys, unique columns, foreign keys, and
    that bound principals are synchronised. *)
Record wf (d : Db) : Prop := {
  wf_binding_id : ∀ i b, db_bindings d !! i = Some b → b_id b = i;
  wf_binding_uuid : ∀ i j b c, db_bindings d !! i = Some b → db_bindings d !! j = Some c →
    b_uuid b = b_uuid c → i = j;
  wf_binding_role : ∀ i b, db_bindings d !! i = Some b → is_Some (db_roles d !! b_role b);
  wf_binding_unique : ∀ i j b c, db_bindings d !! i = Some b → db_bindings d !! j = Some c →
    b_role b = b_role c → b_resource_type b = b_resource_type c →
    b_resource_id b = b_resource_id c → b_tenant b = b_tenant c → i = j;
  wf_role_id : ∀ i r, db_roles d !! i = Some r → r_id r = i;
  wf_role_uuid : ∀ i j r s, db_roles d !! i = Some r → db_roles d !! j = Some s →
    r_uuid r = r_uuid s → i = j;
  wf_group_id : ∀ i g, db_groups d !! i = Some g → g_id g = i;
  wf_group_uuid : ∀ i j g h, db_groups d !! i = Some g → db_groups d !! j = Some h →
    g_uuid g = g_uuid h → i = j;
  wf_principal_id : ∀ i p, db_principals d !! i = Some p → pr_id p = i;
  wf_principal_user : ∀ i j p q u, db_principals d !! i = Some p → db_principals d !! j = Some q →
    user_id p = Some u → user_id q = Some u → i = j;
  wf_group_entry : ∀ bid gid, (bid, gid) ∈ db_group_entries d →
    is_Some (db_bindings d !! bid) ∧ is_Some (db_groups d !! gid);
  wf_principal_entry : ∀ bid pid src, (bid, pid, src) ∈ db_principal_entries d →
    is_Some (db_bindings d !! bid) ∧ ∃ p, db_principals d !! pid = Some p ∧ is_Some (user_id p);
}.

(** A subject that is a row of the database, synchronised if it is a principal. *)
Definition known_subject (d : Db) (s : Subject) : Prop :=
  match s with
  | SGroup g => db_groups d !! g_id g = Some g
  | SPrincipal p => db_principals d !! pr_id p = Some p ∧ is_Some (user_id p)
  end.

Definition t_subject (b : RoleBinding) (s : Subject) : RelationTuple :=
  match s with SGroup g => t_group b (g_uuid g) | SPrincipal p => t_user b (user_id p) end.
End spec.

(* ------------------------------------------------------------------ *)
(** * Tuples of different kinds are different *)

Section tuples.
Context `{Settings}.

Lemma t_role_inj b c u v : t_role b u = t_role c v → b_uuid b = b_uuid c ∧ u = v.
Proof. unfold t_role, rel_tuple. by intros [=]. Qed.
Lemma t_resource_inj b c : t_resource b = t_resource c → b_uuid b = b_uuid c.
Proof. unfold t_resource, rel_tuple. by intros [=]. Qed.
Lemma t_group_inj b c u v : t_group b u = t_group c v → b_uuid b = b_uuid c ∧ u = v.
Proof. unfold t_group, rel_tuple. by intros [=]. Qed.

Lemma principal_resource_id_inj u v :
  user_id_to_principal_resource_id (Some u) = user_id_to_principal_resource_id (Some v) → u = v.
Proof.
  unfold user_id_to_principal_resource_id. intros Hs%(inj _). cbn in Hs. congruence.
Qed.

Lemma t_user_inj b c u v : t_user b (Some u) = t_user c (Some v) → b_uuid b = b_uuid c ∧ u = v.
Proof.
  unfold t_user, rel_tuple. intros [= ? ?]. split; [done|]. by apply principal_resource_id_inj.
Qed.

Lemma t_role_resource b c u : t_role b u ≠ t_resource c.
Proof. unfold t_role, t_resource, rel_tuple. by intros [=]. Qed.
Lemma t_role_group b c u v : t_role b u ≠ t_group c v.
Proof. unfold t_role, t_group, rel_tuple. by intros [=]. Qed.
Lemma t_role_user b c u v : t_role b u ≠ t_user c v.
Proof. unfold t_role, t_user, rel_tuple. by intros [=]. Qed.
Lemma t_resource_group b c v : t_resource b ≠ t_group c v.
Proof. unfold t_resource, t_group, rel_tuple. by intros [=]. Qed.
Lemma t_resource_user b c v : t_resource b ≠ t_user c v.
Proof. unfold t_resource, t_user, rel_tuple. by intros [=]. Qed.
Lemma t_group_user b c u v : t_group b u ≠ t_user c v.
Proof. unfold t_group, t_user, rel_tuple. by intros [=]. Qed.
End tuples.

(** Equations between tuples of different kinds are absurd. *)
Ltac kinds :=
  exfalso;
  match goal with
  | E : t_role _ _ = t_resource _ |- _ => exact (t_role_resource _ _ _ E)
  | E : t_role _ _ = t_group _ _ |- _ => exact (t_role_group _ _ _ _ E)
  | E : t_role _ _ = t_user _ _ |- _ => exact (t_role_user _ _ _ _ E)
  | E : t_resource _ = t_group _ _ |- _ => exact (t_resource_group _ _ _ E)
  | E : t_resource _ = t_user _ _ |- _ => exact (t_resource_user _ _ _ E)
  | E : t_group _ _ = t_user _ _ |- _ => exact (t_group_user _ _ _ _ E)
  | E : t_resource _ = t_role _ _ |- _ => exact (t_role_resource _ _ _ (eq_sym E))
  | E : t_group _ _ = t_role _ _ |- _ => exact (t_role_group _ _ _ _ (eq_sym E))
  | E : t_user _ _ = t_role _ _ |- _ => exact (t_role_user _ _ _ _ (eq_sym E))
  | E : t_group _ _ = t_resource _ |- _ => exact (t_resource_group _ _ _ (eq_sym E))
  | E : t_user _ _ = t_resource _ |- _ => exact (t_resource_user _ _ _ (eq_sym E))
  | E : t_user _ _ = t_group _ _ |- _ => exact (t_group_user _ _ _ _ (eq_sym E))
  end.

#[global] Arguments t_role : simpl never.
#[global] Arguments t_resource : simpl never.
#[global] Arguments t_group : simpl never.
#[global] Arguments t_user : simpl never.
#[global] Arguments user_id_to_principal_resource_id : simpl never.

(* ------------------------------------------------------------------ *)
(** * The graph, tuple by tuple *)

Section graph.
Context `{Settings}.
Implicit Types (d : Db) (b c : RoleBinding) (t : RelationTuple).

Lemma elem_of_snapshot d b t : t ∈ snapshot d b ↔ binding_has d b t.
Proof.
  unfold snapshot. rewrite !elem_of_union, !elem_of_list_to_set, !list_elem_of_omap, elem_of_singleton.
  split.
  - intros [[[Hr| ->]|([bid gid] & Hin%elem_of_elements & Hg)]|([[bid pid] src] & Hin%elem_of_elements & Hp)].
    + destruct (db_roles d !! b_role b) eqn:Hb; [|set_solver].
      apply elem_of_singleton in Hr as ->. by constructor.
    + constructor.
    + destruct (Z.eqb_spec bid (b_id b)) as [->|]; [|done].
      apply fmap_Some in Hg as (g & Hg & ->). by econstructor.
    + destruct (Z.eqb_spec bid (b_id b)) as [->|]; [|done].
      apply fmap_Some in Hp as (p & Hp & ->). by econstructor.
  - destruct 1 as [r Hr| |gid g Hin Hg|pid src p Hin Hp].
    + left; left; left. rewrite Hr. set_solver.
    + left; left; by right.
    + left; right. exists (b_id b, gid). rewrite elem_of_elements, Z.eqb_refl, Hg. done.
    + right. exists (b_id b, pid, src). rewrite elem_of_elements, Z.eqb_refl, Hp. done.
Qed.

Lemma elem_of_graph d t :
  t ∈ bindings_graph d ↔ ∃ i b, db_bindings d !! i = Some b ∧ binding_has d b t.
Proof.
  unfold bindings_graph. rewrite elem_of_union_list. setoid_rewrite list_elem_of_fmap. split.
  - intros (X & ([i b] & -> & Hin%elem_of_map_to_list) & Ht%elem_of_snapshot). eauto.
  - intros (i & b & Hin & Ht%elem_of_snapshot). exists (snapshot d b). split; [|done].
    exists (i, b). by rewrite elem_of_map_to_list.
Qed.

(** The uuid of the binding a tuple belongs to. *)
Definition owner_of (t : RelationTuple) : string :=
  if String.eqb (relation t) "binding" then oid (subj (subject t)) else oid (resource t).

Lemma binding_has_owner d b t : binding_has d b t → owner_of t = b_uuid b.
Proof. by destruct 1. Qed.

Lemma owner_t_subject b s : owner_of (t_subject b s) = b_uuid b.
Proof. by destruct s. Qed.

Lemma binding_has_inj d d' i j b c t :
  wf d → db_bindings d !! i = Some b → db_bindings d !! j = Some c →
  binding_has d b t → owner_of t = b_uuid c → i = j ∧ b = c.
Proof.
  intros Hwf Hb Hc Ht Ho. apply binding_has_owner in Ht.
  assert (i = j) as -> by (eapply wf_binding_uuid; eauto; congruence).
  split; [done|]. congruence.
Qed.

(** The tuples that a list of bindings has as bindings. *)
Definition base_of d (bs : list RoleBinding) t : Prop :=
  ∃ b, b ∈ bs ∧ (t = t_resource b ∨ ∃ r, db_roles d !! b_role b = Some r ∧ t = t_role b (r_uuid r)).
Definition subject_of (bs : list RoleBinding) (s : Subject) t : Prop :=
  ∃ b, b ∈ bs ∧ t = t_subject b s.

Lemma binding_has_group d b c u :
  binding_has d b (t_group c u) →
  ∃ gid g, (b_id b, gid) ∈ db_group_entries d ∧ db_groups d !! gid = Some g ∧ g_uuid g = u.
Proof.
  remember (t_group c u) as t eqn:Ht. destruct 1; try kinds.
  apply t_group_inj in Ht as [_ <-]. eauto.
Qed.

Lemma binding_has_user d b c uid :
  binding_has d b (t_user c uid) →
  ∃ pid src p, (b_id b, pid, src) ∈ db_principal_entries d ∧ db_principals d !! pid = Some p
               ∧ t_user b (user_id p) = t_user c uid.
Proof. remember (t_user c uid) as t eqn:Ht. destruct 1; try kinds. eauto 10. Qed.

Lemma binding_has_role d b c u :
  binding_has d b (t_role c u) → ∃ r, db_roles d !! b_role b = Some r ∧ r_uuid r = u.
Proof.
  remember (t_role c u) as t eqn:Ht. destruct 1; try kinds. apply t_role_inj in Ht as [_ <-]. eauto.
Qed.

(** A known subject's tuple belongs to a binding exactly when the subject has an
    entry there. *)
Definition entry_of d (s : Subject) (bid : Z) : Prop :=
  match s with
  | SGroup g => (bid, g_id g) ∈ db_group_entries d
  | SPrincipal p => ∃ src, (bid, pr_id p, src) ∈ db_principal_entries d
  end.

Lemma subject_entry d b c s :
  wf d → known_subject d s → binding_has d b (t_subject c s) → entry_of d s (b_id b).
Proof.
  intros Hwf Hk Hb. destruct s as [g|p]; cbn in *.
  - apply binding_has_group in Hb as (gid & g' & Hin & Hg & Hu).
    by rewrite (wf_group_uuid d Hwf (g_id g) gid g g').
  - destruct Hk as [Hp [u Hu]].
    apply binding_has_user in Hb as (pid & src & p' & Hin & Hp' & Heq).
    destruct (wf_principal_entry d Hwf _ _ _ Hin) as (_ & p2 & Hp2 & [u' Hu']).
    assert (p2 = p') as -> by congruence. rewrite Hu, Hu' in Heq. apply t_user_inj in Heq as [_ ->].
    exists src. by rewrite (wf_principal_user d Hwf (pr_id p) pid p p' u).
Qed.

Lemma entry_subject d b s :
  known_subject d s → entry_of d s (b_id b) → binding_has d b (t_subject b s).
Proof.
  destruct s as [g|p]; cbn; [intros Hg Hin; by econstructor|].
  intros [Hp _] [src Hin]. by econstructor.
Qed.
End graph.

(* ------------------------------------------------------------------ *)
(** * Elementary updates *)

Section updates.
Context `{Settings}.
Implicit Types (d : Db) (b c : RoleBinding) (t : RelationTuple).

(** Two states that differ in the binding tables only. *)
Definition same_tables d d' : Prop :=
  db_permissions d' = db_permissions d ∧ db_roles d' = db_roles d ∧ db_groups d' = db_groups d
  ∧ db_principals d' = db_principals d ∧ db_workspaces d' = db_workspaces d
  ∧ db_mappings d' = db_mappings d ∧ db_tenants d' = db_tenants d.

Lemma same_tables_refl d : same_tables d d.
Proof. by repeat split. Qed.
Lemma same_tables_trans d1 d2 d3 : same_tables d1 d2 → same_tables d2 d3 → same_tables d1 d3.
Proof. unfold same_tables. naive_solver congruence. Qed.
Lemma with_bindings_same f ge pe d : same_tables d (with_bindings f ge pe d).
Proof. by repeat split. Qed.

Lemma known_subject_same d d' s : same_tables d d' → known_subject d s → known_subject d' s.
Proof. intros (_ & _ & Hg & Hp & _). destruct s; cbn; by rewrite ?Hg, ?Hp. Qed.

Lemma base_of_same d d' bs t : same_tables d d' → base_of d bs t ↔ base_of d' bs t.
Proof. intros (_ & Hr & _). unfold base_of. by rewrite Hr. Qed.

(** Fewer entries and fewer bindings keep the constraints. *)
Lemma wf_shrink d d' :
  wf d → same_tables d d' →
  (∀ i b, db_bindings d' !! i = Some b → db_bindings d !! i = Some b) →
  (∀ bid gid, (bid, gid) ∈ db_group_entries d' →
     (bid, gid) ∈ db_group_entries d ∧ is_Some (db_bindings d' !! bid)) →
  (∀ bid pid src, (bid, pid, src) ∈ db_principal_entries d' →
     (bid, pid, src) ∈ db_principal_entries d ∧ is_Some (db_bindings d' !! bid)) →
  wf d'.
Proof.
  intros Hwf (_ & Hr & Hg & Hp & _) Hb Hge Hpe.
  destruct Hwf as [H1 H2 H3 H4 H5 H6 H7 H8 H9 H10 H11 H12].
  split; rewrite ?Hr, ?Hg, ?Hp; eauto.
  - intros bid gid Hin. destruct (Hge _ _ Hin) as [Hin' ?]. split; [done|]. by apply (H11 bid).
  - intros bid pid src Hin. destruct (Hpe _ _ _ Hin) as [Hin' ?]. split; [done|]. by apply (H12 bid pid src).
Qed.

Lemma binding_has_mono d d' b t :
  same_tables d d' →
  (∀ gid, (b_id b, gid) ∈ db_group_entries d' → (b_id b, gid) ∈ db_group_entries d) →
  (∀ pid src, (b_id b, pid, src) ∈ db_principal_entries d' → (b_id b, pid, src) ∈ db_principal_entries d) →
  binding_has d' b t → binding_has d b t.
Proof.
  intros (_ & Hr & Hg & Hp & _) Hge Hpe. destruct 1.
  - constructor. congruence.
  - constructor.
  - econstructor; [eauto|congruence].
  - econstructor; [eauto|congruence].
Qed.

Lemma lookup_delete_bindings ids d i b :
  db_bindings (delete_bindings ids d) !! i = Some b ↔ db_bindings d !! i = Some b ∧ i ∉ ids.
Proof. cbn. by rewrite map_lookup_filter_Some. Qed.

Lemma delete_bindings_has ids d b t :
  (b_id b ∉ ids) → binding_has (delete_bindings ids d) b t ↔ binding_has d b t.
Proof.
  intros Hb. split; (apply binding_has_mono; [by repeat split|..]); cbn; intros *;
    rewrite elem_of_filter; cbn; tauto.
Qed.

Lemma delete_bindings_entry ids d s bid :
  bid ∉ ids → entry_of (delete_bindings ids d) s bid ↔ entry_of d s bid.
Proof.
  intros Hb. destruct s; cbn.
  - rewrite elem_of_filter. cbn. tauto.
  - split; intros [src Hs]; exists src; rewrite elem_of_filter in *; cbn in *; tauto.
Qed.

Lemma wf_delete_bindings ids d : wf d → wf (delete_bindings ids d).
Proof.
  intros Hwf. eapply wf_shrink; [done|by repeat split|..].
  - intros i b. rewrite lookup_delete_bindings. tauto.
  - intros bid gid. cbn. rewrite elem_of_filter. cbn. intros [Hn Hin]. split; [done|].
    destruct (wf_group_entry d Hwf _ _ Hin) as [[b Hb] _]. exists b.
    by apply map_lookup_filter_Some.
  - intros bid pid src. cbn. rewrite elem_of_filter. cbn. intros [Hn Hin]. split; [done|].
    destruct (wf_principal_entry d Hwf _ _ _ Hin) as [[b Hb] _]. exists b.
    by apply map_lookup_filter_Some.
Qed.

Lemma delete_bindings_graph ids d t :
  wf d → t ∈ bindings_graph (delete_bindings ids d) ↔
  ∃ i b, db_bindings d !! i = Some b ∧ (i ∉ ids) ∧ binding_has d b t.
Proof.
  intros Hwf. rewrite elem_of_graph. setoid_rewrite lookup_delete_bindings. split.
  - intros (i & b & [Hb Hi] & Ht). exists i, b. split_and!; [done|done|].
    apply delete_bindings_has in Ht; [done|]. by rewrite (wf_binding_id d Hwf i b).
  - intros (i & b & Hb & Hi & Ht). exists i, b. split; [done|].
    apply delete_bindings_has; [|done]. by rewrite (wf_binding_id d Hwf i b).
Qed.

(** A binding without entries has its two base tuples only. *)
Lemma is_orphaned_spec d b :
  is_orphaned d b = true ↔
  (∀ gid, (b_id b, gid) ∉ db_group_entries d) ∧ (∀ pid src, (b_id b, pid, src) ∉ db_principal_entries d).
Proof.
  unfold is_orphaned. rewrite andb_true_iff, !negb_true_iff, <- !not_true_iff_false, !existsb_exists.
  setoid_rewrite <- list_elem_of_In. setoid_rewrite elem_of_elements. split.
  - intros [Hg Hp]. split.
    + intros gid Hin. apply Hg. exists (b_id b, gid). by rewrite Z.eqb_refl.
    + intros pid src Hin. apply Hp. exists (b_id b, pid, src). by rewrite Z.eqb_refl.
  - intros [Hg Hp]. split.
    + intros ([bid gid] & Hin & ->%Z.eqb_eq). by apply (Hg gid).
    + intros ([[bid pid] src] & Hin & ->%Z.eqb_eq). by apply (Hp pid src).
Qed.

Lemma orphaned_has d b t :
  is_orphaned d b = true →
  binding_has d b t ↔ t = t_resource b ∨ ∃ r, db_roles d !! b_role b = Some r ∧ t = t_role b (r_uuid r).
Proof.
  intros [Hg Hp]%is_orphaned_spec. split.
  - destruct 1; [eauto|eauto|by apply Hg in H0|by apply Hp in H0].
  - intros [-> |(r & Hr & ->)]; by constructor.
Qed.

Lemma delete_orphaned_graph d bs t :
  wf d → (∀ b, b ∈ bs → db_bindings d !! b_id b = Some b ∧ is_orphaned d b = true) →
  t ∈ bindings_graph (delete_bindings (list_to_set (map b_id bs)) d) ↔
  t ∈ bindings_graph d ∧ ¬ base_of d bs t.
Proof.
  intros Hwf Hbs. rewrite delete_bindings_graph, elem_of_graph by done.
  assert (∀ i, i ∈ (list_to_set (map b_id bs) : gset Z) ↔ ∃ b, b ∈ bs ∧ b_id b = i) as Hids.
  { intros i. rewrite elem_of_list_to_set, list_elem_of_fmap. naive_solver. }
  split.
  - intros (i & b & Hb & Hi & Ht). split; [eauto|]. intros (c & Hc & Hct).
    destruct (Hbs c Hc) as [Hdc Hoc]. apply (orphaned_has d c t Hoc) in Hct.
    apply binding_has_owner in Hct.
    destruct (binding_has_inj d d i (b_id c) b c t) as [-> ->]; [done..|].
    apply Hi, Hids. eauto.
  - intros [(i & b & Hb & Ht) Hn]. exists i, b. split_and!; [done| |done].
    rewrite Hids. intros (c & Hc & <-). destruct (Hbs c Hc) as [Hdc Hoc].
    assert (b = c) as -> by congruence. apply Hn. exists c. split; [done|]. by apply orphaned_has.
Qed.
End updates.

(* ------------------------------------------------------------------ *)
(** * The tuples the model computes *)

Section replication.
Context `{Settings} `{PySetOrder} `{RowOrder}.
Implicit Types (d : Db) (b c : RoleBinding) (t : RelationTuple).

Lemma binding_tuples_spec d b l :
  binding_tuples d b = Ok l →
  ∃ r, db_roles d !! b_role b = Some r ∧ l = [t_role b (r_uuid r); t_resource b]
       ∧ rbac_tuple (t_role b (r_uuid r)) = true ∧ rbac_tuple (t_resource b) = true.
Proof.
  unfold binding_tuples, role_relation_tuple, resource_binding_tuple, binding_role.
  intros (t1 & (r & Hr%or_raise_Ok & Ht1)%bind_Ok & Hl)%bind_Ok.
  apply bind_Ok in Hl as (t2 & Ht2 & Hl). inv_ok.
  apply create_relationship_spec in Ht1 as [-> Hv1], Ht2 as [-> Hv2].
  exists r. split_and!; [done|done|..]; unfold rbac_tuple.
  - change (valid_tuple (t_role b (r_uuid r))) with (valid_tuple (rel_tuple ("rbac", "role_binding")
      (b_uuid b) ("rbac", "role") (r_uuid r) "role" None)). by rewrite Hv1.
  - change (valid_tuple (t_resource b)) with (valid_tuple (rel_tuple ("rbac", b_resource_type b)
      (b_resource_id b) ("rbac", "role_binding") (b_uuid b) "binding" None)). by rewrite Hv2.
Qed.

Lemma subject_tuple_spec b s t :
  subject_tuple b s = Ok t → t = t_subject b s ∧ rbac_tuple t = true.
Proof.
  destruct s; cbn; unfold group_subject_tuple, user_subject_tuple;
    intros [-> Hv]%create_relationship_spec; (split; [done|]); unfold rbac_tuple; by rewrite Hv.
Qed.

(** Lists of tuples whose parts belong to different bindings. *)
Lemma NoDup_owners {A} (f : A → list RelationTuple) (k : A → string) l :
  NoDup (map k l) → (∀ x, x ∈ l → NoDup (f x) ∧ ∀ t, t ∈ f x → owner_of t = k x) →
  NoDup (concat (map f l)).
Proof.
  induction l as [|x l IH]; cbn; [constructor|]. intros [Hx Hl]%NoDup_cons Hf.
  apply NoDup_app. split_and!.
  - apply Hf. left.
  - intros t Ht Hc. apply list_elem_of_In, in_concat in Hc as (ts & Hts & Ht').
    apply in_map_iff in Hts as (y & <- & Hy). apply list_elem_of_In in Hy, Ht'.
    apply Hx, list_elem_of_fmap. exists y. split; [|done].
    rewrite <- (proj2 (Hf x ltac:(left)) t Ht). symmetry.
    rewrite <- (proj2 (Hf y ltac:(by right)) t Ht'). done.
  - apply IH; [done|]. intros y Hy. apply Hf. by right.
Qed.

Lemma mapM_binding_tuples d bs ls :
  mapM (binding_tuples d) bs = Ok ls →
  (∀ t, t ∈ concat ls ↔ base_of d bs t)
  ∧ Forall (λ t, rbac_tuple t = true) (concat ls)
  ∧ (NoDup (map b_uuid bs) → NoDup (concat ls)).
Proof.
  intros Hm%mapM_result_Ok.
  assert (∃ f, ls = map f bs ∧ ∀ b, b ∈ bs → ∃ r, db_roles d !! b_role b = Some r
    ∧ f b = [t_role b (r_uuid r); t_resource b]
    ∧ rbac_tuple (t_role b (r_uuid r)) = true ∧ rbac_tuple (t_resource b) = true) as (f & -> & Hf).
  { exists (λ b, match db_roles d !! b_role b with
                 | Some r => [t_role b (r_uuid r); t_resource b] | None => [] end).
    split.
    - induction Hm as [|b l bs ls Hb _ IH]; cbn; [done|].
      apply binding_tuples_spec in Hb as (r & -> & -> & _). by f_equal.
    - intros b Hb. apply (Forall2_elem_l _ _ _ _ Hm) in Hb as (l & _ & Hl).
      apply binding_tuples_spec in Hl as (r & Hr & _ & ?). exists r. by rewrite Hr. }
  clear Hm.
  assert (∀ t, t ∈ concat (map f bs) ↔ ∃ b, b ∈ bs ∧ t ∈ f b) as Hin.
  { intros t. rewrite list_elem_of_In, in_concat. setoid_rewrite in_map_iff.
    setoid_rewrite <- list_elem_of_In. naive_solver. }
  split_and!.
  - intros t. rewrite Hin. unfold base_of. split; intros (b & Hb & Ht); exists b; (split; [done|]);
      destruct (Hf b Hb) as (r & Hr & Hfb & _); rewrite Hfb, !elem_of_cons, elem_of_nil in *; naive_solver.
  - apply Forall_forall. intros t (b & Hb & Ht)%Hin. destruct (Hf b Hb) as (r & _ & Hfb & ? & ?).
    rewrite Hfb, !elem_of_cons, elem_of_nil in Ht. naive_solver.
  - intros Hnd. apply (NoDup_owners f b_uuid); [done|]. intros b Hb.
    destruct (Hf b Hb) as (r & Hr & -> & _). split.
    + apply NoDup_cons. rewrite list_elem_of_singleton. split; [apply t_role_resource|apply NoDup_singleton].
    + intros t. rewrite !elem_of_cons, elem_of_nil. intros [->|[->|[]]]; done.
Qed.

Lemma mapM_subject_tuples bs s ts :
  mapM (λ b, subject_tuple b s) bs = Ok ts →
  ts = map (λ b, t_subject b s) bs ∧ Forall (λ t, rbac_tuple t = true) ts.
Proof.
  intros Hm%mapM_result_Ok. induction Hm as [|b t bs ts Hb _ [-> IH]]; cbn; [done|].
  apply subject_tuple_spec in Hb as [-> Ht]. split; [done|]. by constructor.
Qed.

(** The diff of [replication_tuples]: what it adds and removes, and that it adds
    nothing twice. *)
Lemma replication_tuples_spec d s created deleted linked unlinked add remove :
  replication_tuples d s created deleted linked unlinked = Ok (add, remove) →
  (∀ t, t ∈ add ↔ base_of d created t ∨ subject_of linked s t)
  ∧ (∀ t, t ∈ remove ↔ base_of d deleted t ∨ subject_of unlinked s t)
  ∧ Forall (λ t, rbac_tuple t = true) add ∧ Forall (λ t, rbac_tuple t = true) remove
  ∧ (NoDup (map b_uuid created) → NoDup (map b_uuid linked) → NoDup add).
Proof.
  unfold replication_tuples. intros (a1 & Ha1 & Hr)%bind_Ok. apply bind_Ok in Hr as (r1 & Hr1 & Hr).
  apply bind_Ok in Hr as (a2 & Ha2 & Hr). apply bind_Ok in Hr as (r2 & Hr2 & Hr). inv_ok.
  apply mapM_binding_tuples in Ha1 as (Ha1 & Hv1 & Hn1), Hr1 as (Hr1 & Hv2 & _).
  apply mapM_subject_tuples in Ha2 as [-> Hv3], Hr2 as [-> Hv4].
  assert (∀ bs t, t ∈ map (λ b, t_subject b s) bs ↔ subject_of bs s t) as Hsub.
  { intros bs t. rewrite list_elem_of_fmap. unfold subject_of. naive_solver. }
  split_and!.
  - intros t. by rewrite elem_of_app, Ha1, Hsub.
  - intros t. by rewrite elem_of_app, Hr1, Hsub.
  - by apply Forall_app.
  - by apply Forall_app.
  - intros Hnc Hnl. apply NoDup_app. split_and!; [auto| |].
    + intros t Ht%Ha1 (b & _ & ->)%Hsub. destruct Ht as (c & _ & [Heq|(r & _ & Heq)]);
        destruct s; cbn in Heq; kinds.
    + clear -Hnl. induction linked as [|b l IH]; cbn; [constructor|].
      apply NoDup_cons in Hnl as [Hn Hnl]. apply NoDup_cons. split; [|auto].
      intros (c & Heq & Hc)%list_elem_of_fmap. apply Hn, list_elem_of_fmap. exists c. split; [|done].
      apply (f_equal owner_of) in Heq. by rewrite !owner_t_subject in Heq.
Qed.

(** The columns of a binding and of its role hold identifiers that the relation
    tuples accept; so does the subject. *)
Definition plain_id (i : string) : bool := id_regex i && negb (String.eqb i "*").

Definition valid_row d b : Prop :=
  plain_id (b_uuid b) = true ∧ type_regex (b_resource_type b) = true ∧ plain_id (b_resource_id b) = true
  ∧ ∃ r, db_roles d !! b_role b = Some r ∧ id_regex (r_uuid r) = true.

Definition valid_subject_id (s : Subject) : bool :=
  id_regex (match s with
            | SGroup g => g_uuid g
            | SPrincipal p => user_id_to_principal_resource_id (user_id p)
            end).

Lemma plain_id_iff i : plain_id i = true ↔ id_regex i = true ∧ String.eqb i "*" = false.
Proof. unfold plain_id. by rewrite andb_true_iff, negb_true_iff. Qed.

Lemma valid_rel_tuple rt ri st si rel sr :
  type_regex rt = true → plain_id ri = true → type_regex st = true → id_regex si = true →
  str_truth rel = true → match sr with Some r => str_truth r | None => true end = true →
  create_relationship ("rbac", rt) ri ("rbac", st) si rel sr =
    Ok (rel_tuple ("rbac", rt) ri ("rbac", st) si rel sr).
Proof.
  intros Hrt [Hri Hs]%plain_id_iff Hst Hsi Hrel Hsr. apply create_relationship_spec. split; [done|].
  apply valid_tuple_iff. unfold valid_type. cbn. by rewrite Hrt, Hst.
Qed.

Lemma binding_tuples_total d b : valid_row d b → ∃ l, binding_tuples d b = Ok l.
Proof.
  intros (Hu & Ht & Hi & r & Hr & Hru). unfold binding_tuples, role_relation_tuple, binding_role.
  rewrite Hr. cbn. rewrite valid_rel_tuple by done. cbn. unfold resource_binding_tuple.
  rewrite valid_rel_tuple; [eauto|done..|by apply plain_id_iff in Hu as [? _]|done|done].
Qed.

Lemma subject_tuple_total d b s :
  valid_row d b → valid_subject_id s = true → ∃ t, subject_tuple b s = Ok t.
Proof.
  intros (Hu & _) Hs. destruct s; cbn in *; unfold group_subject_tuple, user_subject_tuple;
    rewrite valid_rel_tuple by done; eauto.
Qed.

Lemma replication_tuples_total d s created deleted linked unlinked :
  valid_subject_id s = true →
  (∀ b, b ∈ created ++ deleted ++ linked ++ unlinked → valid_row d b) →
  ∃ add remove, replication_tuples d s created deleted linked unlinked = Ok (add, remove).
Proof.
  intros Hs Hb. unfold replication_tuples.
  destruct (mapM_result_total (binding_tuples d) created) as [a1 ->].
  { intros b Hin. apply binding_tuples_total, Hb. set_solver. }
  destruct (mapM_result_total (binding_tuples d) deleted) as [r1 Hr1].
  { intros b Hin. apply binding_tuples_total, Hb. set_solver. }
  destruct (mapM_result_total (λ b, subject_tuple b s) linked) as [a2 Ha2].
  { intros b Hin. apply (subject_tuple_total d); [apply Hb; set_solver|done]. }
  destruct (mapM_result_total (λ b, subject_tuple b s) unlinked) as [r2 Hr2].
  { intros b Hin. apply (subject_tuple_total d); [apply Hb; set_solver|done]. }
  cbn. rewrite Hr1. cbn. rewrite Ha2. cbn. rewrite Hr2. cbn. eauto.
Qed.
End replication.

(* ------------------------------------------------------------------ *)
(** * Checking the constraints on a concrete database *)

(** No two rows agree on a key column. *)
Definition unique_on {A B} `{EqDecision B} (f : A → B) (m : gmap Z A) : Prop :=
  map_Forall (λ i x, map_Forall (λ j y, f x = f y → i = j) m) m.

Definition wf_checked (d : Db) : Prop :=
  (map_Forall (λ i b, b_id b = i ∧ is_Some (db_roles d !! b_role b)) (db_bindings d)
   ∧ unique_on b_uuid (db_bindings d)
   ∧ unique_on (λ b, (b_role b, b_resource_type b, b_resource_id b, b_tenant b)) (db_bindings d))
  ∧ (map_Forall (λ i r, r_id r = i) (db_roles d) ∧ unique_on r_uuid (db_roles d))
  ∧ (map_Forall (λ i g, g_id g = i) (db_groups d) ∧ unique_on g_uuid (db_groups d))
  ∧ (map_Forall (λ i p, pr_id p = i) (db_principals d)
     ∧ unique_on (λ p, match user_id p with Some u => inl u | None => inr (pr_id p) end) (db_principals d))
  ∧ set_Forall (λ e, is_Some (db_bindings d !! fst e) ∧ is_Some (db_groups d !! snd e)) (db_group_entries d)
  ∧ set_Forall (λ e, is_Some (db_bindings d !! fst (fst e))
                     ∧ is_Some (db_principals d !! snd (fst e) ≫= user_id)) (db_principal_entries d).

#[export] Instance wf_checked_dec d : Decision (wf_checked d).
Proof. unfold wf_checked, unique_on. apply _. Defined.

Lemma wf_checked_sound d : wf_checked d → wf d.
Proof.
  intros ((Hb & Hbu & Hbk) & (Hr & Hru) & (Hg & Hgu) & (Hp & Hpu) & Hge & Hpe). split.
  - intros i b H. by apply (Hb i b).
  - intros i j b c H1 H2 Hu. by apply (Hbu i b H1 j c H2).
  - intros i b H. by apply (Hb i b).
  - intros i j b c H1 H2 E1 E2 E3 E4. apply (Hbk i b H1 j c H2). congruence.
  - intros i r H. by apply (Hr i r).
  - intros i j b c H1 H2 Hu. by apply (Hru i b H1 j c H2).
  - intros i g H. by apply (Hg i g).
  - intros i j b c H1 H2 Hu. by apply (Hgu i b H1 j c H2).
  - intros i p H. by apply (Hp i p).
  - intros i j p q u H1 H2 Hu Hv. apply (Hpu i p H1 j q H2). by rewrite Hu, Hv.
  - intros bid gid Hin. apply (Hge _ Hin).
  - intros bid pid src Hin. destruct (Hpe _ Hin) as [? [u Hu]]. split; [done|].
    apply bind_Some in Hu as (p & ? & ?). eauto.
Qed.
