(* ===== verification/RoleBindingService.v ===== *)
(** Role bindings: the writing half of rbac/management/role_binding/service.py
    with the subject lookups of rbac/management/subject/queryset.py and the role
    queries of rbac/management/role/queryset.py and v2_role_scope.py. *)

From S2P Require Import Prelude.
From S2P Require Import PyString.
From S2P Require Import Config.
From S2P Require Import RelationTypes.
From S2P Require Import TupleStore.
From S2P Require Import Permissions.
From S2P Require Import ScopeService.
From S2P Require Import Outbox.
From S2P Require Import Tenants.
From S2P Require Import Db.
From S2P Require Import BindingGraph.

(* ------------------------------------------------------------------ *)
(** * Applications excluded from V2 roles *)

(** [v2_role_excluded_applications] *)
Definition v2_role_excluded_applications `{Settings} : gset string :=
  list_to_set (map strip (List.filter (λ app, str_truth app && str_truth (strip app))
    V2_MIGRATION_APP_EXCLUDE_LIST)).

(** [V2RoleExcludedApplicationPermissionIdsCache] and its [permission_ids] *)
Record ExcludedIdsCache := mkExcludedIdsCache {
  ec_apps : option (gset string);
  ec_ids : option (gset Z);
}.

Definition permission_rows_of (d : Db) : list Permission := map snd (map_to_list (db_permissions d)).

Definition excluded_permission_ids `{Settings} (d : Db) (c : ExcludedIdsCache) :
    gset Z * ExcludedIdsCache :=
  let apps := v2_role_excluded_applications in
  if decide (apps = ∅) then (∅, mkExcludedIdsCache (Some apps) (Some ∅))
  else match ec_ids c with
       | Some ids =>
           if decide (ec_apps c = Some apps) then (ids, c)
           else let ids' := list_to_set (map p_id (List.filter
                  (λ p, bool_decide (application (p_parts p) ∈ apps)) (permission_rows_of d))) in
                (ids', mkExcludedIdsCache (Some apps) (Some ids'))
       | None => let ids' := list_to_set (map p_id (List.filter
                  (λ p, bool_decide (application (p_parts p) ∈ apps)) (permission_rows_of d))) in
                (ids', mkExcludedIdsCache (Some apps) (Some ids'))
       end.

Definition excluded_cache_invalidate (c : ExcludedIdsCache) : ExcludedIdsCache :=
  mkExcludedIdsCache None None.

(* ------------------------------------------------------------------ *)
(** * The service *)

Record RoleBindingService := mkRoleBindingService {
  svc_tenant : Tenant;
  principal_source : string;
  allow_external_subjects : bool;
  skip_scope_validation : bool;
}.

Record CreateBindingRequest := mkCreateBindingRequest {
  req_role_id : string;
  req_resource_type : string;
  req_resource_id : string;
  req_subject_type : string;
  req_subject_id : string;
}.

Definition subject_tenant (s : Subject) : Z :=
  match s with SGroup g => g_tenant g | SPrincipal p => pr_tenant p end.
Definition subject_type_name (s : Subject) : string :=
  match s with SGroup _ => "group" | SPrincipal _ => "user" end.

Section service.
Context `{Settings} `{PySetOrder} `{RowOrder}.
Variable self : RoleBindingService.

(** [_validate_subject] *)
Definition validate_subject (s : Subject) : result unit :=
  if allow_external_subjects self then Ok tt
  else raise_if (negb (Z.eqb (subject_tenant s) (t_id (svc_tenant self))))
         (NotFoundError (subject_type_name s)).

(** The entry that links a subject to a binding, for the service's source. *)
Definition has_entry (d : Db) (s : Subject) (b : RoleBinding) : bool :=
  match s with
  | SGroup g => bool_decide ((b_id b, g_id g) ∈ db_group_entries d)
  | SPrincipal p => bool_decide ((b_id b, pr_id p, principal_source self) ∈ db_principal_entries d)
  end.

(** An entry for the subject through any source. *)
Definition linked_to (d : Db) (s : Subject) (b : RoleBinding) : bool :=
  match s with
  | SGroup g => bool_decide ((b_id b, g_id g) ∈ db_group_entries d)
  | SPrincipal p => existsb (λ '(bid, pid, _), Z.eqb bid (b_id b) && Z.eqb pid (pr_id p))
                      (elements (db_principal_entries d))
  end.

(** The unlinking DELETE of [_remove_access]. *)
Definition unlink (s : Subject) (binding_ids : gset Z) (d : Db) : Db :=
  match s with
  | SGroup g =>
      with_bindings id (filter (λ e, ¬ (snd e = g_id g ∧ fst e ∈ binding_ids))) id d
  | SPrincipal p =>
      with_bindings id id (filter (λ e, ¬ (snd (fst e) = pr_id p ∧ fst (fst e) ∈ binding_ids
                                          ∧ snd e = principal_source self))) d
  end.

(** [_remove_access]: the orphaned bindings, the unlinked ones and the new state. *)
Definition remove_access (s : Subject) (bindings : list RoleBinding) (d : Db) :
    result (list RoleBinding * list RoleBinding * Db) :=
  _ ← validate_subject s;
  let binding_ids : gset Z := list_to_set (map b_id bindings) in
  let d1 := unlink s binding_ids d in
  let orphaned := select (λ b, bool_decide (b_id b ∈ binding_ids) && is_orphaned d1 b) (db_bindings d1) in
  let d2 := delete_bindings (list_to_set (map b_id orphaned)) d1 in
  let unlinked := match s with
    | SGroup _ => bindings
    | SPrincipal _ => orphaned ++
        select (λ b, bool_decide (b_id b ∈ binding_ids) && negb (linked_to d2 s b)) (db_bindings d2)
    end in
  mret (orphaned, unlinked, d2).

(** The rows of [bulk_create]: a new primary key and uuid for each role. *)
Definition new_binding (gen : Z → Z * string) (roles_by_id : gmap Z RoleV2)
    (resource_type resource_id : string) (rid : Z) : result RoleBinding :=
  r ← or_raise KeyError (roles_by_id !! rid);
  mret (mkRoleBinding (fst (gen rid)) (snd (gen rid)) (r_id r) resource_type resource_id
          (t_id (svc_tenant self))).

Definition insert_bindings (bs : list RoleBinding) (m : gmap Z RoleBinding) : gmap Z RoleBinding :=
  foldl (λ m b, <[b_id b := b]> m) m bs.

(** The linking INSERT of [_add_access]; conflicts are ignored. *)
Definition link (s : Subject) (bs : list RoleBinding) (d : Db) : Db :=
  match s with
  | SGroup g => with_bindings id (λ ge, list_to_set (map (λ b, (b_id b, g_id g)) bs) ∪ ge) id d
  | SPrincipal p =>
      with_bindings id id (λ pe, list_to_set (map (λ b, (b_id b, pr_id p, principal_source self)) bs) ∪ pe) d
  end.

(** [_add_access]: the created bindings, all linked ones and the new state. *)
Definition add_access (gen : Z → Z * string) (s : Subject) (resource_type resource_id : string)
    (roles_by_id : gmap Z RoleV2) (role_ids : gset Z) (d : Db) :
    result (list RoleBinding * list RoleBinding * Db) :=
  _ ← validate_subject s;
  let existing := select (λ b, on_resource resource_type resource_id (t_id (svc_tenant self)) b
                               && bool_decide (b_role b ∈ role_ids)) (db_bindings d) in
  let new_role_ids := role_ids ∖ list_to_set (map b_role existing) in
  new_bindings ← mapM (new_binding gen roles_by_id resource_type resource_id) (set_iter new_role_ids);
  let d1 := with_bindings (insert_bindings new_bindings) id id d in
  let existing := existing ++ new_bindings in
  mret (new_bindings, existing, link s existing d1).

(** [_replicate_tuples] *)
Definition replicate_tuples (add remove : list RelationTuple) (ty : ReplicationEventType) :
    result (list ReplicationEvent) :=
  match add, remove with
  | [], [] => mret []
  | _, _ => emit (mkReplicationEvent ty [("org_id", Some (py_str (org_id (svc_tenant self))))] add remove)
  end.

(** [_replace_role_bindings] *)
Definition replace_role_bindings (gen : Z → Z * string) (resource_type resource_id : string)
    (s : Subject) (roles : list RoleV2) (d : Db) : result (Db * list ReplicationEvent) :=
  _ ← validate_subject s;
  let current_bindings := select (λ b, on_resource resource_type resource_id (t_id (svc_tenant self)) b
                                       && has_entry d s b) (db_bindings d) in
  let current_role_ids : gset Z := list_to_set (map b_role current_bindings) in
  let desired_role_ids : gset Z := list_to_set (map r_id roles) in
  let access_to_add := desired_role_ids ∖ current_role_ids in
  let access_to_remove := current_role_ids ∖ desired_role_ids in
  if decide (access_to_add = ∅ ∧ access_to_remove = ∅) then mret (d, [])
  else
    '(deleted, unlinked, d1) ←
      (if decide (access_to_remove = ∅) then mret ([], [], d)
       else remove_access s
              (List.filter (λ b, bool_decide (b_role b ∈ access_to_remove)) current_bindings) d);
    '(created, linked, d2) ←
      (if decide (access_to_add = ∅) then mret ([], [], d1)
       else add_access gen s resource_type resource_id
              (dict_of (map (λ r, (r_id r, r)) roles)) access_to_add d1);
    '(add, remove) ← replication_tuples d2 s created deleted linked unlinked;
    events ← replicate_tuples add remove UPDATE_ROLE_BINDINGS_FOR_SUBJECT;
    mret (d2, events).

End service.

(* ------------------------------------------------------------------ *)
(** * Lemmas: queries *)

Lemma elem_of_select `{RowOrder} {K} `{Countable K} {A} (p : A → bool) (m : gmap K A) x :
  x ∈ select p m ↔ p x = true ∧ ∃ k, m !! k = Some x.
Proof.
  unfold select. rewrite list_elem_of_In, filter_In, <- list_elem_of_In, list_elem_of_fmap.
  setoid_rewrite row_order_perm. split.
  - intros [([k y] & -> & Hin%elem_of_map_to_list) Hp]. eauto.
  - intros [Hp [k Hk]]. split; [|done]. exists (k, x). by rewrite elem_of_map_to_list.
Qed.

Lemma NoDup_select `{RowOrder} {K} `{Countable K} {A} (f : A → K) (p : A → bool) (m : gmap K A) :
  (∀ k x, m !! k = Some x → f x = k) → NoDup (map f (select p m)).
Proof.
  intros Hf. apply NoDup_map_filter.
  assert (map f (map snd (row_order m)) ≡ₚ map fst (map_to_list m)) as ->.
  { rewrite (row_order_perm _ _ m), map_map.
    assert (map (λ x, f (snd x)) (map_to_list m) = map fst (map_to_list m)) as ->; [|done].
    apply map_ext_in. intros [k x] Hin%list_elem_of_In%elem_of_map_to_list. by apply Hf. }
  apply NoDup_fst_map_to_list.
Qed.

Lemma differences_empty (X Y : gset Z) : Y ∖ X = ∅ ∧ X ∖ Y = ∅ → X = Y.
Proof. intros [HY HX]. apply set_eq. intros i. destruct (decide (i ∈ X)), (decide (i ∈ Y)); set_solver. Qed.

(* ------------------------------------------------------------------ *)
(** * Lemmas: unlinking *)

Section access.
Context `{Settings} `{PySetOrder} `{RowOrder}.
Variable self : RoleBindingService.
Implicit Types (d : Db) (b c : RoleBinding) (t : RelationTuple) (s : Subject).

Lemma linked_to_spec d s b : linked_to d s b = true ↔ entry_of d s (b_id b).
Proof.
  destruct s as [g|p]; cbn; [apply bool_decide_eq_true|]. rewrite existsb_exists.
  setoid_rewrite <- list_elem_of_In. setoid_rewrite elem_of_elements. split.
  - intros ([[bid pid] src] & Hin & [->%Z.eqb_eq ->%Z.eqb_eq]%andb_true_iff). eauto.
  - intros [src Hin]. exists (b_id b, pr_id p, src). by rewrite !Z.eqb_refl.
Qed.

Lemma unlink_same s ids d : same_tables d (unlink self s ids d).
Proof. by destruct s. Qed.

Lemma unlink_bindings s ids d : db_bindings (unlink self s ids d) = db_bindings d.
Proof. by destruct s. Qed.

Lemma unlink_group_entry s ids d e :
  e ∈ db_group_entries (unlink self s ids d) ↔ e ∈ db_group_entries d ∧
  match s with SGroup g => ¬ (snd e = g_id g ∧ fst e ∈ ids) | SPrincipal _ => True end.
Proof. destruct s; cbn; rewrite ?elem_of_filter; tauto. Qed.

Lemma unlink_principal_entry s ids d e :
  e ∈ db_principal_entries (unlink self s ids d) ↔ e ∈ db_principal_entries d ∧
  match s with
  | SGroup _ => True
  | SPrincipal p => ¬ (snd (fst e) = pr_id p ∧ fst (fst e) ∈ ids ∧ snd e = principal_source self)
  end.
Proof. destruct s; cbn; rewrite ?elem_of_filter; tauto. Qed.

Lemma wf_unlink s ids d : wf d → wf (unlink self s ids d).
Proof.
  intros Hwf. eapply wf_shrink; [done|apply unlink_same|..]; rewrite unlink_bindings; [done|..].
  - intros bid gid [Hin _]%unlink_group_entry. split; [done|]. by apply (wf_group_entry d Hwf bid gid).
  - intros bid pid src [Hin _]%unlink_principal_entry. split; [done|].
    by apply (wf_principal_entry d Hwf bid pid src).
Qed.

Lemma unlink_has s ids d b t :
  wf d → known_subject d s →
  binding_has (unlink self s ids d) b t ↔
  binding_has d b t ∧ ¬ (t = t_subject b s ∧ b_id b ∈ ids ∧ ¬ entry_of (unlink self s ids d) s (b_id b)).
Proof.
  intros Hwf Hk. pose proof (unlink_same s ids d) as Hsame. split.
  - intros Ht. split.
    + revert Ht. apply binding_has_mono; [done|..].
      * intros gid [? _]%unlink_group_entry. done.
      * intros pid src [? _]%unlink_principal_entry. done.
    + intros (-> & _ & Hn). apply Hn. eapply subject_entry; [by apply wf_unlink| |done].
      by eapply known_subject_same.
  - intros [Ht Hn]. destruct Hsame as (_ & Hr & Hg & Hp & _).
    destruct Ht as [r Hb| |gid g Hin Hgr|pid src p Hin Hpr].
    + constructor. by rewrite Hr.
    + constructor.
    + destruct (decide ((b_id b, gid) ∈ db_group_entries (unlink self s ids d))) as [Hin'|Hout].
      { econstructor; [done|]. by rewrite Hg. }
      exfalso. rewrite unlink_group_entry in Hout. destruct s as [g0|p0]; [|tauto]. cbn in *.
      assert (gid = g_id g0 ∧ b_id b ∈ ids) as [-> Hids] by (apply dec_stable; tauto).
      assert (g = g0) as -> by congruence. apply Hn. split_and!; [done|done|].
      rewrite elem_of_filter. cbn. tauto.
    + destruct (decide ((b_id b, pid, src) ∈ db_principal_entries (unlink self s ids d))) as [Hin'|Hout].
      { econstructor; [done|]. by rewrite Hp. }
      rewrite unlink_principal_entry in Hout. destruct s as [g0|p0]; [tauto|]. cbn in Hk, Hout.
      assert (pid = pr_id p0 ∧ b_id b ∈ ids) as [-> Hids] by (apply dec_stable; tauto). destruct Hk as [Hk _].
      assert (p = p0) as -> by congruence.
      destruct (linked_to (unlink self (SPrincipal p0) ids d) (SPrincipal p0) b) eqn:Hl.
      * apply linked_to_spec in Hl. apply (entry_subject _ _ (SPrincipal p0)); [|done].
        eapply known_subject_same; [by apply unlink_same|]. split; [done|].
        by destruct (wf_principal_entry d Hwf _ _ _ Hin) as (_ & p1 & ? & ?); simplify_eq.
      * exfalso. apply Hn. split_and!; [done|done|]. rewrite <- linked_to_spec. by rewrite Hl.
Qed.

(** The unlinking in the graph: exactly the subject's tuples at the bindings where
    no entry is left. *)
Lemma unlink_graph s ids d t :
  wf d → known_subject d s →
  t ∈ bindings_graph (unlink self s ids d) ↔
  t ∈ bindings_graph d ∧
  ¬ (∃ i b, db_bindings d !! i = Some b ∧ i ∈ ids ∧ t = t_subject b s
            ∧ ¬ entry_of (unlink self s ids d) s i).
Proof.
  intros Hwf Hk. rewrite !elem_of_graph. rewrite unlink_bindings.
  setoid_rewrite unlink_has; [|done..]. split.
  - intros (i & b & Hb & Ht & Hn). split; [eauto|]. intros (j & c & Hc & Hj & -> & He).
    pose proof Ht as Ho%binding_has_owner. rewrite owner_t_subject in Ho.
    assert (i = j) as -> by (by eapply (wf_binding_uuid d Hwf)).
    assert (b = c) as -> by congruence. apply Hn.
    by rewrite (wf_binding_id d Hwf j c).
  - intros [(i & b & Hb & Ht) Hn]. exists i, b. split_and!; [done|done|].
    intros (-> & Hi & He). apply Hn. exists i, b. rewrite (wf_binding_id d Hwf i b) in * by done. done.
Qed.

(** The bindings [_remove_access] reports as unlinked are those where no entry of
    the subject is left. *)
Lemma unlinked_spec s bs d orph t :
  let ids := list_to_set (map b_id bs) : gset Z in
  let d1 := unlink self s ids d in
  let d2 := delete_bindings (list_to_set (map b_id orph)) d1 in
  wf d → (∀ b, b ∈ bs → db_bindings d !! b_id b = Some b) →
  (∀ b, b ∈ orph ↔ b_id b ∈ ids ∧ is_orphaned d1 b = true ∧ db_bindings d !! b_id b = Some b) →
  (∃ i b, db_bindings d !! i = Some b ∧ i ∈ ids ∧ t = t_subject b s ∧ ¬ entry_of d1 s i) ↔
  subject_of (match s with
    | SGroup _ => bs
    | SPrincipal _ => orph ++
        select (λ b, bool_decide (b_id b ∈ ids) && negb (linked_to d2 s b)) (db_bindings d2)
    end) s t.
Proof.
  intros ids d1 d2 Hwf Hbs Horph.
  assert (∀ i, i ∈ ids ↔ ∃ b, b ∈ bs ∧ b_id b = i) as Hids.
  { intros i. unfold ids. rewrite elem_of_list_to_set, list_elem_of_fmap. naive_solver. }
  assert (∀ b, b ∉ orph → b_id b ∈ ids → db_bindings d !! b_id b = Some b →
    db_bindings d2 !! b_id b = Some b ∧ (linked_to d2 s b = true ↔ entry_of d1 s (b_id b))) as Hd2.
  { intros b Hno Hi Hb. assert (b_id b ∉ (list_to_set (map b_id orph) : gset Z)) as Hnid.
    { rewrite elem_of_list_to_set, list_elem_of_fmap. intros (c & He & Hc). apply Hno.
      apply Horph in Hc as Hc'. destruct Hc' as (_ & _ & Hdc).
      assert (b = c) as -> by congruence. done. }
    split; [apply lookup_delete_bindings; unfold d1; by rewrite unlink_bindings|].
    rewrite linked_to_spec. by apply delete_bindings_entry. }
  destruct s as [g|p].
  - split.
    + intros (i & b & Hb & (c & Hc & <-)%Hids & -> & _). exists b. split; [|done].
      rewrite (Hbs c Hc) in Hb. by simplify_eq.
    + intros (b & Hb & ->). exists (b_id b), b. split_and!; [auto|apply Hids; eauto|done|].
      unfold d1. cbn. rewrite elem_of_filter. cbn. intros [Hn _]. apply Hn. split; [done|].
      apply Hids. eauto.
  - unfold subject_of. setoid_rewrite elem_of_app. setoid_rewrite elem_of_select.
    setoid_rewrite andb_true_iff. setoid_rewrite bool_decide_eq_true. setoid_rewrite negb_true_iff.
    split.
    + intros (i & b & Hb & Hi & -> & He). exists b. split; [|done].
      pose proof (wf_binding_id d Hwf i b Hb) as <-.
      destruct (is_orphaned d1 b) eqn:Ho; [left; by apply Horph|]. right.
      destruct (Hd2 b) as [Hb2 Hl]; [intros (_ & ? & _)%Horph; congruence|done|done|].
      split; [split; [done|]|eauto]. apply not_true_iff_false. intros Hlt. by apply He, Hl.
    + intros (b & [Hb|[[Hi Hl] [k Hk]]] & ->).
      * apply Horph in Hb as (Hi & Ho & Hb). exists (b_id b), b. split_and!; [done|done|done|].
        apply is_orphaned_spec in Ho as [_ Ho]. intros [src Hin]. by apply Ho in Hin.
      * apply lookup_delete_bindings in Hk as [Hk Hnid]. unfold d1 in Hk. rewrite unlink_bindings in Hk.
        pose proof (wf_binding_id d Hwf k b Hk) as <-. exists (b_id b), b. split_and!; [done|done|done|].
        rewrite <- not_true_iff_false in Hl. intros He. apply Hl. apply Hd2; [|done|done|done].
        intros Hb. apply Hnid. rewrite elem_of_list_to_set, list_elem_of_fmap. eauto.
Qed.

Lemma remove_access_spec s bs d orphaned unlinked d' :
  wf d → known_subject d s → (∀ b, b ∈ bs → db_bindings d !! b_id b = Some b) →
  remove_access self s bs d = Ok (orphaned, unlinked, d') →
  wf d' ∧ same_tables d d'
  ∧ (∀ t, t ∈ bindings_graph d' ↔
       t ∈ bindings_graph d ∧ ¬ base_of d orphaned t ∧ ¬ subject_of unlinked s t).
Proof.
  intros Hwf Hk Hbs Hr. unfold remove_access in Hr. apply bind_Ok in Hr as (_ & _ & Hr).
  set (ids := list_to_set (map b_id bs) : gset Z) in *. set (d1 := unlink self s ids d) in *.
  set (orph := select _ (db_bindings d1)) in *. cbn zeta in Hr. inv_ok.
  assert (wf d1) as Hwf1 by (by apply wf_unlink).
  assert (same_tables d d1) as Hs1 by apply unlink_same.
  assert (∀ i, i ∈ ids ↔ ∃ b, b ∈ bs ∧ b_id b = i) as Hids.
  { intros i. unfold ids. rewrite elem_of_list_to_set, list_elem_of_fmap. naive_solver. }
  assert (∀ b, b ∈ orph ↔ b_id b ∈ ids ∧ is_orphaned d1 b = true ∧ db_bindings d !! b_id b = Some b)
    as Horph.
  { intros b. unfold orph. rewrite elem_of_select, andb_true_iff, bool_decide_eq_true.
    unfold d1 at 2. rewrite unlink_bindings. split.
    - intros [[? ?] [k Hb]]. by rewrite (wf_binding_id d Hwf k b Hb) in *.
    - naive_solver. }
  split_and!; [by apply wf_delete_bindings|by eapply same_tables_trans; [|apply with_bindings_same]|].
  intros t. rewrite delete_orphaned_graph; [|done|].
  2:{ intros b (? & ? & ?)%Horph. unfold d1. by rewrite unlink_bindings. }
  unfold d1 at 1. rewrite unlink_graph by done. fold d1. rewrite <- (base_of_same d d1) by done.
  pose proof (unlinked_spec s bs d orph t Hwf Hbs Horph) as Hu. cbn zeta in Hu.
  fold ids in Hu. fold d1 in Hu. rewrite Hu. tauto.
Qed.

(* ------------------------------------------------------------------ *)
(** * Lemmas: creating and linking *)

Lemma lookup_insert_bindings bs m i b :
  (∀ x y, x ∈ bs → y ∈ bs → b_id x = b_id y → x = y) →
  insert_bindings bs m !! i = Some b ↔
  (b ∈ bs ∧ b_id b = i) ∨ (m !! i = Some b ∧ ∀ c, c ∈ bs → b_id c ≠ i).
Proof.
  unfold insert_bindings. revert m. induction bs as [|x bs IH]; cbn; intros m Hinj; [set_solver|].
  rewrite IH by (intros; apply Hinj; set_solver).
  destruct (decide (b_id x = i)) as [<-|Hne].
  - rewrite lookup_insert_eq. split.
    + intros [[Hb Hi]|[[= <-] _]]; [left; set_solver|left; set_solver].
    + intros [[[->|Hb]%elem_of_cons Hi]|[_ Hn]].
      * destruct (decide (x ∈ bs)); [by left|]. right. split; [done|].
        intros c Hc Heq. assert (c = x) as -> by (apply Hinj; [by right|left|done]). done.
      * by left.
      * exfalso. apply (Hn x); [left|done].
  - rewrite lookup_insert_ne by done. set_solver.
Qed.

(** New rows that respect the keys and the unique constraint. *)
Record fresh_bindings (d : Db) (bs : list RoleBinding) : Prop := {
  fb_id : ∀ b, b ∈ bs → db_bindings d !! b_id b = None;
  fb_uuid : ∀ b i c, b ∈ bs → db_bindings d !! i = Some c → b_uuid c ≠ b_uuid b;
  fb_inj : ∀ b c, b ∈ bs → c ∈ bs →
    b_id b = b_id c ∨ b_uuid b = b_uuid c ∨ b_role b = b_role c → b = c;
  fb_role : ∀ b, b ∈ bs → is_Some (db_roles d !! b_role b);
  fb_unique : ∀ b i c, b ∈ bs → db_bindings d !! i = Some c →
    b_role c = b_role b → b_resource_type c = b_resource_type b →
    b_resource_id c = b_resource_id b → b_tenant c = b_tenant b → False;
}.

Lemma lookup_inserted d bs i b :
  fresh_bindings d bs →
  db_bindings (with_bindings (insert_bindings bs) id id d) !! i = Some b ↔
  (b ∈ bs ∧ b_id b = i) ∨ db_bindings d !! i = Some b.
Proof.
  intros Hf. cbn. rewrite lookup_insert_bindings by (intros; eapply fb_inj; eauto).
  split; [tauto|]. intros [?|Hb]; [by left|]. right. split; [done|].
  intros c Hc <-. by rewrite (fb_id d bs Hf c Hc) in Hb.
Qed.

Lemma wf_insert_bindings d bs :
  wf d → fresh_bindings d bs → wf (with_bindings (insert_bindings bs) id id d).
Proof.
  intros Hwf Hf. pose proof (lookup_inserted d bs) as Hl. set (d' := with_bindings _ _ _ d) in *.
  pose proof Hwf as [H1' H2' H3' H4' H5' H6' H7' H8' H9' H10' H11' H12'].
  split; try done.
  - intros i b [[_ ?]|Hb]%Hl; auto.
  - intros i j b c [[Hb <-]|Hb]%Hl [[Hc <-]|Hc]%Hl Hu; try done.
    + f_equal. apply (fb_inj d bs Hf); auto.
    + exfalso. by apply (fb_uuid d bs Hf b j c).
    + exfalso. by apply (fb_uuid d bs Hf c i b).
    + eauto.
  - intros i b [[Hb <-]|Hb]%Hl; [by apply (fb_role d bs Hf)|eauto|done].
  - intros i j b c [[Hb <-]|Hb]%Hl [[Hc <-]|Hc]%Hl ? ? ? ?; try done.
    + f_equal. apply (fb_inj d bs Hf); auto.
    + exfalso. by apply (fb_unique d bs Hf b j c).
    + exfalso. by apply (fb_unique d bs Hf c i b).
    + eauto.
  - intros bid gid Hin. destruct (H11' _ _ Hin) as [[b Hb] ?]. split; [|done].
    exists b. apply Hl; auto.
  - intros bid pid src Hin. destruct (H12' _ _ _ Hin) as [[b Hb] ?]. split; [|done].
    exists b. apply Hl; auto.
Qed.

(** A new binding has its two base tuples. *)
Lemma insert_bindings_graph d bs t :
  wf d → fresh_bindings d bs →
  t ∈ bindings_graph (with_bindings (insert_bindings bs) id id d) ↔
  t ∈ bindings_graph d ∨ base_of d bs t.
Proof.
  intros Hwf Hf. rewrite !elem_of_graph. setoid_rewrite lookup_inserted; [|done..].
  assert (∀ b, binding_has (with_bindings (insert_bindings bs) id id d) b t ↔ binding_has d b t) as Hb.
  { intros b. split; (apply binding_has_mono; [by repeat split|done|done]). }
  setoid_rewrite Hb. split.
  - intros (i & b & [[Hin <-]|Hi] & Ht); [|eauto]. right. exists b. split; [done|].
    apply orphaned_has; [|done]. apply is_orphaned_spec. pose proof (fb_id d bs Hf b Hin) as Hn. split.
    + intros gid [[c Hc] _]%(wf_group_entry d Hwf). congruence.
    + intros pid src [[c Hc] _]%(wf_principal_entry d Hwf). congruence.
  - intros [(i & b & Hi & Ht)|(b & Hin & Ht)]; [eauto|]. exists (b_id b), b. split; [by left; split|].
    destruct Ht as [-> |(r & Hr & ->)]; by constructor.
Qed.

Lemma link_same s bs d : same_tables d (link self s bs d).
Proof. by destruct s. Qed.
Lemma link_bindings s bs d : db_bindings (link self s bs d) = db_bindings d.
Proof. by destruct s. Qed.

Lemma link_group_entry s bs d e :
  e ∈ db_group_entries (link self s bs d) ↔ e ∈ db_group_entries d ∨
  match s with SGroup g => ∃ b, b ∈ bs ∧ e = (b_id b, g_id g) | SPrincipal _ => False end.
Proof.
  destruct s; cbn; [|tauto]. rewrite elem_of_union, elem_of_list_to_set, list_elem_of_fmap. naive_solver.
Qed.

Lemma link_principal_entry s bs d e :
  e ∈ db_principal_entries (link self s bs d) ↔ e ∈ db_principal_entries d ∨
  match s with
  | SGroup _ => False
  | SPrincipal p => ∃ b, b ∈ bs ∧ e = (b_id b, pr_id p, principal_source self)
  end.
Proof.
  destruct s; cbn; [tauto|]. rewrite elem_of_union, elem_of_list_to_set, list_elem_of_fmap. naive_solver.
Qed.

Lemma wf_link s bs d :
  wf d → known_subject d s → (∀ b, b ∈ bs → db_bindings d !! b_id b = Some b) →
  wf (link self s bs d).
Proof.
  intros Hwf Hk Hbs. pose proof Hwf as [H1' H2' H3' H4' H5' H6' H7' H8' H9' H10' H11' H12'].
  destruct (link_same s bs d) as (_ & Hr & Hg & Hp & _).
  split; rewrite ?link_bindings, ?Hr, ?Hg, ?Hp; try done.
  - intros bid gid [Hin|Hin]%link_group_entry; [by apply (H11' bid)|].
    destruct s as [g|p]; [|done]. destruct Hin as (b & Hb & [= -> ->]). split; eauto.
  - intros bid pid src [Hin|Hin]%link_principal_entry; [by apply (H12' bid pid src)|].
    destruct s as [g|p]; [done|]. destruct Hin as (b & Hb & [= -> -> ->]). destruct Hk. split; eauto.
Qed.

Lemma link_graph s bs d t :
  wf d → known_subject d s → (∀ b, b ∈ bs → db_bindings d !! b_id b = Some b) →
  t ∈ bindings_graph (link self s bs d) ↔ t ∈ bindings_graph d ∨ subject_of bs s t.
Proof.
  intros Hwf Hk Hbs. rewrite !elem_of_graph, link_bindings.
  destruct (link_same s bs d) as (_ & Hr & Hg & Hp & _). split.
  - intros (i & b & Hb & Ht). destruct Ht as [r Hr'| |gid g Hin Hg'|pid src p Hin Hp'].
    + left. exists i, b. split; [done|]. constructor. congruence.
    + left. exists i, b. split; [done|]. constructor.
    + rewrite Hg in Hg'. apply link_group_entry in Hin as [Hin|Hin].
      { left. exists i, b. split; [done|]. by econstructor. }
      destruct s as [g0|]; [|done]. destruct Hin as (c & Hc & [= Hid ->]). right. exists c. split; [done|].
      pose proof (Hbs c Hc) as Hcc. rewrite <- Hid, (wf_binding_id d Hwf i b Hb) in Hcc.
      cbn in Hk. by simplify_eq.
    + rewrite Hp in Hp'. apply link_principal_entry in Hin as [Hin|Hin].
      { left. exists i, b. split; [done|]. by econstructor. }
      destruct s as [|p0]; [done|]. destruct Hin as (c & Hc & [= Hid -> ->]). right. exists c. split; [done|].
      pose proof (Hbs c Hc) as Hcc. rewrite <- Hid, (wf_binding_id d Hwf i b Hb) in Hcc.
      destruct Hk as [Hk _]. by simplify_eq.
  - intros [(i & b & Hb & Ht)|(b & Hb & ->)].
    + exists i, b. split; [done|]. revert Ht. apply binding_has_mono; [by destruct s| |].
      * intros gid Hin. apply link_group_entry. by left.
      * intros pid src Hin. apply link_principal_entry. by left.
    + exists (b_id b), b. split; [auto|]. apply entry_subject; [by eapply known_subject_same; [apply link_same|]|].
      destruct s as [g|p]; cbn.
      * apply (link_group_entry (SGroup g)). right. eauto.
      * exists (principal_source self). apply (link_principal_entry (SPrincipal p)). right. eauto.
Qed.

(* ------------------------------------------------------------------ *)
(** * Lemmas: granting access *)

(** Primary keys and uuids that are new, one per role. *)
Record fresh_gen (gen : Z → Z * string) (role_ids : gset Z) (d : Db) : Prop := {
  fg_id : ∀ r, r ∈ role_ids → db_bindings d !! fst (gen r) = None;
  fg_uuid : ∀ r i b, r ∈ role_ids → db_bindings d !! i = Some b → b_uuid b ≠ snd (gen r);
  fg_inj : ∀ r r', r ∈ role_ids → r' ∈ role_ids →
    fst (gen r) = fst (gen r') ∨ snd (gen r) = snd (gen r') → r = r';
}.

Lemma fresh_gen_subset gen X Y d : X ⊆ Y → fresh_gen gen Y d → fresh_gen gen X d.
Proof. intros Hs [Hid Huuid Hinj]. split; intros; eauto. Qed.

(** A smaller set of bindings leaves fresh ids fresh. *)
Lemma fresh_gen_shrink gen X d d' :
  (∀ i b, db_bindings d' !! i = Some b → db_bindings d !! i = Some b) →
  fresh_gen gen X d → fresh_gen gen X d'.
Proof.
  intros Hs [Hid Huuid Hinj]. split; [|eauto|done]. intros r Hr.
  destruct (db_bindings d' !! fst (gen r)) as [b|] eqn:Hb; [|done].
  apply Hs in Hb. by rewrite Hid in Hb.
Qed.

Definition known_roles (roles_by_id : gmap Z RoleV2) (role_ids : gset Z) (d : Db) : Prop :=
  ∀ rid, rid ∈ role_ids → ∃ r, roles_by_id !! rid = Some r ∧ r_id r = rid ∧ is_Some (db_roles d !! rid).

(** The rows created for roles that have no binding on the resource yet. *)
Lemma new_bindings_spec gen roles_by_id rt rs role_ids new_ids d bs :
  known_roles roles_by_id role_ids d → new_ids ⊆ role_ids →
  mapM (new_binding self gen roles_by_id rt rs) (set_iter new_ids) = Ok bs →
  ∀ b, b ∈ bs ↔ b_role b ∈ new_ids ∧
    b = mkRoleBinding (fst (gen (b_role b))) (snd (gen (b_role b))) (b_role b) rt rs (t_id (svc_tenant self)).
Proof.
  intros Hk Hsub Hm. apply mapM_result_Ok in Hm.
  assert (∀ rid b, rid ∈ new_ids → new_binding self gen roles_by_id rt rs rid = Ok b →
    b = mkRoleBinding (fst (gen rid)) (snd (gen rid)) rid rt rs (t_id (svc_tenant self))) as Hnew.
  { intros rid b Hin. unfold new_binding. destruct (Hk rid) as (r & -> & Hr & _); [set_solver|].
    cbn. rewrite Hr. by intros [= <-]. }
  intros b. split.
  - intros Hb. apply (Forall2_elem_r _ _ _ _ Hm) in Hb as (rid & Hin%elem_of_set_iter & Hb).
    rewrite (Hnew rid b) by done. done.
  - intros [Hin Hb]. apply elem_of_set_iter in Hin as Hin'.
    apply (Forall2_elem_l _ _ _ _ Hm) in Hin' as (b' & Hb' & Hn).
    by rewrite (Hnew (b_role b) b' Hin Hn), <- Hb in Hb'.
Qed.

Lemma new_bindings_roles gen roles_by_id rt rs role_ids new_ids d bs :
  known_roles roles_by_id role_ids d → new_ids ⊆ role_ids →
  mapM (new_binding self gen roles_by_id rt rs) (set_iter new_ids) = Ok bs →
  map b_role bs = set_iter new_ids.
Proof.
  intros Hk Hsub Hm%mapM_result_Ok.
  assert (∀ rid, rid ∈ set_iter new_ids → rid ∈ role_ids) as Hin.
  { intros rid ?%elem_of_set_iter. set_solver. }
  induction Hm as [|rid b l bs Hb _ IH]; cbn; [done|]. f_equal; [|apply IH; set_solver].
  unfold new_binding in Hb. destruct (Hk rid) as (r & Hr & Hrid & _); [set_solver|].
  rewrite Hr in Hb. cbn in Hb. by injection Hb as <-.
Qed.

Lemma new_bindings_fresh gen roles_by_id rt rs role_ids d bs :
  let existing := select (λ b, on_resource rt rs (t_id (svc_tenant self)) b
                               && bool_decide (b_role b ∈ role_ids)) (db_bindings d) in
  known_roles roles_by_id role_ids d → fresh_gen gen role_ids d →
  mapM (new_binding self gen roles_by_id rt rs)
    (set_iter (role_ids ∖ list_to_set (map b_role existing))) = Ok bs →
  fresh_bindings d bs.
Proof.
  intros existing Hk Hf Hm. pose proof (new_bindings_spec gen roles_by_id rt rs role_ids
    (role_ids ∖ list_to_set (map b_role existing)) d bs Hk ltac:(set_solver) Hm) as Hbs.
  assert (∀ b, b ∈ bs → b_role b ∈ role_ids ∧ b = mkRoleBinding (fst (gen (b_role b)))
    (snd (gen (b_role b))) (b_role b) rt rs (t_id (svc_tenant self))) as Hb'.
  { intros b (? & ?)%Hbs. split; [set_solver|done]. }
  split.
  - intros b [Hr ->]%Hb'. cbn. by apply (fg_id _ _ _ Hf).
  - intros b i c [Hr Hb]%Hb' Hc. rewrite Hb. cbn. by eapply (fg_uuid _ _ _ Hf).
  - intros b c [Hr Hb]%Hb' [Hr' Hc]%Hb' Heq. rewrite Hb, Hc in Heq. cbn in Heq.
    assert (b_role b = b_role c) as Hrr by (destruct Heq as [?|[?|?]]; [apply (fg_inj _ _ _ Hf); auto..|done]).
    rewrite Hb, Hc. by rewrite Hrr.
  - intros b [Hr _]%Hb'. by destruct (Hk _ Hr) as (_ & _ & _ & ?).
  - intros b i c Hin Hc Hr Hrt Hrs Ht. apply Hbs in Hin as [Hin Hb].
    apply elem_of_difference in Hin as [Hrole Hn]. apply Hn.
    rewrite elem_of_list_to_set, list_elem_of_fmap. exists c. split; [done|].
    unfold existing. rewrite elem_of_select, andb_true_iff, bool_decide_eq_true. split; [|eauto].
    rewrite Hb in Hrt, Hrs, Ht. cbn in *. unfold on_resource. rewrite Hrt, Hrs, Ht, Hr.
    by rewrite !String.eqb_refl, Z.eqb_refl.
Qed.

Lemma uuid_NoDup d bs :
  wf d → (∀ b, b ∈ bs → db_bindings d !! b_id b = Some b) → NoDup bs → NoDup (map b_uuid bs).
Proof.
  intros Hwf Hbs Hn. induction bs as [|b bs IH]; cbn; [constructor|].
  apply NoDup_cons in Hn as [Hb Hn]. apply NoDup_cons. split; [|apply IH; [set_solver|done]].
  intros (c & Hu & Hc)%list_elem_of_fmap. apply Hb.
  assert (b_id b = b_id c) as Hid.
  { apply (wf_binding_uuid d Hwf _ _ b c); [apply Hbs; left|apply Hbs; by right|done]. }
  pose proof (Hbs b ltac:(left)) as H2'. pose proof (Hbs c ltac:(by right)) as H3'.
  rewrite Hid in H2'. by simplify_eq.
Qed.

Lemma add_access_spec gen s rt rs roles_by_id role_ids d created linked d' :
  wf d → known_subject d s → known_roles roles_by_id role_ids d → fresh_gen gen role_ids d →
  add_access self gen s rt rs roles_by_id role_ids d = Ok (created, linked, d') →
  wf d' ∧ same_tables d d' ∧ fresh_bindings d created
  ∧ (∀ t, t ∈ bindings_graph d' ↔ t ∈ bindings_graph d ∨ base_of d created t ∨ subject_of linked s t)
  ∧ (∀ b, b ∈ linked ↔ db_bindings d' !! b_id b = Some b
       ∧ on_resource rt rs (t_id (svc_tenant self)) b = true ∧ b_role b ∈ role_ids)
  ∧ (∀ rid, rid ∈ role_ids → ∃ b, b ∈ linked ∧ b_role b = rid)
  ∧ NoDup linked ∧ NoDup (map b_uuid created).
Proof.
  intros Hwf Hk Hkr Hf Ha. unfold add_access in Ha. apply bind_Ok in Ha as (_ & _ & Ha).
  set (existing := select _ (db_bindings d)) in *. apply bind_Ok in Ha as (bs & Hbs & Ha). inv_ok.
  pose proof (new_bindings_fresh gen roles_by_id rt rs role_ids d created Hkr Hf Hbs) as Hfresh.
  pose proof (new_bindings_spec gen roles_by_id rt rs role_ids
    (role_ids ∖ list_to_set (map b_role existing)) d created Hkr ltac:(set_solver) Hbs) as Hnew.
  set (d1 := with_bindings (insert_bindings created) id id d) in *.
  assert (wf d1) as Hwf1 by (by apply wf_insert_bindings).
  assert (∀ b, b ∈ existing ↔ on_resource rt rs (t_id (svc_tenant self)) b = true ∧ b_role b ∈ role_ids
    ∧ db_bindings d !! b_id b = Some b) as Hex.
  { intros b. unfold existing. rewrite elem_of_select, andb_true_iff, bool_decide_eq_true. split.
    - intros [[? ?] [k Hb]]. by rewrite (wf_binding_id d Hwf k b Hb).
    - naive_solver. }
  assert (∀ b, b ∈ existing ++ created → db_bindings d1 !! b_id b = Some b) as Hrows.
  { intros b [(_ & _ & ?)%Hex|?]%elem_of_app; apply lookup_inserted; auto. }
  split_and!.
  - apply wf_link; auto.
  - eapply same_tables_trans; [apply with_bindings_same|apply link_same].
  - done.
  - intros t. rewrite link_graph by auto. unfold d1. rewrite insert_bindings_graph by done. tauto.
  - intros b. rewrite link_bindings. split.
    + intros Hb. split; [auto|]. apply elem_of_app in Hb as [(? & ? & _)%Hex|[Hr ->]%Hnew]; [done|].
      unfold on_resource. cbn. rewrite !String.eqb_refl, Z.eqb_refl. set_solver.
    + intros (Hb & Hon & Hr). apply elem_of_app. apply lookup_inserted in Hb as [[? _]|?]; [by right| |done].
      left. by apply Hex.
  - intros rid Hrid. destruct (decide (rid ∈ (list_to_set (map b_role existing) : gset Z))) as [Hin|Hn].
    + rewrite elem_of_list_to_set, list_elem_of_fmap in Hin. destruct Hin as (b & -> & Hb).
      exists b. split; [|done]. apply elem_of_app. by left.
    + exists (mkRoleBinding (fst (gen rid)) (snd (gen rid)) rid rt rs (t_id (svc_tenant self))).
      split; [|done]. apply elem_of_app. right. apply Hnew. set_solver.
  - apply NoDup_app. split_and!.
    + apply (NoDup_of_map b_id), NoDup_select. apply (wf_binding_id d Hwf).
    + intros b (_ & _ & Hb)%Hex Hc. by rewrite (fb_id d created Hfresh b Hc) in Hb.
    + apply (NoDup_of_map b_role). rewrite (new_bindings_roles gen roles_by_id rt rs role_ids
        (role_ids ∖ list_to_set (map b_role existing)) d created Hkr ltac:(set_solver) Hbs).
      apply NoDup_set_iter.
  - apply (uuid_NoDup d1); [done|intros b Hb; apply Hrows, elem_of_app; by right|].
    apply (NoDup_of_map b_role). rewrite (new_bindings_roles gen roles_by_id rt rs role_ids
      (role_ids ∖ list_to_set (map b_role existing)) d created Hkr ltac:(set_solver) Hbs).
    apply NoDup_set_iter.
Qed.

(** [_replicate_tuples] of distinct tuples succeeds with the effect of the diff. *)
Lemma replicate_tuples_effect add remove ty :
  REPLICATION_TO_RELATION_ENABLED = true →
  Forall (λ t, rbac_tuple t = true) add → NoDup add →
  ∃ es, replicate_tuples self add remove ty = Ok es ∧
    ∀ store, replay store es = Ok (list_to_set add ∪ (store ∖ list_to_set remove)).
Proof.
  intros He Hv Hn. unfold replicate_tuples.
  destruct (emit_effect (mkReplicationEvent ty
    [("org_id", Some (py_str (org_id (svc_tenant self))))] add remove)) as (es & Hes & Hr); [done..|].
  cbn in Hr. destruct add as [|a l], remove as [|r l']; [|exists es; done..].
  exists []. split; [done|]. intros store. cbn. f_equal. set_solver.
Qed.

(** The optional calls of [_replace_role_bindings], for an empty set of roles. *)
Lemma remove_step s bs X d orphaned unlinked d' :
  wf d → known_subject d s → (∀ b, b ∈ bs → db_bindings d !! b_id b = Some b) →
  (if decide (X = (∅ : gset Z)) then mret ([], [], d) else remove_access self s bs d)
    = Ok (orphaned, unlinked, d') →
  wf d' ∧ same_tables d d'
  ∧ (∀ t, t ∈ bindings_graph d' ↔
       t ∈ bindings_graph d ∧ ¬ base_of d orphaned t ∧ ¬ subject_of unlinked s t)
  ∧ (∀ i b, db_bindings d' !! i = Some b → db_bindings d !! i = Some b).
Proof.
  intros Hwf Hk Hbs. case_decide.
  - intros [= <- <- <-]. split_and!; [done|apply same_tables_refl| |done].
    intros t. unfold base_of, subject_of. set_solver.
  - intros Hr. destruct (remove_access_spec s bs d orphaned unlinked d' Hwf Hk Hbs Hr) as (? & ? & ?).
    split_and!; [done..|]. intros i b. unfold remove_access in Hr. apply bind_Ok in Hr as (_ & _ & Hr).
    inv_ok. rewrite lookup_delete_bindings, unlink_bindings. tauto.
Qed.

Lemma known_roles_list roles X d :
  (∀ r, r ∈ roles → db_roles d !! r_id r = Some r) → X ⊆ list_to_set (map r_id roles) →
  known_roles (dict_of (map (λ r, (r_id r, r)) roles)) X d.
Proof.
  intros Hroles HX rid Hrid. destruct (dict_of_is_Some (map (λ r, (r_id r, r)) roles) rid) as [r Hl].
  { apply HX in Hrid. rewrite elem_of_list_to_set, list_elem_of_fmap in Hrid.
    destruct Hrid as (r & -> & Hr). apply list_elem_of_fmap. exists (r_id r, r). split; [done|].
    apply list_elem_of_fmap. eauto. }
  pose proof Hl as (r' & [= -> ->] & Hr)%dict_of_Some%list_elem_of_fmap.
  exists r'. split_and!; [done|done|]. rewrite (Hroles r' Hr). eauto.
Qed.

Lemma add_step gen s rt rs roles X d created linked d' :
  wf d → known_subject d s → (∀ r, r ∈ roles → db_roles d !! r_id r = Some r) →
  X ⊆ list_to_set (map r_id roles) → fresh_gen gen X d →
  (if decide (X = (∅ : gset Z)) then mret ([], [], d)
   else add_access self gen s rt rs (dict_of (map (λ r, (r_id r, r)) roles)) X d)
    = Ok (created, linked, d') →
  wf d' ∧ same_tables d d'
  ∧ (∀ t, t ∈ bindings_graph d' ↔ t ∈ bindings_graph d ∨ base_of d created t ∨ subject_of linked s t)
  ∧ NoDup (map b_uuid created) ∧ NoDup (map b_uuid linked).
Proof.
  intros Hwf Hk Hroles HX Hf. case_decide.
  - intros [= <- <- <-]. split_and!; [done|apply same_tables_refl| |constructor|constructor].
    intros t. unfold base_of, subject_of. set_solver.
  - intros Ha. apply add_access_spec in Ha as (Hwf' & Hs & Hfr & Hg & Hl & _ & Hn & Hnc);
      [|done|done|by eapply known_roles_list|done].
    split_and!; [done..|]. apply (uuid_NoDup d'); [done| |done]. intros b Hb%Hl. tauto.
Qed.

(** What [_replace_role_bindings] does to the graph, and that replaying its events
    on the old graph gives the new one. *)
Lemma replace_role_bindings_graph gen rt rs s roles d d' events :
  REPLICATION_TO_RELATION_ENABLED = true →
  wf d → known_subject d s → (∀ r, r ∈ roles → db_roles d !! r_id r = Some r) →
  fresh_gen gen (list_to_set (map r_id roles)) d →
  replace_role_bindings self gen rt rs s roles d = Ok (d', events) →
  wf d' ∧ same_tables d d' ∧ replay (bindings_graph d) events = Ok (bindings_graph d').
Proof.
  intros He Hwf Hk Hroles Hfresh Hr. unfold replace_role_bindings in Hr.
  apply bind_Ok in Hr as (_ & _ & Hr). set (current := select _ (db_bindings d)) in *.
  cbn zeta in Hr. case_decide as Hnop; [inv_ok; split_and!; [done|apply same_tables_refl|done]|].
  clear Hnop. apply bind_Ok in Hr as ([[deleted unlinked] d1] & Hrem & Hr).
  apply bind_Ok in Hr as ([[created linked] d2] & Hadd & Hr).
  apply bind_Ok in Hr as ([add remove] & Hrep & Hr). apply bind_Ok in Hr as (es & Hes & Hr). inv_ok.
  apply remove_step in Hrem as (Hwf1 & Hs1 & Hg1 & Hsub); [|done|done|].
  2:{ intros b Hb. rewrite list_elem_of_In, filter_In, <- list_elem_of_In in Hb. destruct Hb as [Hb _].
      unfold current in Hb. apply elem_of_select in Hb as [_ [k Hb]].
      by rewrite (wf_binding_id d Hwf k b Hb). }
  pose proof Hs1 as (_ & Hroles1 & _).
  apply add_step in Hadd as (Hwf2 & Hs2 & Hg2 & Hnc & Hnl);
    [|done|by eapply known_subject_same|by rewrite Hroles1|set_solver|].
  2:{ eapply fresh_gen_shrink; [exact Hsub|]. eapply fresh_gen_subset; [|exact Hfresh]. set_solver. }
  pose proof (same_tables_trans _ _ _ Hs1 Hs2) as Hs.
  apply replication_tuples_spec in Hrep as (Ha & Hm & Hva & Hvr & Hnd).
  destruct (replicate_tuples_effect add remove UPDATE_ROLE_BINDINGS_FOR_SUBJECT) as (es' & Hes' & Hrp);
    [done|done|auto|]. assert (es' = events) as -> by congruence.
  split_and!; [done|done|]. rewrite Hrp. f_equal. apply set_eq. intros t.
  rewrite elem_of_union, elem_of_difference, !elem_of_list_to_set, Ha, Hm, Hg2, Hg1.
  rewrite <- !(base_of_same d d'), <- (base_of_same d d1) by done. tauto.
Qed.

(* ------------------------------------------------------------------ *)
(** * Lemmas: entries *)

(** The entry of a subject: the group, or the principal with its source. *)
Definition entry_key s : Z + Z * string :=
  match s with SGroup g => inl (g_id g) | SPrincipal p => inr (pr_id p, principal_source self) end.

Definition has_key d (bid : Z) (k : Z + Z * string) : Prop :=
  match k with
  | inl gid => (bid, gid) ∈ db_group_entries d
  | inr (pid, src) => (bid, pid, src) ∈ db_principal_entries d
  end.

Lemma has_entry_key d s b : has_entry self d s b = true ↔ has_key d (b_id b) (entry_key s).
Proof. destruct s; apply bool_decide_eq_true. Qed.

Lemma has_key_row d bid k : wf d → has_key d bid k → is_Some (db_bindings d !! bid).
Proof.
  intros Hwf. destruct k as [gid|[pid src]]; cbn; intros Hk.
  - apply (wf_group_entry d Hwf _ _ Hk).
  - apply (wf_principal_entry d Hwf _ _ _ Hk).
Qed.

Lemma unlink_key s ids d bid k :
  has_key (unlink self s ids d) bid k ↔ has_key d bid k ∧ ¬ (k = entry_key s ∧ bid ∈ ids).
Proof.
  destruct k as [gid|[pid src]]; cbn; [rewrite unlink_group_entry|rewrite unlink_principal_entry];
    destruct s; cbn; naive_solver.
Qed.

Lemma link_key s bs d bid k :
  has_key (link self s bs d) bid k ↔ has_key d bid k ∨ (k = entry_key s ∧ ∃ b, b ∈ bs ∧ b_id b = bid).
Proof.
  destruct k as [gid|[pid src]]; cbn; [rewrite link_group_entry|rewrite link_principal_entry];
    destruct s; cbn; naive_solver.
Qed.

Lemma delete_key ids d bid k : has_key (delete_bindings ids d) bid k ↔ has_key d bid k ∧ bid ∉ ids.
Proof. destruct k as [gid|[pid src]]; cbn; rewrite elem_of_filter; cbn; tauto. Qed.

Lemma orphaned_key d b k : is_orphaned d b = true → ¬ has_key d (b_id b) k.
Proof.
  intros [Hg Hp]%is_orphaned_spec. destruct k as [gid|[pid src]]; cbn; [apply Hg|apply Hp].
Qed.

Lemma remove_step_keys s bs X d orphaned unlinked d' :
  wf d → (X = ∅ → bs = []) →
  (if decide (X = (∅ : gset Z)) then mret ([], [], d) else remove_access self s bs d)
    = Ok (orphaned, unlinked, d') →
  (∀ bid k, has_key d' bid k ↔
     has_key d bid k ∧ ¬ (k = entry_key s ∧ ∃ b, b ∈ bs ∧ b_id b = bid))
  ∧ (∀ i b, db_bindings d' !! i = Some b ↔ db_bindings d !! i = Some b ∧ (b ∉ orphaned))
  ∧ (∀ b, b ∈ orphaned → (∀ k, ¬ has_key d' (b_id b) k) ∧ ∃ c, c ∈ bs ∧ b_id c = b_id b).
Proof.
  intros Hwf Hnil. case_decide as HX.
  { rewrite (Hnil HX). intros [= <- <- <-]. set_solver. }
  intros Hr. unfold remove_access in Hr. apply bind_Ok in Hr as (_ & _ & Hr). inv_ok.
  set (ids := list_to_set (map b_id bs) : gset Z) in *.
  assert (∀ i, i ∈ ids ↔ ∃ b, b ∈ bs ∧ b_id b = i) as Hids.
  { intros i. unfold ids. rewrite elem_of_list_to_set, list_elem_of_fmap. naive_solver. }
  set (orph := select _ (db_bindings (unlink self s ids d))).
  assert (∀ b, b ∈ orph ↔ (b_id b ∈ ids ∧ is_orphaned (unlink self s ids d) b = true)
    ∧ ∃ i, db_bindings d !! i = Some b) as Ho.
  { intros b. unfold orph. by rewrite elem_of_select, andb_true_iff, bool_decide_eq_true, unlink_bindings. }
  assert (∀ i, i ∈ (list_to_set (map b_id orph) : gset Z) ↔ ∃ b, b ∈ orph ∧ b_id b = i) as Hoi.
  { intros i. rewrite elem_of_list_to_set, list_elem_of_fmap. naive_solver. }
  split_and!.
  - intros bid k. rewrite delete_key, unlink_key, Hids, Hoi. split; [tauto|]. intros [Hk Hn].
    split; [done|]. intros (b & [[_ Hb] _]%Ho & <-). apply (orphaned_key _ _ k Hb).
    rewrite unlink_key, Hids. done.
  - intros i b. rewrite lookup_delete_bindings, unlink_bindings, Hoi. split; intros [Hb Hn]; (split; [done|]).
    + intros Hin. apply Hn. exists b. split; [done|]. by apply (wf_binding_id d Hwf).
    + intros (c & Hc & Hi). apply Hn. pose proof Hc as [_ [j Hj]]%Ho.
      rewrite (wf_binding_id d Hwf j c Hj) in Hi. subst j. by simplify_eq.
  - intros b Hb. split.
    + intros k. rewrite delete_key, Hoi. intros [_ Hn]. apply Hn. eauto.
    + apply Hids. by apply Ho in Hb as [[? _] _].
Qed.

Lemma add_access_keys gen s rt rs roles_by_id X d created linked d' :
  wf d → known_subject d s → known_roles roles_by_id X d → fresh_gen gen X d →
  add_access self gen s rt rs roles_by_id X d = Ok (created, linked, d') →
  (∀ bid k, has_key d' bid k ↔
     has_key d bid k ∨ (k = entry_key s ∧ ∃ b, b ∈ linked ∧ b_id b = bid))
  ∧ (∀ i b, db_bindings d' !! i = Some b ↔ db_bindings d !! i = Some b ∨ (b ∈ created ∧ b_id b = i))
  ∧ (∀ b, b ∈ linked ↔ db_bindings d' !! b_id b = Some b
       ∧ on_resource rt rs (t_id (svc_tenant self)) b = true ∧ b_role b ∈ X)
  ∧ (∀ rid, rid ∈ X → ∃ b, b ∈ linked ∧ b_role b = rid)
  ∧ (∀ b, b ∈ created → b_role b ∈ X ∧ b_id b = fst (gen (b_role b)) ∧ b_uuid b = snd (gen (b_role b))).
Proof.
  intros Hwf Hk Hkr Hf Ha.
  pose proof Ha as (_ & _ & Hfr & _ & Hl & Hc & _)%add_access_spec; [|done..].
  split_and!; [| |exact Hl|exact Hc|]; unfold add_access in Ha; apply bind_Ok in Ha as (_ & _ & Ha);
    apply bind_Ok in Ha as (bs & Hbs & Ha); inv_ok.
  - intros bid k. rewrite link_key. done.
  - intros i b. rewrite link_bindings. rewrite lookup_inserted by done. tauto.
  - intros b Hb. eapply (new_bindings_spec gen roles_by_id rt rs X) in Hb as [Hin Hb]; [|done| |exact Hbs];
      [|set_solver]. rewrite Hb at 2 4. split_and!; [set_solver|done..].
Qed.

Lemma add_step_keys gen s rt rs roles X d created linked d' :
  wf d → known_subject d s → (∀ r, r ∈ roles → db_roles d !! r_id r = Some r) →
  X ⊆ list_to_set (map r_id roles) → fresh_gen gen X d →
  (if decide (X = (∅ : gset Z)) then mret ([], [], d)
   else add_access self gen s rt rs (dict_of (map (λ r, (r_id r, r)) roles)) X d)
    = Ok (created, linked, d') →
  (∀ bid k, has_key d' bid k ↔
     has_key d bid k ∨ (k = entry_key s ∧ ∃ b, b ∈ linked ∧ b_id b = bid))
  ∧ (∀ i b, db_bindings d' !! i = Some b ↔ db_bindings d !! i = Some b ∨ (b ∈ created ∧ b_id b = i))
  ∧ (∀ b, b ∈ linked ↔ db_bindings d' !! b_id b = Some b
       ∧ on_resource rt rs (t_id (svc_tenant self)) b = true ∧ b_role b ∈ X)
  ∧ (∀ rid, rid ∈ X → ∃ b, b ∈ linked ∧ b_role b = rid).
Proof.
  intros Hwf Hk Hroles HX Hf. case_decide as Hem.
  { intros [= <- <- <-]. set_solver. }
  intros Ha. apply add_access_keys in Ha as (? & ? & ? & ? & _); [|done|done|by eapply known_roles_list|done].
  done.
Qed.

(** The state [_replace_role_bindings] leaves, in terms of the subject's entries. *)
Definition replaced rt rs s (desired : gset Z) d d' : Prop :=
  (∀ i b, db_bindings d' !! i = Some b → on_resource rt rs (t_id (svc_tenant self)) b = true →
     (has_entry self d' s b = true ↔ b_role b ∈ desired))
  ∧ (∀ rid, rid ∈ desired → ∃ b, db_bindings d' !! b_id b = Some b
       ∧ on_resource rt rs (t_id (svc_tenant self)) b = true ∧ b_role b = rid)
  ∧ (∀ bid k, k ≠ entry_key s ∨
       (∀ b, db_bindings d !! bid = Some b ∨ db_bindings d' !! bid = Some b →
             on_resource rt rs (t_id (svc_tenant self)) b = false) →
     (has_key d' bid k ↔ has_key d bid k))
  ∧ (∀ i b, db_bindings d !! i = Some b → on_resource rt rs (t_id (svc_tenant self)) b = false →
     db_bindings d' !! i = Some b).

Lemma current_spec rt rs s d b :
  wf d →
  b ∈ select (λ b, on_resource rt rs (t_id (svc_tenant self)) b && has_entry self d s b) (db_bindings d) ↔
  on_resource rt rs (t_id (svc_tenant self)) b = true ∧ has_key d (b_id b) (entry_key s)
  ∧ db_bindings d !! b_id b = Some b.
Proof.
  intros Hwf. rewrite elem_of_select, andb_true_iff, has_entry_key. split; [|naive_solver].
  intros [[? ?] [k Hb]]. by rewrite (wf_binding_id d Hwf k b Hb) in *.
Qed.

(** Two bindings of one role on one resource are the same row. *)
Lemma on_resource_unique rt rs tn d b c :
  wf d → db_bindings d !! b_id b = Some b → db_bindings d !! b_id c = Some c →
  on_resource rt rs tn b = true → on_resource rt rs tn c = true → b_role b = b_role c → b = c.
Proof.
  unfold on_resource. rewrite !andb_true_iff, !String.eqb_eq, !Z.eqb_eq.
  intros Hwf Hb Hc [[? ?] ?] [[? ?] ?] Hr.
  assert (b_id b = b_id c) as Hid by (eapply (wf_binding_unique d Hwf); eauto; congruence).
  rewrite Hid in Hb. by simplify_eq.
Qed.

Lemma replaced_nop rt rs s roles d (current := select (λ b, on_resource rt rs (t_id (svc_tenant self)) b
    && has_entry self d s b) (db_bindings d)) (desired := list_to_set (map r_id roles) : gset Z) :
  wf d → list_to_set (map b_role current) = desired → replaced rt rs s desired d d.
Proof.
  intros Hwf Heq.
  assert (∀ rid, rid ∈ desired ↔ ∃ b, b ∈ current ∧ b_role b = rid) as Hd.
  { intros rid. rewrite <- Heq, elem_of_list_to_set, list_elem_of_fmap. naive_solver. }
  unfold current in Hd. setoid_rewrite current_spec in Hd; [|done]. split_and!.
  - intros i b Hb Hon. rewrite has_entry_key. pose proof (wf_binding_id d Hwf i b Hb) as <-.
    rewrite Hd. split; [eauto 10|]. intros (c & (Hc & Hk & Hrow) & Hr).
    by rewrite (on_resource_unique rt rs (t_id (svc_tenant self)) d b c).
  - intros rid (b & (? & _ & ?) & <-)%Hd. eauto.
  - done.
  - done.
Qed.

Lemma replaced_diff rt rs s (desired current : gset Z) d d1 d' (removed orphaned linked : list RoleBinding)
    (X := desired ∖ current) (tn := t_id (svc_tenant self)) :
  wf d → wf d1 → wf d' →
  (∀ b, b ∈ removed ↔ (on_resource rt rs tn b = true ∧ has_key d (b_id b) (entry_key s)
     ∧ db_bindings d !! b_id b = Some b) ∧ b_role b ∉ desired) →
  (∀ rid, rid ∈ current ↔ ∃ b, (on_resource rt rs tn b = true
     ∧ has_key d (b_id b) (entry_key s) ∧ db_bindings d !! b_id b = Some b) ∧ b_role b = rid) →
  (∀ bid k, has_key d1 bid k ↔
     has_key d bid k ∧ ¬ (k = entry_key s ∧ ∃ b, b ∈ removed ∧ b_id b = bid)) →
  (∀ i b, db_bindings d1 !! i = Some b ↔ db_bindings d !! i = Some b ∧ (b ∉ orphaned)) →
  (∀ b, b ∈ orphaned → (∀ k, ¬ has_key d1 (b_id b) k) ∧ ∃ c, c ∈ removed ∧ b_id c = b_id b) →
  (∀ bid k, has_key d' bid k ↔
     has_key d1 bid k ∨ (k = entry_key s ∧ ∃ b, b ∈ linked ∧ b_id b = bid)) →
  (∀ i b, db_bindings d1 !! i = Some b → db_bindings d' !! i = Some b) →
  (∀ b, b ∈ linked ↔ db_bindings d' !! b_id b = Some b ∧ on_resource rt rs tn b = true ∧ b_role b ∈ X) →
  (∀ rid, rid ∈ X → ∃ b, b ∈ linked ∧ b_role b = rid) →
  replaced rt rs s desired d d'.
Proof.
  intros Hwf Hwf1 Hwf' Hrem HX H1k H1b Horph H2k H2b Hl Hc.
  (* a current binding of a desired role stays *)
  assert (∀ b, on_resource rt rs tn b = true → has_key d (b_id b) (entry_key s) →
    db_bindings d !! b_id b = Some b → b_role b ∈ desired →
    has_key d1 (b_id b) (entry_key s) ∧ db_bindings d' !! b_id b = Some b) as Hstay.
  { intros b Hon Hk Hb Hd. assert (has_key d1 (b_id b) (entry_key s)) as Hk1.
    { apply H1k. split; [done|]. intros (_ & c & [(_ & _ & Hc') Hn]%Hrem & Hid). apply Hn.
      rewrite Hid in Hc'. by simplify_eq. }
    split; [done|]. apply H2b, H1b. split; [done|]. intros [Hn _]%Horph. by apply (Hn (entry_key s)). }
  assert (∀ rid, rid ∈ desired → rid ∈ X ∨ ∃ b, (on_resource rt rs tn b = true
     ∧ has_key d (b_id b) (entry_key s) ∧ db_bindings d !! b_id b = Some b) ∧ b_role b = rid) as Hor.
  { intros rid Hd. rewrite <- HX. unfold X. destruct (decide (rid ∈ current)); set_solver. }
  split_and!.
  - intros i b Hb Hon. pose proof (wf_binding_id d' Hwf' i b Hb) as <-. rewrite has_entry_key, H2k. split.
    + intros [Hk|(_ & c & (Hc' & _ & HcX)%Hl & Hid)].
      * destruct (has_key_row d1 _ _ Hwf1 Hk) as [b1 Hb1]. pose proof (H2b _ _ Hb1) as Hb2.
        assert (b1 = b) as -> by congruence. apply H1b in Hb1 as [Hb1 _].
        apply H1k in Hk as [Hk Hn]. apply dec_stable. intros Hd. apply Hn. split; [done|].
        exists b. split; [|done]. by apply Hrem.
      * rewrite Hid in Hc'. assert (c = b) as -> by congruence. by apply elem_of_difference in HcX as [? _].
    + intros Hd0. destruct (Hor _ Hd0) as [Hd|(c & (Hc1 & Hc2 & Hc3) & Hr)]; [right; split; [done|]; exists b; split; [by apply Hl|done]|].
      destruct (Hstay c) as [Hk1 Hrow]; [done..|by rewrite Hr|].
      left. by rewrite (on_resource_unique rt rs tn d' b c).
  - intros rid Hd0. destruct (Hor _ Hd0) as [Hd|(b & (Hon & Hk & Hb) & <-)].
    + destruct (Hc rid Hd) as (b & (? & ? & _)%Hl & ?). eauto.
    + exists b. split_and!; [|done|done]. by apply Hstay.
  - intros bid k Hfr. rewrite H2k, H1k. destruct Hfr as [Hne|Hoff]; [tauto|]. split.
    + intros [[? _]|(_ & b & (Hb & Hon & _)%Hl & <-)]; [done|]. rewrite Hoff in Hon; [done|by right].
    + intros Hk. left. split; [done|]. intros (_ & b & [(Hon & _ & Hb) _]%Hrem & <-).
      rewrite Hoff in Hon; [done|by left].
  - intros i b Hb Hon. apply H2b, H1b. split; [done|].
    intros (_ & c & [(Hc' & _ & Hrow) _]%Hrem & Hid)%Horph.
    rewrite Hid, (wf_binding_id d Hwf i b Hb) in Hrow. assert (c = b) as -> by congruence.
    unfold tn in Hc'. congruence.
Qed.

Lemma replace_role_bindings_replaced gen rt rs s roles d d' events :
  wf d → known_subject d s → (∀ r, r ∈ roles → db_roles d !! r_id r = Some r) →
  fresh_gen gen (list_to_set (map r_id roles)) d →
  replace_role_bindings self gen rt rs s roles d = Ok (d', events) →
  replaced rt rs s (list_to_set (map r_id roles)) d d'.
Proof.
  intros Hwf Hk Hroles Hfresh Hr. unfold replace_role_bindings in Hr.
  apply bind_Ok in Hr as (_ & _ & Hr). cbn zeta in Hr. set (current := select _ (db_bindings d)) in *.
  case_decide as Hnop.
  { inv_ok. apply replaced_nop; [done|]. by apply differences_empty. }
  clear Hnop. apply bind_Ok in Hr as ([[deleted unlinked] d1] & Hrem & Hr).
  apply bind_Ok in Hr as ([[created linked] d2] & Hadd & Hr).
  apply bind_Ok in Hr as ([add remove] & _ & Hr). apply bind_Ok in Hr as (es & _ & Hr). inv_ok.
  set (removed := List.filter _ current) in *.
  set (cur := list_to_set (map b_role current) : gset Z) in *.
  assert (∀ b, b ∈ removed ↔ b ∈ current ∧ b_role b ∉ (list_to_set (map r_id roles) : gset Z)) as Hremoved.
  { intros b. unfold removed. rewrite list_elem_of_In, filter_In, <- list_elem_of_In, bool_decide_eq_true.
    rewrite elem_of_difference. split; [tauto|]. intros [Hb ?]. split_and!; [done| |done].
    unfold cur. rewrite elem_of_list_to_set. by apply list_elem_of_fmap_2. }
  assert (∀ rid, rid ∈ cur ↔ ∃ b, b ∈ current ∧ b_role b = rid) as Hcur.
  { intros rid. unfold cur. rewrite elem_of_list_to_set, list_elem_of_fmap. naive_solver. }
  pose proof Hrem as (Hwf1 & Hs1 & _ & Hsub)%remove_step; [|done|done|].
  2:{ intros b [Hb _]%Hremoved. by apply current_spec in Hb as (_ & _ & ?). }
  apply remove_step_keys in Hrem as (H1k & H1b & Horph); [|done|].
  2:{ intros Hem. destruct removed as [|b l] eqn:Hl; [done|]. exfalso.
      destruct (Hremoved b) as [[Hb Hn] _]; [left|]. assert (b_role b ∈ cur) by (apply Hcur; eauto). set_solver. }
  pose proof Hs1 as (_ & Hroles1 & _).
  assert (fresh_gen gen (list_to_set (map r_id roles) ∖ cur) d1) as Hf1.
  { eapply fresh_gen_shrink; [exact Hsub|]. eapply fresh_gen_subset; [|exact Hfresh]. set_solver. }
  pose proof Hadd as (Hwf2 & _)%add_step;
    [|done|by eapply known_subject_same|by rewrite Hroles1|set_solver|done].
  apply add_step_keys in Hadd as (H2k & H2b & Hl & Hc);
    [|done|by eapply known_subject_same|by rewrite Hroles1|set_solver|done].
  unfold current in Hremoved, Hcur. setoid_rewrite current_spec in Hremoved; [|done].
  setoid_rewrite current_spec in Hcur; [|done].
  apply (replaced_diff rt rs s _ cur d d1 d' removed deleted linked); try done.
  intros i b Hb. apply H2b. by left.
Qed.

(* ------------------------------------------------------------------ *)
(** * Lemmas: valid rows never fail *)

Definition valid_rows d : Prop := ∀ i b, db_bindings d !! i = Some b → valid_row d b.

Lemma valid_row_same d d' b : same_tables d d' → valid_row d b ↔ valid_row d' b.
Proof. intros (_ & Hr & _). unfold valid_row. by rewrite Hr. Qed.

Lemma remove_step_total s bs (X : gset Z) d :
  validate_subject self s = Ok tt → (∀ b, b ∈ bs → db_bindings d !! b_id b = Some b) →
  ∃ deleted unlinked d',
    (if decide (X = ∅) then mret ([], [], d) else remove_access self s bs d) = Ok (deleted, unlinked, d')
    ∧ (∀ b, b ∈ deleted ++ unlinked → ∃ i, db_bindings d !! i = Some b).
Proof.
  intros Hv Hbs. case_decide; [exists [], [], d; set_solver|].
  unfold remove_access. rewrite Hv. cbn -[delete_bindings is_orphaned]. eexists _, _, _. split; [done|].
  intros b. rewrite elem_of_app, elem_of_select, unlink_bindings. intros [[_ ?]|Hb]; [done|].
  destruct s as [g|p]; [eauto|]. rewrite elem_of_app, !elem_of_select in Hb.
  destruct Hb as [[_ ?]|[_ [i Hb]]]; [done|]. apply lookup_delete_bindings in Hb as [Hb _].
  rewrite unlink_bindings in Hb. eauto.
Qed.

Lemma add_step_total gen s rt rs roles (X : gset Z) d :
  validate_subject self s = Ok tt → (∀ r, r ∈ roles → db_roles d !! r_id r = Some r) →
  X ⊆ list_to_set (map r_id roles) → 
  ∃ created linked d',
    (if decide (X = ∅) then mret ([], [], d)
     else add_access self gen s rt rs (dict_of (map (λ r, (r_id r, r)) roles)) X d)
      = Ok (created, linked, d')
    ∧ (∀ b, b ∈ created ++ linked → (∃ i, db_bindings d !! i = Some b) ∨
         b_role b ∈ X ∧ b_uuid b = snd (gen (b_role b)) ∧ b_resource_type b = rt ∧ b_resource_id b = rs).
Proof.
  intros Hv Hroles HX. case_decide; [exists [], [], d; set_solver|].
  pose proof (known_roles_list roles X d Hroles HX) as Hk.
  unfold add_access. rewrite Hv. cbn. set (existing := select _ (db_bindings d)).
  set (new := X ∖ _). assert (new ⊆ X) as Hnew by set_solver.
  destruct (mapM_result_total (new_binding self gen (dict_of (map (λ r, (r_id r, r)) roles)) rt rs)
    (set_iter new)) as [created Hc].
  { intros rid Hrid%elem_of_set_iter. destruct (Hk rid) as (r & Hr & _); [set_solver|].
    unfold new_binding. rewrite Hr. cbn. eauto. }
  rewrite Hc. cbn. eexists _, _, _. split; [done|].
  pose proof (new_bindings_spec gen _ rt rs X new d created Hk Hnew Hc) as Hspec.
  intros b. rewrite !elem_of_app.
  assert (b ∈ existing → ∃ i, db_bindings d !! i = Some b) by (by intros [_ ?]%elem_of_select).
  assert (b ∈ created → b_role b ∈ X ∧ b_uuid b = snd (gen (b_role b)) ∧ b_resource_type b = rt
    ∧ b_resource_id b = rs).
  { intros [Hin Hb]%Hspec. rewrite Hb at 2 4 5. split_and!; [by apply Hnew|done..]. }
  tauto.
Qed.

Lemma replicate_tuples_total add remove ty :
  Forall (λ t, rbac_tuple t = true) add → NoDup add → ∃ es, replicate_tuples self add remove ty = Ok es.
Proof.
  intros Hv Hn. destruct REPLICATION_TO_RELATION_ENABLED eqn:He.
  - destruct (replicate_tuples_effect add remove ty He Hv Hn) as (es & ? & _). eauto.
  - unfold replicate_tuples, emit. rewrite He. destruct add, remove; cbn; eauto.
Qed.

Lemma replace_role_bindings_returns gen rt rs s roles d :
  validate_subject self s = Ok tt → wf d → known_subject d s →
  (∀ r, r ∈ roles → db_roles d !! r_id r = Some r) → fresh_gen gen (list_to_set (map r_id roles)) d →
  valid_subject_id s = true → valid_rows d → type_regex rt = true → plain_id rs = true →
  (∀ r, r ∈ roles → id_regex (r_uuid r) = true ∧ plain_id (snd (gen (r_id r))) = true) →
  ∃ d' events, replace_role_bindings self gen rt rs s roles d = Ok (d', events).
Proof.
  intros Hv Hwf Hk Hroles Hfresh Hsid Hrows Hrt Hrs Hr. unfold replace_role_bindings. rewrite Hv.
  cbn -[list_to_set]. set (current := select _ (db_bindings d)). case_decide as Hnop; [eauto|]. clear Hnop.
  set (cur := list_to_set (map b_role current) : gset Z).
  set (removed := List.filter _ current).
  assert (∀ b, b ∈ removed → db_bindings d !! b_id b = Some b) as Hremoved.
  { intros b. unfold removed. rewrite list_elem_of_In, filter_In, <- list_elem_of_In.
    intros [Hb _]. by apply current_spec in Hb as (_ & _ & ?). }
  destruct (remove_step_total s removed (cur ∖ list_to_set (map r_id roles)) d Hv Hremoved)
    as (deleted & unlinked & d1 & Hst1 & Hdel).
  rewrite Hst1. cbn -[list_to_set]. pose proof Hst1 as (Hwf1 & Hs1 & _ & Hsub)%remove_step; [|done..].
  pose proof Hs1 as (_ & Hroles1 & _).
  assert (list_to_set (map r_id roles) ∖ cur ⊆ list_to_set (map r_id roles)) as HX by set_solver.
  assert (fresh_gen gen (list_to_set (map r_id roles) ∖ cur) d1) as Hf1.
  { eapply fresh_gen_shrink; [exact Hsub|]. by eapply fresh_gen_subset. }
  destruct (add_step_total gen s rt rs roles (list_to_set (map r_id roles) ∖ cur) d1 Hv)
    as (created & linked & d2 & Hst2 & Hadd); [by rewrite Hroles1|done|].
  rewrite Hst2. cbn -[list_to_set].
  pose proof Hst2 as (_ & Hs2 & _ & Hnc & Hnl)%add_step;
    [|done|by eapply known_subject_same|by rewrite Hroles1|done|done].
  pose proof (same_tables_trans _ _ _ Hs1 Hs2) as Hs.
  assert (∀ b, b ∈ created ++ deleted ++ linked ++ unlinked → valid_row d2 b) as Hvalid.
  { intros b Hb. rewrite <- (valid_row_same d d2 b Hs).
    assert (b ∈ deleted ++ unlinked ∨ b ∈ created ++ linked) as [Hin|Hin] by set_solver.
    { destruct (Hdel b Hin) as [i Hi]. eauto. }
    destruct (Hadd b Hin) as [[i Hi]|(Hrole & Hu & Hbt & Hbi)]; [apply Hsub in Hi; eauto|].
    apply HX in Hrole. rewrite elem_of_list_to_set, list_elem_of_fmap in Hrole.
    destruct Hrole as (r & Hbr & Hin'). destruct (Hr r Hin') as [? ?].
    split_and!; [by rewrite Hu, Hbr|by rewrite Hbt|by rewrite Hbi|]. exists r. by rewrite Hbr, (Hroles r Hin'). }
  destruct (replication_tuples_total d2 s created deleted linked unlinked Hsid Hvalid) as (add & rem & Hrep).
  rewrite Hrep. cbn. apply replication_tuples_spec in Hrep as (_ & _ & Hva & _ & Hnd).
  destruct (replicate_tuples_total add rem UPDATE_ROLE_BINDINGS_FOR_SUBJECT) as [es ->]; [done|auto|]. cbn. eauto.
Qed.

End access.

(** Checking the hypotheses on a concrete database. *)
Definition fresh_checked (gen : Z → Z * string) (X : gset Z) (d : Db) : Prop :=
  set_Forall (λ r, db_bindings d !! fst (gen r) = None
    ∧ map_Forall (λ _ b, b_uuid b ≠ snd (gen r)) (db_bindings d)
    ∧ set_Forall (λ r', fst (gen r) = fst (gen r') ∨ snd (gen r) = snd (gen r') → r = r') X) X.

Lemma fresh_checked_sound gen X d : fresh_checked gen X d → fresh_gen gen X d.
Proof.
  intros Hc. split.
  - intros r Hr. apply (Hc r Hr).
  - intros r i b Hr Hb. destruct (Hc r Hr) as (_ & Hu & _). by apply (Hu i b).
  - intros r r' Hr Hr'. destruct (Hc r Hr) as (_ & _ & Hi). by apply (Hi r' Hr').
Qed.

Lemma valid_rows_checked d :
  map_Forall (λ _ b, (plain_id (b_uuid b) && type_regex (b_resource_type b) && plain_id (b_resource_id b)
    && match db_roles d !! b_role b with Some r => id_regex (r_uuid r) | None => false end) = true)
    (db_bindings d) → valid_rows d.
Proof.
  intros Hc i b Hb. specialize (Hc i b Hb). rewrite !andb_true_iff in Hc. destruct Hc as [[[? ?] ?] Hr].
  split_and!; [done..|]. destruct (db_roles d !! b_role b) as [r|]; [eauto|done].
Qed.

(* ------------------------------------------------------------------ *)
(** * Properties *)

(** C10: replacing a subject's role bindings on a resource keeps the database
    constraints and the relation graph in step.  For every state that satisfies the
    constraints, every known subject and existing roles, if
    [_replace_role_bindings] returns, then the new state satisfies the constraints
    and replaying the events it emits on the tuples of the old bindings gives
    exactly the tuples of the new bindings. *)
Theorem replace_role_bindings_refines `{Settings} `{PySetOrder} `{RowOrder} self gen rt rs s roles d d' events :
  REPLICATION_TO_RELATION_ENABLED = true →
  wf d → known_subject d s → (∀ r, r ∈ roles → db_roles d !! r_id r = Some r) →
  fresh_gen gen (list_to_set (map r_id roles)) d →
  replace_role_bindings self gen rt rs s roles d = Ok (d', events) →
  wf d' ∧ replay (bindings_graph d) events = Ok (bindings_graph d').
Proof.
  intros He Hwf Hk Hr Hf Hrep.
  destruct (replace_role_bindings_graph self gen rt rs s roles d d' events) as (? & _ & ?); done.
Qed.

(** C11: what [_replace_role_bindings] does to the entries.  Afterwards the subject
    has an entry at a binding of the resource exactly when its role is a desired
    one, every desired role has a binding there, every other entry (another
    subject, another source, another resource) is as before, and the bindings of
    other resources are kept. *)
Theorem replace_role_bindings_effect `{Settings} `{PySetOrder} `{RowOrder} self gen rt rs s roles d d' events :
  wf d → known_subject d s → (∀ r, r ∈ roles → db_roles d !! r_id r = Some r) →
  fresh_gen gen (list_to_set (map r_id roles)) d →
  replace_role_bindings self gen rt rs s roles d = Ok (d', events) →
  replaced self rt rs s (list_to_set (map r_id roles)) d d'.
Proof. apply replace_role_bindings_replaced. Qed.

(** C12: [_replace_role_bindings] returns whenever the subject passes
    [_validate_subject] and the identifiers in use are ones the relation tuples
    accept: no state makes it raise, and the outbox never rejects its event as
    containing duplicates. *)
Theorem replace_role_bindings_total `{Settings} `{PySetOrder} `{RowOrder} self gen rt rs s roles d :
  validate_subject self s = Ok tt → wf d → known_subject d s →
  (∀ r, r ∈ roles → db_roles d !! r_id r = Some r) → fresh_gen gen (list_to_set (map r_id roles)) d →
  valid_subject_id s = true → valid_rows d → type_regex rt = true → plain_id rs = true →
  (∀ r, r ∈ roles → id_regex (r_uuid r) = true ∧ plain_id (snd (gen (r_id r))) = true) →
  ∃ d' events, replace_role_bindings self gen rt rs s roles d = Ok (d', events).
Proof. apply replace_role_bindings_returns. Qed.

(* ------------------------------------------------------------------ *)
(** * Witnesses *)

Definition sample_group : Group := mkGroup 1 "g1" 7 false false false "one" None.
Definition sample_principal : Principal := mkPrincipal 1 "p1" 7 (Some "u1") "user1" USER_PRINCIPAL None false.
Definition sample_role (i : Z) (u : string) : RoleV2 := mkRoleV2 i u u None CUSTOM 7 ∅ false.

Definition sample_db : Db := mkDb ∅
  (list_to_map [(1, sample_role 1 "r1"); (2, sample_role 2 "r2"); (3, sample_role 3 "r3")]%Z)
  {[1%Z := sample_group]} {[1%Z := sample_principal]}
  (list_to_map [(1, mkRoleBinding 1 "b1" 1 "workspace" "w1" 7);
                (2, mkRoleBinding 2 "b2" 2 "workspace" "w1" 7)]%Z)
  {[(1, 1); (2, 1)]}%Z {[(2, 1, "migration")]}%Z ∅ ∅ ∅.

Definition sample_tenant : Tenant := mkTenant 7 "t7" None (Some "o7") (JDict []) true.
Definition sample_binding_service : RoleBindingService :=
  mkRoleBindingService sample_tenant "default" false false.
Definition sample_gen (rid : Z) : Z * string := if Z.eqb rid 3 then (13%Z, "n3") else (12%Z, "n2").
Definition sample_roles : list RoleV2 := [sample_role 2 "r2"; sample_role 3 "r3"].

Lemma sample_wf : wf sample_db.
Proof. apply wf_checked_sound. by_compute. Qed.
Lemma sample_rows : ∀ r, r ∈ sample_roles → db_roles sample_db !! r_id r = Some r.
Proof. apply Forall_forall. by_compute. Qed.
Lemma sample_fresh : fresh_gen sample_gen (list_to_set (map r_id sample_roles)) sample_db.
Proof. apply fresh_checked_sound. by_compute. Qed.

(** A group with the roles 1 and 2 gets the roles 2 and 3: the binding of role 1 is
    deleted, one for role 3 is created. *)
Definition sample_result : result (Db * list ReplicationEvent) :=
  @replace_role_bindings sample_settings _ _ sample_binding_service sample_gen "workspace" "w1"
    (SGroup sample_group) sample_roles sample_db.
Definition sample_after : Db := match sample_result with Ok (d, _) => d | Raise _ => sample_db end.
Definition sample_events : list ReplicationEvent :=
  match sample_result with Ok (_, es) => es | Raise _ => [] end.

Lemma sample_result_eq : sample_result = Ok (sample_after, sample_events).
Proof. unfold sample_after, sample_events. by vm_compute. Qed.

Lemma replace_role_bindings_refines_witness :
  wf sample_after ∧ replay (@bindings_graph sample_settings sample_db) sample_events
    = Ok (@bindings_graph sample_settings sample_after).
Proof.
  exact (@replace_role_bindings_refines sample_settings _ _ sample_binding_service sample_gen "workspace" "w1"
    (SGroup sample_group) sample_roles sample_db sample_after sample_events eq_refl sample_wf eq_refl
    sample_rows sample_fresh sample_result_eq).
Defined.

Lemma replace_role_bindings_effect_witness :
  replaced sample_binding_service "workspace" "w1" (SGroup sample_group) (list_to_set (map r_id sample_roles))
    sample_db sample_after.
Proof.
  exact (@replace_role_bindings_effect sample_settings _ _ sample_binding_service sample_gen "workspace" "w1"
    (SGroup sample_group) sample_roles sample_db sample_after sample_events sample_wf eq_refl
    sample_rows sample_fresh sample_result_eq).
Defined.

Lemma sample_valid_rows : valid_rows sample_db.
Proof. apply valid_rows_checked. by_compute. Qed.

Lemma replace_role_bindings_total_witness :
  ∃ d' events, @replace_role_bindings sample_settings _ _ sample_binding_service sample_gen "workspace" "w1"
    (SGroup sample_group) sample_roles sample_db = Ok (d', events).
Proof.
  refine (@replace_role_bindings_total sample_settings _ _ sample_binding_service sample_gen "workspace" "w1"
    (SGroup sample_group) sample_roles sample_db eq_refl sample_wf eq_refl
    sample_rows sample_fresh eq_refl sample_valid_rows eq_refl eq_refl _).
  apply Forall_forall. by_compute.
Defined.
