(* ===== verification/RoleScopes.v ===== *)
(** Which roles fit which resource: the scope of a resource
    (rbac/management/permission/scope_service.py), the check made when a role is
    bound (rbac/management/role_binding/service.py) and the filter applied when
    roles are listed (rbac/management/role/v2_service.py). *)

From S2P Require Import Prelude.
From S2P Require Import PyString.
From S2P Require Import Config.
From S2P Require Import RelationTypes.
From S2P Require Import TupleStore.
From S2P Require Import Permissions.
From S2P Require Import ScopeService.
From S2P Require Import Outbox.
From S2P Require Import Tenants.
From S2P Require Import Db.
From S2P Require Import BindingGraph.
From S2P Require Import RoleBindingService.

(* ------------------------------------------------------------------ *)
(** * Resources and scopes *)

(** [SCOPE_RESOURCE_TYPE] *)
Definition SCOPE_RESOURCE_TYPE : list (Scope * string) :=
  [(Scope.TENANT, "tenant"); (Scope.ROOT, "workspace"); (Scope.DEFAULT, "workspace")].

(** [CONCRETE_SCOPES] *)
Definition CONCRETE_SCOPES : list Scope := [Scope.DEFAULT; Scope.ROOT; Scope.TENANT].

(** [scopes_for_resource_type] *)
Definition scopes_for_resource_type (resource_type : string) : gset Scope :=
  list_to_set (map fst (List.filter (λ sr, String.eqb (snd sr) resource_type) SCOPE_RESOURCE_TYPE)).

(** [Workspace.objects.get(id=..., tenant=...)]; the id is the primary key. *)
Definition workspace_get (d : Db) (id : string) (tenant : Z) : option Workspace :=
  w ← db_workspaces d !! id;
  if Z.eqb (w_tenant w) tenant then Some w else None.

(** [exists_for_tenant] *)
Definition exists_for_tenant (d : Db) (id : string) (tenant : Z) : bool :=
  bool_decide (is_Some (workspace_get d id tenant)).

(** [scope_for_resource] *)
Definition scope_for_resource (d : Db) (resource_type resource_id : string) (tenant : Z) : option Scope :=
  if String.eqb resource_type "tenant" then Some Scope.TENANT
  else if String.eqb resource_type "workspace" then
    w ← workspace_get d resource_id tenant;
    Some (if decide (w_type w = ROOT_WS) then Scope.ROOT else Scope.DEFAULT)
  else None.

(** [resolve_workspace_scope] *)
Definition resolve_workspace_scope (d : Db) (resource_id : string) (tenant : Z) : option (Scope * bool) :=
  w ← workspace_get d resource_id tenant;
  if decide (w_type w = ROOT_WS) then Some (Scope.ROOT, false)
  else Some (Scope.DEFAULT, bool_decide (w_type w = STANDARD)).

(** [objects.get(tenant_id=..., type=...)] behind [Workspace.objects.root] and
    [default]. *)
Definition built_in_workspace `{RowOrder} (d : Db) (tenant : Z) (ty : WorkspaceType) : result Workspace :=
  match select (λ w, Z.eqb (w_tenant w) tenant && bool_decide (w_type w = ty)) (db_workspaces d) with
  | [] => Raise (DoesNotExist "Workspace")
  | [w] => Ok w
  | _ => Raise (MultipleObjectsReturned "Workspace")
  end.

(** [is_ocm_v2_role] *)
Definition is_ocm_v2_role (r : RoleV2) : bool := r_ocm r.

(** [ocm_roles_allowed_for_workspace_binding] *)
Definition ocm_roles_allowed_for_workspace_binding `{RowOrder} (d : Db) (resource_type : string)
    (resource_id : option string) (tenant : Z) : result bool :=
  if negb (String.eqb resource_type "workspace") then mret false
  else match resource_id with
       | None => mret true
       | Some rid => w ← built_in_workspace d tenant DEFAULT_WS; mret (String.eqb (w_id w) rid)
       end.

(** [role.permissions.values_list("id", "permission")] *)
Definition permission_values `{PySetOrder} (d : Db) (r : RoleV2) : list (Z * string) :=
  omap (λ pid, (λ p, (p_id p, p_permission p)) <$> (db_permissions d !! pid)) (set_iter (r_permissions r)).

(** The rows the scope cache is built from. *)
Definition cache_rows (d : Db) : permission_rows :=
  map (λ p, (p_id p, p_permission p)) (permission_rows_of d).

(* ------------------------------------------------------------------ *)
(** * Binding and listing *)

Section scopes.
Context `{Settings} `{PySetOrder} `{RowOrder}.
(** [default_implicit_resource_service] and [permission_scope_cache] *)
Variable service : ImplicitResourceService.
Variable scope_cache : PermissionScopeCache.

(** The body of the loop of [_validate_role_scopes]: is the role reported? *)
Definition role_mismatch (d : Db) (expected : Scope) (is_standard_workspace : bool)
    (explicit_default_ids : gset Z) (role : RoleV2) : result bool :=
  let perm_rows := permission_values d role in
  let perm_strings := map snd perm_rows in
  only_all ← is_all_scope_only service perm_strings;
  if (only_all : bool) then mret false
  else
    role_scope ← highest_scope_for_permissions service perm_strings;
    if negb (scope_eqb role_scope expected) then mret true
    else if is_standard_workspace then
      match perm_rows with
      | [] => mret true
      | _ => mret (negb (bool_decide (explicit_default_ids = ∅))
                   && negb (bool_decide (list_to_set (map fst perm_rows) ∩ explicit_default_ids = ∅)))
      end
    else mret false.

(** [_validate_role_scopes] *)
Definition validate_role_scopes (self : RoleBindingService) (d : Db) (roles : list RoleV2)
    (resource_type resource_id : string) : result unit :=
  let tenant := t_id (svc_tenant self) in
  if skip_scope_validation self || bool_decide (roles = []) then mret tt
  else
    allowed ← ocm_roles_allowed_for_workspace_binding d resource_type (Some resource_id) tenant;
    _ ← raise_if (negb allowed && existsb is_ocm_v2_role roles) (InvalidFieldError "roles");
    target ←
      (if String.eqb resource_type "workspace" then
         '(scope, std) ← or_raise (NotFoundError resource_type) (resolve_workspace_scope d resource_id tenant);
         mret (Some (scope, std))
       else match scope_for_resource d resource_type resource_id tenant with
            | None => if String.eqb resource_type "tenant" then Raise (NotFoundError resource_type)
                      else mret None
            | Some scope => mret (Some (scope, false))
            end);
    match target with
    | None => mret tt
    | Some (expected, std) =>
        explicit ← (if (std : bool) then snd <$> fst (cache_get service (cache_rows d) scope_cache)
                    else mret ∅);
        mismatched ← mapM (role_mismatch d expected std explicit) roles;
        raise_if (existsb id mismatched) (InvalidFieldError "roles")
    end.

(** [permissions__id__in=ids] for one role. *)
Definition has_permission_in (ids : gset Z) (r : RoleV2) : bool :=
  negb (bool_decide (r_permissions r ∩ ids = ∅)).

Definition scopes_max (scopes : gset Scope) : nat :=
  foldl Nat.max 0%nat (map Scope.value (elements scopes)).

(** [scope_cache.ids_for_scopes] *)
Definition cached_ids (d : Db) (scopes : list Scope) : result (gset Z) :=
  fst (ids_for_scopes service (cache_rows d) scopes scope_cache).

(** The three filters of [_filter_by_resource_type] by permission ids. *)
Definition filter_by_scopes (d : Db) (matching : gset Scope) (std : bool) (queryset : list RoleV2) :
    result (list RoleV2) :=
  let higher := List.filter (λ s, bool_decide (s ∉ matching)
                                  && Nat.ltb (scopes_max matching) (Scope.value s)) CONCRETE_SCOPES in
  q1 ← (if decide (Scope.DEFAULT ∈ matching) then mret queryset
        else
          matching_ids ← cached_ids d (set_iter matching);
          concrete_ids ← cached_ids d CONCRETE_SCOPES;
          all_scope_ids ← cached_ids d [Scope.ALL];
          mret (List.filter (λ r, has_permission_in matching_ids r
            || (has_permission_in all_scope_ids r && negb (has_permission_in concrete_ids r))) queryset));
  q2 ← (match higher with
        | [] => mret q1
        | _ => higher_ids ← cached_ids d higher;
               mret (if decide (higher_ids = ∅) then q1
                     else List.filter (λ r, negb (has_permission_in higher_ids r)) q1)
        end);
  if std then
    explicit ← snd <$> fst (cache_get service (cache_rows d) scope_cache);
    let q := if decide (explicit = ∅) then q2
             else List.filter (λ r, negb (has_permission_in explicit r)) q2 in
    mret (List.filter (λ r, negb (bool_decide (r_permissions r = ∅))) q)
  else mret q2.

(** [_filter_by_resource_type] for the service of an optional tenant. *)
Definition filter_by_resource_type (tenant : option Z) (d : Db) (queryset : list RoleV2)
    (resource_type : string) (resource_id : option string) : result (list RoleV2) :=
  let scopes := scopes_for_resource_type resource_type in
  if decide (scopes = ∅) then mret []
  else
    target ←
      (if String.eqb resource_type "workspace" then
         match resource_id with
         | Some rid => t ← or_raise AssertionError tenant;
                       mret ((λ '(s, std), ({[s]}, std)) <$> resolve_workspace_scope d rid t)
         | None => mret (Some ({[Scope.DEFAULT]}, false))
         end
       else mret (Some (scopes, false)));
    match target with
    | None => mret []
    | Some (matching, std) =>
        q ← filter_by_scopes d matching std queryset;
        match tenant with
        | None => mret q
        | Some t =>
            allowed ← ocm_roles_allowed_for_workspace_binding d resource_type resource_id t;
            mret (if (allowed : bool) then q else List.filter (λ r, negb (is_ocm_v2_role r)) q)
        end
    end.
End scopes.

(* ------------------------------------------------------------------ *)
(** * Lemmas *)

Arguments ocm_roles_allowed_for_workspace_binding : simpl never.

(** The scope cache answers for the permission table of the state, and the
    permissions of the roles are rows of it. *)
Record scope_state (service : ImplicitResourceService) (scope_cache : PermissionScopeCache) (d : Db)
    (buckets : gmap Scope (gset Z)) (explicit : gset Z) : Prop := {
  ss_ids : ∀ i p, db_permissions d !! i = Some p → p_id p = i;
  ss_roles : ∀ i r pid, db_roles d !! i = Some r → pid ∈ r_permissions r → is_Some (db_permissions d !! pid);
  ss_cache : scope_cache = None ∨ scope_cache = Some (buckets, explicit);
  ss_build : cache_build service (cache_rows d) = Ok (buckets, explicit);
}.

(** Every row the cache was built from has a scope. *)
Lemma cache_build_scopes service rows acc v i q :
  foldM (cache_step service) acc rows = Ok v → (i, q) ∈ rows → ∃ s, scope_for_permission service q = Ok s.
Proof.
  revert acc. induction rows as [|[j q'] rows IH]; intros acc Hf Hin; [set_solver|].
  apply bind_Ok in Hf as (acc' & Hs & Hf). apply elem_of_cons in Hin as [[= -> ->]|Hin]; [|by eapply IH].
  unfold cache_step in Hs. destruct acc. apply bind_Ok in Hs as (s & Hs & _). eauto.
Qed.

Section lemmas.
Context `{Settings} `{PySetOrder} `{RowOrder}.
Variable service : ImplicitResourceService.
Variable scope_cache : PermissionScopeCache.
Variable d : Db.
Variables (buckets : gmap Scope (gset Z)) (explicit : gset Z).
Hypothesis Hst : scope_state service scope_cache d buckets explicit.
Implicit Types (r : RoleV2) (s : Scope).

Lemma elem_of_cache_rows i q :
  (i, q) ∈ cache_rows d ↔ ∃ p, db_permissions d !! i = Some p ∧ p_permission p = q.
Proof.
  unfold cache_rows, permission_rows_of. rewrite list_elem_of_fmap. split.
  - intros (p & [= -> ->] & Hp). apply list_elem_of_fmap in Hp as ([j p'] & -> & Hp).
    apply elem_of_map_to_list in Hp. cbn. rewrite (ss_ids _ _ _ _ _ Hst j p' Hp). eauto.
  - intros (p & Hp & <-). exists p. split; [by rewrite (ss_ids _ _ _ _ _ Hst i p Hp)|].
    apply list_elem_of_fmap. exists (i, p). split; [done|]. by apply elem_of_map_to_list.
Qed.

Lemma cache_get_state : fst (cache_get service (cache_rows d) scope_cache) = Ok (buckets, explicit).
Proof.
  unfold cache_get. destruct (ss_cache _ _ _ _ _ Hst) as [-> | ->]; [|done].
  by rewrite (ss_build _ _ _ _ _ Hst).
Qed.

(** The role has a permission of a scope. *)
Definition role_has r s : Prop :=
  ∃ pid p, pid ∈ r_permissions r ∧ db_permissions d !! pid = Some p
           ∧ scope_for_permission service (p_permission p) = Ok s.

Lemma permission_scope i p : db_permissions d !! i = Some p →
  ∃ s, scope_for_permission service (p_permission p) = Ok s.
Proof.
  intros Hp. eapply (cache_build_scopes service (cache_rows d) _ (buckets, explicit) i);
    [apply (ss_build _ _ _ _ _ Hst)|]. apply elem_of_cache_rows. eauto.
Qed.

Lemma has_permission_in_spec ids r :
  has_permission_in ids r = true ↔ ∃ pid, pid ∈ r_permissions r ∧ pid ∈ ids.
Proof.
  unfold has_permission_in. rewrite negb_true_iff, bool_decide_eq_false.
  split; [|set_solver]. intros Hne. apply set_choose_L in Hne as [x Hx]. set_solver.
Qed.

Lemma cached_ids_spec scopes :
  ∃ ids, cached_ids service scope_cache d scopes = Ok ids ∧
    ∀ r, has_permission_in ids r = true ↔ ∃ s, s ∈ scopes ∧ role_has r s.
Proof.
  assert (∃ ids, cached_ids service scope_cache d scopes = Ok ids
    ∧ ids = ⋃ (map (λ s, default ∅ (buckets !! s)) scopes)) as (ids & Hids & ->).
  { unfold cached_ids, ids_for_scopes. destruct scopes as [|s l]; [by eexists|].
    pose proof cache_get_state as Hg. destruct (cache_get _ _ _) as [v c]. cbn in Hg. rewrite Hg. by eexists. }
  eexists. split; [done|]. intros r. rewrite has_permission_in_spec.
  setoid_rewrite elem_of_union_list. setoid_rewrite list_elem_of_fmap.
  destruct (cache_build_spec _ _ _ _ (ss_build _ _ _ _ _ Hst)) as [Hb _]. split.
  - intros (pid & Hr & X & (s & -> & Hs) & Hin). apply Hb in Hin as (q & Hq & Hsc).
    apply elem_of_cache_rows in Hq as (p & Hp & <-). exists s. split; [done|]. by exists pid, p.
  - intros (s & Hs & pid & p & Hr & Hp & Hsc). exists pid. split; [done|].
    exists (default ∅ (buckets !! s)). split; [eauto|]. apply Hb. exists (p_permission p).
    split; [|done]. apply elem_of_cache_rows. eauto.
Qed.

(** The permissions of a role are rows. *)
Definition role_rows r : Prop := ∀ pid, pid ∈ r_permissions r → is_Some (db_permissions d !! pid).

Lemma elem_of_permission_values r i q :
  (i, q) ∈ permission_values d r ↔
  i ∈ r_permissions r ∧ ∃ p, db_permissions d !! i = Some p ∧ p_permission p = q.
Proof.
  unfold permission_values. rewrite list_elem_of_omap. setoid_rewrite elem_of_set_iter. split.
  - intros (pid & Hr & Hp). destruct (db_permissions d !! pid) as [p|] eqn:Hl; [|done]. simplify_eq/=.
    pose proof (ss_ids _ _ _ _ _ Hst pid p Hl) as Hid. rewrite Hid. eauto.
  - intros [Hr (p & Hp & <-)]. exists i. rewrite Hp. cbn. by rewrite (ss_ids _ _ _ _ _ Hst i p Hp).
Qed.

Lemma permission_values_ids r : role_rows r → list_to_set (map fst (permission_values d r)) = r_permissions r.
Proof.
  intros Hr. apply set_eq. intros i. rewrite elem_of_list_to_set, list_elem_of_fmap. split.
  - intros ([j q] & -> & [? _]%elem_of_permission_values). done.
  - intros Hi. destruct (Hr i Hi) as [p Hp]. exists (i, p_permission p). split; [done|].
    apply elem_of_permission_values. eauto.
Qed.

Lemma permission_values_nil r : role_rows r → permission_values d r = [] ↔ r_permissions r = ∅.
Proof.
  intros Hr. rewrite <- (permission_values_ids r Hr). split; [by intros ->|].
  destruct (permission_values d r); [done|]. cbn. set_solver.
Qed.

Lemma role_has_strings r s :
  role_has r s ↔ ∃ q, q ∈ map snd (permission_values d r) ∧ scope_for_permission service q = Ok s.
Proof.
  split.
  - intros (pid & p & Hin & Hp & Hs). exists (p_permission p). split; [|done].
    apply list_elem_of_fmap. exists (pid, p_permission p). split; [done|].
    apply elem_of_permission_values. eauto.
  - intros (q & Hq & Hs). apply list_elem_of_fmap in Hq as ([i q'] & -> & Hq).
    apply elem_of_permission_values in Hq as [Hin (p & Hp & <-)]. by exists i, p.
Qed.

Lemma strings_scoped r q :
  q ∈ map snd (permission_values d r) → ∃ s, scope_for_permission service q = Ok s.
Proof.
  intros ([i q'] & -> & Hq)%list_elem_of_fmap. apply elem_of_permission_values in Hq as [_ (p & Hp & <-)].
  by eapply permission_scope.
Qed.

Lemma role_highest r :
  ∃ s, highest_scope_for_permissions service (map snd (permission_values d r)) = Ok s ∧ s ≠ Scope.ALL
    ∧ (∀ s', role_has r s' → s' = Scope.ALL ∨ scope_le s' s) ∧ (s = Scope.DEFAULT ∨ role_has r s).
Proof.
  destruct (mapM_result_total (scope_for_permission service) (map snd (permission_values d r))) as [ss Hss].
  { intros q Hq. by eapply strings_scoped. }
  assert (∃ s, highest_scope_for_permissions service (map snd (permission_values d r)) = Ok s) as [s Hs].
  { unfold highest_scope_for_permissions. rewrite Hss. cbn. eauto. }
  exists s. split; [done|]. apply highest_scope_bounds in Hs as (Hne & Hall & Hex). split_and!; [done| |].
  - intros s' (q & Hq & Hs')%role_has_strings. by apply (Hall q).
  - rewrite role_has_strings. destruct Hex as [?|(q & ? & ?)]; [by left|right; eauto].
Qed.

Lemma all_are_all_scope_spec l :
  (∀ q, q ∈ l → ∃ s, scope_for_permission service q = Ok s) →
  ∃ b, all_are_all_scope service l = Ok b ∧
    (b = true ↔ ∀ q s, q ∈ l → scope_for_permission service q = Ok s → s = Scope.ALL).
Proof.
  induction l as [|q l IH]; intros Hl; cbn; [exists true; set_solver|].
  destruct (Hl q) as [s Hs]; [left|]. rewrite Hs. cbn. unfold scope_eqb. case_bool_decide as Heq.
  - destruct IH as (b & Hb & Hiff); [set_solver|]. exists b. split; [done|]. rewrite Hiff.
    setoid_rewrite elem_of_cons. naive_solver congruence.
  - exists false. split; [done|]. split; [done|]. intros Hall. exfalso. apply Heq, (Hall q); [left|done].
Qed.

Lemma role_all_only r : role_rows r →
  ∃ b, is_all_scope_only service (map snd (permission_values d r)) = Ok b ∧
    (b = true ↔ r_permissions r ≠ ∅ ∧ ∀ s, role_has r s → s = Scope.ALL).
Proof.
  intros Hr. destruct (permission_values d r) as [|[i q] l] eqn:Hv.
  - exists false. split; [done|]. apply permission_values_nil in Hv as ->; naive_solver.
  - assert (is_all_scope_only service (map snd (permission_values d r)) =
            all_are_all_scope service (map snd (permission_values d r))) as Heq by by rewrite Hv.
    rewrite <- Hv, Heq. destruct (all_are_all_scope_spec (map snd (permission_values d r))) as (b & Hb & Hiff).
    { intros q' Hq. by eapply strings_scoped. }
    exists b. split; [done|]. rewrite Hiff. split.
    + intros Hall. split; [rewrite <- permission_values_nil, Hv by done; done|].
      intros s (q' & Hq & Hs)%role_has_strings. by eapply Hall.
    + intros [_ Hall] q' s Hq Hs. apply Hall, role_has_strings. eauto.
Qed.

Lemma role_has_dec r s : role_has r s ∨ ¬ role_has r s.
Proof.
  destruct (cached_ids_spec [s]) as (ids & _ & Hids).
  destruct (has_permission_in ids r) eqn:Hh; [left|right].
  - apply Hids in Hh as (s' & ->%list_elem_of_singleton & ?). done.
  - intros Hr. rewrite <- not_true_iff_false, Hids in Hh. apply Hh. exists s. by rewrite list_elem_of_singleton.
Qed.

(** What makes a role fit a resource of an expected scope: all its permissions are
    scope-agnostic, or its highest scope is the expected one and, at a standard
    workspace, it has permissions and none is explicitly DEFAULT. *)
Definition all_only r : Prop := r_permissions r ≠ ∅ ∧ ∀ s, role_has r s → s = Scope.ALL.
Definition highest_is r (expected : Scope) : Prop :=
  match expected with
  | Scope.DEFAULT => ¬ role_has r Scope.ROOT ∧ ¬ role_has r Scope.TENANT
  | Scope.ROOT => role_has r Scope.ROOT ∧ ¬ role_has r Scope.TENANT
  | Scope.TENANT => role_has r Scope.TENANT
  | Scope.ALL => False
  end.
Definition workspace_granular r : Prop :=
  r_permissions r ≠ ∅ ∧ ¬ ∃ pid, pid ∈ r_permissions r ∧ pid ∈ explicit.
Definition fits r (expected : Scope) (std : bool) : Prop :=
  all_only r ∨ (highest_is r expected ∧ (std = true → workspace_granular r)).

Lemma role_highest_is r : ∃ s,
  highest_scope_for_permissions service (map snd (permission_values d r)) = Ok s
  ∧ ∀ expected, s = expected ↔ highest_is r expected.
Proof.
  destruct (role_highest r) as (s & Hs & Hne & Hall & Hex). exists s. split; [done|].
  assert (∀ s', role_has r s' → s' ≠ Scope.ALL → scope_le s' s) as Hle.
  { intros s' Hr Hn. by destruct (Hall s' Hr). }
  assert (s = Scope.DEFAULT → ¬ role_has r Scope.ROOT ∧ ¬ role_has r Scope.TENANT) as HD.
  { intros ->. split; intros Hh%Hle; try done; unfold scope_le in Hh; cbn in Hh; lia. }
  assert (s = Scope.ROOT → ¬ role_has r Scope.TENANT) as HR.
  { intros ->. intros Hh%Hle; try done; unfold scope_le in Hh; cbn in Hh; lia. }
  intros [| | |]; cbn; destruct s; try done; naive_solver.
Qed.

Lemma role_mismatch_spec r expected (std : bool) (ex := (if std then explicit else ∅) : gset Z) : role_rows r →
  ∃ m, role_mismatch service d expected std ex r = Ok m ∧ (m = false ↔ fits r expected std).
Proof.
  intros Hr. unfold role_mismatch.
  destruct (role_all_only r Hr) as (b & -> & Hb). cbn.
  destruct b; [exists false; split; [done|]; split; [intros _; left; by apply Hb|done]|].
  assert (¬ all_only r) as Hn by (intros Ha%Hb; done).
  destruct (role_highest_is r) as (s & Hs & Hiff). rewrite Hs. cbn.
  unfold scope_eqb. case_bool_decide as Heq; cbn.
  2:{ exists true. split; [done|]. split; [done|]. intros [?|[Hh _]]; [done|]. by apply Hiff in Hh. }
  apply Hiff in Heq. unfold fits, workspace_granular. destruct std.
  2:{ exists false. split; [done|]. naive_solver. }
  destruct (permission_values d r) as [|x l] eqn:Hv.
  { exists true. split; [done|]. split; [done|]. rewrite permission_values_nil in Hv by done. naive_solver. }
  rewrite <- Hv, permission_values_ids by done. eexists. split; [done|].
  assert (r_permissions r ≠ ∅) as Hne by (rewrite <- permission_values_nil, Hv by done; done).
  rewrite andb_false_iff, !negb_false_iff, !bool_decide_eq_true. unfold ex. split.
  - intros Hem. right. split; [done|]. intros _. split; [done|]. set_solver.
  - intros [?|[_ Hw]]; [done|]. destruct Hw as [_ Hw]; [done|]. right. set_solver.
Qed.

Lemma elem_of_lfilter {A} (f : A → bool) l x : x ∈ List.filter f l ↔ x ∈ l ∧ f x = true.
Proof. by rewrite !list_elem_of_In, filter_In. Qed.

Lemma filter_higher scopes qs :
  ∃ q, (match scopes with
        | [] => mret qs
        | _ => higher_ids ← cached_ids service scope_cache d scopes;
               mret (if decide (higher_ids = ∅) then qs
                     else List.filter (λ r, negb (has_permission_in higher_ids r)) qs)
        end) = Ok q ∧ ∀ r, r ∈ q ↔ r ∈ qs ∧ ∀ s, s ∈ scopes → ¬ role_has r s.
Proof.
  destruct scopes as [|s0 l]; [exists qs; set_solver|].
  destruct (cached_ids_spec (s0 :: l)) as (ids & -> & Hids). cbn -[has_permission_in].
  eexists. split; [done|]. intros r. case_decide as He.
  - split; [|naive_solver]. intros Hr. split; [done|]. intros s Hs Hh.
    assert (has_permission_in ids r = true) as Hp by (apply Hids; eauto).
    subst ids. apply has_permission_in_spec in Hp as (pid & _ & ?). set_solver.
  - rewrite elem_of_lfilter, negb_true_iff, <- not_true_iff_false, Hids. naive_solver.
Qed.

Lemma concrete_scopes_spec s : s ∈ CONCRETE_SCOPES ↔ s ≠ Scope.ALL.
Proof. unfold CONCRETE_SCOPES. rewrite !elem_of_cons, elem_of_nil. destruct s; naive_solver. Qed.

Lemma filter_matching s qs :
  ∃ q, (matching_ids ← cached_ids service scope_cache d (set_iter {[s]});
        concrete_ids ← cached_ids service scope_cache d CONCRETE_SCOPES;
        all_scope_ids ← cached_ids service scope_cache d [Scope.ALL];
        mret (List.filter (λ r, has_permission_in matching_ids r
          || (has_permission_in all_scope_ids r && negb (has_permission_in concrete_ids r))) qs)) = Ok q
    ∧ ∀ r, role_rows r → r ∈ q ↔ r ∈ qs ∧ (role_has r s ∨ all_only r).
Proof.
  destruct (cached_ids_spec (set_iter {[s]})) as (i1 & -> & H1').
  destruct (cached_ids_spec CONCRETE_SCOPES) as (i2 & H2 & H2'). cbn -[has_permission_in]. rewrite H2.
  destruct (cached_ids_spec [Scope.ALL]) as (i3 & H3 & H3'). cbn -[has_permission_in]. rewrite H3.
  eexists. split; [done|]. intros r Hr.
  rewrite elem_of_lfilter, orb_true_iff, andb_true_iff, negb_true_iff, <- not_true_iff_false, H1', H2', H3'.
  setoid_rewrite elem_of_set_iter. setoid_rewrite elem_of_singleton. setoid_rewrite list_elem_of_singleton.
  assert ((∃ s0, s0 = Scope.ALL ∧ role_has r s0) ∧ ¬ (∃ s0, s0 ∈ CONCRETE_SCOPES ∧ role_has r s0)
    ↔ all_only r) as ->; [|split; [intros [? [(? & -> & ?)|?]]; auto|intros [? [?|?]]; eauto]].
  setoid_rewrite concrete_scopes_spec. split.
  - intros [(s0 & -> & Hh) Hn]. split.
    + destruct Hh as (pid & p & Hin & _). set_solver.
    + intros s1 Hs1. apply dec_stable. intros Hne. apply Hn. eauto.
  - intros [Hne Hall]. apply set_choose_L in Hne as [pid Hin]. destruct (Hr pid Hin) as [p Hp].
    destruct (permission_scope pid p Hp) as [s1 Hs1]. assert (role_has r s1) as Hh by (by exists pid, p).
    pose proof (Hall _ Hh) as ->. split; [eauto|]. intros (s0 & Hs0 & Hh0).
    by apply Hs0, Hall.
Qed.

Lemma all_only_granular r : all_only r → workspace_granular r.
Proof.
  intros [Hne Hall]. split; [done|]. intros (pid & Hr & Hex).
  destruct (cache_build_spec _ _ _ _ (ss_build _ _ _ _ _ Hst)) as [_ Hb].
  apply Hb in Hex as (q & Hq & Hs & _). apply elem_of_cache_rows in Hq as (p & Hp & <-).
  assert (role_has r Scope.DEFAULT) as Hh by (by exists pid, p). by apply Hall in Hh.
Qed.

Lemma filter_std qs :
  ∃ q, (explicit ← snd <$> fst (cache_get service (cache_rows d) scope_cache);
        let q := if decide (explicit = ∅) then qs
                 else List.filter (λ r, negb (has_permission_in explicit r)) qs in
        mret (List.filter (λ r, negb (bool_decide (r_permissions r = ∅))) q)) = Ok q
    ∧ ∀ r, r ∈ q ↔ r ∈ qs ∧ workspace_granular r.
Proof.
  rewrite cache_get_state. cbn -[has_permission_in]. eexists. split; [done|]. intros r.
  rewrite elem_of_lfilter, negb_true_iff, bool_decide_eq_false. unfold workspace_granular. case_decide as He.
  - rewrite He. set_solver.
  - rewrite elem_of_lfilter, negb_true_iff, <- not_true_iff_false, has_permission_in_spec. tauto.
Qed.

Lemma filter_by_scopes_spec expected std qs :
  expected ≠ Scope.ALL → (std = true → expected = Scope.DEFAULT) →
  ∃ q, filter_by_scopes service scope_cache d {[expected]} std qs = Ok q
    ∧ ∀ r, role_rows r → r ∈ q ↔ r ∈ qs ∧ fits r expected std.
Proof.
  intros Hne Hstd. unfold filter_by_scopes. set (higher := List.filter _ CONCRETE_SCOPES).
  assert (higher = match expected with Scope.DEFAULT => [Scope.ROOT; Scope.TENANT]
                   | Scope.ROOT => [Scope.TENANT] | _ => [] end) as Hh by (by destruct expected; vm_compute).
  cbn zeta.
  assert (∃ q1, (if decide (Scope.DEFAULT ∈ ({[expected]} : gset Scope)) then mret qs
    else matching_ids ← cached_ids service scope_cache d (set_iter {[expected]});
      concrete_ids ← cached_ids service scope_cache d CONCRETE_SCOPES;
      all_scope_ids ← cached_ids service scope_cache d [Scope.ALL];
      mret (List.filter (λ r, has_permission_in matching_ids r
        || (has_permission_in all_scope_ids r && negb (has_permission_in concrete_ids r))) qs)) = Ok q1
    ∧ ∀ r, role_rows r → r ∈ q1 ↔ r ∈ qs ∧ (expected = Scope.DEFAULT ∨ role_has r expected ∨ all_only r))
    as (q1 & -> & Hq1).
  { case_decide as Hin; rewrite elem_of_singleton in Hin.
    - exists qs. split; [done|]. naive_solver.
    - destruct (filter_matching expected qs) as (q & Hq & Hr). exists q. split; [done|].
      intros r Hrr. rewrite Hr by done. naive_solver. }
  cbn [mbind result_bind]. destruct (filter_higher higher q1) as (q2 & Hq2 & Hr2).
  assert (∀ r, role_rows r → r ∈ q2 ↔ r ∈ qs ∧ (all_only r ∨ highest_is r expected)) as Hfin.
  { intros r Hr. rewrite Hr2, Hq1 by done.
    assert (all_only r → ¬ role_has r Scope.ROOT ∧ ¬ role_has r Scope.TENANT) as Ha.
    { intros [_ Ha]. split; intros Hx; by apply Ha in Hx. }
    assert ((∀ s, s ∈ higher → ¬ role_has r s) ↔ match expected with
      | Scope.DEFAULT => ¬ role_has r Scope.ROOT ∧ ¬ role_has r Scope.TENANT
      | Scope.ROOT => ¬ role_has r Scope.TENANT | _ => True end) as ->.
    { rewrite Hh. destruct expected; set_solver. }
    destruct expected; cbn; [intuition congruence..|done]. }
  assert (∃ q, (if std then
    explicit ← snd <$> fst (cache_get service (cache_rows d) scope_cache);
    let q := if decide (explicit = ∅) then q2
             else List.filter (λ r, negb (has_permission_in explicit r)) q2 in
    mret (List.filter (λ r, negb (bool_decide (r_permissions r = ∅))) q) else mret q2) = Ok q
    ∧ ∀ r, r ∈ q ↔ r ∈ q2 ∧ (std = true → workspace_granular r)) as (q & Hq & Hr).
  { destruct std; [|exists q2; split; [done|]; naive_solver].
    destruct (filter_std q2) as (q & Hq & Hr). exists q. split; [done|]. intros r. rewrite Hr. tauto. }
  exists q. rewrite Hq2. split; [exact Hq|]. intros r Hrr. rewrite Hr, Hfin by done. unfold fits.
  pose proof (all_only_granular r). tauto.
Qed.

(** The scope a resource expects, and whether it is a standard workspace. *)
Definition resource_target (resource_type resource_id : string) (tenant : Z) : option (Scope * bool) :=
  if String.eqb resource_type "workspace" then resolve_workspace_scope d resource_id tenant
  else if String.eqb resource_type "tenant" then Some (Scope.TENANT, false) else None.

Lemma resource_target_scope rt rid tenant expected std :
  resource_target rt rid tenant = Some (expected, std) →
  expected ≠ Scope.ALL ∧ (std = true → expected = Scope.DEFAULT).
Proof.
  unfold resource_target, resolve_workspace_scope. destruct (String.eqb rt "workspace").
  - intros (w & _ & Hw)%bind_Some. case_decide; naive_solver.
  - destruct (String.eqb rt "tenant"); naive_solver.
Qed.

Lemma mismatches expected (std : bool) (ex := (if std then explicit else ∅) : gset Z) roles :
  (∀ r, r ∈ roles → role_rows r) →
  ∃ ms, mapM (role_mismatch service d expected std ex) roles = Ok ms ∧
    (existsb id ms = false ↔ ∀ r, r ∈ roles → fits r expected std).
Proof.
  induction roles as [|r roles IH]; intros Hr; [exists []; set_solver|].
  destruct (role_mismatch_spec r expected std) as (m & Hm & Hf); [apply Hr; left|].
  destruct IH as (ms & Hms & Hiff); [set_solver|]. exists (m :: ms). cbn. fold ex in Hm. rewrite Hm. cbn.
  rewrite Hms. split; [done|]. rewrite orb_false_iff, Hiff. unfold id. rewrite Hf.
  setoid_rewrite elem_of_cons. naive_solver.
Qed.

Lemma validate_role_scopes_iff self rt rid roles expected std allowed (tn := t_id (svc_tenant self)) :
  skip_scope_validation self = false → resource_target rt rid tn = Some (expected, std) →
  ocm_roles_allowed_for_workspace_binding d rt (Some rid) tn = Ok allowed →
  (∀ r, r ∈ roles → role_rows r) →
  validate_role_scopes service scope_cache self d roles rt rid = Ok tt ↔
  ∀ r, r ∈ roles → fits r expected std ∧ (is_ocm_v2_role r = true → allowed = true).
Proof.
  intros Hskip Ht Hocm Hrows. unfold validate_role_scopes. rewrite Hskip. cbn.
  case_bool_decide as Hem; [subst; set_solver|]. fold tn. rewrite Hocm. cbn.
  destruct (negb allowed && existsb is_ocm_v2_role roles) eqn:Hx; cbn.
  { split; [done|]. intros Hall. apply andb_true_iff in Hx as [Hal Hex].
    apply existsb_exists in Hex as (r & Hin%list_elem_of_In & Ho). destruct (Hall r Hin) as [_ Ha].
    by rewrite Ha in Hal. }
  assert (∀ r, r ∈ roles → is_ocm_v2_role r = true → allowed = true) as Ho.
  { intros r Hin Hoc. apply andb_false_iff in Hx as [?%negb_false_iff|Hex]; [done|].
    rewrite <- not_true_iff_false, existsb_exists in Hex. exfalso. apply Hex. exists r.
    by rewrite <- list_elem_of_In. }
  destruct (mismatches expected std roles Hrows) as (ms & Hms & Hiff).
  transitivity (existsb id ms = false); [|rewrite Hiff; naive_solver].
  unfold resource_target in Ht. unfold scope_for_resource. destruct (String.eqb rt "workspace") eqn:Hw.
  - rewrite Ht. cbn. destruct std; [rewrite cache_get_state|]; cbn; rewrite Hms; cbn;
      destruct (existsb id ms); done.
  - destruct (String.eqb rt "tenant"); [|done]. simplify_eq. cbn. rewrite Hms. cbn.
    destruct (existsb id ms); done.
Qed.

Lemma filter_by_resource_type_iff tn rt rid qs expected std allowed :
  resource_target rt rid tn = Some (expected, std) →
  ocm_roles_allowed_for_workspace_binding d rt (Some rid) tn = Ok allowed →
  ∃ rs, filter_by_resource_type service scope_cache (Some tn) d qs rt (Some rid) = Ok rs ∧
    ∀ r, role_rows r → r ∈ rs ↔
      r ∈ qs ∧ fits r expected std ∧ (is_ocm_v2_role r = true → allowed = true).
Proof.
  intros Ht Hocm. destruct (resource_target_scope _ _ _ _ _ Ht) as [Hne Hstd].
  destruct (filter_by_scopes_spec expected std qs Hne Hstd) as (q & Hq & Hr).
  assert (filter_by_resource_type service scope_cache (Some tn) d qs rt (Some rid) =
    Ok (if allowed then q else List.filter (λ r, negb (is_ocm_v2_role r)) q)) as ->.
  { unfold filter_by_resource_type. unfold resource_target in Ht.
    destruct (String.eqb_spec rt "workspace") as [->|].
    - rewrite decide_False by by_compute. cbn. rewrite Ht. cbn -[filter_by_scopes].
      rewrite Hq. cbn. by rewrite Hocm.
    - destruct (String.eqb_spec rt "tenant") as [->|]; [|done]. simplify_eq.
      rewrite decide_False by by_compute. cbn -[filter_by_scopes scopes_for_resource_type].
      assert (scopes_for_resource_type "tenant" = {[Scope.TENANT]}) as -> by by_compute.
      rewrite Hq. cbn. by rewrite Hocm. }
  eexists. split; [done|]. intros r Hrr. destruct allowed.
  - rewrite Hr by done. tauto.
  - rewrite elem_of_lfilter, Hr, negb_true_iff by done. destruct (is_ocm_v2_role r); intuition congruence.
Qed.
End lemmas.

(* ------------------------------------------------------------------ *)
(** * Properties *)


(* ------------------------------------------------------------------ *)
(** * Witnesses *)

Definition scope_checked (d : Db) : Prop :=
  map_Forall (λ i p, p_id p = i) (db_permissions d)
  ∧ map_Forall (λ _ r, set_Forall (λ pid, is_Some (db_permissions d !! pid)) (r_permissions r)) (db_roles d).

Lemma scope_checked_sound service d buckets explicit :
  scope_checked d → cache_build service (cache_rows d) = Ok (buckets, explicit) →
  scope_state service None d buckets explicit.
Proof.
  intros [Hi Hr] Hb. split; [done| |by left|done]. intros i r pid Hlook Hin. by apply (Hr i r Hlook pid).
Qed.

(** Two permissions, of the fallback and of the tenant scope, two roles and two
    workspaces. *)
Definition scope_db : Db := mkDb
  (list_to_map [(1, mkPermission 1 "inventory:hosts:read" (mkPermissionValue "inventory" "hosts" "read"));
                (2, mkPermission 2 "rbac:role:read" (mkPermissionValue "rbac" "role" "read"))]%Z)
  (list_to_map [(1, mkRoleV2 1 "r1" "r1" None CUSTOM 7 {[1]} false);
                (2, mkRoleV2 2 "r2" "r2" None CUSTOM 7 {[1; 2]} false)]%Z)
  ∅ ∅ ∅ ∅ ∅
  (list_to_map [("wd", mkWorkspace "wd" "default" None None DEFAULT_WS 7);
                ("w1", mkWorkspace "w1" "one" None (Some "wd") STANDARD 7)])%Z ∅ ∅.

