(* ===== verification/RoleBindingBatch.v ===== *)
(** Creating role bindings in a batch: [RoleBindingService.batch_create] of
    rbac/management/role_binding/service.py with the lookups and checks it makes,
    and the subject lookups of rbac/management/subject/queryset.py. *)

From S2P Require Import Prelude.
From S2P Require Import PyString.
From S2P Require Import Config.
From S2P Require Import RelationTypes.
From S2P Require Import TupleStore.
From S2P Require Import Permissions.
From S2P Require Import ScopeService.
From S2P Require Import Outbox.
From S2P Require Import Tenants.
From S2P Require Import Db.
From S2P Require Import BindingGraph.
From S2P Require Import RoleBindingService.
From S2P Require Import RoleScopes.

(** The key of [access_groups]: subject type and id, resource type and id. *)
Abbreviation access_key := (string * string * string * string)%type.

Definition req_key (r : CreateBindingRequest) : access_key :=
  (req_subject_type r, req_subject_id r, req_resource_type r, req_resource_id r).

(** One entry of the result of [batch_create]. *)
Record BatchRow := mkBatchRow {
  br_role : RoleV2;
  br_subject_type : string;
  br_subject : Subject;
  br_resource_type : string;
  br_resource_id : string;
  br_resource_name : option string;
}.

(** [d.setdefault(k, set()).add(x)] on a dict in insertion order. *)
Fixpoint setdefault_add {K} `{EqDecision K} (k : K) (x : Z) (l : list (K * gset Z)) : list (K * gset Z) :=
  match l with
  | [] => [(k, {[x]})]
  | (k', X) :: l' => if decide (k' = k) then (k', {[x]} ∪ X) :: l' else (k', X) :: setdefault_add k x l'
  end.

(** [d[k] = v] on a dict in insertion order. *)
Fixpoint dict_set {K V} `{EqDecision K} (k : K) (v : V) (l : list (K * V)) : list (K * V) :=
  match l with
  | [] => [(k, v)]
  | (k', v') :: l' => if decide (k' = k) then (k', v) :: l' else (k', v') :: dict_set k v l'
  end.

(** [d.setdefault(k, {})[k2] = v] on dicts in insertion order. *)
Fixpoint setdefault_set {K K2 V} `{EqDecision K} `{EqDecision K2} (k : K) (k2 : K2) (v : V)
    (l : list (K * list (K2 * V))) : list (K * list (K2 * V)) :=
  match l with
  | [] => [(k, [(k2, v)])]
  | (k', m) :: l' => if decide (k' = k) then (k', dict_set k2 v m) :: l'
                     else (k', m) :: setdefault_set k k2 v l'
  end.

Section batch.
Context `{Settings} `{PySetOrder} `{RowOrder}.
Variable self : RoleBindingService.
(** The process-wide scope service and caches. *)
Variable service : ImplicitResourceService.
Variable scope_cache : PermissionScopeCache.
Variable excluded_cache : ExcludedIdsCache.

(** [SubjectQuerySet.groups] *)
Definition subject_groups (d : Db) (uuids : gset string) : gmap string Group :=
  if decide (uuids = ∅) then ∅
  else dict_of (map (λ g, (g_uuid g, g)) (select (λ g, bool_decide (g_uuid g ∈ uuids)) (db_groups d))).

(** [SubjectQuerySet.users] *)
Definition subject_users (d : Db) (uuids : gset string) : result (gmap string Principal) :=
  if decide (uuids = ∅) then mret ∅
  else
    let found := dict_of (map (λ p, (pr_uuid p, p))
                   (select (λ p, bool_decide (pr_uuid p ∈ uuids)) (db_principals d))) in
    _ ← raise_if (existsb (λ kp, bool_decide (user_id (snd kp) = None)) (map_to_list found))
          (InvalidFieldError "subject_id");
    mret found.

(** [_resolve_subjects] *)
Definition resolve_subjects (d : Db) (requests : list CreateBindingRequest) : result (gmap string Subject) :=
  let ids ty := list_to_set (map req_subject_id
                  (List.filter (λ r, String.eqb (req_subject_type r) ty) requests)) : gset string in
  let groups := subject_groups d (ids "group") in
  _ ← raise_if (negb (bool_decide (ids "group" ∖ dom groups = ∅))) (NotFoundError "group");
  users ← subject_users d (ids "user");
  _ ← raise_if (negb (bool_decide (ids "user" ∖ dom users = ∅))) (NotFoundError "user");
  mret ((SPrincipal <$> users) ∪ (SGroup <$> groups)).

(** [_validate_resource] *)
Definition validate_resource (d : Db) (resource_type resource_id : string) : result unit :=
  _ ← raise_if (negb (str_truth resource_type)) (RequiredFieldError "resource_type");
  _ ← raise_if (negb (str_truth resource_id)) (RequiredFieldError "resource_id");
  _ ← raise_if (String.eqb resource_type "workspace"
                && negb (exists_for_tenant d resource_id (t_id (svc_tenant self))))
        (NotFoundError resource_type);
  raise_if (String.eqb resource_type "tenant"
            && negb (bool_decide (tenant_resource_id (svc_tenant self) = Some resource_id)))
    (NotFoundError resource_type).

(** [_get_roles]: [assignable] and [excluding_out_of_scope_v2_roles] on the roles
    with the requested uuids. *)
Definition get_roles (d : Db) (role_ids : list string) : result (list RoleV2) :=
  match role_ids with
  | [] => mret []
  | _ =>
      let excluded := fst (excluded_permission_ids d excluded_cache) in
      let roles := select (λ r, bool_decide (r_uuid r ∈ role_ids) && negb (bool_decide (r_type r = PLATFORM))
                                && negb (has_permission_in excluded r)) (db_roles d) in
      if decide (list_to_set (map r_uuid roles) = (list_to_set role_ids : gset string)) then mret roles
      else Raise (InvalidFieldError "roles")
  end.

(** [get_resource_name] *)
Definition get_resource_name (d : Db) (resource_id resource_type : string) : option string :=
  if String.eqb resource_type "workspace" then
    w_name <$> workspace_get d resource_id (t_id (svc_tenant self))
  else if String.eqb resource_type "tenant"
          && bool_decide (tenant_resource_id (svc_tenant self) = Some resource_id)
       then Some (tenant_name (svc_tenant self))
  else None.

(** The dict [scope_groups]. *)
Definition scope_groups (roles_by_uuid : gmap string RoleV2) (requests : list CreateBindingRequest) :
    result (list ((string * string) * list (string * RoleV2))) :=
  foldM (λ groups req,
    r ← or_raise KeyError (roles_by_uuid !! req_role_id req);
    mret (setdefault_set (req_resource_type req, req_resource_id req) (req_role_id req) r groups))
    [] requests.

(** [_group_by_subject_resource] *)
Definition group_by_subject_resource (requests : list CreateBindingRequest)
    (roles_by_uuid : gmap string RoleV2) : result (list (access_key * gset Z)) :=
  foldM (λ groups req,
    r ← or_raise KeyError (roles_by_uuid !! req_role_id req);
    mret (setdefault_add (req_key req) (r_id r) groups)) [] requests.

(** The loop body over [access_groups]. *)
Definition batch_step (gen : access_key → Z → Z * string) (subjects : gmap string Subject)
    (roles_by_id : gmap Z RoleV2) (acc : Db * list RelationTuple) (group : access_key * gset Z) :
    result (Db * list RelationTuple) :=
  let '(d, all_tuples_to_add) := acc in
  let '(key, role_ids) := group in
  let '(_, subject_id, resource_type, resource_id) := key in
  subject ← or_raise KeyError (subjects !! subject_id);
  '(created, linked, d') ← add_access self (gen key) subject resource_type resource_id roles_by_id role_ids d;
  '(tuples_add, _) ← replication_tuples d' subject created [] linked [];
  mret (d', all_tuples_to_add ++ tuples_add).

(** One entry of the result; the names were computed for every resource of the
    requests. *)
Definition batch_row (d : Db) (roles_by_uuid : gmap string RoleV2) (subjects : gmap string Subject)
    (req : CreateBindingRequest) : result BatchRow :=
  r ← or_raise KeyError (roles_by_uuid !! req_role_id req);
  s ← or_raise KeyError (subjects !! req_subject_id req);
  mret (mkBatchRow r (req_subject_type req) s (req_resource_type req) (req_resource_id req)
          (get_resource_name d (req_resource_id req) (req_resource_type req))).

(** [batch_create] *)
Definition batch_create (now : Z) (gen : access_key → Z → Z * string)
    (requests : list CreateBindingRequest) (d : Db) : result (Db * list BatchRow * list ReplicationEvent) :=
  let tenant := t_id (svc_tenant self) in
  m ← ensure_v2_write_activated now (db_mappings d !! tenant);
  let d0 := with_mappings (<[tenant := m]>) d in
  _ ← raise_if (bool_decide (requests = [])) (RequiredFieldError "requests");
  roles ← get_roles d0 (set_list (map req_role_id requests));
  let roles_by_uuid := dict_of (map (λ r, (r_uuid r, r)) roles) in
  let roles_by_id := dict_of (map (λ r, (r_id r, r)) roles) in
  subjects ← resolve_subjects d0 requests;
  _ ← mapM (λ '(resource_type, resource_id), validate_resource d0 resource_type resource_id)
        (set_list (map (λ r, (req_resource_type r, req_resource_id r)) requests));
  groups ← scope_groups roles_by_uuid requests;
  _ ← mapM (λ '((resource_type, resource_id), grouped),
              validate_role_scopes service scope_cache self d0 (map snd grouped) resource_type resource_id) groups;
  access_groups ← group_by_subject_resource requests roles_by_uuid;
  '(d', all_tuples_to_add) ← foldM (batch_step gen subjects roles_by_id) (d0, []) access_groups;
  events ← replicate_tuples self all_tuples_to_add [] BATCH_CREATE_ROLE_BINDING;
  rows ← mapM (batch_row d' roles_by_uuid subjects) requests;
  mret (d', rows, events).
End batch.

(* ------------------------------------------------------------------ *)
(** * Lemmas: the dicts *)

Lemma setdefault_add_keys {K} `{EqDecision K} (k : K) x l k' :
  k' ∈ map fst (setdefault_add k x l) ↔ k' = k ∨ k' ∈ map fst l.
Proof.
  induction l as [|[j X] l IH]; cbn; [set_solver|]. case_decide; cbn; rewrite !elem_of_cons, ?IH; naive_solver.
Qed.

Lemma NoDup_setdefault_add {K} `{EqDecision K} (k : K) x l :
  NoDup (map fst l) → NoDup (map fst (setdefault_add k x l)).
Proof.
  induction l as [|[j X] l IH]; cbn; [intros; apply NoDup_singleton|].
  intros [Hj Hl]%NoDup_cons. case_decide; cbn; apply NoDup_cons; split; auto.
  rewrite setdefault_add_keys. naive_solver.
Qed.

(** A role id recorded under a key. *)
Definition granted {K} (l : list (K * gset Z)) (k : K) (rid : Z) : Prop := ∃ X, (k, X) ∈ l ∧ rid ∈ X.

Lemma granted_setdefault_add {K} `{EqDecision K} (k : K) x l k' rid :
  granted (setdefault_add k x l) k' rid ↔ granted l k' rid ∨ (k' = k ∧ rid = x).
Proof.
  unfold granted. induction l as [|[j X] l IH]; cbn.
  - split.
    + intros (X & [= -> ->]%list_elem_of_singleton & Hr). right. set_solver.
    + intros [(X & []%elem_of_nil & _)|[-> ->]]. exists {[x]}. rewrite list_elem_of_singleton. set_solver.
  - case_decide as Hj; setoid_rewrite elem_of_cons.
    + subst j. split.
      * intros (Y & [[= -> ->]|Hin] & Hr); [|left; eauto].
        apply elem_of_union in Hr as [->%elem_of_singleton|Hr]; [by right|left; eauto].
      * intros [(Y & [[= -> ->]|Hin] & Hr)|[-> ->]]; [exists ({[x]} ∪ X)|by eauto|exists ({[x]} ∪ X)];
          (split; [by left|]); apply elem_of_union; [by right|left; by apply elem_of_singleton].
    + split.
      * intros (Y & [?|Hin] & Hr); [eauto|]. destruct IH as [IH _]. destruct IH as [(Z & ? & ?)|?]; eauto.
      * intros [(Y & [?|Hin] & Hr)|?]; [eauto| |].
        -- destruct IH as [_ IH]. destruct IH as (Z & ? & ?); [left|]; eauto.
        -- destruct IH as [_ IH]. destruct IH as (Z & ? & ?); [by right|]; eauto.
Qed.

Lemma group_by_from (f : gmap string RoleV2) requests acc groups :
  foldM (λ groups req, r ← or_raise KeyError (f !! req_role_id req);
                       mret (setdefault_add (req_key req) (r_id r) groups)) acc requests = Ok groups →
  NoDup (map fst acc) →
  NoDup (map fst groups)
  ∧ (∀ k, k ∈ map fst groups ↔ k ∈ map fst acc ∨ k ∈ map req_key requests)
  ∧ (∀ k rid, granted groups k rid ↔ granted acc k rid ∨
       ∃ req r, req ∈ requests ∧ req_key req = k ∧ f !! req_role_id req = Some r ∧ r_id r = rid)
  ∧ (∀ req, req ∈ requests → is_Some (f !! req_role_id req)).
Proof.
  revert acc. induction requests as [|req reqs IH]; intros acc Hf Hn.
  { cbn in Hf. inv_ok. split_and!; [done| |intros k rid|]; set_solver. }
  apply bind_Ok in Hf as (acc' & Hs & Hf). apply bind_Ok in Hs as (r & Hr%or_raise_Ok & Hs). inv_ok.
  apply IH in Hf as (Hnd & Hk & Hg & Ha); [|by apply NoDup_setdefault_add]. split_and!; [done|..].
  - intros k. rewrite Hk, setdefault_add_keys. cbn. rewrite elem_of_cons. tauto.
  - intros k rid. rewrite Hg, granted_setdefault_add. setoid_rewrite elem_of_cons. split.
    + intros [[?|[-> ->]]|(req' & r' & ? & ?)]; [by left|right; exists req, r; auto|right; exists req', r'; auto].
    + intros [?|(req' & r' & [-> |?] & <- & Hr' & <-)]; [by left; left| |right; eauto 10].
      left. right. split; [done|]. congruence.
  - intros req' [->|?]%elem_of_cons; eauto.
Qed.

(* ------------------------------------------------------------------ *)
(** * Lemmas: lookups *)

Lemma wf_with_mappings f d : wf d → wf (with_mappings f d).
Proof. intros []. by constructor. Qed.

Lemma graph_with_mappings `{Settings} f d : bindings_graph (with_mappings f d) = bindings_graph d.
Proof. done. Qed.

Definition subject_uuid (s : Subject) : string :=
  match s with SGroup g => g_uuid g | SPrincipal p => pr_uuid p end.

Section lemmas.
Context `{Settings} `{PySetOrder} `{RowOrder}.
Variable self : RoleBindingService.
Implicit Types (d : Db) (b : RoleBinding) (s : Subject).

Lemma subject_groups_spec d uuids u g :
  wf d → subject_groups d uuids !! u = Some g → db_groups d !! g_id g = Some g ∧ g_uuid g = u.
Proof.
  intros Hwf. unfold subject_groups. case_decide; [by rewrite lookup_empty|].
  intros (g' & [= -> ->] & Hg)%dict_of_Some%list_elem_of_fmap.
  apply elem_of_select in Hg as [_ [i Hg]]. by rewrite (wf_group_id d Hwf i g' Hg).
Qed.

Lemma subject_users_spec d uuids users u p :
  wf d → subject_users d uuids = Ok users → users !! u = Some p →
  db_principals d !! pr_id p = Some p ∧ is_Some (user_id p) ∧ pr_uuid p = u.
Proof.
  intros Hwf. unfold subject_users. case_decide; [intros [= <-]; by rewrite lookup_empty|].
  intros (_ & Hun%raise_if_Ok & Hu)%bind_Ok Hp. inv_ok.
  rewrite <- not_true_iff_false, existsb_exists in Hun.
  pose proof Hp as (p' & [= -> ->] & Hin)%dict_of_Some%list_elem_of_fmap.
  apply elem_of_select in Hin as [_ [i Hi]]. rewrite (wf_principal_id d Hwf i p' Hi).
  split_and!; [done| |done]. destruct (user_id p') eqn:Hid; [done|]. exfalso. apply Hun.
  exists (pr_uuid p', p'). rewrite <- list_elem_of_In, elem_of_map_to_list. split; [done|].
  by apply bool_decide_eq_true.
Qed.

Lemma resolve_subjects_spec d requests subjects u s :
  wf d → resolve_subjects d requests = Ok subjects → subjects !! u = Some s →
  known_subject d s ∧ subject_uuid s = u.
Proof.
  intros Hwf Hr Hs. unfold resolve_subjects in Hr. apply bind_Ok in Hr as (_ & _ & Hr).
  apply bind_Ok in Hr as (users & Hu & Hr). apply bind_Ok in Hr as (_ & _ & Hr). inv_ok.
  apply lookup_union_Some_raw in Hs as [Hs|[_ Hs]]; apply lookup_fmap_Some in Hs as (x & <- & Hx).
  - apply (subject_users_spec d _ users u x Hwf Hu) in Hx. naive_solver.
  - apply subject_groups_spec in Hx; done.
Qed.

Lemma get_roles_spec ec d ids roles :
  wf d → get_roles ec d ids = Ok roles →
  (∀ r, r ∈ roles → db_roles d !! r_id r = Some r ∧ r_type r ≠ PLATFORM)
  ∧ (∀ u, u ∈ ids ↔ ∃ r, r ∈ roles ∧ r_uuid r = u).
Proof.
  intros Hwf. unfold get_roles. destruct ids as [|u0 l]; [intros [= <-]; set_solver|].
  case_decide as He; [|done]. intros Hr. inv_ok. split.
  - intros r [Hp [i Hi]]%elem_of_select. rewrite (wf_role_id d Hwf i r Hi). split; [done|].
    rewrite !andb_true_iff, !negb_true_iff, bool_decide_eq_false in Hp. tauto.
  - intros u. rewrite <- (elem_of_list_to_set (C := gset string)), <- He, elem_of_list_to_set, list_elem_of_fmap.
    naive_solver.
Qed.

(* ------------------------------------------------------------------ *)
(** * Lemmas: the loop *)

(** The primary keys and uuids the loop draws are new and pairwise different. *)
Record fresh_batch (gen : access_key → Z → Z * string) (keys : list access_key) (X : gset Z) (d : Db) : Prop := {
  fbt_id : ∀ k r, k ∈ keys → r ∈ X → db_bindings d !! fst (gen k r) = None;
  fbt_uuid : ∀ k r i b, k ∈ keys → r ∈ X → db_bindings d !! i = Some b → b_uuid b ≠ snd (gen k r);
  fbt_inj : ∀ k k' r r', k ∈ keys → k' ∈ keys → r ∈ X → r' ∈ X →
    fst (gen k r) = fst (gen k' r') ∨ snd (gen k r) = snd (gen k' r') → k = k' ∧ r = r';
}.

Lemma fresh_batch_gen gen keys X d k Y : fresh_batch gen keys X d → k ∈ keys → Y ⊆ X → fresh_gen (gen k) Y d.
Proof.
  intros [Hid Hu Hi] Hk HY. split; [eauto|eauto|]. intros r r' Hr Hr' Heq. by apply (Hi k k r r'); auto.
Qed.

Lemma fresh_batch_mono gen keys keys' X X' d :
  keys' ⊆ keys → X' ⊆ X → fresh_batch gen keys X d → fresh_batch gen keys' X' d.
Proof.
  intros Hk HX [Hid Hu Hi]. split; [eauto|eauto|].
  intros k k' r r' H1' H2' H3' H4'. apply Hi; auto.
Qed.

(** Rows created under one key leave the ids of the others fresh. *)
Lemma fresh_batch_next gen k keys X Y d d' :
  fresh_batch gen (k :: keys) X d → k ∉ keys → Y ⊆ X →
  (∀ i b, db_bindings d' !! i = Some b → db_bindings d !! i = Some b ∨
     ∃ r, r ∈ Y ∧ i = fst (gen k r) ∧ b_uuid b = snd (gen k r)) →
  fresh_batch gen keys X d'.
Proof.
  intros [Hid Hu Hi] Hk HY Hrows. split.
  - intros k' r Hk' Hr. destruct (db_bindings d' !! fst (gen k' r)) as [b|] eqn:Hb; [|done]. exfalso.
    apply Hrows in Hb as [Hb|(r' & Hr' & Hid' & _)]; [rewrite Hid in Hb; [done|by right|done]|].
    destruct (Hi k' k r r') as [-> _]; [by right|by left|done|auto|by left|done].
  - intros k' r i b Hk' Hr [Hb|(r' & Hr' & _ & Hu')]%Hrows Heq; [by eapply Hu; [right| | |]|].
    destruct (Hi k' k r r') as [-> _]; [by right|by left|done|auto|right; congruence|done].
  - intros k1 k2 r1 r2 H1' H2'. apply Hi; by right.
Qed.

Definition key_subject (k : access_key) : string := let '(_, sid, _, _) := k in sid.
Definition key_on (k : access_key) : RoleBinding → bool :=
  let '(_, _, rt, rid) := k in on_resource rt rid (t_id (svc_tenant self)).

(** Different access groups on one resource have different subjects. *)
Definition subjects_apart (subjects : gmap string Subject) (keys : list access_key) : Prop :=
  ∀ k k' s s' b, k ∈ keys → k' ∈ keys → subjects !! key_subject k = Some s → subjects !! key_subject k' = Some s' →
    key_on k b = true → key_on k' b = true → t_subject b s = t_subject b s' → k = k'.

(** Where a tuple the loop adds comes from: a binding it created, or a subject it
    linked. *)
Definition new_from (subjects : gmap string Subject) (keys : list access_key) d d' (t : RelationTuple) : Prop :=
  (∃ b, db_bindings d' !! b_id b = Some b ∧ db_bindings d !! b_id b = None ∧ base_of d' [b] t)
  ∨ (∃ k s b, k ∈ keys ∧ subjects !! key_subject k = Some s ∧ db_bindings d' !! b_id b = Some b
       ∧ key_on k b = true ∧ t = t_subject b s).

(** The state after the loop over the access groups. *)
Record batch_done (subjects : gmap string Subject) (groups : list (access_key * gset Z)) (new : list RelationTuple)
    (d d' : Db) : Prop := {
  bd_graph : ∀ t, t ∈ bindings_graph d' ↔ t ∈ bindings_graph d ∨ t ∈ new;
  bd_valid : Forall (λ t, rbac_tuple t = true) new;
  bd_rows : ∀ i b, db_bindings d !! i = Some b → db_bindings d' !! i = Some b;
  bd_keys : ∀ bid k, has_key d bid k → has_key d' bid k;
  bd_granted : ∀ k Y rid, (k, Y) ∈ groups → rid ∈ Y → ∃ s b, subjects !! key_subject k = Some s
    ∧ db_bindings d' !! b_id b = Some b ∧ key_on k b = true ∧ b_role b = rid
    ∧ has_key d' (b_id b) (entry_key self s);
  bd_only : ∀ bid ek, has_key d' bid ek → has_key d bid ek ∨ ∃ k Y s b, (k, Y) ∈ groups
    ∧ subjects !! key_subject k = Some s ∧ ek = entry_key self s
    ∧ db_bindings d' !! bid = Some b ∧ key_on k b = true ∧ b_role b ∈ Y;
  bd_from : ∀ t, t ∈ new → new_from subjects (map fst groups) d d' t;
  bd_nodup : subjects_apart subjects (map fst groups) → NoDup new;
}.

Lemma batch_step_done gen subjects roles_by_id d ts k Y d' ts' :
  wf d → (∀ u s, subjects !! u = Some s → known_subject d s) → known_roles roles_by_id Y d →
  fresh_gen (gen k) Y d →
  batch_step self gen subjects roles_by_id (d, ts) (k, Y) = Ok (d', ts') →
  wf d' ∧ same_tables d d' ∧ (∃ new, ts' = ts ++ new ∧ batch_done subjects [(k, Y)] new d d')
  ∧ (∀ i b, db_bindings d' !! i = Some b → db_bindings d !! i = Some b ∨
       ∃ r, r ∈ Y ∧ i = fst (gen k r) ∧ b_uuid b = snd (gen k r)).
Proof.
  intros Hwf Hsub Hkr Hf. destruct k as [[[sty sid] rt] rid]. unfold batch_step.
  intros (s & Hs%or_raise_Ok & Ha)%bind_Ok. apply bind_Ok in Ha as ([[created linked] d1] & Hadd & Ha).
  apply bind_Ok in Ha as ([add rem] & Hrep & Ha). inv_ok. pose proof (Hsub sid s Hs) as Hks.
  pose proof Hadd as (Hwf' & Hst & Hfr & Hg & _ & _ & Hnl & Hnc)%add_access_spec; [|done..].
  apply add_access_keys in Hadd as (Hkeys & Hrows & Hl & Hcov & Hcr); [|done..].
  apply replication_tuples_spec in Hrep as (Ht & _ & Hv & _ & Hnd). split_and!; [done|done| |].
  - exists add. split; [done|]. split.
    + intros t. by rewrite Hg, Ht, (base_of_same d d').
    + done.
    + intros i b Hb. apply Hrows. by left.
    + intros bid k Hk. apply Hkeys. by left.
    + intros k Z0 r [= -> ->]%list_elem_of_singleton Hr. destruct (Hcov r Hr) as (b & Hb & Hbr).
      exists s, b. pose proof Hb as (Hrow & Hon & _)%Hl. split_and!; try done. apply Hkeys. right. eauto.
    + intros bid ek [?|(-> & b & Hb & <-)]%Hkeys; [by left|]. right.
      exists (sty, sid, rt, rid), Y, s, b. apply Hl in Hb as (? & ? & ?). rewrite list_elem_of_singleton. done.
    + intros t [(b & Hb & Hbt)|(b & Hb & ->)]%Ht.
      * left. exists b. split_and!; [apply Hrows; by right|apply (fb_id d created Hfr b Hb)|].
        exists b. split; [by apply list_elem_of_singleton|done].
      * right. exists (sty, sid, rt, rid), s, b. apply Hl in Hb as (? & ? & _).
        split_and!; try done. left.
    + intros _. apply Hnd; [done|]. apply (uuid_NoDup d'); [done| |done]. intros b Hb. by apply Hl in Hb as [? _].
  - intros i b [?|[Hb <-]]%Hrows; [by left|]. right. exists (b_role b). by apply Hcr.
Qed.

Lemma new_from_disjoint subjects k keys d d1 d' t :
  wf d' → (∀ i b, db_bindings d1 !! i = Some b → db_bindings d' !! i = Some b) → k ∉ keys →
  subjects_apart subjects (k :: keys) →
  new_from subjects [k] d d1 t → new_from subjects keys d1 d' t → False.
Proof.
  intros Hwf Hrows Hk Hap.
  assert (∀ b c, db_bindings d1 !! b_id b = Some b → db_bindings d' !! b_id c = Some c → b_uuid b = b_uuid c →
    b = c) as Hsame.
  { intros b c Hb%Hrows Hc Hu. assert (b_id b = b_id c) as Hid by (by eapply (wf_binding_uuid d' Hwf)).
    rewrite Hid in Hb. congruence. }
  intros [(b & Hb & _ & Hbt)|(j & s & b & ->%list_elem_of_singleton & Hs & Hb & Hon & ->)]
         [(c & Hc & Hnone & Hct)|(k' & s' & c & Hk' & Hs' & Hc & Hon' & Ht)].
  - assert (b = c) as <-; [|congruence]. apply Hsame; [done|done|].
    destruct Hbt as (? & ->%list_elem_of_singleton & Hb'), Hct as (? & ->%list_elem_of_singleton & Hc').
    transitivity (owner_of t); [destruct Hb' as [->|(? & _ & ->)]|destruct Hc' as [->|(? & _ & ->)]]; done.
  - destruct Hbt as (? & _ & [Heq|(? & _ & Heq)]); destruct s'; cbn in Ht; rewrite Ht in Heq; kinds.
  - destruct Hct as (? & _ & [Heq|(? & _ & Heq)]); destruct s; cbn in Heq; kinds.
  - assert (b = c) as <-.
    { apply Hsame; [done|done|]. apply (f_equal owner_of) in Ht. by rewrite !owner_t_subject in Ht. }
    apply Hk. rewrite (Hap k k' s s' b); try done; [by left|by right].
Qed.

Lemma batch_done_cons subjects g gs new1 new2 d d1 d' :
  wf d' → same_tables d1 d' → fst g ∉ map fst gs →
  batch_done subjects [g] new1 d d1 → batch_done subjects gs new2 d1 d' →
  batch_done subjects (g :: gs) (new1 ++ new2) d d'.
Proof.
  intros Hwf Hst Hg [G1 V1 R1 K1 A1 O1 F1 N1] [G2 V2 R2 K2 A2 O2 F2 N2]. split.
  - intros t. rewrite G2, G1, elem_of_app. tauto.
  - by apply Forall_app.
  - auto.
  - auto.
  - intros k Y rid [<-|Hin]%elem_of_cons Hr; [|eauto].
    destruct (A1 k Y rid) as (s & b & Hs & Hb & Hon & Hrole & Hk); [by apply list_elem_of_singleton|done|].
    exists s, b. auto 10.
  - intros bid ek [Hk|(k & Y & s & b & Hin & ?)]%O2.
    + apply O1 in Hk as [?|(k & Y & s & b & <-%list_elem_of_singleton & Hs & He & Hb & Hon & Hr)]; [by left|].
      right. exists k, Y, s, b. split_and!; auto. by left.
    + right. exists k, Y, s, b. split; [by right|done].
  - intros t [Ht%F1|Ht%F2]%elem_of_app.
    + destruct Ht as [(b & Hb & Hn & Ht)|(k & s & b & Hk & ? & ? & ? & ?)].
      * left. exists b. rewrite <- (base_of_same d1 d') by done. auto.
      * right. exists k, s, b. split_and!; auto. apply list_elem_of_singleton in Hk as ->. by left.
    + destruct Ht as [(b & Hb & Hn & Ht)|(k & s & b & Hk & ?)].
      * left. exists b. split_and!; [done| |done]. destruct (db_bindings d !! b_id b) eqn:Hl; [|done].
        apply R1 in Hl. congruence.
      * right. exists k, s, b. split; [by right|done].
  - intros Hap. apply NoDup_app. split_and!.
    + apply N1. intros k k' s s' b ->%list_elem_of_singleton ->%list_elem_of_singleton. done.
    + intros t Ht1%F1 Ht2%F2. by eapply new_from_disjoint.
    + apply N2. intros k k' s s' b Hk Hk'. apply Hap; by right.
Qed.

Lemma batch_fold_done gen subjects roles groups d ts d' ts' :
  wf d → (∀ u s, subjects !! u = Some s → known_subject d s) →
  (∀ r, r ∈ roles → db_roles d !! r_id r = Some r) →
  (∀ k Y, (k, Y) ∈ groups → Y ⊆ list_to_set (map r_id roles)) → NoDup (map fst groups) →
  fresh_batch gen (map fst groups) (list_to_set (map r_id roles)) d →
  foldM (batch_step self gen subjects (dict_of (map (λ r, (r_id r, r)) roles))) (d, ts) groups = Ok (d', ts') →
  wf d' ∧ same_tables d d' ∧ ∃ new, ts' = ts ++ new ∧ batch_done subjects groups new d d'.
Proof.
  revert d ts. induction groups as [|[k Y] groups IH]; intros d ts Hwf Hsub Hroles HY Hn Hf Hfold.
  { cbn in Hfold. inv_ok. split_and!; [done|apply same_tables_refl|]. exists []. rewrite app_nil_r.
    split; [done|]. split; try set_solver. intros _. constructor. }
  apply NoDup_cons in Hn as [Hk Hn]. apply bind_Ok in Hfold as ([d1 ts1] & Hstep & Hfold).
  assert (Y ⊆ list_to_set (map r_id roles)) as HYs by (eapply HY; left).
  apply batch_step_done in Hstep as (Hwf1 & Hs1 & (new1 & -> & Hd1) & Hrows1);
    [|done|done|by apply known_roles_list|eapply fresh_batch_gen; [done|by left|done]].
  pose proof Hs1 as (_ & Hr1 & _).
  destruct (IH d1 (ts ++ new1)) as (Hwf' & Hs' & new2 & -> & Hd2); try done.
  - intros u s Hu. eapply known_subject_same; eauto.
  - by rewrite Hr1.
  - intros k' Y' Hin. eapply HY. by right.
  - by eapply fresh_batch_next.
  - split_and!; [done|by eapply same_tables_trans|]. exists (new1 ++ new2). rewrite <- app_assoc.
    split; [done|]. by eapply (batch_done_cons subjects (k, Y)).
Qed.

(** An event that was accepted had no duplicates. *)
Lemma replicate_tuples_accepted add remove ty es :
  REPLICATION_TO_RELATION_ENABLED = true → Forall (λ t, rbac_tuple t = true) add →
  replicate_tuples self add remove ty = Ok es →
  ∀ store, replay store es = Ok (list_to_set add ∪ (store ∖ list_to_set remove)).
Proof.
  intros He Hv Hr. assert (NoDup add) as Hn.
  { unfold replicate_tuples, emit in Hr. rewrite He in Hr. destruct add as [|a l]; [constructor|].
    cbn -[check_for_duplicate_relationships] in Hr. rewrite check_for_duplicates_eq in Hr.
    destruct remove; case_decide as Hnd; try done; by apply NoDup_of_map in Hnd. }
  destruct (replicate_tuples_effect self add remove ty He Hv Hn) as (es' & Hes' & Hrep).
  by assert (es' = es) as -> by congruence.
Qed.

(** Group uuids and principal uuids are drawn from one space. *)
Definition uuids_disjoint (d : Db) : Prop :=
  ∀ i j g p, db_groups d !! i = Some g → db_principals d !! j = Some p → g_uuid g ≠ pr_uuid p.

Lemma resolve_subjects_types d requests subjects req :
  wf d → resolve_subjects d requests = Ok subjects → req ∈ requests →
  (req_subject_type req = "group" → ∃ i g, db_groups d !! i = Some g ∧ g_uuid g = req_subject_id req)
  ∧ (req_subject_type req = "user" → ∃ i p, db_principals d !! i = Some p ∧ pr_uuid p = req_subject_id req).
Proof.
  intros Hwf Hr Hreq. unfold resolve_subjects in Hr. apply bind_Ok in Hr as (_ & Hg%raise_if_Ok & Hr).
  apply bind_Ok in Hr as (users & Hu & Hr). apply bind_Ok in Hr as (_ & Hp%raise_if_Ok & Hr). clear Hr.
  apply negb_false_iff, bool_decide_eq_true in Hg, Hp.
  assert (∀ ty, req_subject_type req = ty → req_subject_id req ∈ (list_to_set (map req_subject_id
    (List.filter (λ r, String.eqb (req_subject_type r) ty) requests)) : gset string)) as Hin.
  { intros ty Hty. rewrite elem_of_list_to_set, list_elem_of_fmap. exists req. split; [done|].
    rewrite list_elem_of_In, filter_In, <- list_elem_of_In, String.eqb_eq. done. }
  split; intros Hty%Hin.
  - assert (req_subject_id req ∈ dom (subject_groups d (list_to_set (map req_subject_id
      (List.filter (λ r, String.eqb (req_subject_type r) "group") requests))))) as [g Hg']%elem_of_dom by set_solver.
    apply subject_groups_spec in Hg' as [? ?]; eauto.
  - assert (req_subject_id req ∈ dom users) as [p Hp']%elem_of_dom by set_solver.
    apply (subject_users_spec d _ users _ p Hwf Hu) in Hp' as (? & _ & ?). eauto.
Qed.

Lemma same_subject d b s s' :
  wf d → known_subject d s → known_subject d s' → t_subject b s = t_subject b s' → subject_uuid s = subject_uuid s'.
Proof.
  intros Hwf Hs Hs' Heq. destruct s as [g|p], s' as [g'|p']; cbn in *; [|kinds|kinds|].
  - by apply t_group_inj in Heq as [_ ?].
  - destruct Hs as [Hp [u Hu]], Hs' as [Hp' [u' Hu']]. rewrite Hu, Hu' in Heq.
    apply t_user_inj in Heq as [_ ->]. assert (pr_id p = pr_id p') as Hid by (by eapply (wf_principal_user d Hwf)).
    rewrite Hid in Hp. congruence.
Qed.

Lemma resolved_apart d requests subjects :
  wf d → uuids_disjoint d → resolve_subjects d requests = Ok subjects →
  (∀ req, req ∈ requests → req_subject_type req = "group" ∨ req_subject_type req = "user") →
  subjects_apart subjects (map req_key requests).
Proof.
  intros Hwf Hdis Hr Hty k k' s s' b Hk Hk' Hs Hs' Hon Hon' Heq.
  apply list_elem_of_fmap in Hk as (q & -> & Hq), Hk' as (q' & -> & Hq'). cbn in *.
  destruct (resolve_subjects_spec d requests subjects _ s Hwf Hr Hs) as [Hks Hus].
  destruct (resolve_subjects_spec d requests subjects _ s' Hwf Hr Hs') as [Hks' Hus'].
  assert (req_subject_id q = req_subject_id q') as Hid.
  { rewrite <- Hus, <- Hus'. by eapply same_subject. }
  unfold on_resource in Hon, Hon'. rewrite !andb_true_iff, !String.eqb_eq in Hon, Hon'.
  unfold req_key. rewrite Hid. replace (req_resource_type q') with (req_resource_type q) by naive_solver congruence.
  replace (req_resource_id q') with (req_resource_id q) by naive_solver congruence.
  assert (req_subject_type q = req_subject_type q') as ->; [|done].
  destruct (resolve_subjects_types d requests subjects q Hwf Hr Hq) as [Hg Hp].
  destruct (resolve_subjects_types d requests subjects q' Hwf Hr Hq') as [Hg' Hp'].
  destruct (Hty q Hq) as [Ht|Ht], (Hty q' Hq') as [Ht'|Ht']; rewrite Ht, Ht'; [done| | |done]; exfalso.
  - destruct (Hg Ht) as (i & g & Hgr & Hgu), (Hp' Ht') as (j & p & Hpr & Hpu).
    apply (Hdis i j g p Hgr Hpr). congruence.
  - destruct (Hp Ht) as (i & p & Hpr & Hpu), (Hg' Ht') as (j & g & Hgr & Hgu).
    apply (Hdis j i g p Hgr Hpr). congruence.
Qed.

(** The loop over the access groups of the resolved requests. *)
Lemma batch_loop_done ec gen requests d roles subjects groups d' ts :
  wf d → fresh_batch gen (map req_key requests) (dom (db_roles d)) d →
  get_roles ec d (set_list (map req_role_id requests)) = Ok roles →
  resolve_subjects d requests = Ok subjects →
  group_by_subject_resource requests (dict_of (map (λ r, (r_uuid r, r)) roles)) = Ok groups →
  foldM (batch_step self gen subjects (dict_of (map (λ r, (r_id r, r)) roles))) (d, []) groups = Ok (d', ts) →
  wf d' ∧ same_tables d d' ∧ batch_done subjects groups ts d d'.
Proof.
  intros Hwf Hf Hroles Hsub Hg Hfold.
  destruct (get_roles_spec ec d _ roles Hwf Hroles) as [Hrows _].
  pose proof Hg as (Hn & Hk & Hgr & _)%group_by_from; [|constructor].
  assert (∀ k Y, (k, Y) ∈ groups → Y ⊆ list_to_set (map r_id roles)) as HY.
  { intros k Y Hin rid Hr. destruct (Hgr k rid) as [Hgr' _].
    destruct Hgr' as [(Z0 & Hx & _)|(req & r & _ & _ & Hl & <-)]; [by exists Y|by apply elem_of_nil in Hx|].
    apply dict_of_Some, list_elem_of_fmap in Hl as (r' & [= _ ->] & Hr').
    rewrite elem_of_list_to_set, list_elem_of_fmap. eauto. }
  apply batch_fold_done in Hfold as (Hwf' & Hs & new & -> & Hd); try done.
  - intros u s Hu. by apply (resolve_subjects_spec d requests subjects u s Hwf Hsub).
  - intros r Hr. by apply Hrows.
  - eapply fresh_batch_mono; [| |exact Hf].
    + intros k Hin. apply Hk in Hin as [[]%elem_of_nil|?]. done.
    + intros rid Hr. rewrite elem_of_list_to_set, list_elem_of_fmap in Hr. destruct Hr as (r & -> & Hr).
      apply elem_of_dom. destruct (Hrows r Hr) as [Hrow _]. eauto.
Qed.

(** What [batch_create] does, when it returns. *)
Lemma batch_create_spec service sc ec now gen requests d d' rows events :
  wf d → fresh_batch gen (map req_key requests) (dom (db_roles d)) d →
  batch_create self service sc ec now gen requests d = Ok (d', rows, events) →
  ∃ d0 roles subjects groups new,
    (∃ m, ensure_v2_write_activated now (db_mappings d !! t_id (svc_tenant self)) = Ok m
          ∧ d0 = with_mappings (<[t_id (svc_tenant self) := m]>) d)
    ∧ get_roles ec d0 (set_list (map req_role_id requests)) = Ok roles
    ∧ resolve_subjects d0 requests = Ok subjects
    ∧ group_by_subject_resource requests (dict_of (map (λ r, (r_uuid r, r)) roles)) = Ok groups
    ∧ wf d' ∧ same_tables d0 d' ∧ batch_done subjects groups new d0 d'
    ∧ replicate_tuples self new [] BATCH_CREATE_ROLE_BINDING = Ok events.
Proof.
  intros Hwf Hf Hb. unfold batch_create in Hb. apply bind_Ok in Hb as (m & Hm & Hb). cbn zeta in Hb.
  set (d0 := with_mappings _ d) in *. apply bind_Ok in Hb as (_ & _ & Hb).
  apply bind_Ok in Hb as (roles & Hroles & Hb). apply bind_Ok in Hb as (subjects & Hsub & Hb).
  apply bind_Ok in Hb as (_ & _ & Hb). apply bind_Ok in Hb as (sg & _ & Hb). apply bind_Ok in Hb as (_ & _ & Hb).
  apply bind_Ok in Hb as (groups & Hg & Hb). apply bind_Ok in Hb as ([d1 ts] & Hfold & Hb).
  apply bind_Ok in Hb as (es & Hes & Hb). apply bind_Ok in Hb as (rs & _ & Hb). inv_ok.
  assert (fresh_batch gen (map req_key requests) (dom (db_roles d)) d0) as Hf0 by (by destruct Hf; constructor).
  destruct (batch_loop_done ec gen requests d0 roles subjects groups d' ts) as (? & ? & ?);
    [by apply wf_with_mappings|done..|].
  exists d0, roles, subjects, groups, ts. split_and!; eauto.
Qed.
End lemmas.

(* ------------------------------------------------------------------ *)
(** * Properties *)

(** C13: [batch_create] keeps the relation graph in step: if it returns, the new
    state satisfies the constraints and replaying the one event it emits on the
    tuples of the old bindings gives exactly the tuples of the new ones, whatever
    mix of new and existing bindings, subjects and resources the requests name. *)
Theorem batch_create_refines `{Settings} `{PySetOrder} `{RowOrder} self service sc ec now gen requests d d'
    rows events :
  REPLICATION_TO_RELATION_ENABLED = true → wf d →
  fresh_batch gen (map req_key requests) (dom (db_roles d)) d →
  batch_create self service sc ec now gen requests d = Ok (d', rows, events) →
  wf d' ∧ replay (bindings_graph d) events = Ok (bindings_graph d').
Proof.
  intros He Hwf Hf Hb. apply batch_create_spec in Hb
    as (d0 & roles & subjects & groups & new & (m & _ & ->) & _ & _ & _ & Hwf' & _ & Hd & Hr); [|done..].
  split; [done|]. rewrite (replicate_tuples_accepted self new [] _ events He (bd_valid _ _ _ _ _ _ Hd) Hr).
  f_equal. apply set_eq. intros t. rewrite (bd_graph _ _ _ _ _ _ Hd t), graph_with_mappings. set_solver.
Qed.


(** C15: the batch never trips the duplicate check of the outbox.  When group and
    principal uuids are disjoint, the tuples the loop collects for the grouped
    requests are pairwise different, although several groups may share a binding, so
    the event is accepted. *)
Theorem batch_never_rejected `{Settings} `{PySetOrder} `{RowOrder} self ec gen requests d roles subjects groups d' ts :
  wf d → uuids_disjoint d →
  (∀ req, req ∈ requests → req_subject_type req = "group" ∨ req_subject_type req = "user") →
  fresh_batch gen (map req_key requests) (dom (db_roles d)) d →
  get_roles ec d (set_list (map req_role_id requests)) = Ok roles →
  resolve_subjects d requests = Ok subjects →
  group_by_subject_resource requests (dict_of (map (λ r, (r_uuid r, r)) roles)) = Ok groups →
  foldM (batch_step self gen subjects (dict_of (map (λ r, (r_id r, r)) roles))) (d, []) groups = Ok (d', ts) →
  NoDup ts ∧ ∃ events, replicate_tuples self ts [] BATCH_CREATE_ROLE_BINDING = Ok events.
Proof.
  intros Hwf Hdis Hty Hf Hr Hs Hg Hfold.
  destruct (batch_loop_done self ec gen requests d roles subjects groups d' ts) as (_ & _ & Hd); [done..|].
  apply group_by_from in Hg as (_ & Hk & _); [|constructor].
  assert (NoDup ts) as Hn.
  { apply (bd_nodup _ _ _ _ _ _ Hd). pose proof (resolved_apart self d requests subjects Hwf Hdis Hs Hty) as Hap.
    intros k k' s s' b Hk1 Hk2. apply Hk in Hk1 as [[]%elem_of_nil|], Hk2 as [[]%elem_of_nil|]. by apply Hap. }
  split; [done|]. apply replicate_tuples_total; [apply (bd_valid _ _ _ _ _ _ Hd)|done].
Qed.

(** C39: [_get_roles] looks a role up by uuid alone: an assignable role that is not
    excluded is returned to the service of any tenant, whichever tenant owns it. *)
Theorem get_roles_ignores_tenant `{Settings} `{PySetOrder} `{RowOrder} ec d i r :
  wf d → db_roles d !! i = Some r → r_type r ≠ PLATFORM →
  has_permission_in (fst (excluded_permission_ids d ec)) r = false →
  get_roles ec d [r_uuid r] = Ok [r].
Proof.
  intros Hwf Hr Ht He. unfold get_roles. set (p := λ x, bool_decide (r_uuid x ∈ [r_uuid r]) && _ && _).
  assert (select p (db_roles d) = [r]) as Hsel.
  { assert (∀ x, x ∈ select p (db_roles d) ↔ x = r) as Hin.
    { intros x. rewrite elem_of_select. unfold p.
      rewrite !andb_true_iff, !negb_true_iff, bool_decide_eq_true, bool_decide_eq_false, list_elem_of_singleton. split.
      - intros [[[Hu _] _] [j Hj]]. assert (i = j) as -> by (by eapply (wf_role_uuid d Hwf)). congruence.
      - intros ->. eauto 10. }
    pose proof (NoDup_of_map r_id _ (NoDup_select r_id p (db_roles d) (wf_role_id d Hwf))) as Hn.
    destruct (select p (db_roles d)) as [|x [|y l]].
    - exfalso. by apply (elem_of_nil r), Hin.
    - f_equal. apply Hin. left.
    - exfalso. apply NoDup_cons in Hn as [Hx _]. apply Hx. rewrite (proj1 (Hin x)), (proj1 (Hin y)); [left|right; left|left]. }
  rewrite Hsel. by rewrite decide_True.
Qed.

(* ------------------------------------------------------------------ *)
(** * Witnesses *)

(** Two roles, the second of another tenant, a group, a principal and two
    workspaces. *)
Definition foreign_role : RoleV2 := mkRoleV2 9 "r9" "r9" None CUSTOM 8 {[1%Z]} false.

Definition batch_db : Db := mkDb
  {[1%Z := mkPermission 1 "inventory:hosts:read" (mkPermissionValue "inventory" "hosts" "read")]}
  (list_to_map [(1, mkRoleV2 1 "r1" "r1" None CUSTOM 7 {[1]} false); (9, foreign_role)]%Z)
  {[1%Z := sample_group]} {[1%Z := sample_principal]} ∅ ∅ ∅
  (db_workspaces scope_db) {[7%Z := Tenants.sample_mapping]} ∅.

Definition batch_request (role sty sid : string) : CreateBindingRequest :=
  mkCreateBindingRequest role "workspace" "w1" sty sid.
Definition batch_requests : list CreateBindingRequest :=
  [batch_request "r1" "group" "g1"; batch_request "r1" "user" "p1"].

Definition batch_gen (k : access_key) (rid : Z) : Z * string :=
  let '(sty, _, _, _) := k in
  if String.eqb sty "group" then (if Z.eqb rid 1 then (11%Z, "n11") else (12%Z, "n12"))
  else (if Z.eqb rid 1 then (21%Z, "n21") else (22%Z, "n22")).

Definition batch_run (requests : list CreateBindingRequest) : result (Db * list BatchRow * list ReplicationEvent) :=
  @batch_create sample_settings _ _ sample_binding_service ScopeService.sample_service None
    (mkExcludedIdsCache None None) 5 batch_gen requests batch_db.
Definition batch_result : Db * list BatchRow * list ReplicationEvent :=
  match batch_run batch_requests with Ok r => r | Raise _ => (batch_db, [], []) end.

Lemma batch_wf : wf batch_db.
Proof. apply wf_checked_sound. by_compute. Qed.

Definition fresh_batch_checked (gen : access_key → Z → Z * string) (keys : list access_key) (X : gset Z) (d : Db) : Prop :=
  Forall (λ k, set_Forall (λ r, db_bindings d !! fst (gen k r) = None
    ∧ map_Forall (λ _ b, b_uuid b ≠ snd (gen k r)) (db_bindings d)
    ∧ Forall (λ k', set_Forall (λ r', fst (gen k r) = fst (gen k' r') ∨ snd (gen k r) = snd (gen k' r') →
        k = k' ∧ r = r') X) keys) X) keys.

Lemma fresh_batch_checked_sound gen keys X d : fresh_batch_checked gen keys X d → fresh_batch gen keys X d.
Proof.
  unfold fresh_batch_checked. rewrite Forall_forall. intros Hc. split.
  - intros k r Hk Hr. by apply (Hc k Hk r Hr).
  - intros k r i b Hk Hr Hb. destruct (Hc k Hk r Hr) as (_ & Hu & _). by apply (Hu i b).
  - intros k k' r r' Hk Hk' Hr Hr'. destruct (Hc k Hk r Hr) as (_ & _ & Hi).
    rewrite Forall_forall in Hi. by apply (Hi k' Hk' r' Hr').
Qed.

Lemma batch_fresh : fresh_batch batch_gen (map req_key batch_requests) (dom (db_roles batch_db)) batch_db.
Proof. apply fresh_batch_checked_sound. by_compute. Qed.

Lemma batch_result_eq :
  @batch_create sample_settings _ _ sample_binding_service ScopeService.sample_service None
    (mkExcludedIdsCache None None) 5 batch_gen batch_requests batch_db
  = Ok (batch_result.1.1, batch_result.1.2, batch_result.2).
Proof. by vm_compute. Qed.

Lemma batch_create_refines_witness :
  wf batch_result.1.1 ∧ replay (@bindings_graph sample_settings batch_db) batch_result.2
    = Ok (@bindings_graph sample_settings batch_result.1.1).
Proof.
  exact (@batch_create_refines sample_settings _ _ sample_binding_service ScopeService.sample_service None
    (mkExcludedIdsCache None None) 5 batch_gen batch_requests batch_db batch_result.1.1 batch_result.1.2
    batch_result.2 eq_refl batch_wf batch_fresh batch_result_eq).
Defined.


(** The intermediate values of the batch. *)
Definition ok_or {A} (a : A) (r : result A) : A := match r with Ok x => x | Raise _ => a end.
Definition batch_roles : list RoleV2 :=
  ok_or [] (@get_roles sample_settings _ (mkExcludedIdsCache None None) batch_db
    (set_list (map req_role_id batch_requests))).
Definition batch_subjects : gmap string Subject := ok_or ∅ (resolve_subjects batch_db batch_requests).
Definition batch_groups : list (access_key * gset Z) :=
  ok_or [] (group_by_subject_resource batch_requests (dict_of (map (λ r, (r_uuid r, r)) batch_roles))).
Definition batch_loop : Db * list RelationTuple :=
  ok_or (batch_db, []) (foldM (@batch_step sample_settings _ _ sample_binding_service batch_gen batch_subjects
    (dict_of (map (λ r, (r_id r, r)) batch_roles))) (batch_db, []) batch_groups).

Lemma batch_never_rejected_witness :
  NoDup batch_loop.2 ∧ ∃ events,
    @replicate_tuples sample_settings sample_binding_service batch_loop.2 [] BATCH_CREATE_ROLE_BINDING = Ok events.
Proof.
  apply (@batch_never_rejected sample_settings _ _ sample_binding_service (mkExcludedIdsCache None None) batch_gen
    batch_requests batch_db batch_roles batch_subjects batch_groups batch_loop.1 batch_loop.2 batch_wf).
  - intros i j g p Hg Hp. cbn in Hg, Hp. apply lookup_singleton_Some in Hg as [_ <-], Hp as [_ <-]. done.
  - intros req Hr. unfold batch_requests in Hr. rewrite !elem_of_cons, elem_of_nil in Hr.
    destruct Hr as [-> |[-> |[]]]; cbn; auto.
  - apply batch_fresh.
  - by vm_compute.
  - by vm_compute.
  - by vm_compute.
  - by vm_compute.
Defined.

Lemma get_roles_ignores_tenant_witness :
  r_tenant foreign_role ≠ t_id (svc_tenant sample_binding_service)
  ∧ @get_roles sample_settings _ (mkExcludedIdsCache None None) batch_db ["r9"] = Ok [foreign_role].
Proof.
  split; [done|]. apply (@get_roles_ignores_tenant sample_settings _ _ (mkExcludedIdsCache None None) batch_db 9
    foreign_role batch_wf); [reflexivity|done|by vm_compute].
Defined.
