(* ===== verification/RoleV2Service.v ===== *)
(** Custom V2 roles: rbac/management/role/v2_service.py with the tuples of
    rbac/management/role/v2_model.py and the permission lookup of
    rbac/management/permission/service.py. *)

From S2P Require Import Prelude.
From S2P Require Import PyString.
From S2P Require Import Config.
From S2P Require Import RelationTypes.
From S2P Require Import TupleStore.
From S2P Require Import Permissions.
From S2P Require Import ScopeService.
From S2P Require Import Outbox.
From S2P Require Import Tenants.
From S2P Require Import Db.
From S2P Require Import BindingGraph.
From S2P Require Import RoleBindingService.
From S2P Require Import RoleScopes.

(* ------------------------------------------------------------------ *)
(** * The tuples of a role *)

(** [role_permission_tuple] *)
Definition role_permission_tuple (role_id permission : string) : result RelationTuple :=
  create_relationship ("rbac", "role") role_id ("rbac", "principal") "*" permission None.

(** [RoleV2._permission_tuple] *)
Definition permission_tuple (role : RoleV2) (p : Permission) : result RelationTuple :=
  role_permission_tuple (r_uuid role) (v2_string (p_parts p)).

(** The rows of a set of permission ids, in the order of a set. *)
Definition permissions_of `{PySetOrder} (d : Db) (ids : gset Z) : list Permission :=
  omap (λ pid, db_permissions d !! pid) (set_iter ids).

Section tuples.
Context `{Settings} `{PySetOrder}.

(** [RoleV2._permission_and_owner_tuples]: [list({...})] is a set of tuples. *)
Definition permission_and_owner_tuples (role : RoleV2) (tenant : Tenant)
    (cached_permissions : list Permission) : result (list RelationTuple) :=
  let rid := tenant_resource_id tenant in
  _ ← (if decide (r_type role = CUSTOM) then raise_if (bool_decide (rid = None)) RuntimeError
       else raise_if (bool_decide (is_Some rid)) RuntimeError);
  perms ← mapM (permission_tuple role) cached_permissions;
  match rid with
  | None => mret (set_list perms)
  | Some rid => o ← role_owner_relationship (r_uuid role) rid;
                mret (set_list perms ++ [o])
  end.

(** [tuples_for_create] and [tuples_for_delete] *)
Definition tuples_for_create (role : RoleV2) (tenant : Tenant) (cached_permissions : list Permission) :
    result (list RelationTuple) := permission_and_owner_tuples role tenant cached_permissions.
Definition tuples_for_delete (d : Db) (role : RoleV2) (tenant : Tenant) : result (list RelationTuple) :=
  permission_and_owner_tuples role tenant (permissions_of d (r_permissions role)).

(** [tuples_for_update]: sets of Permission objects, which are equal when their
    primary keys are. *)
Definition tuples_for_update (d : Db) (role : RoleV2) (old_permissions new_permissions : gset Z) :
    result (list RelationTuple * list RelationTuple) :=
  add ← mapM (permission_tuple role) (permissions_of d (new_permissions ∖ old_permissions));
  rem ← mapM (permission_tuple role) (permissions_of d (old_permissions ∖ new_permissions));
  mret (add, rem).
End tuples.

(* ------------------------------------------------------------------ *)
(** * The service *)

(** [except InvalidPermissionDataError as e: raise InvalidRolePermissionsError] *)
Definition wrap_invalid {A} (r : result A) : result A :=
  match r with
  | Raise InvalidPermissionDataError => Raise InvalidRolePermissionsError
  | _ => r
  end.

(** The result of a [result] fold over bindings or roles, appended per key of a
    dict in insertion order. *)
Fixpoint extend_at {A} (k : string) (xs : list A) (l : list (string * list A)) : list (string * list A) :=
  match l with
  | [] => []
  | (k', ys) :: l' => if String.eqb k' k then (k', ys ++ xs) :: l' else (k', ys) :: extend_at k xs l'
  end.

(** [d.setdefault(k, [])] and [d.setdefault(k, []).append(x)] *)
Fixpoint setdefault_append {A} (k : string) (xs : list A) (l : list (string * list A)) : list (string * list A) :=
  match l with
  | [] => [(k, xs)]
  | (k', ys) :: l' => if String.eqb k' k then (k', ys ++ xs) :: l' else (k', ys) :: setdefault_append k xs l'
  end.

Section service.
Context `{Settings} `{PySetOrder} `{RowOrder}.
Variable service : ImplicitResourceService.

(** [PermissionService.resolve] *)
Definition resolve_permissions (d : Db) (data : list (list (string * option string))) : result (list Permission) :=
  match data with
  | [] => mret []
  | _ => strings ← mapM (λ p, v1_string <$> from_v2_dict p) data;
         mret (select (λ p, bool_decide (p_permission p ∈ strings)) (db_permissions d))
  end.

(** [_validate_and_resolve_permissions] *)
Definition validate_and_resolve_permissions (d : Db) (data : list (list (string * option string))) :
    result (list Permission) :=
  _ ← raise_if (bool_decide (data = [])) (RequiredFieldError "permissions");
  '(permissions, requested) ← wrap_invalid (
     permissions ← resolve_permissions d data;
     requested ← mapM (λ p, v1_string <$> from_v2_dict p) data;
     mret (permissions, requested));
  let found : gset string := list_to_set (map p_permission permissions) in
  _ ← raise_if (negb (bool_decide (list_to_set requested ∖ found = ∅))) PermissionsNotFoundError;
  let excluded_apps := v2_role_excluded_applications in
  _ ← raise_if (negb (bool_decide (excluded_apps = ∅))
                && existsb (λ p, bool_decide (application (p_parts p) ∈ excluded_apps)) permissions)
        InvalidRolePermissionsError;
  scopes ← mapM (λ p, scope_for_permission service (p_permission p)) permissions;
  let concrete_scopes : gset Scope := list_to_set scopes ∖ {[Scope.ALL]} in
  _ ← raise_if (Nat.ltb 1 (size concrete_scopes)) InvalidRolePermissionsError;
  mret permissions.

(** [role.save()]: [full_clean] with the model's [clean], the length of the name and
    the unique constraint on name and tenant. *)
Definition role_full_clean (d : Db) (role : RoleV2) : result unit :=
  _ ← raise_if (negb (str_truth (strip (r_name role)))) (RequiredFieldError "name");
  _ ← raise_if (Nat.ltb 175 (String.length (r_name role))) (ValidationError "name");
  raise_if (existsb (λ r, String.eqb (r_name r) (r_name role) && Z.eqb (r_tenant r) (r_tenant role)
                          && negb (Z.eqb (r_id r) (r_id role))) (map snd (map_to_list (db_roles d))))
    RoleAlreadyExistsError.

(** [create]; [gen] is the new primary key and uuid. *)
Definition create_role (gen : Z * string) (name : string) (description : option string)
    (data : list (list (string * option string))) (tenant : Tenant) (d : Db) :
    result (Db * RoleV2 * list ReplicationEvent) :=
  permissions ← validate_and_resolve_permissions d data;
  let role := mkRoleV2 (fst gen) (snd gen) name description CUSTOM (t_id tenant)
                (list_to_set (map p_id permissions)) false in
  _ ← role_full_clean d role;
  let d' := with_roles (<[r_id role := role]>) d in
  tuples_to_add ← tuples_for_create role tenant permissions;
  events ← emit (mkReplicationEvent CREATE_CUSTOM_ROLE
    [("role_uuid", Some (r_uuid role)); ("org_id", Some (py_str (org_id tenant)))] tuples_to_add []);
  mret (d', role, events).

(** [update] *)
Definition update_role (role_uuid name : string) (description : option string)
    (data : list (list (string * option string))) (tenant : Tenant) (d : Db) :
    result (Db * RoleV2 * list ReplicationEvent) :=
  permissions ← validate_and_resolve_permissions d data;
  match select (λ r, String.eqb (r_uuid r) role_uuid && Z.eqb (r_tenant r) (t_id tenant)
                     && bool_decide (r_type r = CUSTOM)) (db_roles d) with
  | [] =>
      public ← or_raise (DoesNotExist "Tenant")
        (head (select (λ t, String.eqb (tenant_name t) PUBLIC_TENANT_NAME) (db_tenants d)));
      if existsb (λ r, String.eqb (r_uuid r) role_uuid && Z.eqb (r_tenant r) (t_id public))
           (map snd (map_to_list (db_roles d)))
      then Raise CustomRoleRequiredError else Raise (NotFoundError "role")
  | old :: _ =>
      let new_permissions := list_to_set (map p_id permissions) in
      let role := mkRoleV2 (r_id old) (r_uuid old) name description (r_type old) (r_tenant old)
                    new_permissions (r_ocm old) in
      _ ← role_full_clean d role;
      let d' := with_roles (<[r_id role := role]>) d in
      '(tuples_to_add, tuples_to_remove) ← tuples_for_update d' role (r_permissions old) new_permissions;
      events ← emit (mkReplicationEvent UPDATE_CUSTOM_ROLE
        [("role_uuid", Some (r_uuid role)); ("org_id", Some (py_str (org_id tenant)))]
        tuples_to_add tuples_to_remove);
      mret (d', role, events)
  end.

(** [bulk_delete] *)
Definition bulk_delete_roles (ids : gset string) (from_tenant : option Z) (d : Db) :
    result (Db * list RoleV2 * list ReplicationEvent) :=
  let roles := select (λ r, bool_decide (r_uuid r ∈ ids)
                 && match from_tenant with Some t => Z.eqb (r_tenant r) t | None => true end) (db_roles d) in
  _ ← raise_if (negb (Nat.eqb (length roles) (size ids))) RolesNotFoundError;
  _ ← raise_if (existsb (λ r, negb (bool_decide (r_type r = CUSTOM))) roles) CustomRoleRequiredError;
  let pks : gset Z := list_to_set (map r_id roles) in
  let roles_to_remove := select (λ r, bool_decide (r_id r ∈ pks) && bool_decide (r_type r = CUSTOM)) (db_roles d) in
  owned ← mapM (λ r, t ← or_raise (DoesNotExist "Tenant") (db_tenants d !! r_tenant r); mret (r, t)) roles_to_remove;
  let role_org_ids := dict_of (map (λ rt, (r_id (fst rt), py_str (org_id (snd rt)))) owned) in
  let role_uuids_by_org := foldl (λ m rt, setdefault_append (py_str (org_id (snd rt))) [r_uuid (fst rt)] m) [] owned in
  let relations0 := map (λ kv, (fst kv, [])) role_uuids_by_org in
  let bindings := select (λ b, bool_decide (b_role b ∈ pks)) (db_bindings d) in
  relations1 ← foldM (λ m b, org ← or_raise KeyError (role_org_ids !! b_role b);
                             ts ← all_tuples d b; mret (extend_at org ts m)) relations0 bindings;
  relations2 ← foldM (λ m rt, ts ← tuples_for_delete d (fst rt) (snd rt);
                              mret (extend_at (py_str (org_id (snd rt))) ts m)) relations1 owned;
  events ← mapM (λ kv, remove ← or_raise KeyError (dict_of relations2 !! fst kv);
                       emit (mkReplicationEvent DELETE_CUSTOM_ROLE
                         [("role_uuids", Some (join_with "," (snd kv))); ("org_id", Some (fst kv))] [] remove))
             role_uuids_by_org;
  let d1 := delete_bindings (list_to_set (map b_id bindings)) d in
  let d2 := with_roles (filter (λ kr, fst kr ∉ pks)) d1 in
  mret (d2, roles_to_remove, concat events).
End service.

(* ------------------------------------------------------------------ *)
(** * The relation graph of custom roles *)

Definition t_permission (r : RoleV2) (name : string) : RelationTuple :=
  rel_tuple ("rbac", "role") (r_uuid r) ("rbac", "principal") "*" name None.
Definition t_owner (r : RoleV2) (tenant_id : string) : RelationTuple :=
  rel_tuple ("rbac", "role") (r_uuid r) ("rbac", "tenant") tenant_id "owner" None.

(** The tuples a custom role stands for: one per permission, and its owner. *)
Inductive role_tuple `{Settings} (d : Db) (r : RoleV2) : RelationTuple → Prop :=
| role_tuple_permission pid p :
    pid ∈ r_permissions r → db_permissions d !! pid = Some p →
    role_tuple d r (t_permission r (v2_string (p_parts p)))
| role_tuple_owner tn rid :
    db_tenants d !! r_tenant r = Some tn → tenant_resource_id tn = Some rid →
    role_tuple d r (t_owner r rid).

Definition role_snapshot `{Settings} (d : Db) (r : RoleV2) : tuples :=
  list_to_set (omap (λ pid, (λ p, t_permission r (v2_string (p_parts p))) <$> (db_permissions d !! pid))
    (elements (r_permissions r)))
  ∪ match db_tenants d !! r_tenant r ≫= tenant_resource_id with Some rid => {[t_owner r rid]} | None => ∅ end.

Definition roles_graph `{Settings} (d : Db) : tuples :=
  ⋃ (map (λ kr, if decide (r_type (snd kr) = CUSTOM) then role_snapshot d (snd kr) else ∅)
       (map_to_list (db_roles d))).

(** The whole graph: bindings and custom roles. *)
Definition full_graph `{Settings} (d : Db) : tuples := bindings_graph d ∪ roles_graph d.

(** The constraints on permissions, roles and tenants. *)
Record role_wf (d : Db) : Prop := {
  rw_perm_id : ∀ i p, db_permissions d !! i = Some p → p_id p = i;
  rw_role_perm : ∀ i r pid, db_roles d !! i = Some r → pid ∈ r_permissions r → is_Some (db_permissions d !! pid);
  rw_tenant_id : ∀ i t, db_tenants d !! i = Some t → t_id t = i;
}.

Section graph.
Context `{Settings} `{PySetOrder} `{RowOrder}.
Implicit Types (d : Db) (r : RoleV2) (t : RelationTuple).

Lemma elem_of_role_snapshot d r t : t ∈ role_snapshot d r ↔ role_tuple d r t.
Proof.
  unfold role_snapshot. rewrite elem_of_union, elem_of_list_to_set, list_elem_of_omap. split.
  - intros [(pid & Hin%elem_of_elements & Hp)|Ho].
    + destruct (db_permissions d !! pid) as [p|] eqn:Hl; [|done]. simplify_eq/=. by econstructor.
    + destruct (db_tenants d !! r_tenant r) as [tn|] eqn:Ht; [|done]. cbn in Ho.
      destruct (tenant_resource_id tn) as [rid|] eqn:Hr; [|done]. apply elem_of_singleton in Ho as ->.
      by econstructor.
  - intros [pid p Hin Hp|tn rid Ht Hr].
    + left. exists pid. rewrite elem_of_elements, Hp. done.
    + right. rewrite Ht. cbn. rewrite Hr. by apply elem_of_singleton.
Qed.

Lemma elem_of_roles_graph d t :
  t ∈ roles_graph d ↔ ∃ i r, db_roles d !! i = Some r ∧ r_type r = CUSTOM ∧ role_tuple d r t.
Proof.
  unfold roles_graph. rewrite elem_of_union_list. setoid_rewrite list_elem_of_fmap. split.
  - intros (X & ([i r] & -> & Hin%elem_of_map_to_list) & Ht). cbn in Ht. case_decide; [|set_solver].
    apply elem_of_role_snapshot in Ht. eauto.
  - intros (i & r & Hr & Hc & Ht). exists (role_snapshot d r). split; [|by apply elem_of_role_snapshot].
    exists (i, r). cbn. rewrite decide_True by done. by rewrite elem_of_map_to_list.
Qed.

Lemma role_tuple_resource d r t :
  role_tuple d r t → resource t = mkObjectReference (mkObjectType "rbac" "role") (r_uuid r).
Proof. by destruct 1. Qed.

Lemma role_tuple_ext d d' r t :
  db_permissions d' = db_permissions d → db_tenants d' = db_tenants d → role_tuple d r t ↔ role_tuple d' r t.
Proof.
  intros Hp Ht. split; intros Hr; destruct Hr as [pid p Hin Hl|tn rid Hl Hrid];
    [eapply role_tuple_permission|eapply role_tuple_owner|eapply role_tuple_permission|eapply role_tuple_owner];
    rewrite ?Hp, ?Ht in *; done.
Qed.

(** The tuples of roles and those of bindings are different. *)
Lemma role_tuple_not_binding d d' r b t : role_tuple d r t → binding_has d' b t → False.
Proof.
  intros Hr Hb. destruct Hr as [pid p _ _|tn rid _ _]; inversion Hb; simplify_eq.
Qed.

(* ------------------------------------------------------------------ *)
(** * Lemmas: the tuples of an operation *)

Lemma permission_tuple_spec r p t : permission_tuple r p = Ok t → t = t_permission r (v2_string (p_parts p)).
Proof. unfold permission_tuple, role_permission_tuple. by intros [-> _]%create_relationship_spec. Qed.

Lemma mapM_permission_tuples r ps ts :
  mapM (permission_tuple r) ps = Ok ts → ts = map (λ p, t_permission r (v2_string (p_parts p))) ps.
Proof.
  intros Hm%mapM_result_Ok. induction Hm as [|p t ps ts Hp _ IH]; cbn; [done|].
  by rewrite (permission_tuple_spec r p t Hp), IH.
Qed.

Lemma permission_and_owner_spec r tn ps l :
  permission_and_owner_tuples r tn ps = Ok l →
  ∀ t, t ∈ l ↔ (∃ p, p ∈ ps ∧ t = t_permission r (v2_string (p_parts p)))
               ∨ (∃ rid, tenant_resource_id tn = Some rid ∧ t = t_owner r rid).
Proof.
  unfold permission_and_owner_tuples. intros (_ & _ & Hl)%bind_Ok.
  apply bind_Ok in Hl as (ts & Hts & Hl). apply mapM_permission_tuples in Hts as ->.
  intros t. destruct (tenant_resource_id tn) as [rid|].
  - apply bind_Ok in Hl as (o & Ho & Hl). unfold role_owner_relationship in Ho.
    apply create_relationship_spec in Ho as [-> _]. inv_ok.
    rewrite elem_of_app, elem_of_set_list, list_elem_of_fmap, list_elem_of_singleton. naive_solver.
  - inv_ok. rewrite elem_of_set_list, list_elem_of_fmap. naive_solver.
Qed.

(** An event that was accepted had no duplicates. *)
Lemma emit_accepted e es :
  REPLICATION_TO_RELATION_ENABLED = true → emit e = Ok es →
  ∀ store, replay store es = Ok (list_to_set (ev_add e) ∪ (store ∖ list_to_set (ev_remove e))).
Proof.
  intros He Hem store. unfold emit in Hem. rewrite He, check_for_duplicates_eq in Hem.
  case_decide as Hn; [|done]. cbn in Hem. apply NoDup_of_map in Hn.
  assert (replay store [e] = Ok (list_to_set (ev_add e) ∪ (store ∖ list_to_set (ev_remove e)))) as Hr.
  { unfold replay, in_memory_replicate. cbn. by rewrite write_eq, decide_True. }
  destruct (ev_add e) as [|a l] eqn:Ha, (ev_remove e) as [|x l'] eqn:Hb;
    apply Ok_inj in Hem; subst es; [|done..]. cbn. f_equal. set_solver.
Qed.

(** Inserting or replacing a custom role. *)
Lemma roles_graph_insert d r t :
  wf d → r_type r = CUSTOM →
  t ∈ roles_graph (with_roles (<[r_id r := r]>) d) ↔
  role_tuple d r t ∨ ∃ i r', i ≠ r_id r ∧ db_roles d !! i = Some r' ∧ r_type r' = CUSTOM ∧ role_tuple d r' t.
Proof.
  intros Hwf Hc. rewrite elem_of_roles_graph. cbn.
  setoid_rewrite <- (role_tuple_ext d (with_roles (<[r_id r := r]>) d)); [|done|done]. split.
  - intros (i & r' & Hl & Hc' & Ht). destruct (decide (i = r_id r)) as [->|Hne].
    + rewrite lookup_insert_eq in Hl. simplify_eq. by left.
    + rewrite lookup_insert_ne in Hl by done. right. eauto 10.
  - intros [Ht|(i & r' & Hne & Hl & Hc' & Ht)].
    + exists (r_id r), r. by rewrite lookup_insert_eq.
    + exists i, r'. by rewrite lookup_insert_ne.
Qed.

(** The bindings only see the uuids of their roles. *)
Lemma bindings_graph_roles f d :
  wf d →
  (∀ i b r, db_bindings d !! i = Some b → db_roles d !! b_role b = Some r →
     ∃ r', f (db_roles d) !! b_role b = Some r' ∧ r_uuid r' = r_uuid r) →
  bindings_graph (with_roles f d) = bindings_graph d.
Proof.
  intros Hwf Hf. apply set_eq. intros t. rewrite !elem_of_graph. cbn. split.
  - intros (i & b & Hb & Ht). exists i, b. split; [done|]. destruct (wf_binding_role d Hwf i b Hb) as [r Hr].
    destruct (Hf _ _ _ Hb Hr) as (r' & Hr' & Hu). destruct Ht as [r0 Hr0| |gid g ? ?|pid src p ? ?]; cbn in *;
      [|by econstructor..]. assert (r0 = r') as -> by congruence. rewrite Hu. by constructor.
  - intros (i & b & Hb & Ht). exists i, b. split; [done|]. destruct Ht as [r Hr| |gid g ? ?|pid src p ? ?];
      [|by econstructor..]. destruct (Hf _ _ _ Hb Hr) as (r' & Hr' & Hu). rewrite <- Hu. by constructor.
Qed.

(* ------------------------------------------------------------------ *)
(** * Lemmas: creating and updating *)

Lemma resolved_rows service d data ps :
  role_wf d → validate_and_resolve_permissions service d data = Ok ps →
  ∀ p, p ∈ ps → db_permissions d !! p_id p = Some p.
Proof.
  intros Hrw Hv p Hp. unfold validate_and_resolve_permissions in Hv. apply bind_Ok in Hv as (_ & _ & Hv).
  apply bind_Ok in Hv as ([ps' req] & Hres & Hv). apply bind_Ok in Hv as (_ & _ & Hv).
  apply bind_Ok in Hv as (_ & _ & Hv). apply bind_Ok in Hv as (sc & _ & Hv). apply bind_Ok in Hv as (_ & _ & Hv).
  inv_ok. unfold wrap_invalid in Hres. destruct (resolve_permissions d data) as [ps'|e] eqn:Hr; [|by destruct e].
  cbn in Hres. destruct (mapM _ data) as [req'|e]; [|by destruct e]. cbn in Hres. simplify_eq.
  unfold resolve_permissions in Hr. destruct data; [inv_ok; set_solver|].
  apply bind_Ok in Hr as (strings & _ & Hr). inv_ok.
  apply elem_of_select in Hp as [_ [i Hi]]. by rewrite (rw_perm_id d Hrw i p Hi).
Qed.

Lemma wf_insert_role d r :
  wf d → (∀ i r', db_roles d !! i = Some r' → r_uuid r' = r_uuid r → i = r_id r) →
  wf (with_roles (<[r_id r := r]>) d).
Proof.
  intros Hwf Hu. destruct Hwf as [? ? Hbr ? Hid Huu ? ? ? ? ? ?]. constructor; cbn; try done.
  - intros i b Hb. rewrite lookup_insert_is_Some'. right. eauto.
  - intros i r' Hl. apply lookup_insert_Some in Hl as [[<- <-]|[_ Hl]]; eauto.
  - intros i j r1 r2 H1' H2' Heq.
    apply lookup_insert_Some in H1' as [[<- <-]|[Hn1 H1']], H2' as [[<- <-]|[Hn2 H2']]; eauto.
    symmetry. eauto.
Qed.

Lemma role_wf_insert d r :
  role_wf d → (∀ pid, pid ∈ r_permissions r → is_Some (db_permissions d !! pid)) →
  role_wf (with_roles (<[r_id r := r]>) d).
Proof.
  intros [Hp Hr Ht] Hrows. constructor; cbn; [done| |done]. intros i r' pid Hl Hin.
  apply lookup_insert_Some in Hl as [[<- <-]|[_ Hl]]; eauto.
Qed.

(** The role's tuples are those of the permissions it was given and its owner. *)
Lemma role_tuple_given d r tn ps t :
  db_tenants d !! r_tenant r = Some tn → (∀ p, p ∈ ps → db_permissions d !! p_id p = Some p) →
  r_permissions r = list_to_set (map p_id ps) →
  role_tuple d r t ↔ (∃ p, p ∈ ps ∧ t = t_permission r (v2_string (p_parts p)))
                     ∨ (∃ rid, tenant_resource_id tn = Some rid ∧ t = t_owner r rid).
Proof.
  intros Htn Hrows Hp. split.
  - intros [pid p Hin Hl|tn' rid Hl Hrid].
    + rewrite Hp, elem_of_list_to_set, list_elem_of_fmap in Hin. destruct Hin as (p' & -> & Hin).
      left. exists p'. rewrite (Hrows p' Hin) in Hl. by simplify_eq.
    + right. simplify_eq. eauto.
  - intros [(p & Hin & ->)|(rid & Hrid & ->)]; [|by econstructor].
    apply (role_tuple_permission d r (p_id p)); [|by apply Hrows].
    rewrite Hp, elem_of_list_to_set. by apply list_elem_of_fmap_2.
Qed.

Lemma create_role_graph service gen name desc data tn d d' role events :
  REPLICATION_TO_RELATION_ENABLED = true → wf d → role_wf d → db_tenants d !! t_id tn = Some tn →
  db_roles d !! fst gen = None → (∀ i r, db_roles d !! i = Some r → r_uuid r ≠ snd gen) →
  create_role service gen name desc data tn d = Ok (d', role, events) →
  wf d' ∧ role_wf d' ∧ d' = with_roles (<[fst gen := role]>) d
  ∧ replay (full_graph d) events = Ok (full_graph d').
Proof.
  intros He Hwf Hrw Htn Hfi Hfu Hc. unfold create_role in Hc. apply bind_Ok in Hc as (ps & Hps & Hc).
  set (r := mkRoleV2 _ _ _ _ _ _ _ _) in Hc. apply bind_Ok in Hc as (_ & _ & Hc). cbn zeta in Hc.
  apply bind_Ok in Hc as (add & Hadd & Hc). apply bind_Ok in Hc as (es & Hes & Hc). inv_ok.
  pose proof (resolved_rows service d data ps Hrw Hps) as Hrows.
  split_and!; [apply wf_insert_role; [done|]|apply role_wf_insert; [done|]|done|].
  - intros i r' Hl Hu. by destruct (Hfu i r' Hl).
  - intros pid Hin. cbn in Hin. rewrite elem_of_list_to_set, list_elem_of_fmap in Hin.
    destruct Hin as (p & -> & Hin). rewrite (Hrows p Hin). eauto.
  - rewrite (emit_accepted _ _ He Hes). cbn [ev_add ev_remove]. f_equal. apply set_eq. intros t. unfold full_graph.
    rewrite bindings_graph_roles; [|done|].
    2:{ intros i b r0 _ Hl. exists r0. split; [|done]. rewrite lookup_insert_ne; [done|]. congruence. }
    pose proof (roles_graph_insert d r t Hwf eq_refl) as Hins. change (r_id r) with (fst gen) in Hins.
    rewrite elem_of_union, elem_of_difference, !elem_of_union, !elem_of_list_to_set, Hins.
    rewrite (permission_and_owner_spec r tn ps add Hadd t), <- (role_tuple_given d r tn ps t) by done.
    rewrite elem_of_roles_graph. split.
    + intros [?|[[?|(i & r0 & Hl & ?)] _]]; [tauto|tauto|]. right. right. exists i, r0. split; [|done].
      intros ->. cbn in Hl. congruence.
    + intros [?|[?|(i & r0 & _ & Hl)]]; [right; split; [tauto|set_solver]|tauto|].
      right. split; [right; eauto|set_solver].
Qed.

(** No two permissions have the same V2 name. *)
Definition names_distinct (d : Db) : Prop :=
  ∀ i j p q, db_permissions d !! i = Some p → db_permissions d !! j = Some q →
    v2_string (p_parts p) = v2_string (p_parts q) → i = j.

Lemma elem_of_permissions_of d ids p :
  role_wf d → p ∈ permissions_of d ids ↔ p_id p ∈ ids ∧ db_permissions d !! p_id p = Some p.
Proof.
  intros Hrw. unfold permissions_of. rewrite list_elem_of_omap. setoid_rewrite elem_of_set_iter. split.
  - intros (i & Hi & Hl). by rewrite (rw_perm_id d Hrw i p Hl).
  - intros [? ?]. eauto.
Qed.

Lemma tuples_for_update_spec d r old new add rem :
  role_wf d → tuples_for_update d r old new = Ok (add, rem) →
  (∀ t, t ∈ add ↔ ∃ p, db_permissions d !! p_id p = Some p ∧ p_id p ∈ new ∖ old
                        ∧ t = t_permission r (v2_string (p_parts p)))
  ∧ (∀ t, t ∈ rem ↔ ∃ p, db_permissions d !! p_id p = Some p ∧ p_id p ∈ old ∖ new
                         ∧ t = t_permission r (v2_string (p_parts p))).
Proof.
  intros Hrw (a & Ha & Hr)%bind_Ok. apply bind_Ok in Hr as (m & Hm & Hr). inv_ok.
  apply mapM_permission_tuples in Ha as ->, Hm as ->.
  split; intros t; rewrite list_elem_of_fmap; setoid_rewrite elem_of_permissions_of; [|done| |done]; naive_solver.
Qed.

Lemma t_permission_inj r r' n m : t_permission r n = t_permission r' m → r_uuid r = r_uuid r' ∧ n = m.
Proof. unfold t_permission, rel_tuple. by intros [= -> ->]. Qed.

Lemma role_tuple_update d r old t :
  r_uuid r = r_uuid old → r_tenant r = r_tenant old →
  role_tuple d r t ↔ (∃ pid p, pid ∈ r_permissions r ∧ db_permissions d !! pid = Some p
                        ∧ t = t_permission old (v2_string (p_parts p)))
                     ∨ (∃ tn rid, db_tenants d !! r_tenant old = Some tn ∧ tenant_resource_id tn = Some rid
                        ∧ t = t_owner old rid).
Proof.
  intros Hu Ht. unfold t_permission, t_owner. rewrite <- Hu, <- Ht. split.
  - intros [pid p ? ?|tn rid ? ?]; [left|right]; eauto 10.
  - intros [(pid & p & ? & ? & ->)|(tn & rid & ? & ? & ->)]; by econstructor.
Qed.

(** The diff of an update, when the names are distinct. *)
Lemma update_role_tuples d d1 r old add rem t :
  role_wf d → names_distinct d → r_uuid r = r_uuid old → r_tenant r = r_tenant old →
  db_permissions d1 = db_permissions d → role_wf d1 →
  tuples_for_update d1 r (r_permissions old) (r_permissions r) = Ok (add, rem) →
  role_tuple d r t ↔ t ∈ add ∨ (role_tuple d old t ∧ (t ∉ rem)).
Proof.
  intros Hrw Hnd Hu Ht Hp Hrw1 Hup. apply tuples_for_update_spec in Hup as [Ha Hm]; [|done].
  rewrite Ha, Hm, Hp. rewrite (role_tuple_update d r old t Hu Ht), (role_tuple_update d old old t eq_refl eq_refl).
  assert (∀ n, t_permission r n = t_permission old n) as Heq by (intros n; unfold t_permission; by rewrite Hu).
  setoid_rewrite Heq. setoid_rewrite elem_of_difference. split.
  - intros [(pid & p & Hin & Hl & ->)|(tn & rid & Htn & Hrid & ->)].
    + destruct (decide (pid ∈ r_permissions old)) as [Hold|Hnew].
      * right. split; [left; eauto|]. intros (q & Hq & [_ Hn] & [_ Hname]%t_permission_inj). apply Hn.
        by rewrite <- (Hnd _ _ _ _ Hl Hq Hname).
      * left. exists p. rewrite (rw_perm_id d Hrw pid p Hl). done.
    + right. split; [right; eauto|]. intros (q & _ & _ & Hbad). done.
  - intros [(p & Hl & [Hin _] & ->)|[[(pid & p & Hin & Hl & ->)|?] Hn]]; [left; eauto| |by right].
    left. destruct (decide (pid ∈ r_permissions r)) as [Hnew|Hgone]; [eauto|]. exfalso. apply Hn.
    exists p. rewrite (rw_perm_id d Hrw pid p Hl). done.
Qed.

Lemma update_role_graph service uuid name desc data tn d d' role events :
  REPLICATION_TO_RELATION_ENABLED = true → wf d → role_wf d → names_distinct d →
  update_role service uuid name desc data tn d = Ok (d', role, events) →
  wf d' ∧ role_wf d' ∧ d' = with_roles (<[r_id role := role]>) d
  ∧ replay (full_graph d) events = Ok (full_graph d').
Proof.
  intros He Hwf Hrw Hnd Hc. unfold update_role in Hc. apply bind_Ok in Hc as (ps & Hps & Hc).
  destruct (select _ (db_roles d)) as [|old l] eqn:Hsel.
  { exfalso. apply bind_Ok in Hc as (public & _ & Hc). by destruct (existsb _ _). }
  assert (old ∈ old :: l) as Hold by left. rewrite <- Hsel in Hold. apply elem_of_select in Hold as [Hcond [i Hl]].
  pose proof (wf_role_id d Hwf i old Hl) as <-. rewrite !andb_true_iff, bool_decide_eq_true in Hcond.
  destruct Hcond as [_ Hcustom]. clear Hsel. cbn zeta in Hc. set (r := mkRoleV2 _ _ _ _ _ _ _ _) in Hc.
  apply bind_Ok in Hc as (_ & _ & Hc). apply bind_Ok in Hc as ([add rem] & Hup & Hc).
  apply bind_Ok in Hc as (es & Hes & Hc). inv_ok.
  pose proof (resolved_rows service d data ps Hrw Hps) as Hrows.
  assert (wf (with_roles (<[r_id r := r]>) d)) as Hwf'.
  { apply wf_insert_role; [done|]. intros j r' Hj Hu. by eapply (wf_role_uuid d Hwf). }
  assert (role_wf (with_roles (<[r_id r := r]>) d)) as Hrw'.
  { apply role_wf_insert; [done|]. intros pid Hin. cbn in Hin. rewrite elem_of_list_to_set, list_elem_of_fmap in Hin.
    destruct Hin as (p & -> & Hin). rewrite (Hrows p Hin). eauto. }
  split_and!; [done|done|done|]. rewrite (emit_accepted _ _ He Hes). cbn [ev_add ev_remove]. f_equal.
  apply set_eq. intros t. unfold full_graph.
  assert (bindings_graph (with_roles (<[r_id r := r]>) d) = bindings_graph d) as Hbg.
  { apply bindings_graph_roles; [done|]. intros j b r0 _ Hj. destruct (decide (b_role b = r_id r)) as [Heq|Hne].
    - exists r. rewrite Heq, lookup_insert_eq. split; [done|]. rewrite Heq in Hj. cbn in Hj. by simplify_eq.
    - exists r0. by rewrite lookup_insert_ne. }
  pose proof (update_role_tuples d (with_roles (<[r_id r := r]>) d) r old add rem t Hrw Hnd eq_refl eq_refl eq_refl
    Hrw' Hup) as Hdiff.
  pose proof (roles_graph_insert d r t Hwf Hcustom) as Hins.
  apply tuples_for_update_spec in Hup as [_ Hrem]; [|done].
  assert (t ∈ rem → resource t = mkObjectReference (mkObjectType "rbac" "role") (r_uuid old)) as Hres.
  { by intros (p & _ & _ & ->)%Hrem. }
  assert (t ∈ bindings_graph d → t ∉ rem) as Hb.
  { intros (j & b & _ & Hb)%elem_of_graph (p & Hl' & [Hin _]%elem_of_difference & ->)%Hrem.
    apply (role_tuple_not_binding d d old b (t_permission old (v2_string (p_parts p)))); [|done].
    by apply (role_tuple_permission d old (p_id p)). }
  set (others := ∃ i r', i ≠ r_id r ∧ db_roles d !! i = Some r' ∧ r_type r' = CUSTOM ∧ role_tuple d r' t) in Hins.
  assert (others → t ∉ rem) as Ho.
  { intros (j & r' & Hne & Hj & _ & Ht) Hin. apply Hne. apply role_tuple_resource in Ht. rewrite (Hres Hin) in Ht.
    simplify_eq. by eapply (wf_role_uuid d Hwf). }
  assert (t ∈ roles_graph d ↔ role_tuple d old t ∨ others) as Hrg.
  { rewrite elem_of_roles_graph. split.
    - intros (j & r' & Hj & Hc & Ht). destruct (decide (j = r_id old)) as [->|Hne]; [left; by simplify_eq|].
      right. exists j, r'. done.
    - intros [Ht|(j & r' & _ & ?)]; eauto. }
  change (r_id r) with (r_id old) in Hbg, Hins.
  rewrite Hbg, elem_of_union, elem_of_difference, !elem_of_union, !elem_of_list_to_set, Hins, Hrg, Hdiff. tauto.
Qed.

(* ------------------------------------------------------------------ *)
(** * Lemmas: deleting *)

Lemma elem_of_entry_groups d b g :
  g ∈ entry_groups d b ↔ ∃ gid, (b_id b, gid) ∈ db_group_entries d ∧ db_groups d !! gid = Some g.
Proof.
  unfold entry_groups. rewrite list_elem_of_omap. setoid_rewrite elem_of_set_iter. split.
  - intros ([bid gid] & Hin & Hg). destruct (Z.eqb_spec bid (b_id b)) as [->|]; [eauto|done].
  - intros (gid & Hin & Hg). exists (b_id b, gid). by rewrite Z.eqb_refl.
Qed.

Lemma elem_of_entry_principal_ids d b pid :
  pid ∈ entry_principal_ids d b ↔ ∃ src, (b_id b, pid, src) ∈ db_principal_entries d.
Proof.
  unfold entry_principal_ids. rewrite list_elem_of_omap. setoid_rewrite elem_of_set_iter. split.
  - intros ([[bid pid'] src] & Hin & Hp). destruct (Z.eqb_spec bid (b_id b)) as [->|]; [|done]. simplify_eq. eauto.
  - intros (src & Hin). exists (b_id b, pid, src). by rewrite Z.eqb_refl.
Qed.

(** [all_tuples] are the tuples the binding stands for. *)
Lemma all_tuples_spec d b l : all_tuples d b = Ok l → ∀ t, t ∈ l ↔ binding_has d b t.
Proof.
  unfold all_tuples. intros (base & Hbase & Hl)%bind_Ok. apply bind_Ok in Hl as (gs & Hgs & Hl).
  apply bind_Ok in Hl as (ps & Hps & Hl). inv_ok.
  apply binding_tuples_spec in Hbase as (r & Hr & -> & _).
  apply mapM_result_Ok in Hgs, Hps. intros t. rewrite !elem_of_app, !elem_of_cons, elem_of_nil. split.
  - intros [[->|[->|[]]]|[Ht|Ht]]; [by constructor|by constructor|..].
    + apply (Forall2_elem_r _ _ _ _ Hgs) in Ht as (g & (gid & Hin & Hg)%elem_of_entry_groups & Ht).
      unfold group_subject_tuple in Ht. apply create_relationship_spec in Ht as [-> _]. by econstructor.
    + apply (Forall2_elem_r _ _ _ _ Hps) in Ht as (p & Hp & Ht).
      apply list_elem_of_omap in Hp as (pid & Hin & Hp).
      rewrite elem_of_set_list, elem_of_entry_principal_ids in Hin. destruct Hin as [src Hin].
      unfold user_subject_tuple in Ht. apply create_relationship_spec in Ht as [-> _]. by econstructor.
  - destruct 1 as [r' Hr'| |gid g Hin Hg|pid src p Hin Hp].
    + simplify_eq. tauto.
    + tauto.
    + right. left. assert (g ∈ entry_groups d b) as Hge by (apply elem_of_entry_groups; eauto).
      apply (Forall2_elem_l _ _ _ _ Hgs) in Hge as (t & Ht & Hgt).
      unfold group_subject_tuple in Hgt. by apply create_relationship_spec in Hgt as [-> _].
    + right. right. assert (p ∈ omap (λ pid, db_principals d !! pid) (set_list (entry_principal_ids d b))) as Hpe.
      { apply list_elem_of_omap. exists pid. rewrite elem_of_set_list, elem_of_entry_principal_ids. eauto. }
      apply (Forall2_elem_l _ _ _ _ Hps) in Hpe as (t & Ht & Hpt).
      unfold user_subject_tuple in Hpt. by apply create_relationship_spec in Hpt as [-> _].
Qed.

(** Events that only remove. *)
Lemma replay_removals es store :
  (∀ e, e ∈ es → ev_add e = []) →
  ∃ store', replay store es = Ok store' ∧ ∀ t, t ∈ store' ↔ t ∈ store ∧ ¬ ∃ e, e ∈ es ∧ t ∈ ev_remove e.
Proof.
  revert store. induction es as [|e es IH]; intros store Hadd.
  { exists store. split; [done|]. set_solver. }
  unfold replay. cbn. unfold in_memory_replicate at 1. rewrite write_eq, (Hadd e) by left.
  rewrite decide_True by constructor. destruct (IH (list_to_set [] ∪ store ∖ list_to_set (ev_remove e)))
    as (store' & Hs & Ht); [intros; apply Hadd; by right|].
  exists store'. split; [exact Hs|]. intros t. rewrite Ht. cbn.
  rewrite elem_of_union, elem_of_difference, elem_of_list_to_set. setoid_rewrite elem_of_cons.
  split.
  - intros [[[]%elem_of_empty|[? Hr]] Hn]. split; [done|]. intros (e' & [->|?] & ?); [done|]. apply Hn. eauto.
  - intros [? Hn]. split; [right; split; [done|]; intros ?; apply Hn; eauto|].
    intros (e' & ? & ?). apply Hn. eauto.
Qed.

Lemma emit_removal ty info rem es :
  REPLICATION_TO_RELATION_ENABLED = true → emit (mkReplicationEvent ty info [] rem) = Ok es →
  (∀ e, e ∈ es → ev_add e = []) ∧ ∀ t, (∃ e, e ∈ es ∧ t ∈ ev_remove e) ↔ t ∈ rem.
Proof.
  intros He. unfold emit. rewrite He, check_for_duplicates_eq. cbn. rewrite decide_True by constructor. cbn.
  destruct rem as [|x l]; intros [= <-]; [set_solver|]. setoid_rewrite list_elem_of_singleton. naive_solver.
Qed.

(** Lists filed under keys. *)
Lemma extend_at_keys {A} k (xs : list A) l : map fst (extend_at k xs l) = map fst l.
Proof. induction l as [|[k' ys] l IH]; cbn; [done|]. destruct (String.eqb k' k); cbn; by rewrite ?IH. Qed.

Lemma extend_at_values {A} k (xs : list A) l x :
  NoDup (map fst l) → k ∈ map fst l →
  x ∈ concat (map snd (extend_at k xs l)) ↔ x ∈ concat (map snd l) ∨ x ∈ xs.
Proof.
  induction l as [|[k' ys] l IH]; cbn; [set_solver|]. intros [Hk' Hn]%NoDup_cons Hk.
  destruct (String.eqb_spec k' k) as [->|Hne]; cbn; rewrite !elem_of_app; [tauto|].
  rewrite IH; [tauto|done|set_solver].
Qed.

Lemma setdefault_append_keys {A} k (xs : list A) l k' :
  k' ∈ map fst (setdefault_append k xs l) ↔ k' = k ∨ k' ∈ map fst l.
Proof.
  induction l as [|[j ys] l IH]; cbn; [set_solver|].
  destruct (String.eqb_spec j k); cbn; rewrite !elem_of_cons, ?IH; naive_solver.
Qed.

Lemma NoDup_setdefault_append {A} k (xs : list A) l :
  NoDup (map fst l) → NoDup (map fst (setdefault_append k xs l)).
Proof.
  induction l as [|[j ys] l IH]; cbn; [intros; apply NoDup_singleton|]. intros [Hj Hl]%NoDup_cons.
  destruct (String.eqb_spec j k); cbn; apply NoDup_cons; split; auto. rewrite setdefault_append_keys. naive_solver.
Qed.

Lemma org_keys {A} (key val : A → string) l m :
  NoDup (map fst m) →
  let m' := foldl (λ m a, setdefault_append (key a) [val a] m) m l in
  NoDup (map fst m') ∧ ∀ k, k ∈ map fst m' ↔ k ∈ map fst m ∨ ∃ a, a ∈ l ∧ key a = k.
Proof.
  revert m. induction l as [|a l IH]; intros m Hn; cbn; [set_solver|].
  destruct (IH (setdefault_append (key a) [val a] m)) as [Hn' Hk]; [by apply NoDup_setdefault_append|].
  split; [done|]. intros k. rewrite Hk, setdefault_append_keys. setoid_rewrite elem_of_cons. naive_solver.
Qed.

Lemma extend_fold {A} (f : list (string * list RelationTuple) → A → result (list (string * list RelationTuple)))
    (R : A → string → list RelationTuple → Prop) l m m' :
  (∀ m a m1, a ∈ l → f m a = Ok m1 → ∃ k ts, R a k ts ∧ m1 = extend_at k ts m) →
  (∀ a k ts, a ∈ l → R a k ts → k ∈ map fst m) → NoDup (map fst m) → foldM f m l = Ok m' →
  map fst m' = map fst m
  ∧ (∀ a, a ∈ l → ∃ k ts, R a k ts ∧ ∀ t, t ∈ ts → t ∈ concat (map snd m'))
  ∧ (∀ t, t ∈ concat (map snd m) → t ∈ concat (map snd m'))
  ∧ (∀ t, t ∈ concat (map snd m') → t ∈ concat (map snd m) ∨ ∃ a k ts, a ∈ l ∧ R a k ts ∧ t ∈ ts).
Proof.
  revert m. induction l as [|a l IH]; intros m Hf Hk Hn Hfold.
  { cbn in Hfold. inv_ok. set_solver. }
  apply bind_Ok in Hfold as (m1 & Hm1 & Hfold).
  destruct (Hf m a m1) as (k & ts & HR & ->); [left|done|].
  assert (k ∈ map fst m) as Hkm by (eapply Hk; [left|done]).
  apply IH in Hfold as (Hkeys & Hall & Hold & Hnew); [|intros; apply Hf; [by right|done]|..].
  - rewrite extend_at_keys in Hkeys. split_and!; [done|..].
    + intros a' [->|Ha']%elem_of_cons; [|auto]. exists k, ts. split; [done|].
      intros t Ht. apply Hold, extend_at_values; auto.
    + intros t Ht. apply Hold, extend_at_values; auto.
    + intros t Ht%Hnew. rewrite extend_at_values in Ht by done. destruct Ht as [[?|?]|(a' & k' & ts' & Ha' & ?)].
      * by left.
      * right. exists a, k, ts. split; [left|done].
      * right. exists a', k', ts'. split; [by right|done].
  - intros a' k' ts' Ha' HR'. rewrite extend_at_keys. eapply Hk; [by right|done].
  - by rewrite extend_at_keys.
Qed.

(** The events of the organisations together remove everything filed. *)
Lemma removal_events (orgs : list (string * list string)) (relations : list (string * list RelationTuple)) ess :
  REPLICATION_TO_RELATION_ENABLED = true → NoDup (map fst orgs) → map fst relations = map fst orgs →
  mapM (λ kv, remove ← or_raise KeyError (dict_of relations !! fst kv);
              emit (mkReplicationEvent DELETE_CUSTOM_ROLE
                [("role_uuids", Some (join_with "," (snd kv))); ("org_id", Some (fst kv))] [] remove)) orgs = Ok ess →
  (∀ e, e ∈ concat ess → ev_add e = [])
  ∧ ∀ t, (∃ e, e ∈ concat ess ∧ t ∈ ev_remove e) ↔ t ∈ concat (map snd relations).
Proof.
  intros He Hn Hkeys Hm%mapM_result_Ok.
  assert (∀ e, e ∈ concat ess ↔ ∃ es, es ∈ ess ∧ e ∈ es) as Hc.
  { intros e. rewrite list_elem_of_In, in_concat. setoid_rewrite <- list_elem_of_In. done. }
  assert (∀ t, t ∈ concat (map snd relations) ↔ ∃ k rem, (k, rem) ∈ relations ∧ t ∈ rem) as Hr.
  { intros t. rewrite list_elem_of_In, in_concat. setoid_rewrite <- list_elem_of_In.
    setoid_rewrite list_elem_of_fmap. split; [intros (rem & ([k rem'] & -> & ?) & ?)|intros (k & rem & ? & ?)]; eauto. }
  split.
  - intros e (es & Hes & Hin)%Hc. apply (Forall2_elem_r _ _ _ _ Hm) in Hes as (kv & _ & Hkv).
    apply bind_Ok in Hkv as (rem & _ & Hem). by apply (emit_removal _ _ _ _ He Hem).
  - intros t. rewrite Hr. setoid_rewrite Hc. split.
    + intros (e & (es & Hes & Hin) & Ht). apply (Forall2_elem_r _ _ _ _ Hm) in Hes as (kv & _ & Hkv).
      apply bind_Ok in Hkv as (rem & Hl%or_raise_Ok & Hem). apply dict_of_Some in Hl.
      exists (fst kv), rem. split; [done|]. apply (emit_removal _ _ _ _ He Hem). eauto.
    + intros (k & rem & Hin & Ht). assert (k ∈ map fst orgs) as Hk.
      { rewrite <- Hkeys. apply list_elem_of_fmap. by exists (k, rem). }
      apply list_elem_of_fmap in Hk as (kv & -> & Hkv).
      apply (Forall2_elem_l _ _ _ _ Hm) in Hkv as (es & Hes & Hem).
      apply bind_Ok in Hem as (rem' & Hl%or_raise_Ok & Hem).
      rewrite dict_of_lookup in Hl by by rewrite Hkeys.
      assert (rem' = rem) as ->.
      { apply (dict_of_lookup relations (fst kv)) in Hl, Hin; [congruence|by rewrite Hkeys..]. }
      destruct (emit_removal _ _ _ _ He Hem) as [_ Hiff]. destruct (proj2 (Hiff t) Ht) as (e & Hee & Hte). eauto 10.
Qed.

Lemma tuples_for_delete_spec d r tn l :
  role_wf d → db_tenants d !! r_tenant r = Some tn → tuples_for_delete d r tn = Ok l →
  ∀ t, t ∈ l ↔ role_tuple d r t.
Proof.
  intros Hrw Htn Hl t. unfold tuples_for_delete in Hl. rewrite (permission_and_owner_spec _ _ _ _ Hl t). split.
  - intros [(p & Hin & ->)|(rid & Hrid & ->)]; [|by econstructor].
    apply elem_of_permissions_of in Hin as [Hin Hp]; [|done]. by apply (role_tuple_permission d r (p_id p)).
  - intros [pid p Hin Hp|tn' rid Htn' Hrid]; [left|right; simplify_eq; eauto].
    exists p. rewrite elem_of_permissions_of by done. by rewrite (rw_perm_id d Hrw pid p Hp).
Qed.

(** The state after both DELETEs. *)
Lemma bulk_delete_state (pks bids : gset Z) d
    (d2 := with_roles (filter (λ kr, fst kr ∉ pks)) (delete_bindings bids d)) :
  wf d → (∀ i b, db_bindings d !! i = Some b → i ∈ bids ↔ b_role b ∈ pks) →
  wf d2
  ∧ (∀ t, t ∈ bindings_graph d2 ↔
       ∃ i b, db_bindings d !! i = Some b ∧ (b_role b ∉ pks) ∧ binding_has d b t)
  ∧ (∀ t, t ∈ roles_graph d2 ↔
       ∃ i r, db_roles d !! i = Some r ∧ (i ∉ pks) ∧ r_type r = CUSTOM ∧ role_tuple d r t).
Proof.
  intros Hwf Hb. pose proof (wf_delete_bindings bids d Hwf) as Hwf1.
  assert (∀ i b r, db_bindings (delete_bindings bids d) !! i = Some b → db_roles d !! b_role b = Some r →
    filter (λ kr, fst kr ∉ pks) (db_roles d) !! b_role b = Some r) as Hkeep.
  { intros i b r Hl Hr. apply lookup_delete_bindings in Hl as [Hl Hn]. apply map_lookup_filter_Some.
    split; [done|]. cbn. by rewrite <- (Hb i b Hl). }
  split_and!.
  - pose proof Hwf1 as [? ? Hbr ? Hid Hu ? ? ? ? ? ?]. constructor; cbn -[delete_bindings]; try done.
    + intros i b Hl. destruct (Hbr i b Hl) as [r Hr]. exists r. by eapply Hkeep.
    + intros i r [Hl _]%map_lookup_filter_Some. by apply Hid.
    + intros i j r1 r2 [Hl1 _]%map_lookup_filter_Some [Hl2 _]%map_lookup_filter_Some. by apply Hu.
  - intros t. unfold d2. rewrite bindings_graph_roles; [|done|].
    2:{ intros i b r Hl Hr. exists r. split; [|done]. by eapply Hkeep. }
    rewrite delete_bindings_graph by done. split; intros (i & b & Hl & Hn & Ht); exists i, b;
      (split_and!; [done| |done]); by apply (Hb i b Hl) || (by rewrite (Hb i b Hl)) || by rewrite <- (Hb i b Hl).
  - intros t. rewrite elem_of_roles_graph. cbn.
    setoid_rewrite <- (role_tuple_ext d d2); [|done|done]. setoid_rewrite map_lookup_filter_Some. cbn.
    split; intros (i & r & Hl); exists i, r; tauto.
Qed.

(** What is filed for removal: the tuples of the deleted bindings and roles. *)
Lemma bulk_relations d (owned : list (RoleV2 * Tenant)) bindings relations1 relations2
    (orgs := foldl (λ m rt, setdefault_append (py_str (org_id (snd rt))) [r_uuid (fst rt)] m) [] owned)
    (role_org_ids := dict_of (map (λ rt, (r_id (fst rt), py_str (org_id (snd rt)))) owned)) :
  role_wf d → (∀ r tn, (r, tn) ∈ owned → db_tenants d !! r_tenant r = Some tn) →
  foldM (λ m b, org ← or_raise KeyError (role_org_ids !! b_role b);
                ts ← all_tuples d b; mret (extend_at org ts m)) (map (λ kv, (fst kv, [])) orgs) bindings
    = Ok relations1 →
  foldM (λ m rt, ts ← tuples_for_delete d (fst rt) (snd rt);
                 mret (extend_at (py_str (org_id (snd rt))) ts m)) relations1 owned = Ok relations2 →
  NoDup (map fst orgs) ∧ map fst relations2 = map fst orgs
  ∧ ∀ t, t ∈ concat (map snd relations2) ↔
      (∃ b, b ∈ bindings ∧ binding_has d b t) ∨ (∃ r tn, (r, tn) ∈ owned ∧ role_tuple d r t).
Proof.
  intros Hrw Hown H1' H2'.
  destruct (org_keys (λ rt : RoleV2 * Tenant, py_str (org_id (snd rt))) (λ rt, r_uuid (fst rt)) owned [])
    as [Hn Hk]; [constructor|]. fold orgs in Hn, Hk.
  assert (map fst (map (λ kv : string * list string, (fst kv, [] : list RelationTuple)) orgs) = map fst orgs) as Hm0.
  { rewrite map_map. by apply map_ext. }
  apply (extend_fold _ (λ b k ts, role_org_ids !! b_role b = Some k ∧ all_tuples d b = Ok ts)) in H1'
    as (Hk1 & Hall1 & _ & Hnew1).
  2:{ intros m b m1 _ Hf. apply bind_Ok in Hf as (org & Ho%or_raise_Ok & Hf).
      apply bind_Ok in Hf as (ts & Hts & Hf). inv_ok. eauto. }
  2:{ intros b k ts _ [Hl _]. rewrite Hm0. apply Hk. right. apply dict_of_Some, list_elem_of_fmap in Hl
      as (rt & [= _ ->] & Hrt). eauto. }
  2:{ by rewrite Hm0. }
  rewrite Hm0 in Hk1.
  apply (extend_fold _ (λ rt k ts, k = py_str (org_id (snd rt)) ∧ tuples_for_delete d (fst rt) (snd rt) = Ok ts)) in H2'
    as (Hk2 & Hall2 & Hold2 & Hnew2).
  2:{ intros m rt m1 _ Hf. apply bind_Ok in Hf as (ts & Hts & Hf). inv_ok. eauto. }
  2:{ intros rt k ts Hrt [-> _]. rewrite Hk1. apply Hk. eauto. }
  2:{ by rewrite Hk1. }
  split_and!; [done|congruence|]. intros t. split.
  - intros [[Ht|(b & k & ts & Hb & [_ Hts] & Ht)]%Hnew1|([r tn] & k & ts & Hrt & [_ Hts] & Ht)]%Hnew2.
    + exfalso. apply list_elem_of_In, in_concat in Ht as (ts & Hts & Ht).
      apply in_map_iff in Hts as (kv & <- & Hts). by apply in_map_iff in Hts as (kv' & <- & _).
    + left. exists b. split; [done|]. by apply (all_tuples_spec d b ts Hts).
    + right. exists r, tn. split; [done|]. by apply (tuples_for_delete_spec d r tn ts Hrw (Hown r tn Hrt) Hts).
  - intros [(b & Hb & Ht)|(r & tn & Hrt & Ht)].
    + destruct (Hall1 b Hb) as (k & ts & [_ Hts] & Hin). apply Hold2, Hin. by apply (all_tuples_spec d b ts Hts).
    + destruct (Hall2 (r, tn) Hrt) as (k & ts & [_ Hts] & Hin). apply Hin.
      by apply (tuples_for_delete_spec d r tn ts Hrw (Hown r tn Hrt) Hts).
Qed.

(** Removing the tuples of the deleted rows leaves those of the others. *)
Lemma bulk_graph_diff d (pks : gset Z) (bindings : list RoleBinding) (R : RoleV2 → Prop) t :
  wf d → (∀ b, b ∈ bindings ↔ db_bindings d !! b_id b = Some b ∧ b_role b ∈ pks) →
  (∀ r, R r ↔ db_roles d !! r_id r = Some r ∧ r_id r ∈ pks) →
  (t ∈ bindings_graph d ∨ t ∈ roles_graph d)
    ∧ ¬ ((∃ b, b ∈ bindings ∧ binding_has d b t) ∨ (∃ r, R r ∧ role_tuple d r t)) ↔
  (∃ i b, db_bindings d !! i = Some b ∧ (b_role b ∉ pks) ∧ binding_has d b t)
  ∨ (∃ i r, db_roles d !! i = Some r ∧ (i ∉ pks) ∧ r_type r = CUSTOM ∧ role_tuple d r t).
Proof.
  intros Hwf Hb HR. rewrite elem_of_graph, elem_of_roles_graph. split.
  - intros [[(i & b & Hl & Ht)|(i & r & Hl & Hc & Ht)] Hn]; [left; exists i, b|right; exists i, r].
    + split_and!; [done| |done]. intros Hin. apply Hn. left. exists b. split; [|done]. apply Hb.
      by rewrite (wf_binding_id d Hwf i b Hl).
    + split_and!; [done| |done|done]. intros Hin. apply Hn. right. exists r. split; [|done]. apply HR.
      by rewrite (wf_role_id d Hwf i r Hl).
  - intros [(i & b & Hl & Hn & Ht)|(i & r & Hl & Hn & Hc & Ht)].
    + split; [left; eauto|]. intros [(c & [Hlc Hc]%Hb & Htc)|(r & _ & Htr)].
      * destruct (binding_has_inj d d i (b_id c) b c t) as [_ ->]; [done..|by eapply binding_has_owner|done].
      * by eapply role_tuple_not_binding.
    + split; [right; eauto|]. intros [(b & _ & Htb)|(r' & [Hl' Hin]%HR & Ht')].
      * by eapply role_tuple_not_binding.
      * apply role_tuple_resource in Ht, Ht'. rewrite Ht in Ht'. simplify_eq. apply Hn.
        by rewrite (wf_role_uuid d Hwf i (r_id r') r r').
Qed.

Lemma bulk_delete_graph ids from d d' removed events :
  REPLICATION_TO_RELATION_ENABLED = true → wf d → role_wf d →
  bulk_delete_roles ids from d = Ok (d', removed, events) →
  wf d' ∧ replay (full_graph d) events = Ok (full_graph d')
  ∧ (∀ r, r ∈ removed ↔ db_roles d !! r_id r = Some r ∧ r_uuid r ∈ ids
       ∧ (∀ tn, from = Some tn → r_tenant r = tn))
  ∧ (∀ r, r ∈ removed → r_type r = CUSTOM)
  ∧ (∀ i r, db_roles d' !! i = Some r ↔ db_roles d !! i = Some r ∧ (r ∉ removed)).
Proof.
  intros He Hwf Hrw Hd. unfold bulk_delete_roles in Hd. set (roles := select _ (db_roles d)) in Hd.
  apply bind_Ok in Hd as (_ & _ & Hd). apply bind_Ok in Hd as (_ & Hcust%raise_if_Ok & Hd). cbn zeta in Hd.
  set (pks := list_to_set (map r_id roles) : gset Z) in Hd.
  set (rem := select (λ r, bool_decide (r_id r ∈ pks) && bool_decide (r_type r = CUSTOM)) (db_roles d)) in Hd.
  apply bind_Ok in Hd as (owned & Howned & Hd). set (bindings := select _ (db_bindings d)) in Hd.
  apply bind_Ok in Hd as (rel1 & Hrel1 & Hd). apply bind_Ok in Hd as (rel2 & Hrel2 & Hd).
  apply bind_Ok in Hd as (ess & Hess & Hd). inv_ok.
  assert (∀ r, r ∈ roles ↔ db_roles d !! r_id r = Some r ∧ r_uuid r ∈ ids
    ∧ (∀ tn, from = Some tn → r_tenant r = tn)) as Hroles.
  { intros r. unfold roles. rewrite elem_of_select, andb_true_iff, bool_decide_eq_true. split.
    - intros [[Hu Ht] [i Hi]]. rewrite (wf_role_id d Hwf i r Hi). split_and!; [done|done|].
      intros tn ->. by apply Z.eqb_eq.
    - intros (Hl & Hu & Ht). split; [split; [done|]|eauto]. destruct from as [tn|]; [|done].
      apply Z.eqb_eq. auto. }
  assert (∀ r, r ∈ roles → r_type r = CUSTOM) as Hcustom.
  { intros r Hr. rewrite <- not_true_iff_false, existsb_exists in Hcust. apply dec_stable. intros Hne.
    apply Hcust. exists r. rewrite <- list_elem_of_In, negb_true_iff, bool_decide_eq_false. done. }
  assert (∀ i, i ∈ pks ↔ ∃ r, r ∈ roles ∧ r_id r = i) as Hpks.
  { intros i. unfold pks. rewrite elem_of_list_to_set, list_elem_of_fmap. naive_solver. }
  assert (∀ r, r ∈ rem ↔ r ∈ roles) as Hrem.
  { intros r. unfold rem. rewrite elem_of_select, andb_true_iff, !bool_decide_eq_true, Hpks. split.
    - intros [[(r' & Hr' & Hid) _] [i Hi]]. pose proof (wf_role_id d Hwf i r Hi) as <-.
      pose proof Hr' as (Hl & _)%Hroles. rewrite Hid in Hl. by simplify_eq.
    - intros Hr. split; [split; [eauto|auto]|]. apply Hroles in Hr as [? _]. eauto. }
  assert (∀ r tn, (r, tn) ∈ owned → r ∈ rem ∧ db_tenants d !! r_tenant r = Some tn) as Hown1.
  { apply mapM_result_Ok in Howned. intros r tn Hin. apply (Forall2_elem_r _ _ _ _ Howned) in Hin as (r' & Hr' & Hf).
    apply bind_Ok in Hf as (tn' & Ht%or_raise_Ok & Hf). apply Ok_inj in Hf. by injection Hf as -> ->. }
  assert (∀ r, r ∈ rem → ∃ tn, (r, tn) ∈ owned) as Hown2.
  { apply mapM_result_Ok in Howned. intros r Hin. apply (Forall2_elem_l _ _ _ _ Howned) in Hin as ([r' tn] & Hrt & Hf).
    apply bind_Ok in Hf as (tn' & _ & Hf). apply Ok_inj in Hf. injection Hf as -> ->. eauto. }
  destruct (bulk_relations d owned bindings rel1 rel2 Hrw (λ r tn Hin, proj2 (Hown1 r tn Hin)) Hrel1 Hrel2)
    as (Hn & Hkeys & Hfiled).
  destruct (removal_events _ rel2 ess He Hn Hkeys Hess) as [Hadd Hremoved].
  destruct (replay_removals (concat ess) (full_graph d) Hadd) as (store & Hst & Hstore).
  assert (∀ i b, db_bindings d !! i = Some b → i ∈ (list_to_set (map b_id bindings) : gset Z) ↔ b_role b ∈ pks) as Hb.
  { intros i b Hl. rewrite elem_of_list_to_set, list_elem_of_fmap. split.
    - intros (c & -> & Hc). unfold bindings in Hc. apply elem_of_select in Hc as [Hin%bool_decide_eq_true [j Hj]].
      rewrite (wf_binding_id d Hwf j c Hj) in Hl. by simplify_eq.
    - intros Hin. exists b. split; [by rewrite (wf_binding_id d Hwf i b Hl)|].
      unfold bindings. apply elem_of_select. rewrite bool_decide_eq_true. eauto. }
  destruct (bulk_delete_state pks (list_to_set (map b_id bindings)) d Hwf Hb) as (Hwf' & Hbg & Hrg).
  split_and!; [done| |by intros r; rewrite Hrem|by intros r Hr%Hrem; apply Hcustom|].
  - rewrite Hst. f_equal. apply set_eq. intros t. rewrite Hstore, Hremoved, Hfiled. unfold full_graph.
    rewrite !elem_of_union, Hbg, Hrg.
    rewrite <- (bulk_graph_diff d pks bindings (λ r, ∃ tn, (r, tn) ∈ owned) t Hwf).
    + split; intros [? Hno]; (split; [done|]); intros Hx; apply Hno; destruct Hx as [?|Hx]; [by left| |by left|];
        right; naive_solver.
    + intros b. unfold bindings. rewrite elem_of_select, bool_decide_eq_true. split; [|naive_solver].
      intros [? [i Hi]]. by rewrite (wf_binding_id d Hwf i b Hi).
    + intros r. rewrite Hpks. split.
      * intros [tn Hin]. apply Hown1 in Hin as [Hr%Hrem _]. split; [by apply Hroles|eauto].
      * intros [Hl (r' & Hr' & Hid)]. apply Hown2, Hrem. pose proof Hr' as (Hl' & _)%Hroles.
        rewrite Hid in Hl'. by simplify_eq.
  - intros i r. cbn. rewrite map_lookup_filter_Some. cbn. rewrite Hpks. split; intros [Hl Hno]; (split; [done|]).
    + intros Hr%Hrem. apply Hno. exists r. split; [done|]. by apply (wf_role_id d Hwf).
    + intros (r' & Hr' & Hid). apply Hno, Hrem. pose proof Hr' as (Hl' & _)%Hroles. rewrite Hid in Hl'.
      by simplify_eq.
Qed.
End graph.

(* ------------------------------------------------------------------ *)
(** * Examples: two permissions with one V2 name *)

Definition v2_dict (a r v : string) : list (string * option string) :=
  [("application", Some a); ("resource_type", Some r); ("operation", Some v)].
Definition clash_role (perms : gset Z) : RoleV2 := mkRoleV2 1 "r1" "one" None CUSTOM 7 perms false.
Definition clash_db (perms : gset Z) : Db := mkDb
  (list_to_map [(1, mkPermission 1 "app:res-a:read" (mkPermissionValue "app" "res-a" "read"));
                (2, mkPermission 2 "app:res_a:read" (mkPermissionValue "app" "res_a" "read"));
                (3, mkPermission 3 "app:other:read" (mkPermissionValue "app" "other" "read"))]%Z)
  {[1%Z := clash_role perms]} ∅ ∅ ∅ ∅ ∅ ∅ ∅ {[7%Z := sample_tenant]}.

Definition clash_update (perms : gset Z) (data : list (list (string * option string))) :=
  @update_role sample_settings _ _ ScopeService.sample_service "r1" "one" None data sample_tenant (clash_db perms).
Definition clash_create (data : list (list (string * option string))) :=
  @create_role sample_settings _ _ ScopeService.sample_service (2%Z, "r2") "two" None data sample_tenant (clash_db ∅).

(* ------------------------------------------------------------------ *)
(** * Properties *)

(** C21: creating a custom role keeps the constraints, inserts one row, and its event
    turns the tuples of the old bindings and roles into those of the new state. *)
Theorem create_role_refines `{Settings} `{PySetOrder} `{RowOrder} service gen name desc data tn d d' role events :
  REPLICATION_TO_RELATION_ENABLED = true → wf d → role_wf d → db_tenants d !! t_id tn = Some tn →
  db_roles d !! fst gen = None → (∀ i r, db_roles d !! i = Some r → r_uuid r ≠ snd gen) →
  create_role service gen name desc data tn d = Ok (d', role, events) →
  wf d' ∧ role_wf d' ∧ d' = with_roles (<[fst gen := role]>) d
  ∧ replay (full_graph d) events = Ok (full_graph d').
Proof. apply create_role_graph. Qed.

(** C22: updating a custom role keeps the constraints, replaces one row, and its
    event turns the old tuples into the new ones, provided that no two permissions
    have the same V2 name. *)
Theorem update_role_refines `{Settings} `{PySetOrder} `{RowOrder} service uuid name desc data tn d d' role events :
  REPLICATION_TO_RELATION_ENABLED = true → wf d → role_wf d → names_distinct d →
  update_role service uuid name desc data tn d = Ok (d', role, events) →
  wf d' ∧ role_wf d' ∧ d' = with_roles (<[r_id role := role]>) d
  ∧ replay (full_graph d) events = Ok (full_graph d').
Proof. apply update_role_graph. Qed.


(** C23: deleting custom roles in bulk, of one or of several organisations, keeps the
    constraints; the events together remove exactly the tuples of the deleted roles
    and of their bindings, and precisely the requested roles, which are all custom,
    are gone. *)
Theorem bulk_delete_refines `{Settings} `{PySetOrder} `{RowOrder} ids from d d' removed events :
  REPLICATION_TO_RELATION_ENABLED = true → wf d → role_wf d →
  bulk_delete_roles ids from d = Ok (d', removed, events) →
  wf d' ∧ replay (full_graph d) events = Ok (full_graph d')
  ∧ (∀ r, r ∈ removed ↔ db_roles d !! r_id r = Some r ∧ r_uuid r ∈ ids
       ∧ (∀ tn, from = Some tn → r_tenant r = tn))
  ∧ (∀ r, r ∈ removed → r_type r = CUSTOM)
  ∧ (∀ i r, db_roles d' !! i = Some r ↔ db_roles d !! i = Some r ∧ (r ∉ removed)).
Proof. apply bulk_delete_graph. Qed.

(* ------------------------------------------------------------------ *)
(** * Witnesses *)

Definition role_wf_checked (d : Db) : Prop :=
  scope_checked d ∧ map_Forall (λ i t, t_id t = i) (db_tenants d).

Lemma role_wf_checked_sound d : role_wf_checked d → role_wf d.
Proof.
  intros [[Hp Hr] Ht]. split; [done| |done]. intros i r pid Hl Hin. by apply (Hr i r Hl pid).
Qed.

Lemma names_distinct_checked d : unique_on (λ p, v2_string (p_parts p)) (db_permissions d) → names_distinct d.
Proof. intros Hu i j p q Hp Hq. by apply (Hu i p Hp j q Hq). Qed.

Definition role_db : Db := mkDb
  (list_to_map [(1, mkPermission 1 "app:res-a:read" (mkPermissionValue "app" "res-a" "read"));
                (3, mkPermission 3 "app:other:read" (mkPermissionValue "app" "other" "read"))]%Z)
  {[1%Z := clash_role {[1%Z]}]} ∅ ∅ {[1%Z := mkRoleBinding 1 "b1" 1 "workspace" "w1" 7]} ∅ ∅ ∅ ∅ {[7%Z := sample_tenant]}.

Lemma role_db_wf : wf role_db.
Proof. apply wf_checked_sound. by_compute. Qed.
Lemma role_db_role_wf : role_wf role_db.
Proof. apply role_wf_checked_sound. unfold role_wf_checked, scope_checked. by_compute. Qed.

Definition role_created :=
  @create_role sample_settings _ _ ScopeService.sample_service (2%Z, "r2") "two" None [v2_dict "app" "other" "read"]
    sample_tenant role_db.
Definition role_updated :=
  @update_role sample_settings _ _ ScopeService.sample_service "r1" "uno" None [v2_dict "app" "other" "read"]
    sample_tenant role_db.
Definition role_deleted := @bulk_delete_roles sample_settings _ _ {["r1"]} (Some 7%Z) role_db.

Lemma create_role_refines_witness :
  ∃ d' role events, role_created = Ok (d', role, events)
    ∧ replay (@full_graph sample_settings role_db) events = Ok (@full_graph sample_settings d').
Proof.
  destruct role_created as [[[d' role] events]|] eqn:Hc; [|exfalso; revert Hc; by vm_compute].
  exists d', role, events. split; [done|].
  refine (proj2 (proj2 (proj2 (@create_role_refines sample_settings _ _ ScopeService.sample_service (2%Z, "r2") "two"
    None [v2_dict "app" "other" "read"] sample_tenant role_db d' role events eq_refl role_db_wf role_db_role_wf
    eq_refl eq_refl _ Hc)))).
  intros i r Hl. cbn in Hl. apply lookup_singleton_Some in Hl as [_ <-]. done.
Defined.

Lemma update_role_refines_witness :
  ∃ d' role events, role_updated = Ok (d', role, events)
    ∧ replay (@full_graph sample_settings role_db) events = Ok (@full_graph sample_settings d').
Proof.
  destruct role_updated as [[[d' role] events]|] eqn:Hc; [|exfalso; revert Hc; by vm_compute].
  exists d', role, events. split; [done|].
  refine (proj2 (proj2 (proj2 (@update_role_refines sample_settings _ _ ScopeService.sample_service "r1" "uno"
    None [v2_dict "app" "other" "read"] sample_tenant role_db d' role events eq_refl role_db_wf role_db_role_wf
    _ Hc)))).
  apply names_distinct_checked. unfold unique_on. by_compute.
Defined.

Lemma bulk_delete_refines_witness :
  ∃ d' removed events, role_deleted = Ok (d', removed, events)
    ∧ replay (@full_graph sample_settings role_db) events = Ok (@full_graph sample_settings d').
Proof.
  destruct role_deleted as [[[d' removed] events]|] eqn:Hc; [|exfalso; revert Hc; by vm_compute].
  exists d', removed, events. split; [done|].
  exact (proj1 (proj2 (@bulk_delete_refines sample_settings _ _ {["r1"]} (Some 7%Z) role_db d' removed events eq_refl
    role_db_wf role_db_role_wf Hc))).
Defined.
