(* ===== verification/Workspaces.v ===== *)
(** Workspaces: the model (rbac/management/workspace/model.py), the service that
    creates, updates and moves them (rbac/management/workspace/service.py) and the
    handler that replicates their parent relation
    (rbac/management/workspace/inventory_api_dual_write_workspace_handler.py). *)

From S2P Require Import Prelude.
From S2P Require Import PyString.
From S2P Require Import Config.
From S2P Require Import RelationTypes.
From S2P Require Import TupleStore.
From S2P Require Import Permissions.
From S2P Require Import ScopeService.
From S2P Require Import Outbox.
From S2P Require Import Tenants.
From S2P Require Import Db.
From S2P Require Import BindingGraph.
From S2P Require Import RoleBindingService.
From S2P Require Import RoleScopes.
From S2P Require Import RoleV2Service.

Definition with_workspaces (f : gmap string Workspace → gmap string Workspace) (d : Db) : Db :=
  mkDb (db_permissions d) (db_roles d) (db_groups d) (db_principals d) (db_bindings d)
    (db_group_entries d) (db_principal_entries d) (f (db_workspaces d)) (db_mappings d) (db_tenants d).

(* ------------------------------------------------------------------ *)
(** * The tree *)

Definition parent_of (d : Db) (id : string) : option string :=
  w ← db_workspaces d !! id; w_parent w.

(** The rows the recursive query of [ancestors] visits above a workspace. *)
Fixpoint parent_chain (fuel : nat) (d : Db) (id : string) : list string :=
  match fuel with
  | O => []
  | S n => match parent_of d id with
           | Some p => if decide (is_Some (db_workspaces d !! p)) then p :: parent_chain n d p else []
           | None => []
           end
  end.

(** [Workspace.ancestors]: as many steps as there are rows. *)
Definition ancestors (d : Db) (id : string) : gset string :=
  list_to_set (parent_chain (size (db_workspaces d)) d id) ∖ {[id]}.

(** The workspaces whose parent is one of the given ones. *)
Definition children_of (d : Db) (ids : gset string) : gset string :=
  list_to_set (map fst (List.filter (λ kw, match w_parent (snd kw) with
    | Some p => bool_decide (p ∈ ids) | None => false end) (map_to_list (db_workspaces d)))).

(** [Workspace.descendants] *)
Fixpoint descend (fuel : nat) (d : Db) (ids : gset string) : gset string :=
  match fuel with
  | O => ∅
  | S n => let cs := children_of d ids in cs ∪ descend n d cs
  end.
Definition descendants (d : Db) (id : string) : gset string :=
  descend (size (db_workspaces d)) d {[id]}.

(** [Workspace.get_max_descendant_depth]: the last level of the recursive query that
    has a row. *)
Fixpoint max_level (fuel : nat) (d : Db) (ids : gset string) : nat :=
  match fuel with
  | O => 0
  | S n => let cs := children_of d ids in
           if decide (cs = ∅) then 0%nat else S (max_level n d cs)
  end.
Definition get_max_descendant_depth (d : Db) (id : string) : nat :=
  max_level (size (db_workspaces d)) d {[id]}.

(* ------------------------------------------------------------------ *)
(** * Validation *)

(** [SpecialDescriptions] *)
Definition special_description (ty : WorkspaceType) : option string :=
  match ty with
  | ROOT_WS => Some "The top-level workspace containing all other workspaces"
  | DEFAULT_WS => Some "The default workspace for your organization"
  | UNGROUPED_HOSTS => Some "System workspace for ungrouped hosts"
  | STANDARD => None
  end.

Definition set_description (w : Workspace) (desc : option string) : Workspace :=
  mkWorkspace (w_id w) (w_name w) desc (w_parent w) (w_type w) (w_tenant w).
Definition set_parent (w : Workspace) (p : string) : Workspace :=
  mkWorkspace (w_id w) (w_name w) (w_description w) (Some p) (w_type w) (w_tenant w).

(** [Workspace.clean] *)
Definition ws_clean `{RowOrder} (d : Db) (w0 : Workspace) : result Workspace :=
  let w := match w_description w0 with
           | Some s => if str_truth s then w0
                       else match special_description (w_type w0) with
                            | Some s' => set_description w0 (Some s') | None => w0 end
           | None => match special_description (w_type w0) with
                     | Some s' => set_description w0 (Some s') | None => w0 end
           end in
  if decide (w_type w = ROOT_WS) then
    _ ← raise_if (bool_decide (is_Some (w_parent w))) (SerializerValidationError "root_parent"); mret w
  else match w_parent w with
       | None =>
           if decide (w_type w = STANDARD) then
             default_ws ← built_in_workspace d (w_tenant w) DEFAULT_WS;
             mret (set_parent w (w_id default_ws))
           else Raise (ValidationError "workspace")
       | Some p =>
           if decide (w_type w = DEFAULT_WS) then
             parent ← or_raise (DoesNotExist "Workspace") (db_workspaces d !! p);
             if negb (bool_decide (w_type parent = ROOT_WS)) then Raise (SerializerValidationError "default_parent")
             else _ ← raise_if (String.eqb (w_id w) p) (SerializerValidationError "parent_id"); mret w
           else _ ← raise_if (String.eqb (w_id w) p) (SerializerValidationError "parent_id"); mret w
       end.

(** [Upper(name)] *)
Definition upper_char (c : ascii) : ascii :=
  let n := N_of_ascii c in
  if ((97 <=? n)%N && (n <=? 122)%N)
     || ((224 <=? n)%N && (n <=? 254)%N && negb (n =? 247)%N)
  then ascii_of_N (n - 32) else c.
Fixpoint str_upper (s : string) : string :=
  match s with EmptyString => EmptyString | String c s' => String (upper_char c) (str_upper s') end.

(** The two unique constraints of the table. *)
Definition other_rows (d : Db) (w : Workspace) : list Workspace :=
  List.filter (λ x, negb (String.eqb (w_id x) (w_id w))) (map snd (map_to_list (db_workspaces d))).
Definition name_conflict (d : Db) (w : Workspace) : bool :=
  bool_decide (is_Some (w_parent w))
  && existsb (λ x, String.eqb (str_upper (w_name x)) (str_upper (w_name w))
                   && bool_decide (w_parent x = w_parent w)) (other_rows d w).
Definition type_conflict (d : Db) (w : Workspace) : bool :=
  negb (bool_decide (w_type w = STANDARD))
  && existsb (λ x, Z.eqb (w_tenant x) (w_tenant w) && bool_decide (w_type x = w_type w)) (other_rows d w).

Definition UNIQUE_NAME : string := "unique_workspace_name_per_parent".

(** [full_clean], run by [save]: the fields, [clean], the unique fields and the
    constraints.  A constraint on a field that already failed is skipped. *)
Definition ws_full_clean `{RowOrder} (adding : bool) (d : Db) (w0 : Workspace) : result Workspace :=
  w ← ws_clean d w0;
  let name_ok := str_truth (w_name w) && Nat.leb (String.length (w_name w)) 255 in
  let parent_ok := match w_parent w0 with
                   | Some p => bool_decide (is_Some (db_workspaces d !! p)) | None => true end in
  _ ← raise_if (name_ok && parent_ok && name_conflict d w) (ValidationError UNIQUE_NAME);
  _ ← raise_if (negb name_ok) (ValidationError "name");
  _ ← raise_if (negb parent_ok) (ValidationError "parent");
  _ ← raise_if (match w_description w with Some s => Nat.ltb 255 (String.length s) | None => false end)
        (ValidationError "description");
  _ ← raise_if (adding && bool_decide (is_Some (db_workspaces d !! w_id w))) (ValidationError "id");
  _ ← raise_if (type_conflict d w) (ValidationError "unique_default_root_workspace_per_tenant");
  mret w.

(** [_handle_validation_error] *)
Definition handle_validation_error {A} (as_serializer_error : bool) (r : result A) : result A :=
  match r with
  | Raise (ValidationError f) =>
      if String.eqb f UNIQUE_NAME then Raise WorkspaceAlreadyExistsError
      else if as_serializer_error then Raise (SerializerValidationError f) else Raise (ValidationError f)
  | _ => r
  end.

(* ------------------------------------------------------------------ *)
(** * Replication *)

(** What [make_workspace_event] carries: the type of the event and the row that is
    serialized. *)
Definition ws_event : Type := ReplicationEventType * Workspace.

Definition make_workspace_event (w : Workspace) (ty : ReplicationEventType) : result ws_event :=
  _ ← raise_if (negb (bool_decide (ty = CREATE_WORKSPACE) || bool_decide (ty = UPDATE_WORKSPACE)
                      || bool_decide (ty = DELETE_WORKSPACE))) ValueError;
  mret (ty, w).

(** [_get_workspace_relationship] *)
Definition get_workspace_relationship (workspace parent : string) : result RelationTuple :=
  create_relationship ("rbac", "workspace") workspace ("rbac", "workspace") parent "parent" None.

(** [workspace.parent.id]: AttributeError on a workspace without a parent. *)
Definition relationship_to (w : Workspace) (parent : option string) : result RelationTuple :=
  p ← or_raise AttributeError parent; get_workspace_relationship (w_id w) p.

Section service.
Context `{Settings} `{PySetOrder} `{RowOrder}.

(** [_replicate] *)
Definition ws_replicate (d : Db) (w : Workspace) (ty : ReplicationEventType)
    (relations_to_add relations_to_remove : list RelationTuple) (skip_ws_events force_create : bool) :
    result (list ReplicationEvent * list ws_event) :=
  if negb REPLICATION_TO_RELATION_ENABLED then mret ([], []) else
  dual_write (
    _ ← raise_if (force_create && skip_ws_events) ValueError;
    _ ← raise_if (force_create && negb (bool_decide (ty = UPDATE_WORKSPACE))) ValueError;
    events ← match relations_to_remove, relations_to_add with
             | [], [] => mret []
             | _, _ =>
                 tenant ← or_raise (DoesNotExist "Tenant") (db_tenants d !! w_tenant w);
                 emit (mkReplicationEvent ty
                   [("workspace_id", Some (w_id w)); ("org_id", Some (py_str (org_id tenant)))]
                   relations_to_add relations_to_remove)
             end;
    ws_events ← (if skip_ws_events then mret [] else
      created ← (if force_create then e ← make_workspace_event w CREATE_WORKSPACE; mret [e] else mret []);
      e ← make_workspace_event w ty;
      mret (created ++ [e]));
    mret (events, ws_events)).

(** [replicate_new_workspace] and [replicate_updated_workspace] *)
Definition replicate_new_workspace (d : Db) (w : Workspace) (ty : ReplicationEventType) :
    result (list ReplicationEvent * list ws_event) :=
  if negb REPLICATION_TO_RELATION_ENABLED then mret ([], []) else
  t ← relationship_to w (w_parent w);
  ws_replicate d w ty [t] [] false false.

(** [generate_relations_to_update_workspace]: the tuples to add and to remove. *)
Definition generate_relations_to_update_workspace (w : Workspace) (previous_parent : option string) :
    result (list RelationTuple * list RelationTuple) :=
  if decide (w_parent w = previous_parent) then mret ([], [])
  else
    old ← relationship_to w previous_parent;
    new ← relationship_to w (w_parent w);
    mret ([new], [old]).

Definition replicate_updated_workspace (d : Db) (w : Workspace) (ty : ReplicationEventType)
    (previous_parent : option string) (skip_ws_events force_create : bool) :
    result (list ReplicationEvent * list ws_event) :=
  if negb REPLICATION_TO_RELATION_ENABLED then mret ([], []) else
  '(relations_to_add, relations_to_remove) ← generate_relations_to_update_workspace w previous_parent;
  ws_replicate d w ty relations_to_add relations_to_remove skip_ws_events force_create.

(* ------------------------------------------------------------------ *)
(** * The service *)

(** [Workspace.objects.get(id=..., tenant=...)] *)
Definition ws_get_in_tenant (d : Db) (id : string) (tenant : Z) : result Workspace :=
  or_raise (DoesNotExist "Workspace") (workspace_get d id tenant).

(** [_exceeds_depth_limit] *)
Definition exceeds_depth_limit (d : Db) (target_parent_id : string) (tenant : Z) : result bool :=
  w ← ws_get_in_tenant d target_parent_id tenant;
  mret (Nat.ltb WORKSPACE_HIERARCHY_DEPTH_LIMIT (size (ancestors d (w_id w)) + 1)).

(** [_violates_peer_restrictions] *)
Definition violates_peer_restrictions (d : Db) (target_parent_id : string) (tenant : Z) : result bool :=
  root ← built_in_workspace d tenant ROOT_WS;
  mret (WORKSPACE_RESTRICT_DEFAULT_PEERS && String.eqb (w_id root) target_parent_id).

(** [_enforce_hierarchy_depth] *)
Definition enforce_hierarchy_depth (d : Db) (target_parent_id : string) (tenant : Z) : result unit :=
  too_deep ← exceeds_depth_limit d target_parent_id tenant;
  _ ← raise_if too_deep (SerializerValidationError "workspace");
  peer ← violates_peer_restrictions d target_parent_id tenant;
  raise_if peer InvalidWorkspaceTypeError.

(** [_enforce_hierarchy_depth_for_descendants] *)
Definition enforce_hierarchy_depth_for_descendants (d : Db) (new_parent_id : string) (instance : Workspace) :
    result unit :=
  parent ← or_raise (DoesNotExist "Workspace") (db_workspaces d !! new_parent_id);
  let total_depth :=
    (size (ancestors d (w_id parent)) + 1 + get_max_descendant_depth d (w_id instance))%nat in
  raise_if (Nat.ltb WORKSPACE_HIERARCHY_DEPTH_LIMIT total_depth) (SerializerValidationError "workspace").

(** [_check_total_workspace_count_exceeded] *)
Definition workspace_count (d : Db) (tenant : Z) : nat :=
  length (List.filter (λ w, Z.eqb (w_tenant w) tenant && bool_decide (w_type w = STANDARD))
            (map snd (map_to_list (db_workspaces d)))).
Definition check_total_workspace_count_exceeded (d : Db) (tenant : Tenant) : bool :=
  Z.leb (workspace_creation_limit tenant) (Z.of_nat (workspace_count d (t_id tenant))).

Definition put_workspace (w : Workspace) : Db → Db := with_workspaces (<[w_id w := w]>).

(** [WorkspaceService.create]; [id] is the UUID the new row gets. *)
Definition create_workspace (id name : string) (description parent_id : option string) (request_tenant : Tenant)
    (d : Db) : result (Db * Workspace * list ReplicationEvent * list ws_event) :=
  handle_validation_error true (
    pid ← match parent_id with
          | Some p => mret p
          | None => default_ws ← built_in_workspace d (t_id request_tenant) DEFAULT_WS; mret (w_id default_ws)
          end;
    parent ← or_raise (DoesNotExist "Workspace") (db_workspaces d !! pid);
    _ ← enforce_hierarchy_depth d pid (t_id request_tenant);
    _ ← raise_if (check_total_workspace_count_exceeded d request_tenant) (SerializerValidationError "limit");
    w ← ws_full_clean true d (mkWorkspace id name description parent_id STANDARD (w_tenant parent));
    let d' := put_workspace w d in
    '(events, ws_events) ← replicate_new_workspace d' w CREATE_WORKSPACE;
    mret (d', w, events, ws_events)).

(** [WorkspaceService.update]: the entries of the validated data that are present. *)
Definition update_workspace (instance : Workspace) (name : option string)
    (description : option (option string)) (parent_id : option (option string)) (d : Db) :
    result (Db * Workspace * list ReplicationEvent * list ws_event) :=
  _ ← raise_if (bool_decide (w_type instance = ROOT_WS) || bool_decide (w_type instance = UNGROUPED_HOSTS))
        InvalidWorkspaceTypeError;
  _ ← raise_if (match parent_id with
                | Some p => negb (bool_decide (w_parent instance = p)) | None => false end)
        (SerializerValidationError "parent_id");
  let w0 := mkWorkspace (w_id instance) (default (w_name instance) name)
              (default (w_description instance) description) (w_parent instance) (w_type instance)
              (w_tenant instance) in
  handle_validation_error true (
    w ← ws_full_clean false d w0;
    let d' := put_workspace w d in
    '(events, ws_events) ← replicate_updated_workspace d' w UPDATE_WORKSPACE (w_parent w) false
                             (bool_decide (w_type instance = DEFAULT_WS));
    mret (d', w, events, ws_events)).

(** [WorkspaceService.move]: [save(update_fields=["parent"])] writes one column. *)
Definition move_workspace (instance : Workspace) (target_workspace_id : string) (d : Db) :
    result (Db * Workspace * list ReplicationEvent * list ws_event) :=
  _ ← raise_if (negb (bool_decide (w_type instance = STANDARD))) InvalidWorkspaceTypeError;
  _ ← raise_if (bool_decide (target_workspace_id ∈ descendants d (w_id instance)))
        (SerializerValidationError "parent_id");
  _ ← enforce_hierarchy_depth d target_workspace_id (w_tenant instance);
  _ ← enforce_hierarchy_depth_for_descendants d target_workspace_id instance;
  target ← ws_get_in_tenant d target_workspace_id (w_tenant instance);
  let previous_parent := w_parent instance in
  w ← handle_validation_error false (ws_full_clean false d (set_parent instance (w_id target)));
  row ← or_raise (DoesNotExist "Workspace") (db_workspaces d !! w_id w);
  let d' := put_workspace (set_parent row (w_id target)) d in
  '(events, ws_events) ← replicate_updated_workspace d' w MOVE_WORKSPACE previous_parent true false;
  mret (d', w, events, ws_events).

(** [itertools.batched] *)
Fixpoint batched {A} (fuel n : nat) (l : list A) : list (list A) :=
  match fuel, l with
  | S fuel', _ :: _ => take n l :: batched fuel' n (drop n l)
  | _, _ => []
  end.

(** [_remove_workspace_direct_role_bindings]: the row of the tenant's mapping and the
    keys of the BindingMapping rows left for the workspace are read first. *)
Definition remove_workspace_direct_role_bindings (w : Workspace) (binding_mappings : list Z) (d : Db) :
    result (Db * nat * list ReplicationEvent) :=
  tenant_version ← lock_tenant_version (db_mappings d !! w_tenant w);
  _ ← raise_if (match binding_mappings with [] => false | _ => true end) AssertionError;
  let role_bindings := select (λ b, String.eqb (b_resource_type b) "workspace"
                                    && String.eqb (b_resource_id b) (w_id w)) (db_bindings d) in
  match tenant_version with
  | VERSION_1 =>
      _ ← raise_if (match role_bindings with [] => false | _ => true end) AssertionError;
      mret (d, 0%nat, [])
  | VERSION_2 =>
      tenant ← or_raise (DoesNotExist "Tenant") (db_tenants d !! w_tenant w);
      tuples_to_remove ← mapM (all_tuples d) role_bindings;
      let all := concat tuples_to_remove in
      events ← mapM (λ batch, emit (mkReplicationEvent DELETE_WORKSPACE
                 [("org_id", org_id tenant); ("workspace_id", Some (w_id w))] [] batch))
                 (batched (length all) 1000 all);
      mret (delete_bindings (list_to_set (map b_id role_bindings)) d, length role_bindings, concat events)
  end.

End service.

(* ------------------------------------------------------------------ *)
(** * Walking the tree *)

#[local] Open Scope nat_scope.

(** The workspace [n] steps above. *)
Fixpoint climb (d : Db) (n : nat) (id : string) : option string :=
  match n with
  | O => Some id
  | S n' => p ← parent_of d id; climb d n' p
  end.

(** A workspace is [n] steps below a row without a parent. *)
Definition depth_at (d : Db) (n : nat) (id : string) : Prop :=
  ∃ r w, climb d n id = Some r ∧ db_workspaces d !! r = Some w ∧ w_parent w = None.

(** The tree: rows under their own id, every row at some depth within the limit, a
    parent of the same tenant, no parent exactly for a root workspace, distinct names
    among siblings (whatever their case) and one built-in workspace of each type per
    tenant. *)
Record tree `{Settings} (d : Db) : Prop := {
  tree_id : ∀ i w, db_workspaces d !! i = Some w → w_id w = i;
  tree_depth : ∀ i w, db_workspaces d !! i = Some w → ∃ n, depth_at d n i ∧ n ≤ WORKSPACE_HIERARCHY_DEPTH_LIMIT;
  tree_tenant : ∀ i w p, db_workspaces d !! i = Some w → w_parent w = Some p →
    ∃ pw, db_workspaces d !! p = Some pw ∧ w_tenant pw = w_tenant w;
  tree_root : ∀ i w, db_workspaces d !! i = Some w → w_parent w = None ↔ w_type w = ROOT_WS;
  tree_names : ∀ i j wi wj, db_workspaces d !! i = Some wi → db_workspaces d !! j = Some wj →
    is_Some (w_parent wi) → w_parent wi = w_parent wj →
    str_upper (w_name wi) = str_upper (w_name wj) → i = j;
  tree_types : ∀ i j wi wj, db_workspaces d !! i = Some wi → db_workspaces d !! j = Some wj →
    w_type wi ≠ STANDARD → w_type wi = w_type wj → w_tenant wi = w_tenant wj → i = j;
}.

Lemma parent_of_Some d i p : parent_of d i = Some p ↔ ∃ w, db_workspaces d !! i = Some w ∧ w_parent w = Some p.
Proof. unfold parent_of. destruct (db_workspaces d !! i) as [w|]; cbn; naive_solver. Qed.

Lemma climb_S_r d n i : climb d (S n) i = (a ← climb d n i; parent_of d a).
Proof.
  revert i. induction n as [|n IH]; intros i; [cbn; by destruct (parent_of d i)|].
  change (climb d (S (S n)) i) with (p ← parent_of d i; climb d (S n) p).
  change (climb d (S n) i) with (p ← parent_of d i; climb d n p).
  destruct (parent_of d i); [apply IH | done].
Qed.

Lemma depth_at_0 d i w : db_workspaces d !! i = Some w → w_parent w = None → depth_at d 0 i.
Proof. intros. by exists i, w. Qed.

Lemma depth_at_S d n i : depth_at d (S n) i ↔ ∃ p, parent_of d i = Some p ∧ depth_at d n p.
Proof.
  unfold depth_at. cbn. split.
  - intros (r & w & Hr & Hw). destruct (parent_of d i) as [p|]; [|done]. exists p. split; [done|]. by exists r, w.
  - intros (p & -> & r & w & Hr). by exists r, w.
Qed.

Lemma depth_at_unique d n m i : depth_at d n i → depth_at d m i → n = m.
Proof.
  revert m i. induction n as [|n IH]; intros [|m] i Hn Hm; [done|..].
  - destruct Hn as (r & w & [= <-] & Hw & Hp). apply depth_at_S in Hm as (p & (w' & Hw' & Hp')%parent_of_Some & _).
    congruence.
  - destruct Hm as (r & w & [= <-] & Hw & Hp). apply depth_at_S in Hn as (p & (w' & Hw' & Hp')%parent_of_Some & _).
    congruence.
  - apply depth_at_S in Hn as (p & Hp & Hn), Hm as (p' & Hp' & Hm). simplify_eq. f_equal. eauto.
Qed.

Lemma depth_at_row d n i : depth_at d n i → is_Some (db_workspaces d !! i).
Proof.
  destruct n; [intros (r & w & [= ->] & Hw & _); eauto|].
  intros (p & (w & Hw & _)%parent_of_Some & _)%depth_at_S. eauto.
Qed.

(** Climbing goes up one level at a time. *)
Lemma depth_at_climb d n k i a : depth_at d n i → climb d k i = Some a → k ≤ n ∧ depth_at d (n - k) a.
Proof.
  revert n i. induction k as [|k IH]; intros n i Hn; cbn.
  - intros [= ->]. by rewrite Nat.sub_0_r; split; [lia|].
  - destruct (parent_of d i) as [p|] eqn:Hp; [|done]. cbn. intros Hk. destruct n as [|n].
    + destruct Hn as (r & w & [= <-] & Hw & Hn). apply parent_of_Some in Hp as (w' & ? & ?). congruence.
    + apply depth_at_S in Hn as (p' & ? & Hn). simplify_eq. destruct (IH n p' Hn Hk). split; [lia|done].
Qed.

(** What the chain of parents visits. *)
Lemma parent_chain_spec d n i fuel :
  depth_at d n i → n ≤ fuel →
  length (parent_chain fuel d i) = n ∧ NoDup (i :: parent_chain fuel d i)
  ∧ ∀ a, a ∈ parent_chain fuel d i ↔ ∃ k, 0 < k ∧ climb d k i = Some a.
Proof.
  revert n i. induction fuel as [|fuel IH]; intros n i Hn Hf.
  - assert (n = 0%nat) as -> by lia. cbn. split; [done|]. split; [apply NoDup_singleton|]. intros a.
    split; [by intros ?%elem_of_nil|]. intros (k & Hk & Hc). destruct (depth_at_climb d 0 k i a Hn Hc). lia.
  - cbn [parent_chain]. destruct n as [|n].
    + destruct (parent_of d i) as [p|] eqn:Hp.
      { destruct Hn as (r & w & [= <-] & Hw & Hn). apply parent_of_Some in Hp as (w' & ? & ?). congruence. }
      split; [done|]. split; [apply NoDup_singleton|]. intros a. split; [by intros ?%elem_of_nil|].
      intros (k & Hk & Hc). destruct (depth_at_climb d 0 k i a Hn Hc). lia.
    + pose proof Hn as Hn0. apply depth_at_S in Hn as (p & Hp & Hn). rewrite Hp.
      rewrite decide_True by eauto using depth_at_row.
      destruct (IH n p Hn ltac:(lia)) as (Hl & Hnd & Hin). split; [cbn; lia|].
      assert (∀ a, a ∈ p :: parent_chain fuel d p ↔ ∃ k, 0 < k ∧ climb d k i = Some a) as Hall.
      { intros a. rewrite elem_of_cons, Hin. split.
        - intros [->|(k & Hk & Hc)]; [exists 1%nat | exists (S k)]; cbn; rewrite Hp; split; (done || lia).
        - intros ([|k] & Hk & Hc); [lia|]. cbn in Hc. rewrite Hp in Hc. cbn in Hc.
          destruct k as [|k]; [injection Hc as ->; by left|]. right. exists (S k). split; [lia|done]. }
      split; [|done]. constructor; [|done]. rewrite Hall. intros (k & Hk & Hc).
      destruct (depth_at_climb d (S n) k i i Hn0 Hc) as [_ Hd].
      pose proof (depth_at_unique _ _ _ _ Hn0 Hd). lia.
Qed.

(** A depth is below the number of rows, so that many steps reach every ancestor. *)
Lemma depth_lt_size d n i : depth_at d n i → n < size (db_workspaces d).
Proof.
  intros Hn. destruct (parent_chain_spec d n i n Hn (le_n _)) as (Hl & Hnd & Hin).
  rewrite <- (size_dom (D := gset string)).
  assert (list_to_set (i :: parent_chain n d i) ⊆@{gset string} dom (db_workspaces d)) as Hsub.
  { intros a. rewrite elem_of_list_to_set, elem_of_cons, elem_of_dom. intros [->|Ha]; [by eapply depth_at_row|].
    apply Hin in Ha as (k & _ & Hc). destruct (depth_at_climb d n k i a Hn Hc). by eapply depth_at_row. }
  apply subseteq_size in Hsub. rewrite size_list_to_set in Hsub by done. cbn in Hsub. lia.
Qed.

(** [ancestors] of a workspace at depth [n]: the [n] workspaces above it. *)
Lemma ancestors_spec d n i :
  depth_at d n i →
  size (ancestors d i) = n ∧ ∀ a, a ∈ ancestors d i ↔ ∃ k, 0 < k ∧ climb d k i = Some a.
Proof.
  intros Hn. pose proof (depth_lt_size _ _ _ Hn) as Hlt.
  destruct (parent_chain_spec d n i (size (db_workspaces d)) Hn ltac:(lia)) as (Hl & Hnd & Hin).
  apply NoDup_cons in Hnd as [Hi Hnd]. unfold ancestors.
  replace (list_to_set (parent_chain (size (db_workspaces d)) d i) ∖ {[i]})
    with (list_to_set (parent_chain (size (db_workspaces d)) d i) : gset string).
  - rewrite size_list_to_set by done. split; [done|]. intros a. by rewrite elem_of_list_to_set.
  - apply leibniz_equiv. intros a. rewrite elem_of_difference, elem_of_list_to_set, elem_of_singleton.
    split; [|tauto]. intros Ha. split; [done|]. by intros ->.
Qed.

Lemma elem_of_children d ids x : x ∈ children_of d ids ↔ ∃ p, parent_of d x = Some p ∧ p ∈ ids.
Proof.
  unfold children_of. rewrite elem_of_list_to_set, list_elem_of_fmap. setoid_rewrite list_elem_of_In.
  setoid_rewrite filter_In. setoid_rewrite <- list_elem_of_In.
  setoid_rewrite elem_of_map_to_list'. setoid_rewrite parent_of_Some. split.
  - intros ([k w] & -> & Hw & Hp). cbn in *. destruct (w_parent w) as [p|] eqn:E; [|done].
    apply bool_decide_eq_true in Hp. eauto.
  - intros (p & (w & Hw & Hp) & Hin). exists (x, w). cbn. rewrite Hp. by rewrite bool_decide_true.
Qed.

Lemma elem_of_descend d fuel ids x :
  x ∈ descend fuel d ids ↔ ∃ k a, 0 < k ≤ fuel ∧ a ∈ ids ∧ climb d k x = Some a.
Proof.
  revert ids. induction fuel as [|fuel IH]; intros ids; cbn [descend].
  - rewrite elem_of_empty. split; [done|]. intros (k & a & ? & _). lia.
  - rewrite elem_of_union, IH, elem_of_children. split.
    + intros [(p & Hp & Hin)|(k & c & Hk & (p & Hp & Hin)%elem_of_children & Hc)].
      * exists 1%nat, p. cbn. rewrite Hp. split; [lia|done].
      * exists (S k), p. rewrite climb_S_r, Hc. split; [lia|done].
    + intros (k & a & Hk & Hin & Hc). destruct k as [|k]; [lia|]. rewrite climb_S_r in Hc.
      destruct (climb d k x) as [c|] eqn:E; [|done]. cbn in Hc. destruct k as [|k].
      * injection E as ->. left. eauto.
      * right. exists (S k), c. split; [lia|]. split; [|done]. apply elem_of_children. eauto.
Qed.

Lemma max_level_bound d fuel ids k x a : climb d k x = Some a → a ∈ ids → k ≤ fuel → k ≤ max_level fuel d ids.
Proof.
  revert ids k a. induction fuel as [|fuel IH]; intros ids k a Hc Hin Hk; [lia|].
  destruct k as [|k]; [lia|]. rewrite climb_S_r in Hc. destruct (climb d k x) as [c|] eqn:E; [|done].
  cbn [max_level]. assert (c ∈ children_of d ids) as Hch by (apply elem_of_children; eauto).
  rewrite decide_False by set_solver. specialize (IH _ _ _ E Hch). lia.
Qed.
Lemma max_level_attained d fuel ids a0 : a0 ∈ ids → ∃ x a, a ∈ ids ∧ climb d (max_level fuel d ids) x = Some a.
Proof.
  revert ids a0. induction fuel as [|fuel IH]; intros ids a0 Hin; cbn [max_level]; [by exists a0, a0|].
  destruct (decide (children_of d ids = ∅)) as [|Hne]; [by exists a0, a0|].
  apply set_choose_L in Hne as [c Hc]. destruct (IH _ _ Hc) as (x & c' & Hc' & Hx).
  apply elem_of_children in Hc' as (p & Hp & Hpi). exists x, p. split; [done|]. by rewrite climb_S_r, Hx.
Qed.

(* ------------------------------------------------------------------ *)
(** * Changing one row *)

Lemma parent_of_put_ne d w x : x ≠ w_id w → parent_of (put_workspace w d) x = parent_of d x.
Proof. intros Hx. unfold parent_of, put_workspace; cbn. by rewrite lookup_insert_ne. Qed.
Lemma parent_of_put d w : parent_of (put_workspace w d) (w_id w) = w_parent w.
Proof. unfold parent_of, put_workspace; cbn. by rewrite lookup_insert_eq. Qed.

Lemma depth_put_0 d w x : x ≠ w_id w → depth_at d 0 x → depth_at (put_workspace w d) 0 x.
Proof.
  intros Hx (r & w' & [= <-] & Hw & Hp). exists x, w'. split; [done|]. split; [|done].
  cbn. by rewrite lookup_insert_ne.
Qed.

(** A workspace that is not under the changed one keeps its depth. *)
Lemma depth_put_avoid d w n x :
  depth_at d n x → (∀ k, climb d k x ≠ Some (w_id w)) → depth_at (put_workspace w d) n x.
Proof.
  revert x. induction n as [|n IH]; intros x Hn Hav.
  - apply depth_put_0; [|done]. intros ->. by apply (Hav 0).
  - apply depth_at_S in Hn as (p & Hp & Hn). apply depth_at_S. exists p.
    rewrite parent_of_put_ne by (intros ->; by apply (Hav 0)). split; [done|].
    apply IH; [done|]. intros k Hk. apply (Hav (S k)). cbn. by rewrite Hp.
Qed.

(** The others are as far below the changed one as before. *)
Lemma depth_put_under d w p m n x :
  w_parent w = Some p → depth_at (put_workspace w d) m p → depth_at d n x →
  depth_at (put_workspace w d) n x
  ∨ ∃ k, climb d k x = Some (w_id w) ∧ depth_at (put_workspace w d) (k + S m) x.
Proof.
  intros Hp Hm. revert x. induction n as [|n IH]; intros x Hn;
    (destruct (decide (x = w_id w)) as [->|Hne];
     [right; exists 0; split; [done|]; apply depth_at_S; exists p; by rewrite parent_of_put|]).
  - left. by apply depth_put_0.
  - apply depth_at_S in Hn as (q & Hq & Hn). destruct (IH q Hn) as [Hl|(k & Hk & Hd)].
    + left. apply depth_at_S. exists q. by rewrite parent_of_put_ne.
    + right. exists (S k). cbn. rewrite Hq. split; [done|]. apply depth_at_S. exists q. by rewrite parent_of_put_ne.
Qed.

Lemma other_rows_spec d w x :
  x ∈ other_rows d w ↔ w_id x ≠ w_id w ∧ ∃ i, db_workspaces d !! i = Some x.
Proof.
  unfold other_rows. rewrite list_elem_of_In, filter_In, <- list_elem_of_In, list_elem_of_fmap, negb_true_iff,
    String.eqb_neq. setoid_rewrite elem_of_map_to_list'. split.
  - intros [([i y] & -> & Hy) Hne]. eauto.
  - intros [Hne [i Hi]]. split; [|done]. by exists (i, x).
Qed.

Lemma name_conflict_false d w x i :
  name_conflict d w = false → is_Some (w_parent w) → db_workspaces d !! i = Some x → w_id x ≠ w_id w →
  w_parent x = w_parent w → str_upper (w_name x) ≠ str_upper (w_name w).
Proof.
  unfold name_conflict. intros Hc Hp Hx Hne Hpar Hn. rewrite bool_decide_true in Hc by done. cbn in Hc.
  apply not_true_iff_false in Hc. apply Hc, existsb_exists. exists x.
  rewrite <- list_elem_of_In, other_rows_spec, Hn, String.eqb_refl, bool_decide_true by done. eauto.
Qed.

Lemma type_conflict_false d w x i :
  type_conflict d w = false → w_type w ≠ STANDARD → db_workspaces d !! i = Some x → w_id x ≠ w_id w →
  w_type x = w_type w → w_tenant x ≠ w_tenant w.
Proof.
  unfold type_conflict. intros Hc Hp Hx Hne Hty Ht. rewrite bool_decide_false in Hc by done. cbn in Hc.
  apply not_true_iff_false in Hc. apply Hc, existsb_exists. exists x.
  rewrite <- list_elem_of_In, other_rows_spec, Ht, Z.eqb_refl, bool_decide_true by done. eauto.
Qed.

Section changes.
Context `{Settings} `{PySetOrder} `{RowOrder}.

(** Writing a row that passed the checks keeps the tree when the depths fit. *)
Lemma tree_put d w p :
  tree d → w_parent w = Some p → w_type w ≠ ROOT_WS →
  p ≠ w_id w → (∃ pw, db_workspaces d !! p = Some pw ∧ w_tenant pw = w_tenant w) →
  (∀ old, db_workspaces d !! w_id w = Some old → w_tenant old = w_tenant w) →
  name_conflict d w = false → type_conflict d w = false →
  (∀ i x, db_workspaces (put_workspace w d) !! i = Some x →
     ∃ n, depth_at (put_workspace w d) n i ∧ n ≤ WORKSPACE_HIERARCHY_DEPTH_LIMIT) →
  tree (put_workspace w d).
Proof.
  intros Ht Hp Hroot Hpne (pw & Hpw & Hpt) Hold Hname Htype Hdepth. split; [..|exact Hdepth| | | |].
  - intros i x. cbn. rewrite lookup_insert_Some. intros [[<- <-]|[_ Hx]]; [done|by eapply tree_id].
  - intros i x q. cbn. rewrite lookup_insert_Some. intros [[<- <-]|[Hne Hx]] Hq.
    + simplify_eq. exists pw. by rewrite lookup_insert_ne.
    + destruct (tree_tenant d Ht i x q Hx Hq) as (qw & Hqw & Hqt). destruct (decide (w_id w = q)) as [<-|Hneq].
      * exists w. rewrite lookup_insert_eq. split; [done|]. by rewrite <- (Hold _ Hqw).
      * exists qw. by rewrite lookup_insert_ne.
  - intros i x. cbn. rewrite lookup_insert_Some. intros [[<- <-]|[_ Hx]]; [|by eapply tree_root].
    rewrite Hp. naive_solver.
  - intros i j wi wj. cbn. rewrite !lookup_insert_Some. intros [[<- <-]|[Hi Hwi]] [[<- <-]|[Hj Hwj]] Hs Hpar Hn.
    + done.
    + exfalso. eapply (name_conflict_false d w wj j); eauto. by rewrite (tree_id d Ht _ _ Hwj).
    + exfalso. eapply (name_conflict_false d w wi i); eauto; by rewrite ?(tree_id d Ht _ _ Hwi), <- ?Hpar.
    + by eapply tree_names.
  - intros i j wi wj. cbn. rewrite !lookup_insert_Some. intros [[<- <-]|[Hi Hwi]] [[<- <-]|[Hj Hwj]] Hs Hty Htn.
    + done.
    + exfalso. eapply (type_conflict_false d w wj j); eauto. by rewrite (tree_id d Ht _ _ Hwj).
    + exfalso. eapply (type_conflict_false d w wi i); eauto; by rewrite ?(tree_id d Ht _ _ Hwi), <- ?Hty.
    + by eapply tree_types.
Qed.

(** What [clean] leaves of the columns. *)
Lemma ws_clean_keeps d w0 w :
  ws_clean d w0 = Ok w →
  w_id w = w_id w0 ∧ w_name w = w_name w0 ∧ w_type w = w_type w0 ∧ w_tenant w = w_tenant w0
  ∧ (w_type w0 = STANDARD → w_description w = w_description w0)
  ∧ match w_parent w0 with
    | Some p => w_parent w = Some p ∧ w_id w0 ≠ p ∧ w_type w0 ≠ ROOT_WS
    | None => w_type w0 = STANDARD →
              ∃ dw, built_in_workspace d (w_tenant w0) DEFAULT_WS = Ok dw ∧ w_parent w = Some (w_id dw)
    end.
Proof.
  unfold ws_clean. destruct w0 as [i n desc par ty tn]; cbn.
  set (w1 := match desc with Some _ => _ | None => _ end).
  assert (w_id w1 = i ∧ w_name w1 = n ∧ w_parent w1 = par ∧ w_type w1 = ty ∧ w_tenant w1 = tn
          ∧ (ty = STANDARD → w_description w1 = desc)) as (Hi & Hn & Hp & Hty & Htn & Hd).
  { subst w1. destruct desc as [s|]; [destruct (str_truth s)|]; destruct ty; cbn; naive_solver. }
  clearbody w1. rewrite Hp, Hty, Htn. case_decide as Hr.
  - destruct par; intros (u & Hu%raise_if_Ok & [= <-])%bind_Ok; [by rewrite bool_decide_true in Hu|].
    split_and!; try done. by rewrite Hr.
  - destruct par as [p|].
    + intros Hc. assert (String.eqb (w_id w1) p = false ∧ w = w1) as [Hne ->].
      { case_decide; [apply bind_Ok in Hc as (pw & _ & Hc); destruct (negb _); [done|]|];
          apply bind_Ok in Hc as (u & Hu%raise_if_Ok & [= <-]); done. }
      apply String.eqb_neq in Hne. rewrite Hi in Hne. by split_and!.
    + case_decide; [|done]. intros (dw & Hdw & [= <-])%bind_Ok. cbn. split_and!; try done. eauto.
Qed.

Lemma ws_full_clean_Ok adding d w0 w :
  ws_full_clean adding d w0 = Ok w →
  ws_clean d w0 = Ok w ∧ (is_Some (w_parent w0) → name_conflict d w = false)
  ∧ (w_parent w0 = None → name_conflict d w = false)
  ∧ type_conflict d w = false ∧ (adding = true → db_workspaces d !! w_id w = None).
Proof.
  unfold ws_full_clean. intros (w' & Hw & Hc)%bind_Ok. cbv zeta in Hc.
  apply bind_Ok in Hc as (u1 & H1'%raise_if_Ok & Hc). apply bind_Ok in Hc as (u2 & H2'%raise_if_Ok & Hc).
  apply bind_Ok in Hc as (u3 & H3'%raise_if_Ok & Hc). apply bind_Ok in Hc as (u4 & H4'%raise_if_Ok & Hc).
  apply bind_Ok in Hc as (u5 & H5'%raise_if_Ok & Hc). apply bind_Ok in Hc as (u6 & H6'%raise_if_Ok & Hc). inv_ok.
  apply negb_false_iff in H2', H3'. rewrite H2', H3' in H1'. cbn in H1'.
  split_and!; try done. intros ->. cbn in H5'. apply bool_decide_eq_false in H5'. by apply eq_None_not_Some.
Qed.

Lemma handle_validation_error_Ok {A} b (r : result A) x : handle_validation_error b r = Ok x → r = Ok x.
Proof. destruct r as [a|e]; cbn; [done|]. destruct e; repeat case_match; done. Qed.

Lemma dual_write_Ok {A} (r : result A) x : dual_write r = Ok x → r = Ok x.
Proof. destruct r as [a|e]; cbn; [done|]. unfold raise_dual_write_exception. by repeat case_match. Qed.

Lemma workspace_get_Some d i tn w :
  ws_get_in_tenant d i tn = Ok w ↔ db_workspaces d !! i = Some w ∧ w_tenant w = tn.
Proof.
  unfold ws_get_in_tenant, workspace_get. destruct (db_workspaces d !! i) as [x|]; cbn; [|by split; [|intros [? _]]].
  destruct (Z.eqb_spec (w_tenant x) tn); cbn; (split; [by intros [= <-] | by intros [[= <-] ?]]).
Qed.

(** What the depth check of a parent guarantees. *)
Lemma enforce_hierarchy_depth_Ok d i tn u :
  tree d → enforce_hierarchy_depth d i tn = Ok u →
  ∃ w n, db_workspaces d !! i = Some w ∧ w_tenant w = tn ∧ depth_at d n i
    ∧ S n ≤ WORKSPACE_HIERARCHY_DEPTH_LIMIT
    ∧ (WORKSPACE_RESTRICT_DEFAULT_PEERS = true → w_type w ≠ ROOT_WS).
Proof.
  intros Ht. unfold enforce_hierarchy_depth, exceeds_depth_limit, violates_peer_restrictions.
  intros (b & Hb & Hc)%bind_Ok. apply bind_Ok in Hb as (w & [Hw Htn]%workspace_get_Some & [= <-]).
  apply bind_Ok in Hc as (u1 & H1'%raise_if_Ok & Hc). apply bind_Ok in Hc as (pb & Hpb & H2'%raise_if_Ok).
  apply bind_Ok in Hpb as (root & Hroot & [= <-]).
  destruct (tree_depth d Ht i w Hw) as (n & Hn & _). rewrite (tree_id d Ht i w Hw) in H1'.
  destruct (ancestors_spec d n i Hn) as [Hsz _]. rewrite Hsz in H1'. apply Nat.ltb_ge in H1'.
  exists w, n. split_and!; [done..|lia|]. intros Hres Hty. rewrite Hres in H2'. cbn in H2'.
  apply String.eqb_neq in H2'. apply H2'. unfold built_in_workspace in Hroot.
  destruct (select _ _) as [|r [|]] eqn:Hsel; try done. injection Hroot as ->.
  assert (root ∈ [root]) as Hin by by left. rewrite <- Hsel in Hin. apply elem_of_select in Hin as [Hq [j Hj]].
  apply andb_true_iff in Hq as [Hq1%Z.eqb_eq Hq2%bool_decide_eq_true].
  rewrite (tree_id d Ht j root Hj). eapply (tree_types d Ht j i root w); congruence.
Qed.

(* ------------------------------------------------------------------ *)
(** * The parent tuples *)

Definition t_parent (workspace parent : string) : RelationTuple :=
  rel_tuple ("rbac", "workspace") workspace ("rbac", "workspace") parent "parent" None.

(** The tuples the table stands for. *)
Definition parents_graph (d : Db) : tuples :=
  list_to_set (omap (λ kw, t_parent (fst kw) <$> w_parent (snd kw)) (map_to_list (db_workspaces d))).

Lemma elem_of_parents_graph d t :
  t ∈ parents_graph d ↔ ∃ i p, parent_of d i = Some p ∧ t = t_parent i p.
Proof.
  unfold parents_graph. rewrite elem_of_list_to_set, list_elem_of_omap. setoid_rewrite elem_of_map_to_list'.
  setoid_rewrite parent_of_Some. split.
  - intros ([i w] & Hw & Ht). cbn in *. destruct (w_parent w) as [p|] eqn:E; [|done]. naive_solver.
  - intros (i & p & (w & Hw & Hp) & ->). exists (i, w). cbn. by rewrite Hp.
Qed.

Lemma t_parent_inj i p i' p' : t_parent i p = t_parent i' p' → i = i' ∧ p = p'.
Proof. by intros [= -> ->]. Qed.

(** Writing one row replaces its tuple. *)
Lemma parents_graph_put d w p :
  w_parent w = Some p →
  parents_graph (put_workspace w d)
  = list_to_set [t_parent (w_id w) p]
    ∪ (parents_graph d ∖ list_to_set (match parent_of d (w_id w) with
                                      | Some q => [t_parent (w_id w) q] | None => [] end)).
Proof.
  intros Hp. apply leibniz_equiv. intros t.
  rewrite elem_of_union, elem_of_difference, !elem_of_list_to_set, !elem_of_parents_graph, list_elem_of_singleton.
  split.
  - intros (i & q & Hq & ->). destruct (decide (i = w_id w)) as [->|Hne].
    + rewrite parent_of_put, Hp in Hq. left. congruence.
    + rewrite parent_of_put_ne in Hq by done. right. split; [eauto|].
      destruct (parent_of d (w_id w)); rewrite ?list_elem_of_singleton; [by intros [? _]%t_parent_inj|].
      by intros ?%elem_of_nil.
  - intros [->|[(i & q & Hq & ->) Hn]]; [exists (w_id w), p; by rewrite parent_of_put|].
    exists i, q. split; [|done]. rewrite parent_of_put_ne; [done|]. intros ->. apply Hn. rewrite Hq.
    by apply list_elem_of_singleton.
Qed.

Lemma relationship_to_Ok w p t : relationship_to w (Some p) = Ok t → t = t_parent (w_id w) p.
Proof. unfold relationship_to, get_workspace_relationship. cbn. by intros [-> _]%create_relationship_spec. Qed.

Lemma ws_replicate_effect d w ty add rem skip force events ws_events :
  REPLICATION_TO_RELATION_ENABLED = true → ws_replicate d w ty add rem skip force = Ok (events, ws_events) →
  (∀ store, replay store events = Ok (list_to_set add ∪ (store ∖ list_to_set rem)))
  ∧ ws_events = if skip then [] else (if force then [(CREATE_WORKSPACE, w)] else []) ++ [(ty, w)].
Proof.
  intros He. unfold ws_replicate. rewrite He. cbn [negb]. intros Hr%dual_write_Ok.
  apply bind_Ok in Hr as (u1 & _ & Hr). apply bind_Ok in Hr as (u2 & _ & Hr).
  apply bind_Ok in Hr as (es & Hes & Hr). apply bind_Ok in Hr as (wes & Hwes & Hr). injection Hr as -> ->. split.
  - intros store. destruct rem as [|r rem], add as [|a add];
      try (apply bind_Ok in Hes as (tn & _ & Hes); apply (emit_accepted _ _ He Hes store)).
    injection Hes as <-. unfold replay. cbn. f_equal. set_solver.
  - destruct skip; [by injection Hwes as <-|]. apply bind_Ok in Hwes as (cs & Hcs & Hwes).
    apply bind_Ok in Hwes as (e & Hev & Hwes). injection Hwes as <-. unfold make_workspace_event in *.
    apply bind_Ok in Hev as (u3 & _ & Hev). injection Hev as <-. f_equal.
    destruct force; [|by injection Hcs as <-]. apply bind_Ok in Hcs as (e & Hce & Hcs). injection Hcs as <-.
    apply bind_Ok in Hce as (u4 & _ & Hce). by injection Hce as <-.
Qed.
End changes.

(* ------------------------------------------------------------------ *)
(** * Creating and moving *)

Lemma filter_length_perm {A} (f : A → bool) (l l' : list A) :
  l ≡ₚ l' → length (List.filter f l) = length (List.filter f l').
Proof. induction 1; cbn; repeat case_match; cbn; congruence. Qed.

Lemma workspace_count_put d w :
  db_workspaces d !! w_id w = None → w_type w = STANDARD →
  workspace_count (put_workspace w d) (w_tenant w) = S (workspace_count d (w_tenant w)).
Proof.
  intros Hn Hty. unfold workspace_count, put_workspace; cbn.
  rewrite (filter_length_perm _ _ (map snd ((w_id w, w) :: map_to_list (db_workspaces d)))).
  - cbn. by rewrite Z.eqb_refl, Hty, bool_decide_true.
  - apply Permutation_map, map_to_list_insert, Hn.
Qed.

Section theorems.
Context `{Settings} `{PySetOrder} `{RowOrder}.

(** The depths after a row is added under a parent. *)
Lemma depths_added d w p n :
  tree d → db_workspaces d !! w_id w = None → w_parent w = Some p → depth_at d n p →
  S n ≤ WORKSPACE_HIERARCHY_DEPTH_LIMIT →
  ∀ i x, db_workspaces (put_workspace w d) !! i = Some x →
    ∃ m, depth_at (put_workspace w d) m i ∧ m ≤ WORKSPACE_HIERARCHY_DEPTH_LIMIT.
Proof.
  intros Ht Hfresh Hp Hn Hlim.
  assert (∀ m j, depth_at d m j → depth_at (put_workspace w d) m j) as Hkeep.
  { intros m j Hm. apply depth_put_avoid; [done|]. intros k Hk.
    destruct (depth_at_climb d m k j _ Hm Hk) as [_ [y Hy]%depth_at_row]. congruence. }
  intros i x. cbn. rewrite lookup_insert_Some. intros [[<- <-]|[_ Hx]].
  - exists (S n). split; [|done]. apply depth_at_S. exists p. rewrite parent_of_put. eauto.
  - destruct (tree_depth d Ht i x Hx) as (m & Hm & Hml). eauto.
Qed.

(** The depths after a row is put under another parent, not below it. *)
Lemma depths_moved d w p n old :
  tree d → db_workspaces d !! w_id w = Some old → w_parent w = Some p → depth_at d n p →
  p ≠ w_id w → p ∉ descendants d (w_id w) →
  n + 1 + get_max_descendant_depth d (w_id w) ≤ WORKSPACE_HIERARCHY_DEPTH_LIMIT →
  ∀ i x, db_workspaces (put_workspace w d) !! i = Some x →
    ∃ m, depth_at (put_workspace w d) m i ∧ m ≤ WORKSPACE_HIERARCHY_DEPTH_LIMIT.
Proof.
  intros Ht Hold Hp Hn Hne Hdesc Hlim.
  assert (depth_at (put_workspace w d) n p) as Hn'.
  { apply depth_put_avoid; [done|]. intros k Hk. apply Hdesc, elem_of_descend. exists k, (w_id w).
    destruct k as [|k]; [by injection Hk as ->|]. pose proof (depth_lt_size _ _ _ Hn).
    destruct (depth_at_climb d n (S k) p _ Hn Hk). split; [lia|]. by rewrite elem_of_singleton. }
  assert (∀ i y, db_workspaces d !! i = Some y →
    ∃ m, depth_at (put_workspace w d) m i ∧ m ≤ WORKSPACE_HIERARCHY_DEPTH_LIMIT) as Hall.
  { intros i y Hy. destruct (tree_depth d Ht i y Hy) as (m & Hm & Hml).
    destruct (depth_put_under d w p n m i Hp Hn' Hm) as [Hl|(k & Hk & Hd)]; [eauto|].
    exists (k + S n). split; [done|]. unfold get_max_descendant_depth in Hlim.
    pose proof (depth_lt_size _ _ _ Hm). destruct (depth_at_climb d m k i _ Hm Hk) as [Hkm _].
    pose proof (max_level_bound d (size (db_workspaces d)) {[w_id w]} k i _ Hk
      (proj2 (elem_of_singleton _ _) eq_refl) ltac:(lia)). lia. }
  intros i x. cbn. rewrite lookup_insert_Some. intros [[<- <-]|[_ Hx]]; eauto.
Qed.

(** A built-in workspace is a row of the tenant. *)
Lemma built_in_workspace_row d tn ty w :
  tree d → built_in_workspace d tn ty = Ok w →
  db_workspaces d !! w_id w = Some w ∧ w_tenant w = tn ∧ w_type w = ty.
Proof.
  intros Ht. unfold built_in_workspace. destruct (select _ _) as [|r [|]] eqn:Hsel; intros [= ->].
  assert (w ∈ [w]) as Hin by by left. rewrite <- Hsel in Hin. apply elem_of_select in Hin as [Hq [j Hj]].
  apply andb_true_iff in Hq as [Hq1%Z.eqb_eq Hq2%bool_decide_eq_true].
  by rewrite (tree_id d Ht j w Hj).
Qed.

(** What a successful [create] has gone through. *)
Lemma create_workspace_run id name description parent_id t d d' w events ws_events :
  tree d → create_workspace id name description parent_id t d = Ok (d', w, events, ws_events) →
  ∃ pid pw n, db_workspaces d !! pid = Some pw ∧ w_tenant pw = t_id t
    ∧ match parent_id with Some p0 => pid = p0 | None => built_in_workspace d (t_id t) DEFAULT_WS = Ok pw end
    ∧ depth_at d n pid ∧ S n ≤ WORKSPACE_HIERARCHY_DEPTH_LIMIT
    ∧ (WORKSPACE_RESTRICT_DEFAULT_PEERS = true → w_type pw ≠ ROOT_WS)
    ∧ check_total_workspace_count_exceeded d t = false
    ∧ w_parent w = Some pid ∧ w_id w = id
    ∧ (w_name w = name ∧ w_type w = STANDARD ∧ w_tenant w = t_id t ∧ w_description w = description)
    ∧ pid ≠ id ∧ name_conflict d w = false ∧ type_conflict d w = false ∧ db_workspaces d !! id = None
    ∧ d' = put_workspace w d ∧ replicate_new_workspace d' w CREATE_WORKSPACE = Ok (events, ws_events).
Proof.
  intros Ht Hc. unfold create_workspace in Hc. apply handle_validation_error_Ok in Hc.
  apply bind_Ok in Hc as (pid & Hpid & Hc). apply bind_Ok in Hc as (parent & Hpar%or_raise_Ok & Hc).
  apply bind_Ok in Hc as (u1 & Henf & Hc). apply bind_Ok in Hc as (u2 & Hcount%raise_if_Ok & Hc).
  apply bind_Ok in Hc as (w1 & Hclean & Hc). apply bind_Ok in Hc as ([es wes] & Hrep & Hc).
  injection Hc as <- -> -> ->.
  apply (enforce_hierarchy_depth_Ok _ _ _ _ Ht) in Henf as (pw & n & Hpw & Hpt & Hn & Hlim & Hpeer). simplify_eq.
  apply ws_full_clean_Ok in Hclean as (Hclean & Hn1 & Hn2 & Htype & Hfresh).
  apply ws_clean_keeps in Hclean as (Hid & Hname & Hty & Htn & Hdesc & Hparent). cbn in *.
  exists pid, parent, n.
  assert (w_parent w = Some pid ∧ match parent_id with Some p0 => pid = p0
            | None => built_in_workspace d (t_id t) DEFAULT_WS = Ok parent end) as [Hp1 Hp2].
  { destruct parent_id as [p|]; [injection Hpid as ->; naive_solver|].
    apply bind_Ok in Hpid as (dw & Hdw & [= <-]). destruct (Hparent eq_refl) as (dw' & Hdw' & ->).
    rewrite Hpt, Hdw in Hdw'. injection Hdw' as <-. split; [done|].
    destruct (built_in_workspace_row _ _ _ _ Ht Hdw) as (? & _). congruence. }
  assert (db_workspaces d !! id = None) as Hf by (rewrite <- Hid; auto).
  split_and!; try done; try congruence; auto.
  destruct parent_id; eauto.
Qed.

Lemma replicate_new_effect d w ty p events ws_events :
  REPLICATION_TO_RELATION_ENABLED = true → w_parent w = Some p →
  replicate_new_workspace d w ty = Ok (events, ws_events) →
  (∀ store, replay store events = Ok (list_to_set [t_parent (w_id w) p] ∪ (store ∖ list_to_set [])))
  ∧ ws_events = [(ty, w)].
Proof.
  intros He Hp. unfold replicate_new_workspace. rewrite He, Hp. cbn [negb].
  intros (t & ->%relationship_to_Ok & Hr)%bind_Ok. by apply (ws_replicate_effect _ _ _ _ _ _ _ _ _ He) in Hr.
Qed.

(** C19: [WorkspaceService.create] keeps the tenants' workspaces a tree.  The new row
    is a standard workspace of the request's tenant under the requested parent (the
    default workspace when none is given), every workspace stays within the depth
    limit, sibling names stay distinct, the tenant stays within its creation limit,
    and the emitted events turn the parent tuples of the old table into those of the
    new one. *)
Theorem create_workspace_tree id name description parent_id t d d' w events ws_events :
  REPLICATION_TO_RELATION_ENABLED = true → tree d →
  create_workspace id name description parent_id t d = Ok (d', w, events, ws_events) →
  tree d' ∧ replay (parents_graph d) events = Ok (parents_graph d')
  ∧ db_workspaces d !! id = None ∧ db_workspaces d' = <[id := w]> (db_workspaces d)
  ∧ w_type w = STANDARD ∧ w_tenant w = t_id t ∧ w_name w = name ∧ w_description w = description
  ∧ (∃ p pw, w_parent w = Some p ∧ db_workspaces d !! p = Some pw ∧ w_tenant pw = t_id t
       ∧ match parent_id with Some p0 => p = p0 | None => built_in_workspace d (t_id t) DEFAULT_WS = Ok pw end
       ∧ (WORKSPACE_RESTRICT_DEFAULT_PEERS = true → w_type pw ≠ ROOT_WS))
  ∧ (Z.of_nat (workspace_count d' (t_id t)) ≤ workspace_creation_limit t)%Z
  ∧ ws_events = [(CREATE_WORKSPACE, w)].
Proof.
  intros He Ht Hc.
  apply (create_workspace_run _ _ _ _ _ _ _ _ _ _ Ht) in Hc
    as (pid & pw & n & Hpw & Hpt & Hpid & Hn & Hlim & Hpeer & Hcount & Hparent & Hid & Hcols & Hne & Hname & Htype & Hfresh
        & -> & Hrep).
  destruct Hcols as (Hnm & Hty & Htn & Hdesc).
  destruct (replicate_new_effect _ _ _ _ _ _ He Hparent Hrep) as [Heff ->].
  rewrite <- Hid in Hfresh.
  split_and!; try done.
  - apply (tree_put d w pid); try done; [congruence|by rewrite Hid|exists pw; split; congruence|by rewrite Hfresh|].
    by eapply depths_added.
  - rewrite Heff, (parents_graph_put d w pid Hparent). unfold parent_of. by rewrite Hfresh.
  - by rewrite <- Hid.
  - cbn. by rewrite Hid.
  - exists pid, pw. by split_and!.
  - rewrite <- Htn. rewrite workspace_count_put by done. unfold check_total_workspace_count_exceeded in Hcount.
    apply Z.leb_gt in Hcount. rewrite Htn. lia.
Qed.

(** An update replaces the parent tuple when the parent changed, and nothing else. *)
Lemma replicate_updated_effect d d1 w ty p q skip force events ws_events :
  REPLICATION_TO_RELATION_ENABLED = true → w_parent w = Some p → parent_of d (w_id w) = Some q →
  replicate_updated_workspace d1 w ty (Some q) skip force = Ok (events, ws_events) →
  replay (parents_graph d) events = Ok (parents_graph (put_workspace w d))
  ∧ ws_events = if skip then [] else (if force then [(CREATE_WORKSPACE, w)] else []) ++ [(ty, w)].
Proof.
  intros He Hp Hq. unfold replicate_updated_workspace, generate_relations_to_update_workspace. rewrite He. cbn [negb].
  rewrite (parents_graph_put d w p Hp), Hq. case_decide as Heq.
  - intros ([add rem] & [= <- <-] & Hr)%bind_Ok. apply (ws_replicate_effect _ _ _ _ _ _ _ _ _ He) in Hr as [Heff ->]. split; [|done].
    rewrite Heff. f_equal. assert (p = q) as -> by congruence.
    assert (t_parent (w_id w) q ∈ parents_graph d) by (apply elem_of_parents_graph; eauto).
    apply leibniz_equiv. intros t. cbn. destruct (decide (t = t_parent (w_id w) q)); set_solver.
  - rewrite Hp. intros ([add rem] & (old & ->%relationship_to_Ok & Hg)%bind_Ok & Hr)%bind_Ok.
    apply bind_Ok in Hg as (new & ->%relationship_to_Ok & [= <- <-]).
    apply (ws_replicate_effect _ _ _ _ _ _ _ _ _ He) in Hr as [Heff ->]. by rewrite Heff.
Qed.

Lemma Workspace_eq w w' :
  w_id w = w_id w' → w_name w = w_name w' → w_description w = w_description w' → w_parent w = w_parent w' →
  w_type w = w_type w' → w_tenant w = w_tenant w' → w = w'.
Proof. destruct w, w'; cbn. congruence. Qed.

(** What a successful [move] has gone through. *)
Lemma move_workspace_run instance target d d' w events ws_events :
  tree d → db_workspaces d !! w_id instance = Some instance →
  move_workspace instance target d = Ok (d', w, events, ws_events) →
  w_type instance = STANDARD ∧ w = set_parent instance target ∧ d' = put_workspace w d
  ∧ (target ∉ descendants d (w_id instance)) ∧ target ≠ w_id instance
  ∧ (∃ tw n, db_workspaces d !! target = Some tw ∧ w_tenant tw = w_tenant instance ∧ depth_at d n target
       ∧ n + 1 + get_max_descendant_depth d (w_id instance) ≤ WORKSPACE_HIERARCHY_DEPTH_LIMIT
       ∧ (WORKSPACE_RESTRICT_DEFAULT_PEERS = true → w_type tw ≠ ROOT_WS))
  ∧ name_conflict d w = false ∧ type_conflict d w = false
  ∧ replicate_updated_workspace d' w MOVE_WORKSPACE (w_parent instance) true false = Ok (events, ws_events).
Proof.
  intros Ht Hinst Hc. unfold move_workspace in Hc. apply bind_Ok in Hc as (u1 & Hty%raise_if_Ok & Hc).
  apply bind_Ok in Hc as (u2 & Hdesc%raise_if_Ok & Hc). apply bind_Ok in Hc as (u3 & Henf & Hc).
  apply bind_Ok in Hc as (u4 & Henf2 & Hc). apply bind_Ok in Hc as (tw & [Htw Htn]%workspace_get_Some & Hc).
  apply bind_Ok in Hc as (w1 & Hclean%handle_validation_error_Ok & Hc).
  apply bind_Ok in Hc as (row & Hrow%or_raise_Ok & Hc). apply bind_Ok in Hc as ([es wes] & Hrep & Hc).
  injection Hc as <- -> -> ->. apply negb_false_iff, bool_decide_eq_true in Hty. apply bool_decide_eq_false in Hdesc.
  apply (enforce_hierarchy_depth_Ok _ _ _ _ Ht) in Henf as (tw' & n & Htw' & _ & Hn & _ & Hpeer).
  rewrite Htw in Htw'. injection Htw' as <-.
  unfold enforce_hierarchy_depth_for_descendants in Henf2.
  apply bind_Ok in Henf2 as (tw'' & Htw''%or_raise_Ok & Hlim%raise_if_Ok).
  rewrite Htw in Htw''. injection Htw'' as <-.
  rewrite (tree_id d Ht _ _ Htw) in *. destruct (ancestors_spec d n target Hn) as [Hsz _].
  rewrite Hsz in Hlim. apply Nat.ltb_ge in Hlim.
  apply ws_full_clean_Ok in Hclean as (Hclean & Hname & _ & Htype & _). cbn in Hname.
  apply ws_clean_keeps in Hclean as (H1' & H2' & H3' & H4' & H5' & H6' & H7' & _). cbn in *.
  assert (w = set_parent instance target) as -> by (apply Workspace_eq; cbn; auto).
  cbn in Hrow. rewrite Hinst in Hrow. injection Hrow as <-. split_and!; eauto. by exists tw, n.
Qed.

(** C20: [WorkspaceService.move] keeps the tenants' workspaces a tree within the depth
    limit: the moved workspace is a standard one, the new parent is a workspace of the
    same tenant that is neither the workspace nor below it, only the parent column of
    the moved row changes, sibling names stay distinct, and the emitted event replaces
    exactly the parent tuple of the moved workspace. *)
Theorem move_workspace_tree instance target d d' w events ws_events :
  REPLICATION_TO_RELATION_ENABLED = true → tree d → db_workspaces d !! w_id instance = Some instance →
  move_workspace instance target d = Ok (d', w, events, ws_events) →
  tree d' ∧ replay (parents_graph d) events = Ok (parents_graph d')
  ∧ db_workspaces d' = <[w_id instance := set_parent instance target]> (db_workspaces d)
  ∧ w_type instance = STANDARD
  ∧ (∃ tw, db_workspaces d !! target = Some tw ∧ w_tenant tw = w_tenant instance)
  ∧ (∀ k, climb d k target ≠ Some (w_id instance)) ∧ ws_events = [].
Proof.
  intros He Ht Hinst Hc.
  apply (move_workspace_run _ _ _ _ _ _ _ Ht Hinst) in Hc
    as (Hty & -> & -> & Hdesc & Hne & (tw & n & Htw & Htn & Hn & Hlim & _) & Hname & Htype & Hrep).
  destruct (w_parent instance) as [q|] eqn:Hq; [|by apply (tree_root d Ht _ _ Hinst) in Hq; congruence].
  assert (parent_of d (w_id instance) = Some q) as Hpq by (apply parent_of_Some; eauto).
  eapply (replicate_updated_effect d _ (set_parent instance target)) in Hrep as [Heff ->]; [|done..].
  split_and!; eauto.
  - apply (tree_put d (set_parent instance target) target); cbn; eauto; [congruence|by intros old; rewrite Hinst; intros [= <-]|].
    by eapply (depths_moved d (set_parent instance target)).
  - intros k Hk. destruct k as [|k]; [by injection Hk as ->|]. apply Hdesc, elem_of_descend.
    exists (S k), (w_id instance). pose proof (depth_lt_size _ _ _ Hn).
    destruct (depth_at_climb d n (S k) target _ Hn Hk). split; [lia|]. by rewrite elem_of_singleton.
Qed.

(** Rewriting a row under its own parent changes no depth. *)
Lemma depth_put_same d w n x :
  parent_of d (w_id w) = w_parent w → is_Some (w_parent w) → depth_at d n x → depth_at (put_workspace w d) n x.
Proof.
  intros Hp [q Hq]. revert x. induction n as [|n IH]; intros x Hn.
  - apply depth_put_0; [|done]. intros ->. destruct Hn as (r & w' & [= <-] & Hw' & Hn).
    rewrite Hq in Hp. apply parent_of_Some in Hp as (w'' & ? & ?). congruence.
  - apply depth_at_S in Hn as (p & Hpx & Hn). apply depth_at_S. exists p. split; [|auto].
    destruct (decide (x = w_id w)) as [->|]; [by rewrite parent_of_put, <- Hp | by rewrite parent_of_put_ne].
Qed.

(** [WorkspaceService.update] changes the name and the description of a standard or
    default workspace only: it keeps the tree, leaves the parent tuples as they are,
    and announces the update, after a creation for a default workspace. *)
Theorem update_workspace_tree instance name description parent_id d d' w events ws_events :
  REPLICATION_TO_RELATION_ENABLED = true → tree d → db_workspaces d !! w_id instance = Some instance →
  update_workspace instance name description parent_id d = Ok (d', w, events, ws_events) →
  tree d' ∧ replay (parents_graph d) events = Ok (parents_graph d') ∧ parents_graph d' = parents_graph d
  ∧ db_workspaces d' = <[w_id instance := w]> (db_workspaces d)
  ∧ (w_type instance = STANDARD ∨ w_type instance = DEFAULT_WS)
  ∧ w_parent w = w_parent instance ∧ w_type w = w_type instance ∧ w_tenant w = w_tenant instance
  ∧ w_name w = default (w_name instance) name
  ∧ ws_events = (if decide (w_type instance = DEFAULT_WS) then [(CREATE_WORKSPACE, w)] else [])
                ++ [(UPDATE_WORKSPACE, w)].
Proof.
  intros He Ht Hinst Hc. unfold update_workspace in Hc.
  apply bind_Ok in Hc as (u1 & [Hr1 Hr2]%raise_if_Ok%orb_false_iff & Hc). apply bool_decide_eq_false in Hr1, Hr2.
  apply bind_Ok in Hc as (u2 & _ & Hc). apply handle_validation_error_Ok in Hc.
  apply bind_Ok in Hc as (w1 & Hclean & Hc). apply bind_Ok in Hc as ([es wes] & Hrep & Hc).
  injection Hc as <- -> -> ->. apply ws_full_clean_Ok in Hclean as (Hclean & Hname & _ & Htype & _). cbn in Hname.
  apply ws_clean_keeps in Hclean as (Hid & Hnm & Hty & Htn & _ & Hpar). cbn in *.
  destruct (w_parent instance) as [q|] eqn:Hq; [|by apply (tree_root d Ht _ _ Hinst) in Hq].
  destruct Hpar as (Hp & Hne & _).
  assert (parent_of d (w_id w) = Some q) as Hpq by (rewrite Hid; apply parent_of_Some; eauto).
  rewrite Hp in Hrep. eapply (replicate_updated_effect d) in Hrep as [Heff ->]; [|done..].
  destruct (tree_tenant d Ht _ _ _ Hinst Hq) as (qw & Hqw & Hqt).
  assert (tree (put_workspace w d)) as Htree.
  { apply (tree_put d w q); eauto; try congruence.
    - exists qw. split; [done|congruence].
    - intros i x. cbn. rewrite lookup_insert_Some. intros Hx.
      assert (∃ y, db_workspaces d !! i = Some y) as [y Hy].
      { destruct Hx as [[<- _]|[_ Hx]]; [rewrite Hid|]; eauto. }
      destruct (tree_depth d Ht i y Hy) as (m & Hm & Hl). exists m. split; [|done].
      apply depth_put_same; [congruence|eauto|done]. }
  split_and!; eauto.
  - rewrite (parents_graph_put d w q Hp), Hpq.
    assert (t_parent (w_id w) q ∈ parents_graph d) by (apply elem_of_parents_graph; eauto).
    apply leibniz_equiv. intros t. cbn. destruct (decide (t = t_parent (w_id w) q)); set_solver.
  - cbn. by rewrite Hid.
  - destruct (w_type instance); auto; done.
  - case_decide; [by rewrite bool_decide_true | by rewrite bool_decide_false].
Qed.

Lemma concat_batched {A} fuel n (l : list A) : 0 < n → length l ≤ fuel → concat (batched fuel n l) = l.
Proof.
  intros Hn. revert l. induction fuel as [|fuel IH]; intros l Hl; [by destruct l; [|cbn in Hl; lia]|].
  destruct l as [|x l]; [done|]. cbn [batched concat]. rewrite IH, take_drop; [done|].
  rewrite length_drop. cbn in Hl |- *. lia.
Qed.

(** Removal events emitted one by one. *)
Lemma emit_removals ty info batches ess :
  REPLICATION_TO_RELATION_ENABLED = true →
  mapM (λ b, emit (mkReplicationEvent ty info [] b)) batches = Ok ess →
  (∀ e, e ∈ concat ess → ev_add e = []) ∧ ∀ t, (∃ e, e ∈ concat ess ∧ t ∈ ev_remove e) ↔ t ∈ concat batches.
Proof.
  intros He Hm. apply mapM_result_Ok in Hm. induction Hm as [|b es bs ess Hb Hm [IH1 IH2]]; cbn.
  - split; [by intros e ?%elem_of_nil|]. intros t. rewrite elem_of_nil. split; [|done]. by intros (e & ?%elem_of_nil & _).
  - destruct (emit_removal _ _ _ _ He Hb) as [H1' H2']. split.
    + intros e [?|?]%elem_of_app; auto.
    + intros t. rewrite elem_of_app, <- H2', <- IH2. setoid_rewrite elem_of_app. naive_solver.
Qed.

(** The tuples of a list of bindings. *)
Lemma elem_of_bindings_tuples d bs tss t :
  mapM (all_tuples d) bs = Ok tss → t ∈ concat tss ↔ ∃ b, b ∈ bs ∧ binding_has d b t.
Proof.
  intros Hm%mapM_result_Ok. rewrite list_elem_of_In, in_concat. setoid_rewrite <- list_elem_of_In. split.
  - intros (ts & Hts & Ht). apply (Forall2_elem_r _ _ _ _ Hm) in Hts as (b & Hb & Hf).
    exists b. split; [done|]. by apply (all_tuples_spec d b ts Hf).
  - intros (b & Hb & Ht). apply (Forall2_elem_l _ _ _ _ Hm) in Hb as (ts & Hts & Hf).
    exists ts. split; [done|]. by apply (all_tuples_spec d b ts Hf).
Qed.

(** C27: before a workspace is deleted, [_remove_workspace_direct_role_bindings] removes
    exactly the role bindings on it, and the batches of events it emits turn the
    tuples of the old bindings into those of the remaining ones; it fails when a
    BindingMapping is left, and in a V1 tenant it never removes anything. *)
Theorem remove_workspace_bindings_refines w binding_mappings d d' n events :
  REPLICATION_TO_RELATION_ENABLED = true → wf d →
  remove_workspace_direct_role_bindings w binding_mappings d = Ok (d', n, events) →
  wf d' ∧ replay (bindings_graph d) events = Ok (bindings_graph d') ∧ binding_mappings = []
  ∧ (∀ i b, db_bindings d' !! i = Some b ↔
       db_bindings d !! i = Some b ∧ ¬ (b_resource_type b = "workspace" ∧ b_resource_id b = w_id w))
  ∧ (lock_tenant_version (db_mappings d !! w_tenant w) = Ok VERSION_1 → d' = d ∧ events = []).
Proof.
  intros He Hwf Hc. unfold remove_workspace_direct_role_bindings in Hc.
  apply bind_Ok in Hc as (v & Hv & Hc). apply bind_Ok in Hc as (u1 & Hbm%raise_if_Ok & Hc).
  assert (binding_mappings = []) as -> by by destruct binding_mappings. cbv zeta in Hc.
  set (bs := select _ (db_bindings d)) in Hc.
  assert (∀ b, b ∈ bs ↔ db_bindings d !! b_id b = Some b
            ∧ b_resource_type b = "workspace" ∧ b_resource_id b = w_id w) as Hbs.
  { intros b. unfold bs. rewrite elem_of_select, andb_true_iff, !String.eqb_eq. split; [|naive_solver].
    intros [? [i Hi]]. by rewrite (wf_binding_id d Hwf i b Hi). }
  destruct v.
  - apply bind_Ok in Hc as (u2 & Hn%raise_if_Ok & Hc). injection Hc as <- <- <-.
    split_and!; eauto. intros i b. split; [|tauto]. intros Hb. split; [done|]. intros Hw.
    assert (b ∈ bs) as Hin by (apply Hbs; by rewrite (wf_binding_id d Hwf i b Hb)).
    destruct bs; [by apply elem_of_nil in Hin|done].
  - apply bind_Ok in Hc as (tn & _ & Hc). apply bind_Ok in Hc as (tss & Htss & Hc).
    apply bind_Ok in Hc as (ess & Hess & Hc). injection Hc as <- <- <-.
    destruct (emit_removals _ _ _ _ He Hess) as [Hadd Hrem].
    destruct (replay_removals _ (bindings_graph d) Hadd) as (store & -> & Hstore).
    rewrite concat_batched in Hrem by lia.
    assert (∀ i b, db_bindings d !! i = Some b → i ∈ (list_to_set (map b_id bs) : gset Z) ↔ b ∈ bs) as Hids.
    { intros i b Hb. rewrite elem_of_list_to_set, list_elem_of_fmap. pose proof (wf_binding_id d Hwf i b Hb) as Hi. split.
      - intros (c & -> & Hc). pose proof Hc as [Hl _]%Hbs. by simplify_eq.
      - intros Hin. exists b. by rewrite Hi. }
    split_and!; [by apply wf_delete_bindings| |done| |by rewrite Hv].
    + f_equal. apply leibniz_equiv. intros t. rewrite Hstore, Hrem, delete_bindings_graph, elem_of_graph by done.
      rewrite (elem_of_bindings_tuples d bs tss t Htss). split.
      * intros [(i & b & Hb & Ht) Hn]. exists i, b. split_and!; [done| |done]. rewrite (Hids i b Hb). naive_solver.
      * intros (i & b & Hb & Hn & Ht). split; [eauto|]. intros (c & Hc & Htc). pose proof Hc as [Hl _]%Hbs.
        destruct (binding_has_inj d d i (b_id c) b c t) as [_ ->]; [done..|by eapply binding_has_owner|]. 
        by rewrite (Hids i c Hb) in Hn.
    + intros i b. rewrite lookup_delete_bindings. split.
      * intros [Hb Hn]. rewrite (Hids i b Hb), Hbs, (wf_binding_id d Hwf i b Hb) in Hn. tauto.
      * intros [Hb Hn]. split; [done|]. rewrite (Hids i b Hb), Hbs. tauto.
Qed.

(** C28: the three recursive queries.  In a tree, [ancestors] is the workspaces above,
    as many as the depth; [descendants] is the inverse relation and never holds the
    workspace itself; [get_max_descendant_depth] is the greatest distance to a
    workspace below. *)
Theorem tree_queries d i w :
  tree d → db_workspaces d !! i = Some w →
  depth_at d (size (ancestors d i)) i
  ∧ (∀ a, a ∈ ancestors d i ↔ i ∈ descendants d a)
  ∧ (i ∉ descendants d i)
  ∧ (∀ k x, climb d k x = Some i → k ≤ get_max_descendant_depth d i)
  ∧ (∃ x, climb d (get_max_descendant_depth d i) x = Some i).
Proof.
  intros Ht Hw. destruct (tree_depth d Ht i w Hw) as (n & Hn & _). destruct (ancestors_spec d n i Hn) as [Hs Ha].
  pose proof (depth_lt_size _ _ _ Hn) as Hlt.
  assert (∀ a, i ∈ descendants d a ↔ ∃ k, 0 < k ∧ climb d k i = Some a) as Hd.
  { intros a. unfold descendants. rewrite elem_of_descend. setoid_rewrite elem_of_singleton. split; [naive_solver|].
    intros (k & Hk & Hc). destruct (depth_at_climb d n k i a Hn Hc). exists k, a. split; [lia|done]. }
  split_and!.
  - by rewrite Hs.
  - intros a. by rewrite Ha, Hd.
  - rewrite Hd. intros (k & Hk & Hc). destruct (depth_at_climb d n k i i Hn Hc) as [Hle Hn'].
    pose proof (depth_at_unique _ _ _ _ Hn Hn'). lia.
  - intros k x Hc. unfold get_max_descendant_depth. destruct k as [|k]; [lia|].
    eapply max_level_bound; [done|by apply elem_of_singleton|]. pose proof Hc as Hc'. cbn in Hc'.
    destruct (parent_of d x) as [q|] eqn:Hq; [|done]. apply parent_of_Some in Hq as (y & Hy & _).
    destruct (tree_depth d Ht x y Hy) as (m & Hm & _). pose proof (depth_lt_size _ _ _ Hm).
    destruct (depth_at_climb d m (S k) x i Hm Hc). lia.
  - destruct (max_level_attained d (size (db_workspaces d)) {[i]} i) as (x & a & ->%elem_of_singleton & Hx);
      [by apply elem_of_singleton|]. by exists x.
Qed.
End theorems.

(* ------------------------------------------------------------------ *)
(** * Witnesses *)

Fixpoint depth_of (fuel : nat) (d : Db) (i : string) : option nat :=
  match fuel with
  | O => None
  | S f => w ← db_workspaces d !! i;
           match w_parent w with None => Some 0 | Some p => S <$> depth_of f d p end
  end.

Lemma depth_of_sound fuel d i n : depth_of fuel d i = Some n → depth_at d n i.
Proof.
  revert i n. induction fuel as [|fuel IH]; intros i n; cbn; [done|].
  destruct (db_workspaces d !! i) as [w|] eqn:Hw; [|done]. cbn. destruct (w_parent w) as [p|] eqn:Hp.
  - intros (m & Hm & ->)%fmap_Some. apply depth_at_S. exists p. split; [apply parent_of_Some|]; eauto.
  - intros [= <-]. by eapply depth_at_0.
Qed.

Definition tree_checked `{Settings} (d : Db) : Prop :=
  map_Forall (λ i w, w_id w = i
    ∧ default (S WORKSPACE_HIERARCHY_DEPTH_LIMIT) (depth_of (size (db_workspaces d)) d i)
      ≤ WORKSPACE_HIERARCHY_DEPTH_LIMIT
    ∧ (w_parent w = None ↔ w_type w = ROOT_WS)
    ∧ match w_parent w with Some p => w_tenant <$> (db_workspaces d !! p) = Some (w_tenant w) | None => True end)
    (db_workspaces d)
  ∧ map_Forall (λ i wi, map_Forall (λ j wj,
      (is_Some (w_parent wi) → w_parent wi = w_parent wj → str_upper (w_name wi) = str_upper (w_name wj) → i = j)
      ∧ (w_type wi ≠ STANDARD → w_type wi = w_type wj → w_tenant wi = w_tenant wj → i = j))
      (db_workspaces d)) (db_workspaces d).

#[export] Instance tree_checked_dec `{Settings} d : Decision (tree_checked d).
Proof.
  unfold tree_checked.
  apply and_dec; apply map_Forall_dec; intros i w; [destruct (w_parent w); apply _|].
  apply map_Forall_dec. apply _.
Defined.

Lemma tree_checked_sound `{Settings} d : tree_checked d → tree d.
Proof.
  intros [H1' H2']. split.
  - intros i w Hw. by apply (H1' i w).
  - intros i w Hw. destruct (H1' i w Hw) as (_ & Hd & _). cbn in Hd.
    destruct (depth_of _ _ _) as [n|] eqn:E; cbn in Hd; [|lia]. exists n. split; [by eapply depth_of_sound|done].
  - intros i w p Hw Hp. destruct (H1' i w Hw) as (_ & _ & _ & Ht). cbn in Ht. rewrite Hp in Ht.
    by apply fmap_Some in Ht as (pw & ? & ?); eauto.
  - intros i w Hw. by apply (H1' i w).
  - intros i j wi wj Hi Hj. by apply (H2' i wi Hi j wj Hj).
  - intros i j wi wj Hi Hj. by apply (H2' i wi Hi j wj Hj).
Qed.

(** A root, a default and three standard workspaces, one below another. *)
Definition ws_one : Workspace := mkWorkspace "w1" "one" None (Some "wd") STANDARD 7.
Definition ws_db : Db := mkDb ∅ {[1%Z := sample_role 1 "r1"]} {[1%Z := sample_group]} ∅
  (list_to_map [(1, mkRoleBinding 1 "b1" 1 "workspace" "w1" 7);
                (2, mkRoleBinding 2 "b2" 1 "workspace" "w3" 7)]%Z) {[(1, 1); (2, 1)]}%Z ∅
  (list_to_map [("wr", mkWorkspace "wr" "root" None None ROOT_WS 7);
                ("wd", mkWorkspace "wd" "default" None (Some "wr") DEFAULT_WS 7);
                ("w1", ws_one);
                ("w2", mkWorkspace "w2" "two" None (Some "w1") STANDARD 7);
                ("w3", mkWorkspace "w3" "three" None (Some "wd") STANDARD 7)])%Z
  {[7%Z := mkTenantMapping 7 (Some 1%Z) (Some 1%Z) "" "" "" "" "" "" "" ""]} {[7%Z := sample_tenant]}.

Lemma ws_db_tree : @tree sample_settings ws_db.
Proof. apply tree_checked_sound. by_compute. Qed.

Definition ws_created :=
  @create_workspace sample_settings _ "w4" "four" None (Some "w2") sample_tenant ws_db.
Definition ws_moved := @move_workspace sample_settings _ ws_one "w3" ws_db.
Definition ws_updated := @update_workspace sample_settings _ ws_one (Some "uno") None None ws_db.
Definition ws_unbound := @remove_workspace_direct_role_bindings sample_settings _ _ ws_one [] ws_db.

Lemma create_workspace_tree_witness :
  ∃ d' w events ws_events, ws_created = Ok (d', w, events, ws_events)
    ∧ @tree sample_settings d' ∧ replay (parents_graph ws_db) events = Ok (parents_graph d').
Proof.
  destruct ws_created as [[[[d' w] events] ws_events]|] eqn:Hc; [|exfalso; revert Hc; by vm_compute].
  exists d', w, events, ws_events. split; [done|].
  destruct (@create_workspace_tree sample_settings _ _ _ _ _ _ _ _ _ _ _ eq_refl ws_db_tree Hc) as (? & ? & _).
  by split.
Defined.

Lemma move_workspace_tree_witness :
  ∃ d' w events ws_events, ws_moved = Ok (d', w, events, ws_events)
    ∧ @tree sample_settings d' ∧ replay (parents_graph ws_db) events = Ok (parents_graph d').
Proof.
  destruct ws_moved as [[[[d' w] events] ws_events]|] eqn:Hc; [|exfalso; revert Hc; by vm_compute].
  exists d', w, events, ws_events. split; [done|].
  destruct (@move_workspace_tree sample_settings _ ws_one "w3" ws_db d' w events ws_events eq_refl ws_db_tree eq_refl Hc)
    as (? & ? & _). by split.
Defined.

Lemma update_workspace_tree_witness :
  ∃ d' w events ws_events, ws_updated = Ok (d', w, events, ws_events)
    ∧ @tree sample_settings d' ∧ w_name w = "uno" ∧ parents_graph d' = parents_graph ws_db.
Proof.
  destruct ws_updated as [[[[d' w] events] ws_events]|] eqn:Hc; [|exfalso; revert Hc; by vm_compute].
  exists d', w, events, ws_events. split; [done|].
  destruct (@update_workspace_tree sample_settings _ ws_one (Some "uno") None None ws_db d' w events ws_events
    eq_refl ws_db_tree eq_refl Hc) as (? & _ & ? & _ & _ & _ & _ & _ & ? & _). by split_and!.
Defined.

Lemma remove_workspace_bindings_refines_witness :
  ∃ d' n events, ws_unbound = Ok (d', n, events)
    ∧ replay (@bindings_graph sample_settings ws_db) events = Ok (@bindings_graph sample_settings d').
Proof.
  destruct ws_unbound as [[[d' n] events]|] eqn:Hc; [|exfalso; revert Hc; by vm_compute].
  exists d', n, events. split; [done|].
  refine (proj1 (proj2 (@remove_workspace_bindings_refines sample_settings _ _ ws_one [] ws_db d' n events eq_refl _ Hc))).
  apply wf_checked_sound. by_compute.
Defined.

Lemma tree_queries_witness :
  depth_at ws_db (size (ancestors ws_db "w2")) "w2" ∧ get_max_descendant_depth ws_db "w1" = 1
  ∧ ("w1" ∉ descendants ws_db "w1").
Proof.
  split; [|split; [reflexivity|]].
  - exact (proj1 (@tree_queries sample_settings ws_db "w2" _ ws_db_tree eq_refl)).
  - exact (proj1 (proj2 (proj2 (@tree_queries sample_settings ws_db "w1" _ ws_db_tree eq_refl)))).
Defined.
