(* ===== verification/BindingMapping.v ===== *)
(** Role bindings as the V1 code sees them: the values of migration_tool/models.py
    (V2boundresource, V2role, V2rolebinding), the BindingMapping rows of
    rbac/management/role/model.py that store them, the resources of the scopes
    (rbac/management/permission/scope_service.py), and what each change of the
    subjects of a mapping means for its tuples. *)

From S2P Require Import Prelude.
From S2P Require Import PyString.
From S2P Require Import Config.
From S2P Require Import RelationTypes.
From S2P Require Import TupleStore.
From S2P Require Import Permissions.
From S2P Require Import ScopeService.
From S2P Require Import Outbox.
From S2P Require Import Tenants.
From S2P Require Import Db.
From S2P Require Import BindingGraph.
From S2P Require Import RoleV2Service.

(* ------------------------------------------------------------------ *)
(** * Bound resources *)

Record V2boundresource := mkBound { br_namespace : string; br_name : string; br_id : string }.

#[global] Instance V2boundresource_eq_dec : EqDecision V2boundresource.
Proof. solve_decision. Defined.
#[global] Instance V2boundresource_countable : Countable V2boundresource.
Proof.
  apply (inj_countable (λ r, (br_namespace r, br_name r, br_id r))
    (λ '(n, m, i), Some (mkBound n m i))). by intros [].
Defined.

(** [V2boundresource.__post_init__]: whatever ObjectReference rejects is reported as
    a plain Exception. *)
Definition mk_V2boundresource (namespace name id : string) : result V2boundresource :=
  match (ty ← mk_ObjectType (JStr namespace) (JStr name); mk_ObjectReference ty (JStr id)) with
  | Ok _ => Ok (mkBound namespace name id)
  | Raise _ => Raise GenericException
  end.

(** [for_workspace_id] *)
Definition for_workspace_id (workspace_id : string) : result V2boundresource :=
  mk_V2boundresource "rbac" "workspace" workspace_id.

(** The models a scope is bound to. *)
Inductive BoundModel := BTenant (t : Tenant) | BWorkspace (w : Workspace).

Section resources.
Context `{Settings}.

(** [try_for_model] and [for_model] *)
Definition try_for_model (model : BoundModel) : result (option V2boundresource) :=
  match model with
  | BWorkspace w => r ← for_workspace_id (w_id w); mret (Some r)
  | BTenant t => match tenant_resource_id t with
                 | None => mret None
                 | Some rid => r ← mk_V2boundresource "rbac" "tenant" rid; mret (Some r)
                 end
  end.
Definition for_model (model : BoundModel) : result V2boundresource :=
  r ← try_for_model model; or_raise ValueError r.

(** [bound_model_for_scope] *)
Definition bound_model_for_scope (scope : Scope) (tenant : Tenant) (root_workspace default_workspace : Workspace) :
    result BoundModel :=
  _ ← raise_if (negb (Z.eqb (w_tenant root_workspace) (t_id tenant))) AssertionError;
  _ ← raise_if (negb (Z.eqb (w_tenant default_workspace) (t_id tenant))) AssertionError;
  match scope with
  | Scope.TENANT => mret (BTenant tenant)
  | Scope.ROOT => mret (BWorkspace root_workspace)
  | Scope.DEFAULT => mret (BWorkspace default_workspace)
  | Scope.ALL => Raise ValueError
  end.

(** [TenantScopeResources] *)
Record TenantScopeResources := mkTenantScopeResources {
  tsr_tenant : V2boundresource;
  tsr_root_workspace : V2boundresource;
  tsr_default_workspace : V2boundresource;
}.

Definition for_models (tenant : Tenant) (root_workspace default_workspace : Workspace) :
    result TenantScopeResources :=
  t ← for_model (BTenant tenant);
  r ← for_model (BWorkspace root_workspace);
  w ← for_model (BWorkspace default_workspace);
  mret (mkTenantScopeResources t r w).

Definition resource_for (self : TenantScopeResources) (scope : Scope) : result V2boundresource :=
  match scope with
  | Scope.TENANT => mret (tsr_tenant self)
  | Scope.ROOT => mret (tsr_root_workspace self)
  | Scope.DEFAULT => mret (tsr_default_workspace self)
  | Scope.ALL => Raise ValueError
  end.
End resources.

(* ------------------------------------------------------------------ *)
(** * Roles and bindings as values *)

Record V2role := mkV2role { vr_id : string; vr_is_system : bool; vr_permissions : gset string }.

Definition for_system_role (id : string) : V2role := mkV2role id true ∅.

(** [V2role.as_dict]: the permissions of a system role are not stored. *)
Definition stored_role (r : V2role) : V2role :=
  mkV2role (vr_id r) (vr_is_system r) (if vr_is_system r then ∅ else vr_permissions r).

(** [groups] may repeat a group; [users] maps the source of an assignment to the
    user. *)
Record V2rolebinding := mkV2rolebinding {
  vb_id : string;
  vb_role : V2role;
  vb_resource : V2boundresource;
  vb_groups : list string;
  vb_users : gmap string string;
}.

(** [role_binding_group_subject_tuple] and [role_binding_user_subject_tuple] *)
Definition role_binding_group_subject_tuple (role_binding_id group_uuid : string) : result RelationTuple :=
  create_relationship ("rbac", "role_binding") role_binding_id ("rbac", "group") group_uuid
    "subject" (Some "member").
Definition role_binding_user_subject_tuple `{Settings} (role_binding_id user_id : string) : result RelationTuple :=
  create_relationship ("rbac", "role_binding") role_binding_id ("rbac", "principal")
    (user_id_to_principal_resource_id (Some user_id)) "subject" None.

(** [V2rolebinding.as_tuples] *)
Definition user_values (users : gmap string string) : list string := map snd (map_to_list users).

Definition as_tuples `{Settings} `{PySetOrder} (vb : V2rolebinding) : result (list RelationTuple) :=
  r ← create_relationship ("rbac", "role_binding") (vb_id vb) ("rbac", "role") (vr_id (vb_role vb)) "role" None;
  ps ← mapM (role_permission_tuple (vr_id (vb_role vb))) (set_iter (vr_permissions (vb_role vb)));
  gs ← mapM (role_binding_group_subject_tuple (vb_id vb)) (set_list (vb_groups vb));
  us ← mapM (role_binding_user_subject_tuple (vb_id vb)) (set_list (user_values (vb_users vb)));
  b ← create_relationship (br_namespace (vb_resource vb), br_name (vb_resource vb)) (br_id (vb_resource vb))
        ("rbac", "role_binding") (vb_id vb) "binding" None;
  mret ([r] ++ ps ++ gs ++ us ++ [b]).

(* ------------------------------------------------------------------ *)
(** * BindingMapping *)

(** The row: [mappings] as the V2rolebinding it encodes, the V1 role, the V2 role and
    the resource. *)
Record BindingMapping := mkBindingMapping {
  bm_id : string;
  bm_role_value : V2role;
  bm_groups : list string;
  bm_users : gmap string string;
  bm_role : Z;
  bm_v2_role : option Z;
  bm_namespace : string;
  bm_resource_type : string;
  bm_resource_id : string;
}.

#[global] Instance V2role_eq_dec : EqDecision V2role.
Proof. solve_decision. Defined.
#[global] Instance BindingMapping_eq_dec : EqDecision BindingMapping.
Proof. solve_decision. Defined.

Definition with_groups (gs : list string) (m : BindingMapping) : BindingMapping :=
  mkBindingMapping (bm_id m) (bm_role_value m) gs (bm_users m) (bm_role m) (bm_v2_role m)
    (bm_namespace m) (bm_resource_type m) (bm_resource_id m).
Definition with_users (us : gmap string string) (m : BindingMapping) : BindingMapping :=
  mkBindingMapping (bm_id m) (bm_role_value m) (bm_groups m) us (bm_role m) (bm_v2_role m)
    (bm_namespace m) (bm_resource_type m) (bm_resource_id m).

(** [for_role_binding] *)
Definition for_role_binding (vb : V2rolebinding) (v1_role : Z) (v2_role : option Z) : BindingMapping :=
  mkBindingMapping (vb_id vb) (stored_role (vb_role vb)) (vb_groups vb) (vb_users vb) v1_role v2_role
    (br_namespace (vb_resource vb)) (br_name (vb_resource vb)) (br_id (vb_resource vb)).

(** [get_role_binding] *)
Definition get_role_binding (m : BindingMapping) : result V2rolebinding :=
  r ← mk_V2boundresource (bm_namespace m) (bm_resource_type m) (bm_resource_id m);
  mret (mkV2rolebinding (bm_id m) (bm_role_value m) r (bm_groups m) (bm_users m)).

(** [update_mappings_from_role_binding] *)
Definition update_mappings_from_role_binding (vb : V2rolebinding) (m : BindingMapping) : result BindingMapping :=
  let r := vb_resource vb in
  _ ← raise_if (negb (String.eqb (br_namespace r) (bm_namespace m))
                || negb (String.eqb (br_name r) (bm_resource_type m))
                || negb (String.eqb (br_id r) (bm_resource_id m))) GenericException;
  mret (mkBindingMapping (vb_id vb) (stored_role (vb_role vb)) (vb_groups vb) (vb_users vb) (bm_role m)
          (bm_v2_role m) (bm_namespace m) (bm_resource_type m) (bm_resource_id m)).

(** [is_unassigned] *)
Definition is_unassigned (m : BindingMapping) : bool :=
  Nat.eqb (length (bm_groups m)) 0 && Nat.eqb (size (bm_users m)) 0.

(** [list.remove]: the first occurrence. *)
Fixpoint list_remove_first (x : string) (l : list string) : list string :=
  match l with
  | [] => []
  | y :: l' => if String.eqb x y then l' else y :: list_remove_first x l'
  end.

Section mapping.
Context `{Settings} `{PySetOrder}.

(** [BindingMapping.as_tuples] *)
Definition mapping_as_tuples (m : BindingMapping) : result (list RelationTuple) :=
  vb ← get_role_binding m; as_tuples vb.

(** [pop_group_from_bindings] *)
Definition pop_group_from_bindings (group_uuid : string) (m : BindingMapping) :
    result (option RelationTuple * BindingMapping) :=
  let gs := if bool_decide (group_uuid ∈ bm_groups m) then list_remove_first group_uuid (bm_groups m)
            else bm_groups m in
  let m' := with_groups gs m in
  if bool_decide (group_uuid ∈ gs) then mret (None, m')
  else t ← role_binding_group_subject_tuple (bm_id m) group_uuid; mret (Some t, m').

(** [unassign_group]: the loop runs until the group is gone, at most once more than
    there are entries. *)
Fixpoint unassign_group_loop (fuel : nat) (group_uuid : string) (m : BindingMapping) :
    result (option (RelationTuple * BindingMapping)) :=
  match fuel with
  | O => Ok None
  | S n => '(relationship, m') ← pop_group_from_bindings group_uuid m;
           match relationship with
           | Some t => mret (Some (t, m'))
           | None => unassign_group_loop n group_uuid m'
           end
  end.
Definition unassign_group (group_uuid : string) (m : BindingMapping) :
    result (option (RelationTuple * BindingMapping)) :=
  unassign_group_loop (S (length (bm_groups m))) group_uuid m.

(** [assign_group_to_bindings] and [add_group_to_bindings] *)
Definition assign_group_to_bindings (group_uuid : string) (m : BindingMapping) :
    result (option RelationTuple * BindingMapping) :=
  if bool_decide (group_uuid ∈ bm_groups m) then mret (None, m)
  else t ← role_binding_group_subject_tuple (bm_id m) group_uuid;
       mret (Some t, with_groups (bm_groups m ++ [group_uuid]) m).
Definition add_group_to_bindings (group_uuid : string) (m : BindingMapping) :
    result (RelationTuple * BindingMapping) :=
  t ← role_binding_group_subject_tuple (bm_id m) group_uuid;
  mret (t, with_groups (bm_groups m ++ [group_uuid]) m).

(** [unassign_user_from_bindings] and [assign_user_to_bindings]; [source] is the text
    of a SourceKey. *)
Definition unassign_user_from_bindings (user_id source : string) (m : BindingMapping) :
    result (option RelationTuple * BindingMapping) :=
  let users := delete source (bm_users m) in
  let m' := with_users users m in
  if bool_decide (user_id ∈ user_values users) then mret (None, m')
  else t ← role_binding_user_subject_tuple (bm_id m) user_id; mret (Some t, m').
Definition assign_user_to_bindings (user_id source : string) (m : BindingMapping) :
    result (RelationTuple * BindingMapping) :=
  t ← role_binding_user_subject_tuple (bm_id m) user_id;
  mret (t, with_users (<[source := user_id]> (bm_users m)) m).
End mapping.

(* ------------------------------------------------------------------ *)
(** * The tuples of a mapping *)

Section tuples.
Context `{Settings}.

Definition vt_role (id role_id : string) : RelationTuple :=
  rel_tuple ("rbac", "role_binding") id ("rbac", "role") role_id "role" None.
Definition vt_perm (role_id permission : string) : RelationTuple :=
  rel_tuple ("rbac", "role") role_id ("rbac", "principal") "*" permission None.
Definition vt_group (id group_uuid : string) : RelationTuple :=
  rel_tuple ("rbac", "role_binding") id ("rbac", "group") group_uuid "subject" (Some "member").
Definition vt_user (id user_id : string) : RelationTuple :=
  rel_tuple ("rbac", "role_binding") id ("rbac", "principal")
    (user_id_to_principal_resource_id (Some user_id)) "subject" None.
Definition vt_resource (namespace name rid id : string) : RelationTuple :=
  rel_tuple (namespace, name) rid ("rbac", "role_binding") id "binding" None.

(** The subjects of a mapping, and the rest. *)
Definition subject_tuples (m : BindingMapping) : tuples :=
  list_to_set (map (vt_group (bm_id m)) (bm_groups m))
  ∪ list_to_set (map (vt_user (bm_id m)) (user_values (bm_users m))).
Definition frame_tuples (m : BindingMapping) : tuples :=
  {[vt_role (bm_id m) (vr_id (bm_role_value m))]}
  ∪ list_to_set (map (vt_perm (vr_id (bm_role_value m))) (elements (vr_permissions (bm_role_value m))))
  ∪ {[vt_resource (bm_namespace m) (bm_resource_type m) (bm_resource_id m) (bm_id m)]}.
Definition mapping_tuples (m : BindingMapping) : tuples := frame_tuples m ∪ subject_tuples m.

Definition is_subject_of (id : string) (t : RelationTuple) : Prop :=
  (∃ g, t = vt_group id g) ∨ (∃ u, t = vt_user id u).

Lemma vt_group_inj i j g h : vt_group i g = vt_group j h → i = j ∧ g = h.
Proof. by intros [= -> ->]. Qed.
Lemma vt_user_inj i j u v : vt_user i u = vt_user j v → i = j ∧ u = v.
Proof. intros [= -> Hu]. split; [done|]. by apply principal_resource_id_inj. Qed.
Lemma vt_group_user i j g u : vt_group i g ≠ vt_user j u.
Proof. by intros [=]. Qed.

Lemma elem_of_user_values users u : u ∈ user_values users ↔ ∃ src, users !! src = Some u.
Proof.
  unfold user_values. rewrite list_elem_of_fmap. setoid_rewrite elem_of_map_to_list'. split.
  - intros ([s v] & -> & Hl). eauto.
  - intros [s Hs]. by exists (s, u).
Qed.

Lemma elem_of_subject_tuples m t :
  t ∈ subject_tuples m ↔
  (∃ g, g ∈ bm_groups m ∧ t = vt_group (bm_id m) g)
  ∨ (∃ src u, bm_users m !! src = Some u ∧ t = vt_user (bm_id m) u).
Proof.
  unfold subject_tuples. rewrite elem_of_union, !elem_of_list_to_set, !list_elem_of_fmap.
  setoid_rewrite elem_of_user_values. naive_solver.
Qed.

Lemma subject_tuples_kind m t : t ∈ subject_tuples m → is_subject_of (bm_id m) t.
Proof. rewrite elem_of_subject_tuples. unfold is_subject_of. naive_solver. Qed.

(** A frame tuple is never a subject tuple, of this or of another mapping. *)
Lemma frame_not_subject m i t : t ∈ frame_tuples m → is_subject_of i t → False.
Proof.
  unfold frame_tuples. rewrite !elem_of_union, !elem_of_singleton, elem_of_list_to_set, list_elem_of_fmap.
  intros [[-> |(p & -> & _)]| ->] [[? [=]]|[? [=]]].
Qed.

Lemma elem_of_group_tuple m g : vt_group (bm_id m) g ∈ subject_tuples m ↔ g ∈ bm_groups m.
Proof.
  rewrite elem_of_subject_tuples. split; [|eauto].
  intros [(h & Hh & [_ ->]%vt_group_inj)|(s & u & _ & Hu)]; [done|by apply vt_group_user in Hu].
Qed.
Lemma elem_of_user_tuple m u :
  vt_user (bm_id m) u ∈ subject_tuples m ↔ u ∈ user_values (bm_users m).
Proof.
  rewrite elem_of_subject_tuples, elem_of_user_values. split; [|naive_solver].
  intros [(h & Hh & Hu)|(s & v & Hs & [_ ->]%vt_user_inj)]; [by symmetry in Hu; apply vt_group_user in Hu|eauto].
Qed.
End tuples.

(** [as_tuples] lists the tuples of the mapping, each once. *)
Section as_tuples.
Context `{Settings} `{PySetOrder}.

Lemma mapM_create {A} (f : A → result RelationTuple) (g : A → RelationTuple) l r :
  (∀ x t, f x = Ok t → t = g x ∧ valid_tuple t = true) → mapM f l = Ok r →
  r = map g l ∧ Forall (λ t, valid_tuple t = true) r.
Proof.
  intros Hf Hm%mapM_result_Ok. induction Hm as [|x t l r Hx _ IH]; [done|].
  destruct (Hf _ _ Hx) as [-> Hv]. destruct IH as [-> IH]. split; [done|by constructor].
Qed.

Lemma as_tuples_eq vb l :
  as_tuples vb = Ok l →
  l = [vt_role (vb_id vb) (vr_id (vb_role vb))]
      ++ map (vt_perm (vr_id (vb_role vb))) (set_iter (vr_permissions (vb_role vb)))
      ++ map (vt_group (vb_id vb)) (set_list (vb_groups vb))
      ++ map (vt_user (vb_id vb)) (set_list (user_values (vb_users vb)))
      ++ [vt_resource (br_namespace (vb_resource vb)) (br_name (vb_resource vb)) (br_id (vb_resource vb)) (vb_id vb)]
  ∧ Forall (λ t, valid_tuple t = true) l.
Proof.
  unfold as_tuples. intros (r & [-> Hr]%create_relationship_spec & Hl)%bind_Ok.
  apply bind_Ok in Hl as (ps & Hps & Hl). apply bind_Ok in Hl as (gs & Hgs & Hl).
  apply bind_Ok in Hl as (us & Hus & Hl). apply bind_Ok in Hl as (b & [-> Hb]%create_relationship_spec & Hl).
  injection Hl as <-.
  apply (mapM_create _ (vt_perm (vr_id (vb_role vb)))) in Hps as [-> Hps];
    [|intros x t [-> ?]%create_relationship_spec; done].
  apply (mapM_create _ (vt_group (vb_id vb))) in Hgs as [-> Hgs]; [|intros x t [-> ?]%create_relationship_spec; done].
  apply (mapM_create _ (vt_user (vb_id vb))) in Hus as [-> Hus]; [|intros x t [-> ?]%create_relationship_spec; done].
  split; [done|]. repeat (apply Forall_app_2 || constructor); done.
Qed.

Lemma mapping_as_tuples_spec m l :
  mapping_as_tuples m = Ok l → ∀ t, t ∈ l ↔ t ∈ mapping_tuples m.
Proof.
  unfold mapping_as_tuples, get_role_binding. intros (vb & (r & Hr & [= <-])%bind_Ok & Hl)%bind_Ok.
  unfold mk_V2boundresource in Hr. destruct (_ ≫= _); [|done]. injection Hr as <-.
  apply as_tuples_eq in Hl as [-> _]. cbn. intros t. unfold mapping_tuples, frame_tuples, subject_tuples.
  rewrite !elem_of_union, !elem_of_singleton, !elem_of_list_to_set, elem_of_cons, !elem_of_app, !list_elem_of_fmap,
    list_elem_of_singleton.
  setoid_rewrite elem_of_set_iter. setoid_rewrite elem_of_list_to_set. setoid_rewrite (elem_of_elements (C := gset string)). tauto.
Qed.

(** The tuples pass the check for duplicates by text. *)
Lemma mapping_as_tuples_rbac m l :
  bm_namespace m = "rbac" → (∀ p, p ∈ vr_permissions (bm_role_value m) → has_char "@" p = false) →
  mapping_as_tuples m = Ok l → Forall (λ t, rbac_tuple t = true) l.
Proof.
  intros Hn Hat. unfold mapping_as_tuples, get_role_binding. intros (vb & (r & Hr & [= <-])%bind_Ok & Hl)%bind_Ok.
  unfold mk_V2boundresource in Hr. destruct (_ ≫= _); [|done]. injection Hr as <-.
  apply as_tuples_eq in Hl as [-> Hv]. cbn in *. rewrite Forall_forall in *. intros t Ht. specialize (Hv t Ht).
  unfold rbac_tuple. rewrite Hv. cbn.
  rewrite elem_of_cons, !elem_of_app, !list_elem_of_fmap, list_elem_of_singleton in Ht. setoid_rewrite elem_of_set_iter in Ht.
  destruct Ht as [-> |[(p & -> & Hp)|[(x & -> & _)|[(x & -> & _)| ->]]]]; try by cbn.
  - cbn. by rewrite Hat.
  - cbn. by rewrite Hn.
Qed.

Lemma mapping_as_tuples_NoDup m l : mapping_as_tuples m = Ok l → NoDup l.
Proof.
  unfold mapping_as_tuples, get_role_binding. intros (vb & (r & Hr & [= <-])%bind_Ok & Hl)%bind_Ok.
  apply as_tuples_eq in Hl as [-> _]. cbn.
  assert (∀ A `{Countable A} (f : A → RelationTuple) (s : gset A), Inj (=) (=) f → NoDup (map f (set_iter s))) as Hnd.
  { intros A ? ? f s Hf. apply NoDup_fmap_2; [done|]. rewrite set_iter_perm. apply NoDup_elements. }
  apply NoDup_cons. split.
  { rewrite !elem_of_app, !list_elem_of_fmap, list_elem_of_singleton.
    intros [(x & [=] & _)|[(x & [=] & _)|[(x & [=] & _)|[=]]]]. }
  apply NoDup_app. split; [apply Hnd; by intros x y [= ->]|]. split.
  { intros t. rewrite !elem_of_app, !list_elem_of_fmap, list_elem_of_singleton.
    intros (x & -> & _) [(y & [=] & _)|[(y & [=] & _)|[=]]]. }
  apply NoDup_app. split; [apply Hnd; by intros x y [_ ->]%vt_group_inj|]. split.
  { intros t. rewrite elem_of_app, !list_elem_of_fmap, list_elem_of_singleton.
    intros (x & -> & _) [(y & Hy & _)|[=]]. by apply vt_group_user in Hy. }
  apply NoDup_app. split; [apply Hnd; by intros x y [_ ->]%vt_user_inj|]. split; [|apply NoDup_singleton].
  intros t. rewrite list_elem_of_fmap, list_elem_of_singleton. by intros (x & -> & _) [=].
Qed.
End as_tuples.

(* ------------------------------------------------------------------ *)
(** * Updates of the subjects of a mapping *)

(** What an update callback of the dual-write handlers does: the new mapping, the
    tuples to add and the tuples to remove. *)
Definition mapping_update : Type :=
  BindingMapping → result (BindingMapping * list RelationTuple * list RelationTuple).

(** Only the subjects differ. *)
Definition same_key (m m' : BindingMapping) : Prop := m' = with_groups (bm_groups m') (with_users (bm_users m') m).

(** What the handlers rely on: an update changes the subjects only, names subject
    tuples of the mapping only, adds tuples that pass the checks of the outbox, and the tuples it names are the difference between
    the old subjects and the new ones, when the precondition [P] holds. *)
Class MappingUpdate `{Settings} (P : BindingMapping → Prop) (f : mapping_update) : Prop := {
  mu_key m m' add rem : f m = Ok (m', add, rem) → same_key m m';
  mu_subjects m m' add rem : f m = Ok (m', add, rem) → Forall (is_subject_of (bm_id m)) (add ++ rem);
  mu_valid m m' add rem : f m = Ok (m', add, rem) → Forall (λ t, rbac_tuple t = true) add;
  mu_effect m m' add rem : P m → f m = Ok (m', add, rem) →
    subject_tuples m' = list_to_set add ∪ (subject_tuples m ∖ list_to_set rem);
}.

(** The whole set of tuples then changes as the subjects do. *)
Lemma mapping_update_effect `{Settings} P f `{!MappingUpdate P f} m m' add rem :
  P m → f m = Ok (m', add, rem) →
  mapping_tuples m' = list_to_set add ∪ (mapping_tuples m ∖ list_to_set rem).
Proof.
  intros HP Hf. pose proof (mu_key _ _ _ _ Hf) as Hk. pose proof (mu_subjects _ _ _ _ Hf) as Hs.
  pose proof (mu_effect _ _ _ _ HP Hf) as He. unfold mapping_tuples. rewrite He.
  assert (frame_tuples m' = frame_tuples m) as ->. { by rewrite Hk. }
  apply set_eq. intros t. rewrite Forall_app, !Forall_forall in Hs. destruct Hs as [_ Hs].
  pose proof (frame_not_subject m (bm_id m) t) as Hfr. specialize (Hs t).
  rewrite !elem_of_union, !elem_of_difference, !elem_of_union, !elem_of_list_to_set.
  destruct (decide (t ∈ rem)); naive_solver.
Qed.

(** The operations of the class as updates. *)
Inductive mapping_op :=
| PopGroup (g : string)
| UnassignGroup (g : string)
| AssignGroup (g : string)
| AddGroup (g : string)
| AssignUser (u src : string)
| UnassignUser (u src : string).

Section ops.
Context `{Settings} `{PySetOrder}.

Definition run_op (op : mapping_op) : mapping_update := λ m,
  match op with
  | PopGroup g => '(t, m') ← pop_group_from_bindings g m; mret (m', [], option_list t)
  | UnassignGroup g => r ← unassign_group g m;
                       mret (match r with Some (t, m') => (m', [], [t]) | None => (m, [], []) end)
  | AssignGroup g => '(t, m') ← assign_group_to_bindings g m; mret (m', option_list t, [])
  | AddGroup g => '(t, m') ← add_group_to_bindings g m; mret (m', [t], [])
  | AssignUser u src => '(t, m') ← assign_user_to_bindings u src m; mret (m', [t], [])
  | UnassignUser u src => '(t, m') ← unassign_user_from_bindings u src m; mret (m', [], option_list t)
  end.

(** A source always stands for the same user. *)
Definition op_ok (op : mapping_op) (m : BindingMapping) : Prop :=
  match op with
  | AssignUser u src | UnassignUser u src => ∀ v, bm_users m !! src = Some v → v = u
  | _ => True
  end.

Lemma same_key_refl m : same_key m m.
Proof. by destruct m. Qed.
Lemma same_key_trans m1 m2 m3 : same_key m1 m2 → same_key m2 m3 → same_key m1 m3.
Proof. unfold same_key. intros E1 E2. rewrite E2 at 1. rewrite E1. reflexivity. Qed.
Lemma same_key_groups m gs : same_key m (with_groups gs m).
Proof. by destruct m. Qed.
Lemma same_key_users m us : same_key m (with_users us m).
Proof. by destruct m. Qed.
Lemma same_key_id m m' : same_key m m' → bm_id m' = bm_id m.
Proof. unfold same_key. intros E. by rewrite E. Qed.
Lemma same_key_frame m m' : same_key m m' → frame_tuples m' = frame_tuples m.
Proof. unfold same_key. intros E. by rewrite E. Qed.

Lemma group_tuple_Ok id g t : role_binding_group_subject_tuple id g = Ok t → t = vt_group id g.
Proof. by intros [-> _]%create_relationship_spec. Qed.
Lemma user_tuple_Ok id u t : role_binding_user_subject_tuple id u = Ok t → t = vt_user id u.
Proof. by intros [-> _]%create_relationship_spec. Qed.

Lemma remove_first_perm x l : x ∈ l → l ≡ₚ x :: list_remove_first x l.
Proof.
  induction l as [|y l IH]; [by intros ?%elem_of_nil|]. cbn. destruct (String.eqb_spec x y) as [->|Hne]; [done|].
  intros [?|Hx]%elem_of_cons; [done|]. rewrite (IH Hx) at 1. constructor.
Qed.
Lemma remove_first_other x y l : y ≠ x → y ∈ list_remove_first x l ↔ y ∈ l.
Proof.
  intros Hne. induction l as [|z l IH]; [done|]. cbn. destruct (String.eqb_spec x z) as [->|?].
  - rewrite elem_of_cons. naive_solver.
  - by rewrite !elem_of_cons, IH.
Qed.

(** Popping a group. *)
Lemma pop_group_spec g m r m' :
  pop_group_from_bindings g m = Ok (r, m') →
  same_key m m' ∧ bm_users m' = bm_users m ∧ (∀ h, h ≠ g → h ∈ bm_groups m' ↔ h ∈ bm_groups m)
  ∧ match r with
    | Some t => t = vt_group (bm_id m) g ∧ (g ∉ bm_groups m')
    | None => g ∈ bm_groups m' ∧ g ∈ bm_groups m ∧ S (length (bm_groups m')) = length (bm_groups m)
    end.
Proof.
  unfold pop_group_from_bindings.
  set (gs := if bool_decide (g ∈ bm_groups m) then list_remove_first g (bm_groups m) else bm_groups m).
  assert ((∀ h, h ≠ g → h ∈ gs ↔ h ∈ bm_groups m)
    ∧ (g ∈ gs → g ∈ bm_groups m ∧ S (length gs) = length (bm_groups m))) as [Hgs Hlen].
  { subst gs. case_bool_decide as Hg; [|done]. split; [intros; by apply remove_first_other|].
    intros _. split; [done|]. by rewrite (Permutation_length (remove_first_perm g (bm_groups m) Hg)). }
  clearbody gs. case_bool_decide as Hin; [intros [= <- <-]|intros (t & ->%group_tuple_Ok & [= <- <-])%bind_Ok];
    (split; [apply same_key_groups|]); cbn; split_and!; try done; by apply Hlen.
Qed.

(** The loop of [unassign_group] ends with the group gone. *)
Lemma unassign_loop_spec fuel g m r :
  length (bm_groups m) < fuel → unassign_group_loop fuel g m = Ok r →
  ∃ m', r = Some (vt_group (bm_id m) g, m') ∧ same_key m m' ∧ bm_users m' = bm_users m
    ∧ (g ∉ bm_groups m') ∧ ∀ h, h ≠ g → h ∈ bm_groups m' ↔ h ∈ bm_groups m.
Proof.
  revert m. induction fuel as [|fuel IH]; intros m Hf; [lia|]. cbn [unassign_group_loop].
  intros ([r1 m1] & Hp & Hr)%bind_Ok. apply pop_group_spec in Hp as (Hk & Hu & Hh & Hr1). destruct r1 as [t|].
  - injection Hr as <-. destruct Hr1 as [-> Hg]. by exists m1.
  - destruct Hr1 as (_ & _ & Hl). destruct (IH m1 ltac:(lia) Hr) as (m' & -> & Hk' & Hu' & Hg & Hh').
    exists m'. rewrite (same_key_id _ _ Hk). split_and!; [done|by eapply same_key_trans|congruence|done|].
    intros h Hne. by rewrite Hh', Hh.
Qed.

(** The subjects of a mapping with the same id, from its groups and users. *)
Lemma subject_tuples_eq m m' add rem :
  bm_id m' = bm_id m → Forall (is_subject_of (bm_id m)) (add ++ rem) →
  (∀ g, g ∈ bm_groups m' ↔ vt_group (bm_id m) g ∈ add ∨ g ∈ bm_groups m ∧ vt_group (bm_id m) g ∉ rem) →
  (∀ u, u ∈ user_values (bm_users m') ↔
     vt_user (bm_id m) u ∈ add ∨ u ∈ user_values (bm_users m) ∧ vt_user (bm_id m) u ∉ rem) →
  subject_tuples m' = list_to_set add ∪ (subject_tuples m ∖ list_to_set rem).
Proof.
  intros Hid Hf Hg Hu. rewrite Forall_forall in Hf. apply leibniz_equiv. intros t.
  rewrite elem_of_union, elem_of_difference, !elem_of_list_to_set.
  assert (∀ g, vt_group (bm_id m) g ∈ subject_tuples m' ↔ g ∈ bm_groups m') as Hg'.
  { intros g. by rewrite <- Hid, elem_of_group_tuple. }
  assert (∀ u, vt_user (bm_id m) u ∈ subject_tuples m' ↔ u ∈ user_values (bm_users m')) as Hu'.
  { intros u. by rewrite <- Hid, elem_of_user_tuple. }
  split.
  - intros Ht. pose proof (subject_tuples_kind m' t Ht) as Hk. rewrite Hid in Hk. destruct Hk as [[g ->]|[u ->]].
    + apply Hg', Hg in Ht. by rewrite elem_of_group_tuple.
    + apply Hu', Hu in Ht. by rewrite elem_of_user_tuple.
  - intros Ht. assert (is_subject_of (bm_id m) t) as [[g ->]|[u ->]].
    { destruct Ht as [Ht|[Ht _]]; [apply Hf, elem_of_app; by left|by apply subject_tuples_kind]. }
    + apply Hg', Hg. by rewrite elem_of_group_tuple in Ht.
    + apply Hu', Hu. by rewrite elem_of_user_tuple in Ht.
Qed.

Lemma delete_user_values users src u v :
  (∀ w, users !! src = Some w → w = u) → v ≠ u → v ∈ user_values (delete src users) ↔ v ∈ user_values users.
Proof.
  intros Hs Hne. rewrite !elem_of_user_values. setoid_rewrite lookup_delete_Some. split; [naive_solver|].
  intros [s Hl]. exists s. split; [|done]. intros <-. by apply Hne, Hs.
Qed.
Lemma insert_user_values users src u v :
  (∀ w, users !! src = Some w → w = u) → v ∈ user_values (<[src := u]> users) ↔ v = u ∨ v ∈ user_values users.
Proof.
  intros Hs. rewrite !elem_of_user_values. setoid_rewrite lookup_insert_Some. split.
  - intros [s [[_ <-]|[_ Hl]]]; eauto.
  - intros [->|[s Hl]]; [exists src; by left|]. destruct (decide (src = s)) as [<-|]; [|eauto].
    exists src. left. split; [done|]. symmetry. by apply Hs.
Qed.

(** The shapes an update has, as facts on groups and users. *)
Record update_spec (m m' : BindingMapping) (add rem : list RelationTuple) : Prop := {
  us_subjects : Forall (is_subject_of (bm_id m)) (add ++ rem);
  us_groups : ∀ g, g ∈ bm_groups m' ↔ vt_group (bm_id m) g ∈ add ∨ g ∈ bm_groups m ∧ vt_group (bm_id m) g ∉ rem;
  us_users : ∀ u, u ∈ user_values (bm_users m') ↔
    vt_user (bm_id m) u ∈ add ∨ u ∈ user_values (bm_users m) ∧ vt_user (bm_id m) u ∉ rem;
}.

Lemma group_tuple_iff i g h : vt_group i g = vt_group i h ↔ g = h.
Proof. split; [by intros [_ ?]%vt_group_inj|by intros ->]. Qed.
Lemma user_tuple_iff i u v : vt_user i u = vt_user i v ↔ u = v.
Proof. split; [by intros [_ ?]%vt_user_inj|by intros ->]. Qed.
Lemma group_user_iff i j g u : vt_group i g = vt_user j u ↔ False.
Proof. split; [apply vt_group_user|done]. Qed.
Lemma user_group_iff i j g u : vt_user j u = vt_group i g ↔ False.
Proof. split; [intros E; symmetry in E; by apply vt_group_user in E|done]. Qed.

Ltac shapes :=
  split; [cbn; repeat apply Forall_cons_2; try apply Forall_nil_2; unfold is_subject_of; eauto
         | intros x; rewrite ?elem_of_nil, ?list_elem_of_singleton, ?group_tuple_iff, ?group_user_iff; try naive_solver
         | intros x; rewrite ?elem_of_nil, ?list_elem_of_singleton, ?user_tuple_iff, ?user_group_iff; try naive_solver].

Lemma us_same m m' :
  (∀ g, g ∈ bm_groups m' ↔ g ∈ bm_groups m) → bm_users m' = bm_users m → update_spec m m' [] [].
Proof. intros Hg Hu. shapes; rewrite Hu; naive_solver. Qed.
Lemma us_remove_group m m' g :
  (g ∉ bm_groups m') → (∀ h, h ≠ g → h ∈ bm_groups m' ↔ h ∈ bm_groups m) → bm_users m' = bm_users m →
  update_spec m m' [] [vt_group (bm_id m) g].
Proof. intros Hg Hh Hu. shapes; rewrite ?Hu; destruct (decide (x = g)); naive_solver. Qed.
Lemma us_add_group m m' g :
  (∀ h, h ∈ bm_groups m' ↔ h = g ∨ h ∈ bm_groups m) → bm_users m' = bm_users m →
  update_spec m m' [vt_group (bm_id m) g] [].
Proof. intros Hg Hu. shapes; rewrite ?Hu; naive_solver. Qed.
Lemma us_add_user m m' u :
  bm_groups m' = bm_groups m → (∀ v, v ∈ user_values (bm_users m') ↔ v = u ∨ v ∈ user_values (bm_users m)) →
  update_spec m m' [vt_user (bm_id m) u] [].
Proof. intros Hg Hu. shapes; rewrite ?Hg; naive_solver. Qed.
Lemma us_remove_user m m' u :
  bm_groups m' = bm_groups m → (u ∉ user_values (bm_users m')) →
  (∀ v, v ≠ u → v ∈ user_values (bm_users m') ↔ v ∈ user_values (bm_users m)) →
  update_spec m m' [] [vt_user (bm_id m) u].
Proof. intros Hg Hu Hv. shapes; rewrite ?Hg; destruct (decide (x = u)); naive_solver. Qed.

Lemma run_op_spec op m m' add rem :
  run_op op m = Ok (m', add, rem) →
  same_key m m' ∧ Forall (is_subject_of (bm_id m)) (add ++ rem) ∧ (op_ok op m → update_spec m m' add rem).
Proof.
  assert (∀ P : Prop, update_spec m m' add rem →
    Forall (is_subject_of (bm_id m)) (add ++ rem) ∧ (P → update_spec m m' add rem)) as Hall.
  { intros P Hs. split; [apply Hs|done]. }
  destruct op as [g|g|g|g|u src|u src]; cbn -[unassign_group].
  - intros ([r m1] & (Hk & Hus & Hh & Hr)%pop_group_spec & [= <- <- <-])%bind_Ok. split; [done|]. apply Hall.
    destruct r as [t|]; [destruct Hr as [-> Hg]; by apply us_remove_group|].
    destruct Hr as (Hg & Hg' & _). apply us_same; [|done]. intros h. destruct (decide (h = g)) as [->|]; naive_solver.
  - intros (r & Hr & Hm)%bind_Ok. unfold unassign_group in Hr. apply unassign_loop_spec in Hr as (m1 & -> & Hk & Hus & Hg & Hh); [|lia].
    injection Hm as <- <- <-. split; [done|]. apply Hall. by apply us_remove_group.
  - unfold assign_group_to_bindings. intros ([r m1] & Hr & [= <- <- <-])%bind_Ok. case_bool_decide as Hg.
    + injection Hr as <- <-. split; [apply same_key_refl|]. apply Hall. by apply us_same.
    + apply bind_Ok in Hr as (t & ->%group_tuple_Ok & [= <- <-]). split; [apply same_key_groups|].
      apply Hall, us_add_group; [|done]. intros h. cbn. rewrite elem_of_app, list_elem_of_singleton. tauto.
  - unfold add_group_to_bindings.
    intros ([r m1] & (t & ->%group_tuple_Ok & [= <- <-])%bind_Ok & [= <- <- <-])%bind_Ok.
    split; [apply same_key_groups|]. apply Hall, us_add_group; [|done].
    intros h. cbn. rewrite elem_of_app, list_elem_of_singleton. tauto.
  - unfold assign_user_to_bindings.
    intros ([r m1] & (t & ->%user_tuple_Ok & [= <- <-])%bind_Ok & [= <- <- <-])%bind_Ok.
    split; [apply same_key_users|]. split; [apply Forall_singleton; right; eauto|]. intros Hok.
    apply us_add_user; [done|]. intros v. by apply insert_user_values.
  - unfold unassign_user_from_bindings. intros ([r m1] & Hr & [= <- <- <-])%bind_Ok. case_bool_decide as Hin.
    + injection Hr as <- <-. split; [apply same_key_users|]. split; [done|]. intros Hok. split; [done| |].
      * intros x. rewrite !elem_of_nil. naive_solver.
      * intros v. rewrite !elem_of_nil. cbn. destruct (decide (v = u)) as [->|Hne].
        -- split; [|naive_solver]. rewrite !elem_of_user_values. intros [s Hs%lookup_delete_Some]. naive_solver.
        -- rewrite (delete_user_values _ _ u) by done. naive_solver.
    + apply bind_Ok in Hr as (t & ->%user_tuple_Ok & [= <- <-]). split; [apply same_key_users|].
      split; [apply Forall_singleton; right; eauto|]. intros Hok. apply us_remove_user; [done|done|].
      intros v Hne. by apply (delete_user_values _ _ u).
Qed.

Lemma run_op_rbac op m m' add rem : run_op op m = Ok (m', add, rem) → Forall (λ t, rbac_tuple t = true) add.
Proof.
  assert (∀ id g t, role_binding_group_subject_tuple id g = Ok t → rbac_tuple t = true) as Hg.
  { intros id g t [-> Hv]%create_relationship_spec. unfold rbac_tuple. by rewrite Hv. }
  assert (∀ id u t, role_binding_user_subject_tuple id u = Ok t → rbac_tuple t = true) as Hu.
  { intros id u t [-> Hv]%create_relationship_spec. unfold rbac_tuple. by rewrite Hv. }
  destruct op as [g|g|g|g|u src|u src]; cbn -[unassign_group]; intros (r & Hr & Hm)%bind_Ok.
  - destruct r. by injection Hm as <- <- <-.
  - destruct r as [[]|]; by injection Hm as <- <- <-.
  - destruct r as [t m1]. injection Hm as <- <- <-. unfold assign_group_to_bindings in Hr. case_bool_decide.
    + by injection Hr as <- _.
    + apply bind_Ok in Hr as (t' & Ht%Hg & [= <- _]). by constructor.
  - destruct r as [t m1]. injection Hm as <- <- <-. apply bind_Ok in Hr as (t' & Ht%Hg & [= <- _]). by constructor.
  - destruct r as [t m1]. injection Hm as <- <- <-. apply bind_Ok in Hr as (t' & Ht%Hu & [= <- _]). by constructor.
  - destruct r. by injection Hm as <- <- <-.
Qed.

#[export] Instance run_op_update op : MappingUpdate (op_ok op) (run_op op).
Proof.
  split; intros m m' add rem.
  - intros (? & _)%run_op_spec. done.
  - intros (_ & ? & _)%run_op_spec. done.
  - apply run_op_rbac.
  - intros Hp (Hk & Hf & Hs)%run_op_spec. destruct (Hs Hp). apply subject_tuples_eq; auto using same_key_id.
Qed.

(** A run of operations, with one event for each. *)
Definition op_event (add rem : list RelationTuple) : ReplicationEvent :=
  mkReplicationEvent ASSIGN_ROLE [] add rem.
Fixpoint run_ops (ops : list mapping_op) (m : BindingMapping) : result (BindingMapping * list ReplicationEvent) :=
  match ops with
  | [] => Ok (m, [])
  | op :: ops' => '(m1, add, rem) ← run_op op m;
                  '(m2, events) ← run_ops ops' m1;
                  mret (m2, op_event add rem :: events)
  end.

(** Every source stands for one user, in the mapping and in the operations. *)
Definition sources_of (owner : string → string) (m : BindingMapping) (ops : list mapping_op) : Prop :=
  (∀ src u, bm_users m !! src = Some u → u = owner src)
  ∧ Forall (λ op, match op with AssignUser u src | UnassignUser u src => u = owner src | _ => True end) ops.

Lemma run_op_sources owner op ops m m' add rem :
  run_op op m = Ok (m', add, rem) → sources_of owner m (op :: ops) → sources_of owner m' ops ∧ op_ok op m.
Proof.
  intros Hr [Hm [Hop Hops]%Forall_cons]. split; [split; [|done]|].
  2:{ destruct op; cbn; try done; intros v Hv%Hm; congruence. }
  destruct op as [g|g|g|g|u src|u src]; cbn -[unassign_group] in Hr.
  - apply bind_Ok in Hr as ([r m1] & (_ & Hus & _)%pop_group_spec & [= <- _ _]). by rewrite Hus.
  - apply bind_Ok in Hr as (r & Hr & Hm'). unfold unassign_group in Hr.
    apply unassign_loop_spec in Hr as (m1 & -> & _ & Hus & _); [|lia]. injection Hm' as <- _ _. by rewrite Hus.
  - unfold assign_group_to_bindings in Hr. apply bind_Ok in Hr as ([r m1] & Hr & [= <- _ _]).
    case_bool_decide; [by injection Hr as _ <-|]. by apply bind_Ok in Hr as (t & _ & [= _ <-]).
  - unfold add_group_to_bindings in Hr. by apply bind_Ok in Hr as ([r m1] & (t & _ & [= _ <-])%bind_Ok & [= <- _ _]).
  - unfold assign_user_to_bindings in Hr.
    apply bind_Ok in Hr as ([r m1] & (t & _ & [= _ <-])%bind_Ok & [= <- _ _]). cbn.
    intros s v [[<- <-]|[_ Hv]]%lookup_insert_Some; [done|by apply Hm].
  - unfold unassign_user_from_bindings in Hr. apply bind_Ok in Hr as ([r m1] & Hr & [= <- _ _]).
    assert (m1 = with_users (delete src (bm_users m)) m) as ->.
    { case_bool_decide; [by injection Hr|]. by apply bind_Ok in Hr as (t & _ & [= _ <-]). }
    cbn. intros s v [_ Hv]%lookup_delete_Some. by apply Hm.
Qed.

Lemma run_op_add_NoDup op m m' add rem : run_op op m = Ok (m', add, rem) → NoDup add.
Proof.
  assert (∀ o : option RelationTuple, NoDup (option_list o)) as Ho.
  { intros [t|]; cbn; [by apply NoDup_singleton|constructor]. }
  destruct op; cbn -[unassign_group option_list]; intros (r & _ & Hm)%bind_Ok;
    repeat match goal with p : _ * _ |- _ => destruct p | p : option (_ * _) |- _ => destruct p end;
    injection Hm; intros; subst; try apply Ho; try apply NoDup_singleton; constructor.
Qed.

(** C17: any run of operations on a binding mapping is replayed exactly.  When every
    source stands for one user, and the store holds the tuples the mapping stands for,
    the tuples that the operations return, delivered one event for each operation, lead
    the store to the tuples of the mapping they leave.  A group that is bound several
    times, or a user that is bound through several sources, keeps its tuple until the
    last one goes. *)
Theorem mapping_ops_refine ops owner m m' events
    (Hs : sources_of owner m ops) (Hr : run_ops ops m = Ok (m', events)) :
  replay (mapping_tuples m) events = Ok (mapping_tuples m').
Proof.
  revert m events Hs Hr. induction ops as [|op ops IH]; intros m events Hs Hr; cbn [run_ops] in Hr.
  { by injection Hr as <- <-. }
  apply bind_Ok in Hr as ([[m1 add] rem] & Hop & Hr). apply bind_Ok in Hr as ([m2 es] & Hr & [= <- <-]).
  destruct (run_op_sources _ _ _ _ _ _ _ Hop Hs) as [Hs' Hok].
  unfold replay. cbn [foldM]. unfold in_memory_replicate. cbn [ev_add ev_remove op_event].
  rewrite write_eq, decide_True by (eapply run_op_add_NoDup; eauto). cbn.
  rewrite <- (mapping_update_effect _ _ _ _ _ _ Hok Hop). by apply IH.
Qed.

Lemma list_remove_first_spec g l :
  (g ∈ l ∧ S (length (list_remove_first g l)) = length l
     ∧ filter (.≠ g) (list_remove_first g l) = filter (.≠ g) l)
  ∨ (g ∉ l) ∧ filter (.≠ g) l = l.
Proof.
  induction l as [|h l IH]; [right; set_solver|]. cbn [list_remove_first]. destruct (String.eqb_spec g h) as [->|Hne].
  - left. rewrite filter_cons_False by naive_solver. set_solver.
  - rewrite !filter_cons_True by done. destruct IH as [(Hin & Hl & Hf)|[Hin Hf]]; [left|right; rewrite Hf; set_solver].
    cbn. rewrite Hf, Hl. set_solver.
Qed.

(** The loop drops every occurrence of the group, whatever the order of the list. *)
Lemma unassign_loop_eq fuel g m :
  length (bm_groups m) < fuel →
  unassign_group_loop fuel g m
  = (t ← role_binding_group_subject_tuple (bm_id m) g;
     mret (Some (t, with_groups (filter (.≠ g) (bm_groups m)) m))).
Proof.
  revert m. induction fuel as [|fuel IH]; intros m Hf; [lia|]. cbn [unassign_group_loop]. unfold pop_group_from_bindings.
  destruct (list_remove_first_spec g (bm_groups m)) as [(Hin & Hl & Hfl)|(Hin & Hfl)].
  - rewrite (bool_decide_true _ Hin). cbn [bm_groups with_groups].
    destruct (bool_decide (g ∈ list_remove_first g (bm_groups m))) eqn:Hg.
    + cbn. rewrite IH by (cbn; lia). cbn. by rewrite Hfl.
    + apply bool_decide_eq_false in Hg. cbn. destruct (role_binding_group_subject_tuple _ _); [|done]. cbn.
      by destruct (list_remove_first_spec g (list_remove_first g (bm_groups m))) as [(? & _)|[_ E]];
        [|rewrite <- Hfl, E].
  - rewrite (bool_decide_false _ Hin). cbn [bm_groups with_groups]. rewrite (bool_decide_false _ Hin), Hfl. cbn.
    by destruct (role_binding_group_subject_tuple _ _).
Qed.

(** Removing every assignment of a group always ends, however often it is bound:
    the result is an error only when no tuple can be built for the group, and otherwise
    the tuple to remove and the mapping without any occurrence of the group, the others
    kept in their order. *)
Theorem unassign_group_total g m :
  unassign_group g m
  = (t ← role_binding_group_subject_tuple (bm_id m) g;
     mret (Some (t, with_groups (filter (.≠ g) (bm_groups m)) m))).
Proof. apply unassign_loop_eq. lia. Qed.
End ops.

(** A mapping with one group, and a run that binds the group twice and a user through
    two sources: nothing is removed. *)
Definition sample_mapping : BindingMapping :=
  mkBindingMapping "b1" (mkV2role "r1" false {["inventory_host_read"]}) ["g1"] ∅ 1%Z None "rbac" "workspace" "ws".
Definition sample_run : result (BindingMapping * list ReplicationEvent) :=
  @run_ops sample_settings
    [AddGroup "g1"; PopGroup "g1"; AssignUser "u1" "car/1"; AssignUser "u1" "car/2"; UnassignUser "u1" "car/1"]
    sample_mapping.

Lemma mapping_ops_refine_witness :
  ∃ m' events, sample_run = Ok (m', events) ∧ Forall (λ e, ev_remove e = []) events ∧
    replay (@mapping_tuples sample_settings sample_mapping) events = Ok (@mapping_tuples sample_settings m').
Proof.
  destruct sample_run as [[m' events]|] eqn:Hr; [|exfalso; revert Hr; by vm_compute]. exists m', events.
  split_and!; [done|revert Hr; vm_compute; intros [= _ <-]; by repeat constructor|].
  refine (@mapping_ops_refine sample_settings _ (λ _, "u1") sample_mapping m' events _ Hr).
  split; [by intros src u|repeat constructor].
Defined.
