(* ===== verification/V1State.v ===== *)
(** The tables of the V1 domain beside those of [Db]: roles with their access
    (rbac/management/role/model.py), policies (rbac/management/policy/model.py), the
    V1 source of each V2 role, and the BindingMapping rows; and the relation tuples
    that the V1 rows stand for. *)

From S2P Require Import Prelude.
From S2P Require Import PyString.
From S2P Require Import Config.
From S2P Require Import RelationTypes.
From S2P Require Import TupleStore.
From S2P Require Import Permissions.
From S2P Require Import ScopeService.
From S2P Require Import Outbox.
From S2P Require Import Tenants.
From S2P Require Import Db.
From S2P Require Import BindingGraph.
From S2P Require Import RoleV2Service.
From S2P Require Import BindingMapping.

(* ------------------------------------------------------------------ *)
(** * Rows *)

(** An Access row with the attribute filters of its resource definitions. *)
Record Access := mkAccess { ac_permission : Z; ac_resource_definitions : list (list (string * json)) }.

(** A V1 role; [v1_ext_tenant] is the name of the external tenant it comes from. *)
Record V1Role := mkV1Role {
  v1_id : Z;
  v1_uuid : string;
  v1_name : string;
  v1_display_name : string;
  v1_description : option string;
  v1_system : bool;
  v1_tenant : Z;
  v1_access : list Access;
  v1_ext_tenant : option string;
}.

Record Policy := mkPolicy {
  po_group : option Z;
  po_name : string;
  po_system : bool;
  po_tenant : Z;
  po_roles : gset Z;
}.
Definition with_po_roles (f : gset Z → gset Z) (p : Policy) : Policy :=
  mkPolicy (po_group p) (po_name p) (po_system p) (po_tenant p) (f (po_roles p)).

(** The database of the V1 code: [v1_sources] is the column [v1_source] of RoleV2, and
    [v1_members] the many-to-many relation of groups and principals. *)
Record V1Db := mkV1Db {
  v1_db : Db;
  v1_roles : gmap Z V1Role;
  v1_policies : gmap Z Policy;
  v1_sources : gmap Z Z;
  v1_bm : gmap Z BindingMapping;
  v1_members : gset (Z * Z);
}.

Definition with_db (f : Db → Db) (vd : V1Db) : V1Db :=
  mkV1Db (f (v1_db vd)) (v1_roles vd) (v1_policies vd) (v1_sources vd) (v1_bm vd) (v1_members vd).
Definition with_v1_roles (f : gmap Z V1Role → gmap Z V1Role) (vd : V1Db) : V1Db :=
  mkV1Db (v1_db vd) (f (v1_roles vd)) (v1_policies vd) (v1_sources vd) (v1_bm vd) (v1_members vd).
Definition with_policies (f : gmap Z Policy → gmap Z Policy) (vd : V1Db) : V1Db :=
  mkV1Db (v1_db vd) (v1_roles vd) (f (v1_policies vd)) (v1_sources vd) (v1_bm vd) (v1_members vd).
Definition with_sources (f : gmap Z Z → gmap Z Z) (vd : V1Db) : V1Db :=
  mkV1Db (v1_db vd) (v1_roles vd) (v1_policies vd) (f (v1_sources vd)) (v1_bm vd) (v1_members vd).
Definition with_bm (f : gmap Z BindingMapping → gmap Z BindingMapping) (vd : V1Db) : V1Db :=
  mkV1Db (v1_db vd) (v1_roles vd) (v1_policies vd) (v1_sources vd) (f (v1_bm vd)) (v1_members vd).

Definition with_members (f : gset (Z * Z) → gset (Z * Z)) (vd : V1Db) : V1Db :=
  mkV1Db (v1_db vd) (v1_roles vd) (v1_policies vd) (v1_sources vd) (v1_bm vd) (f (v1_members vd)).

(* ------------------------------------------------------------------ *)
(** * Queries and writes *)

Section rows.
Context `{RowOrder}.

(** [role.binding_mappings], [RoleBinding.objects.filter(role__v1_source=role)] and
    [role.v2_roles] *)
Definition role_mappings (vd : V1Db) (role : Z) : list (Z * BindingMapping) :=
  List.filter (λ kv, Z.eqb (bm_role (snd kv)) role) (row_order (v1_bm vd)).
Definition source_bindings (vd : V1Db) (role : Z) : list RoleBinding :=
  select (λ b, bool_decide (v1_sources vd !! b_role b = Some role)) (db_bindings (v1_db vd)).
Definition v2_roles_of (vd : V1Db) (role : Z) : list RoleV2 :=
  select (λ r, bool_decide (v1_sources vd !! r_id r = Some role)) (db_roles (v1_db vd)).

(** [role.policies.all()] *)
Definition policies_of (vd : V1Db) (role : Z) : list Policy :=
  select (λ p, bool_decide (role ∈ po_roles p)) (v1_policies vd).
End rows.

(** DELETE on BindingMapping rows. *)
Definition delete_mappings (ids : gset Z) : V1Db → V1Db := with_bm (filter (λ kv, fst kv ∉ ids)).

(** DELETE on RoleV2 rows: the bindings go with them, and the mappings lose their
    reference. *)
Definition clear_v2_role (ids : gset Z) (m : BindingMapping) : BindingMapping :=
  match bm_v2_role m with
  | Some r => if decide (r ∈ ids)
              then mkBindingMapping (bm_id m) (bm_role_value m) (bm_groups m) (bm_users m) (bm_role m) None
                     (bm_namespace m) (bm_resource_type m) (bm_resource_id m)
              else m
  | None => m
  end.
Definition delete_v2_roles (ids : gset Z) (vd : V1Db) : V1Db :=
  let bids : gset Z := list_to_set (map fst (filter (λ kb, b_role (snd kb) ∈ ids)
                         (map_to_list (db_bindings (v1_db vd))))) in
  with_bm (fmap (clear_v2_role ids))
    (with_sources (filter (λ kv, fst kv ∉ ids))
      (with_db (λ d, with_roles (filter (λ kr, fst kr ∉ ids)) (delete_bindings bids d)) vd)).

(** DELETE on a V1 role: its mappings, its V2 roles and its places in policies go
    with it. *)
Definition delete_v1_role (role : Z) (vd : V1Db) : V1Db :=
  let pks : gset Z := list_to_set (map fst (filter (λ kv, snd kv = role) (map_to_list (v1_sources vd)))) in
  with_v1_roles (delete role)
    (with_policies (fmap (with_po_roles (.∖ {[role]})))
      (with_bm (filter (λ kv, bm_role (snd kv) ≠ role)) (delete_v2_roles pks vd))).

(** A saved RoleBinding: the unique column and the unique constraint are checked
    against the other rows. *)
Definition save_binding (b : RoleBinding) (vd : V1Db) : result V1Db :=
  let others := List.filter (λ c, negb (Z.eqb (b_id c) (b_id b))) (map snd (map_to_list (db_bindings (v1_db vd)))) in
  _ ← raise_if (existsb (λ c, String.eqb (b_uuid c) (b_uuid b)) others) (IntegrityError "uuid");
  _ ← raise_if (existsb (λ c, Z.eqb (b_role c) (b_role b) && String.eqb (b_resource_type c) (b_resource_type b)
                              && String.eqb (b_resource_id c) (b_resource_id b) && Z.eqb (b_tenant c) (b_tenant b)) others)
        (IntegrityError "unique role binding per role resource pair per tenant");
  mret (with_db (with_bindings (<[b_id b := b]>) id id) vd).

(** A saved BindingMapping: rows without a V2 role are not compared. *)
Definition save_mapping (pk : Z) (m : BindingMapping) (vd : V1Db) : result V1Db :=
  _ ← raise_if (bool_decide (is_Some (bm_v2_role m)) &&
        existsb (λ kv, negb (Z.eqb (fst kv) pk) && bool_decide (bm_v2_role (snd kv) = bm_v2_role m)
                       && String.eqb (bm_namespace (snd kv)) (bm_namespace m)
                       && String.eqb (bm_resource_type (snd kv)) (bm_resource_type m)
                       && String.eqb (bm_resource_id (snd kv)) (bm_resource_id m)) (map_to_list (v1_bm vd)))
      (IntegrityError "unique_bindingmapping_v2role_resource");
  mret (with_bm (<[pk := m]>) vd).

(** A saved RoleV2: [full_clean] also compares the UUIDs. *)
Definition save_v2_role (r : RoleV2) (vd : V1Db) : result V1Db :=
  _ ← raise_if (existsb (λ s, String.eqb (r_uuid s) (r_uuid r) && negb (Z.eqb (r_id s) (r_id r)))
                  (map snd (map_to_list (db_roles (v1_db vd))))) (ValidationError "uuid");
  _ ← role_full_clean (v1_db vd) r;
  mret (with_db (with_roles (<[r_id r := r]>)) vd).

(* ------------------------------------------------------------------ *)
(** * The relation graph of the V1 rows *)

Section graph.
Context `{Settings}.

(** The tuples of all mappings. *)
Definition mappings_graph (vd : V1Db) : tuples :=
  ⋃ (map (λ kv, mapping_tuples (snd kv)) (map_to_list (v1_bm vd))).

(** The owner tuples of the V2 roles that come from custom V1 roles. *)
Definition owner_tuples (vd : V1Db) (r : RoleV2) : tuples :=
  match db_tenants (v1_db vd) !! r_tenant r ≫= tenant_resource_id with
  | Some rid => {[t_owner r rid]}
  | None => ∅
  end.
Definition sourced (vd : V1Db) (r : RoleV2) : bool :=
  bool_decide (r_type r = CUSTOM) && bool_decide (is_Some (v1_sources vd !! r_id r)).
Definition owners_graph (vd : V1Db) : tuples :=
  ⋃ (map (λ kr, if sourced vd (snd kr) then owner_tuples vd (snd kr) else ∅) (map_to_list (db_roles (v1_db vd)))).

Definition v1_graph (vd : V1Db) : tuples := mappings_graph vd ∪ owners_graph vd.

(** The tuples of the memberships of users in groups. *)
Definition t_member (group_uuid user_id : string) : RelationTuple :=
  rel_tuple ("rbac", "group") group_uuid ("rbac", "principal") (user_id_to_principal_resource_id (Some user_id)) "member" None.
Definition member_tuples (vd : V1Db) (gp : Z * Z) : tuples :=
  match db_groups (v1_db vd) !! fst gp, db_principals (v1_db vd) !! snd gp ≫= user_id with
  | Some g, Some u => {[t_member (g_uuid g) u]}
  | _, _ => ∅
  end.
Definition members_graph (vd : V1Db) : tuples := ⋃ (map (member_tuples vd) (elements (v1_members vd))).
End graph.

Section graph_facts.
Context `{Settings}.
Implicit Types (vd : V1Db) (t : RelationTuple).

Lemma elem_of_mappings_graph vd t :
  t ∈ mappings_graph vd ↔ ∃ pk m, v1_bm vd !! pk = Some m ∧ t ∈ mapping_tuples m.
Proof.
  unfold mappings_graph. rewrite elem_of_union_list. setoid_rewrite list_elem_of_fmap. split.
  - intros (X & ([pk m] & -> & Hin%elem_of_map_to_list) & Ht). eauto.
  - intros (pk & m & Hin & Ht). exists (mapping_tuples m). split; [|done]. exists (pk, m).
    split; [done|]. by apply elem_of_map_to_list.
Qed.

Lemma elem_of_owners_graph vd t :
  t ∈ owners_graph vd ↔ ∃ i r, db_roles (v1_db vd) !! i = Some r ∧ sourced vd r = true ∧ t ∈ owner_tuples vd r.
Proof.
  unfold owners_graph. rewrite elem_of_union_list. setoid_rewrite list_elem_of_fmap. split.
  - intros (X & ([i r] & -> & Hin%elem_of_map_to_list) & Ht). cbn in Ht.
    destruct (sourced vd r) eqn:Hs; [eauto|by apply not_elem_of_empty in Ht].
  - intros (i & r & Hin & Hs & Ht). exists (owner_tuples vd r). split; [|done]. exists (i, r).
    cbn. rewrite Hs. split; [done|]. by apply elem_of_map_to_list.
Qed.

Lemma elem_of_owner_tuples vd r t :
  t ∈ owner_tuples vd r ↔
  ∃ tn rid, db_tenants (v1_db vd) !! r_tenant r = Some tn ∧ tenant_resource_id tn = Some rid ∧ t = t_owner r rid.
Proof.
  unfold owner_tuples. destruct (db_tenants _ !! r_tenant r) as [tn|]; cbn; [|set_solver].
  destruct (tenant_resource_id tn) as [rid|] eqn:Hrid; [|set_solver]. rewrite elem_of_singleton. naive_solver.
Qed.

Lemma sourced_spec vd r : sourced vd r = true ↔ r_type r = CUSTOM ∧ ∃ s, v1_sources vd !! r_id r = Some s.
Proof. unfold sourced. rewrite andb_true_iff, !bool_decide_eq_true. done. Qed.

Lemma elem_of_members_graph vd t :
  t ∈ members_graph vd ↔ ∃ gid pid g p u, (gid, pid) ∈ v1_members vd ∧ db_groups (v1_db vd) !! gid = Some g
    ∧ db_principals (v1_db vd) !! pid = Some p ∧ user_id p = Some u ∧ t = t_member (g_uuid g) u.
Proof.
  unfold members_graph. rewrite elem_of_union_list. setoid_rewrite list_elem_of_fmap. setoid_rewrite elem_of_elements. split.
  - intros (X & ([gid pid] & -> & Hin) & Ht). unfold member_tuples in Ht. cbn in Ht.
    destruct (db_groups _ !! gid) as [g|] eqn:Hg; [|set_solver]. destruct (db_principals _ !! pid) as [p|] eqn:Hp; [|set_solver].
    cbn in Ht. destruct (user_id p) as [u|] eqn:Hu; [|set_solver]. apply elem_of_singleton in Ht as ->. by exists gid, pid, g, p, u.
  - intros (gid & pid & g & p & u & Hin & Hg & Hp & Hu & ->). exists (member_tuples vd (gid, pid)). split; [by exists (gid, pid)|].
    unfold member_tuples. cbn. rewrite Hg, Hp. cbn. rewrite Hu. by apply elem_of_singleton.
Qed.

(** A mapping's tuples do not mention its V2 role reference. *)
Lemma clear_v2_role_tuples ids m : mapping_tuples (clear_v2_role ids m) = mapping_tuples m.
Proof. unfold clear_v2_role. by repeat case_match. Qed.
End graph_facts.

(* ------------------------------------------------------------------ *)
(** * Writes *)

(** The keys of the roles. *)
Definition role_keys (vd : V1Db) : Prop :=
  (∀ i r, db_roles (v1_db vd) !! i = Some r → r_id r = i)
  ∧ (∀ i j r s, db_roles (v1_db vd) !! i = Some r → db_roles (v1_db vd) !! j = Some s → r_uuid r = r_uuid s → i = j).

Definition put_role (r : RoleV2) : V1Db → V1Db := with_db (with_roles (<[r_id r := r]>)).
Definition put_binding (b : RoleBinding) : V1Db → V1Db := with_db (with_bindings (<[b_id b := b]>) id id).

Lemma existsb_false {A} (f : A → bool) l : existsb f l = false ↔ ∀ x, x ∈ l → f x = false.
Proof.
  rewrite <- not_true_iff_false, existsb_exists. setoid_rewrite <- list_elem_of_In. split.
  - intros Hn x Hx. destruct (f x) eqn:E; [|done]. exfalso. eauto.
  - intros Hn (x & Hx & E). by rewrite Hn in E.
Qed.

Lemma elem_of_values {K A} `{Countable K} (m : gmap K A) x : x ∈ map snd (map_to_list m) ↔ ∃ k, m !! k = Some x.
Proof.
  rewrite list_elem_of_fmap. split.
  - intros ([k y] & -> & Hin%elem_of_map_to_list). eauto.
  - intros (k & Hk). exists (k, x). split; [done|]. by apply elem_of_map_to_list.
Qed.

Lemma save_v2_role_Ok r vd vd' :
  save_v2_role r vd = Ok vd' →
  vd' = put_role r vd
  ∧ ∀ i s, db_roles (v1_db vd) !! i = Some s → r_uuid s = r_uuid r → r_id s = r_id r.
Proof.
  unfold save_v2_role. intros (u & Hu%raise_if_Ok & Hr)%bind_Ok. apply bind_Ok in Hr as (_ & _ & [= <-]).
  split; [done|]. intros i s Hs Heq. rewrite existsb_false in Hu. specialize (Hu s).
  rewrite elem_of_values in Hu. specialize (Hu (ex_intro _ i Hs)). rewrite Heq, String.eqb_refl in Hu. cbn in Hu.
  by apply negb_false_iff, Z.eqb_eq in Hu.
Qed.

Lemma save_binding_Ok b vd vd' :
  save_binding b vd = Ok vd' →
  vd' = put_binding b vd
  ∧ (∀ i c, db_bindings (v1_db vd) !! i = Some c → b_id c ≠ b_id b → b_uuid c ≠ b_uuid b)
  ∧ (∀ i c, db_bindings (v1_db vd) !! i = Some c → b_id c ≠ b_id b → b_role c = b_role b → b_resource_type c = b_resource_type b →
       b_resource_id c = b_resource_id b → b_tenant c = b_tenant b → False).
Proof.
  unfold save_binding. set (others := List.filter _ _).
  assert (∀ i c, db_bindings (v1_db vd) !! i = Some c → b_id c ≠ b_id b → c ∈ others) as Ho.
  { intros i c Hc Hne. unfold others. rewrite list_elem_of_In, filter_In, <- list_elem_of_In, elem_of_values.
    split; [eauto|]. by apply negb_true_iff, Z.eqb_neq. }
  intros (u1 & H1'%raise_if_Ok & Hr)%bind_Ok. apply bind_Ok in Hr as (u2 & H2'%raise_if_Ok & [= <-]).
  rewrite existsb_false in H1', H2'. split_and!; [done|..].
  - intros i c Hc Hne Heq. specialize (H1' c (Ho i c Hc Hne)). cbn in H1'. by rewrite Heq, String.eqb_refl in H1'.
  - intros i c Hc Hne E1 E2 E3 E4. specialize (H2' c (Ho i c Hc Hne)). cbn in H2'.
    by rewrite E1, E2, E3, E4, !Z.eqb_refl, !String.eqb_refl in H2'.
Qed.

Lemma save_mapping_Ok pk m vd vd' : save_mapping pk m vd = Ok vd' → vd' = with_bm (<[pk := m]>) vd.
Proof. unfold save_mapping. by intros (u & _ & [= <-])%bind_Ok. Qed.

Lemma role_keys_put r vd :
  role_keys vd → (∀ i s, db_roles (v1_db vd) !! i = Some s → r_uuid s = r_uuid r → r_id s = r_id r) → role_keys (put_role r vd).
Proof.
  intros [Hid Hu] Hr. split; cbn.
  - intros i s [[<- <-]|[_ Hs]]%lookup_insert_Some; [done|by apply Hid].
  - intros i j s s' [[<- <-]|[Hi Hs]]%lookup_insert_Some [[<- <-]|[Hj Hs']]%lookup_insert_Some Heq; [done|..].
    + rewrite <- (Hid j s' Hs'). symmetry. by apply (Hr j).
    + rewrite <- (Hid i s Hs). by apply (Hr i).
    + by apply (Hu i j s s').
Qed.
