(* ===== verification/RoleMigration.v ===== *)
(** Custom V1 roles as V2 roles and bindings: the migration of a role
    (migration_tool/sharedSystemRolesReplicatedRoleBindings.py, migrate_role.py and
    ingest.py), the dual-write handler that runs it whenever a custom role changes
    (rbac/management/role/inventory_api_dual_write_handler.py), and the three requests
    of rbac/management/role/view.py that use the handler. *)

From stdpp Require Import pretty.
From S2P Require Import Prelude.
From S2P Require Import PyString.
From S2P Require Import Config.
From S2P Require Import PyUuid.
From S2P Require Import RelationTypes.
From S2P Require Import TupleStore.
From S2P Require Import Permissions.
From S2P Require Import ScopeService.
From S2P Require Import Outbox.
From S2P Require Import Tenants.
From S2P Require Import Db.
From S2P Require Import BindingGraph.
From S2P Require Import RoleBindingService.
From S2P Require Import RoleScopes.
From S2P Require Import RoleV2Service.
From S2P Require Import Workspaces.
From S2P Require Import BindingMapping.
From S2P Require Import V1State.

(* ------------------------------------------------------------------ *)
(** * Resource definitions *)

(** [values_from_attribute_filter] *)
Definition json_is (v : json) (s : string) : bool :=
  match v with JStr t => String.eqb t s | _ => false end.
Definition values_from_attribute_filter (attribute_filter : list (string * json)) : result (list json) :=
  op ← or_raise KeyError (assoc "operation" attribute_filter);
  resource_id ← or_raise KeyError (assoc "value" attribute_filter);
  match resource_id with
  | JList l => mret l
  | v => if json_is op "in" then
           match v with JStr s => mret (map JStr (split_on "," s)) | _ => Raise AttributeError end
         else mret [v]
  end.

(** [attribute_key_to_v2_related_resource_type]: a list or a dictionary cannot be
    looked up. *)
Definition attribute_key_to_v2_related_resource_type (resourceType : json) : result (option (string * string)) :=
  match resourceType with
  | JStr s => mret (if String.eqb s "group.id" then Some ("rbac", "workspace") else None)
  | JList _ | JDict _ => Raise TypeError
  | _ => mret None
  end.

(** The filter as the migration reads it, malformed data repaired; None for a filter
    that is skipped. *)
Definition repaired_filter (attri_filter : list (string * json)) : result (option (list (string * json))) :=
  op ← or_raise KeyError (assoc "operation" attri_filter);
  if json_is op "in" then
    value ← or_raise KeyError (assoc "value" attri_filter);
    match value with
    | JList [] => mret None
    | JList _ => mret (Some attri_filter)
    | _ => mret (Some (assoc_set "operation" (JStr "equal") attri_filter))
    end
  else mret (Some attri_filter).

(* ------------------------------------------------------------------ *)
(** * Resources of the scopes *)

(** [with_workspace_scope_inheritance] *)
Definition with_workspace_scope_inheritance (resource_map : gmap Scope V2boundresource) :
    gmap Scope (gset V2boundresource) :=
  let flat := match resource_map !! Scope.ROOT, resource_map !! Scope.DEFAULT with
              | Some r, None => <[Scope.DEFAULT := r]> resource_map
              | _, _ => resource_map
              end in
  <[Scope.ALL := list_to_set (map snd (map_to_list flat))]> ((λ r, {[r]} : gset V2boundresource) <$> flat).

(** [bound_resource_resolver_from_map] *)
Definition bound_resource_resolver_from_map (m : gmap Scope (gset V2boundresource)) (scope : Scope) :
    result (gset V2boundresource) := or_raise KeyError (m !! scope).

(* ------------------------------------------------------------------ *)
(** * Grouping permissions by resource *)

(** The dictionary of permission sets, in insertion order, and [add_element]. *)
Abbreviation PermissionGroupings := (list (V2boundresource * gset Z)).
Fixpoint add_element (d : PermissionGroupings) (key : V2boundresource) (value : Z) : PermissionGroupings :=
  match d with
  | [] => [(key, {[value]})]
  | (k, c) :: d' => if decide (k = key) then (k, c ∪ {[value]}) :: d' else (k, c) :: add_element d' key value
  end.

(** What the loops of the grouping thread through: the workspaces may gain the
    ungrouped one, which is replicated at once. *)
Record Grouping := mkGrouping { gr_db : Db; gr_events : list ReplicationEvent; gr_perms : PermissionGroupings }.

Section migration.
Context `{Settings} `{PySetOrder} `{RowOrder}.

(** [get_or_create_ungrouped_workspace] without a requested id; [ws_id] is the UUID a
    new row gets. *)
Definition get_or_create_ungrouped_workspace (ws_id : string) (tenant : Z) (d : Db) :
    result (Db * Workspace * list ReplicationEvent) :=
  default_ws ← built_in_workspace d tenant DEFAULT_WS;
  match select (λ w, Z.eqb (w_tenant w) tenant && bool_decide (w_type w = UNGROUPED_HOSTS)) (db_workspaces d) with
  | existing :: _ => mret (d, existing, [])
  | [] =>
      w ← ws_full_clean true d
            (mkWorkspace ws_id "Ungrouped Hosts" None (Some (w_id default_ws)) UNGROUPED_HOSTS tenant);
      let d' := put_workspace w d in
      '(events, _) ← replicate_new_workspace d' w CREATE_WORKSPACE;
      mret (d', w, events)
  end.

Section groupings.
Variables (ws_id : string) (role : V1Role) (is_ocm_role : bool) (default_ws_id : option string).

(** One value of a filter.  [FEATURE_FLAGS.is_remove_null_value_enabled] is tested as
    a method, never called, so it is always true. *)
Definition add_value (resource_type : string * string) (permission : Z) (g : Grouping) (resource_id : json) :
    result Grouping :=
  let add g s :=
    if is_ocm_role && bool_decide (resource_type = ("rbac", "workspace")) && negb (bool_decide (default_ws_id = Some s))
    then mret g
    else r ← mk_V2boundresource (fst resource_type) (snd resource_type) s;
         mret (mkGrouping (gr_db g) (gr_events g) (add_element (gr_perms g) r permission)) in
  match resource_id with
  | JNull =>
      _ ← raise_if (negb (bool_decide (resource_type = ("rbac", "workspace")))) ValueError;
      '(d', ungrouped_ws, events) ← get_or_create_ungrouped_workspace ws_id (v1_tenant role) (gr_db g);
      add (mkGrouping d' (gr_events g ++ events) (gr_perms g)) (w_id ungrouped_ws)
  | JStr s => if String.eqb s "" then mret g else add g s
  | _ => if is_ocm_role && bool_decide (resource_type = ("rbac", "workspace")) then mret g else Raise GenericException
  end.

(** One resource definition: filters on other keys, and filters on workspaces that
    are not all of the tenant, do not migrate. *)
Definition add_resource_definition (permission : Z) (g : Grouping) (attri_filter0 : list (string * json)) :
    result Grouping :=
  repaired ← repaired_filter attri_filter0;
  match repaired with
  | None => mret g
  | Some attri_filter =>
      key ← or_raise KeyError (assoc "key" attri_filter);
      resource_type ← attribute_key_to_v2_related_resource_type key;
      match resource_type with
      | None => mret g
      | Some ty =>
          skip ← (if decide (ty = ("rbac", "workspace")) then
                    ids ← get_workspace_ids_from_resource_definition attri_filter;
                    let requested : gset string := list_to_set ids in
                    let actual : gset string := list_to_set (map w_id
                      (select (λ w, Z.eqb (w_tenant w) (v1_tenant role) && bool_decide (w_id w ∈ requested))
                        (db_workspaces (gr_db g)))) in
                    mret (negb (bool_decide (requested = actual)))
                  else mret false);
          if (skip : bool) then mret g
          else values ← values_from_attribute_filter attri_filter;
               foldM (add_value ty permission) g values
      end
  end.

(** One access of the role: without resource definitions it applies to the resources
    of its scope. *)
Definition group_access (service : ImplicitResourceService) (resource_for_scope : Scope → result (gset V2boundresource))
    (g : Grouping) (access : Access) : result Grouping :=
  permission ← or_raise AttributeError (db_permissions (gr_db g) !! ac_permission access);
  match ac_resource_definitions access with
  | [] =>
      scope ← scope_for_permission service (p_permission permission);
      resources ← resource_for_scope scope;
      mret (foldl (λ g resolved,
        if is_ocm_role && String.eqb (br_namespace resolved) "rbac" && String.eqb (br_name resolved) "workspace"
           && negb (bool_decide (default_ws_id = Some (br_id resolved)))
        then g
        else mkGrouping (gr_db g) (gr_events g) (add_element (gr_perms g) resolved (ac_permission access)))
        g (set_iter resources))
  | rds => foldM (add_resource_definition (ac_permission access)) g rds
  end.
End groupings.

(** The first part of [v1_role_to_v2_bindings]: [perm_groupings]. *)
Definition is_ocm (role : V1Role) : bool := String.eqb (lower (default "" (v1_ext_tenant role))) "ocm".
Definition group_permissions (ws_id : string) (role : V1Role)
    (resource_for_scope : Scope → result (gset V2boundresource)) (d : Db) : result Grouping :=
  service ← from_settings;
  default_ws_id ← (if is_ocm role then
                     match built_in_workspace d (v1_tenant role) DEFAULT_WS with
                     | Ok w => mret (Some (w_id w))
                     | Raise (DoesNotExist _) => mret None
                     | Raise e => Raise e
                     end
                   else mret None);
  foldM (group_access ws_id role (is_ocm role) default_ws_id service resource_for_scope) (mkGrouping d [] []) (v1_access role).

(* ------------------------------------------------------------------ *)
(** * Bindings of the groups of permissions *)

(** [MigrateCustomRoleResult]: a mapping that is not saved yet has no key. *)
Record MigrateCustomRoleResult := mkMigrateResult {
  mr_v2_roles : list RoleV2;
  mr_binding_mappings : list (option Z * BindingMapping);
  mr_role_bindings : list RoleBinding;
}.
Definition check_migrate_result (r : MigrateCustomRoleResult) : result MigrateCustomRoleResult :=
  _ ← raise_if (negb (Nat.eqb (length (mr_binding_mappings r)) (length (mr_role_bindings r)))) ValueError;
  _ ← raise_if (negb (bool_decide ((list_to_set (map b_uuid (mr_role_bindings r)) : gset string)
                                   = list_to_set (map (λ km, bm_id (snd km)) (mr_binding_mappings r))))) ValueError;
  _ ← raise_if (negb (forallb (λ b, bool_decide (b_role b ∈ map r_id (mr_v2_roles r))) (mr_role_bindings r))) ValueError;
  mret r.

(** The keys and UUIDs that new rows for a resource get. *)
Record fresh := mkFresh { f_role : Z * string; f_binding : Z * string; f_mapping : Z }.

(** [RoleV2.as_migration_value] *)
Definition role_migration_value (d : Db) (r : RoleV2) : result V2role :=
  match r_type r with
  | PLATFORM => Raise ValueError
  | SEEDED => mret (for_system_role (r_uuid r))
  | CUSTOM => mret (mkV2role (r_uuid r) false (list_to_set (map (λ p, v2_string (p_parts p)) (permissions_of d (r_permissions r)))))
  end.

(** [RoleBinding.as_migration_value] with the groups forced. *)
Definition binding_migration_value (d : Db) (b : RoleBinding) (v2_role : RoleV2) (force_group_uuids : list string) :
    result V2rolebinding :=
  role ← role_migration_value d v2_role;
  resource ← mk_V2boundresource "rbac" (b_resource_type b) (b_resource_id b);
  mret (mkV2rolebinding (b_uuid b) role resource force_group_uuids ∅).

(** [_target_role_uuid_for]; [parse_uuid] is the UUID class of uuid_utils. *)
Definition target_role_uuid_for (parse_uuid : string → result string) (new_uuid : string)
    (existing_binding : option V2rolebinding) (latest_roles : list RoleV2) : result string :=
  match existing_binding with
  | Some vb => let existing_uuid := vr_id (vb_role vb) in
               if existsb (λ r, String.eqb (r_uuid r) existing_uuid) latest_roles then mret new_uuid
               else parse_uuid existing_uuid
  | None => mret new_uuid
  end.

(** [_v2_custom_role_from_v1] *)
Definition v2_custom_role_from_v1 (new_pk : Z) (v1_role : V1Role) (disambiguator : nat) (target_uuid : string)
    (vd : V1Db) : result (V1Db * RoleV2) :=
  let name := v1_display_name v1_role +:+ " (" +:+ pretty disambiguator +:+ ")" in
  match select (λ r, bool_decide (r_type r = CUSTOM) && String.eqb (r_uuid r) target_uuid
                     && Z.eqb (r_tenant r) (v1_tenant v1_role)
                     && bool_decide (v1_sources vd !! r_id r = Some (v1_id v1_role))) (db_roles (v1_db vd)) with
  | [] =>
      let r := mkRoleV2 new_pk target_uuid name (v1_description v1_role) CUSTOM (v1_tenant v1_role) ∅ (is_ocm v1_role) in
      vd' ← save_v2_role r vd;
      mret (with_sources (<[new_pk := v1_id v1_role]>) vd', r)
  | [old] =>
      let r := mkRoleV2 (r_id old) (r_uuid old) name (v1_description v1_role) (r_type old) (r_tenant old)
                 (r_permissions old) (r_ocm old) in
      vd' ← save_v2_role r vd;
      mret (vd', r)
  | _ => Raise (MultipleObjectsReturned "CustomRoleV2")
  end.

(** [role.permissions.set(...)] *)
Definition set_permissions (r : RoleV2) (ps : gset Z) : RoleV2 :=
  mkRoleV2 (r_id r) (r_uuid r) (r_name r) (r_description r) (r_type r) (r_tenant r) ps (r_ocm r).

(** [_get_or_create_binding]; the mapping that exists is changed in memory only. *)
Definition get_or_create_binding (gen : fresh) (v1_role : V1Role) (v2_role : RoleV2) (resource : V2boundresource)
    (existing_mapping : option (Z * BindingMapping)) (group_uuids : list string) (vd : V1Db) :
    result (V1Db * (option Z * BindingMapping) * RoleBinding) :=
  _ ← raise_if (negb (bool_decide (v1_sources vd !! r_id v2_role = Some (v1_id v1_role)))) ValueError;
  match existing_mapping with
  | Some (pk, m) =>
      value ← get_role_binding m;
      let mk i := mkRoleBinding i (vb_id value) (r_id v2_role) (br_name resource) (br_id resource) (v1_tenant v1_role) in
      b ← match select (λ b, Z.eqb (b_tenant b) (v1_tenant v1_role) && String.eqb (b_uuid b) (vb_id value))
                   (db_bindings (v1_db vd)) with
          | [] => mret (mk (fst (f_binding gen)))
          | [old] => mret (mk (b_id old))
          | _ => Raise (MultipleObjectsReturned "RoleBinding")
          end;
      vd' ← save_binding b vd;
      vb ← binding_migration_value (v1_db vd') b v2_role group_uuids;
      m' ← update_mappings_from_role_binding vb m;
      mret (vd', (Some pk, mkBindingMapping (bm_id m') (bm_role_value m') (bm_groups m') (bm_users m') (bm_role m')
                             (Some (r_id v2_role)) (bm_namespace m') (bm_resource_type m') (bm_resource_id m')), b)
  | None =>
      let b := mkRoleBinding (fst (f_binding gen)) (snd (f_binding gen)) (r_id v2_role) (br_name resource)
                 (br_id resource) (v1_tenant v1_role) in
      vd' ← save_binding b vd;
      vb ← binding_migration_value (v1_db vd') b v2_role group_uuids;
      mret (vd', (None, for_role_binding vb (v1_id v1_role) (Some (r_id v2_role))), b)
  end.

(** What the loop over the resources has done so far: [latest_roles_by_permissions],
    and a mapping and a binding for each resource. *)
Record Latest := mkLatest {
  lt_vd : V1Db;
  lt_roles : list (gset Z * RoleV2);
  lt_bindings : list (option Z * BindingMapping * RoleBinding);
}.

Section bindings.
Variables (parse_uuid : string → result string) (gen : V2boundresource → fresh).

Definition bind_resource (v1_role : V1Role) (existing : gmap V2boundresource (Z * BindingMapping))
    (group_uuids : list string) (l : Latest) (rp : V2boundresource * gset Z) : result Latest :=
  let '(resource, expected_permissions) := rp in
  let existing_mapping := existing !! resource in
  '(vd, roles, new_role) ←
    match list_find (λ pr, fst pr = expected_permissions) (lt_roles l) with
    | Some (_, (_, r)) => mret (lt_vd l, lt_roles l, r)
    | None =>
        existing_value ← match existing_mapping with
                         | Some (_, m) => vb ← get_role_binding m; mret (Some vb)
                         | None => mret None
                         end;
        target ← target_role_uuid_for parse_uuid (snd (f_role (gen resource))) existing_value (map snd (lt_roles l));
        '(vd, r) ← v2_custom_role_from_v1 (fst (f_role (gen resource))) v1_role (length (lt_roles l) + 1) target (lt_vd l);
        let r' := set_permissions r expected_permissions in
        mret (with_db (with_roles (<[r_id r' := r']>)) vd, lt_roles l ++ [(expected_permissions, r')], r')
    end;
  '(vd', m, b) ← get_or_create_binding (gen resource) v1_role new_role resource existing_mapping group_uuids vd;
  mret (mkLatest vd' roles (lt_bindings l ++ [(m, b)])).

(** The rows of [RoleBindingGroup] for the bindings of the role. *)
Definition set_binding_groups (bs : list RoleBinding) (groups : gset Z) : V1Db → V1Db :=
  let bids : gset Z := list_to_set (map b_id bs) in
  with_db (with_bindings id
    (λ ge, list_to_set (bid ← elements bids; gid ← elements groups; [(bid, gid)]) ∪ filter (λ e, fst e ∉ bids) ge) id).

(** [CustomRoleV2.objects.filter(pk__in=...).update(name=F("uuid"))]: one row after the
    other, each checked against the unique constraint. *)
Definition rename_role (d : Db) (r : RoleV2) : result Db :=
  let r' := mkRoleV2 (r_id r) (r_uuid r) (r_uuid r) (r_description r) (r_type r) (r_tenant r) (r_permissions r) (r_ocm r) in
  _ ← raise_if (existsb (λ s, String.eqb (r_name s) (r_name r') && Z.eqb (r_tenant s) (r_tenant r') && negb (Z.eqb (r_id s) (r_id r')))
                  (map snd (map_to_list (db_roles d)))) (IntegrityError "unique role v2 name per tenant");
  mret (with_roles (<[r_id r := r']>) d).

(** [permission_groupings_to_v2_role_bindings] *)
Definition permission_groupings_to_v2_role_bindings (perm_groupings : PermissionGroupings) (v1_role : V1Role)
    (existing_mappings : list (Z * BindingMapping)) (existing_v2_roles : list RoleV2) (vd : V1Db) :
    result (V1Db * MigrateCustomRoleResult) :=
  _ ← raise_if (v1_system v1_role) ValueError;
  _ ← raise_if (negb (forallb (λ r, bool_decide (v1_sources vd !! r_id r = Some (v1_id v1_role))) existing_v2_roles)) ValueError;
  _ ← raise_if (negb (forallb (λ r, bool_decide (r_type r = CUSTOM)) existing_v2_roles)) ValueError;
  let requested : gset string := list_to_set (map (λ rp, br_id (fst rp))
    (filter (λ rp, br_namespace (fst rp) = "rbac" ∧ br_name (fst rp) = "workspace") perm_groupings)) in
  ids ← mapM (λ s, or_raise (ValidationError "id") (uuid_canon s)) (set_iter requested);
  let locked : gset string := list_to_set (map w_id
    (select (λ w, Z.eqb (w_tenant w) (v1_tenant v1_role) && bool_decide (w_id w ∈ ids)) (db_workspaces (v1_db vd)))) in
  _ ← raise_if (negb (bool_decide (requested = locked))) ValueError;
  by_resource ← mapM (λ km, vb ← get_role_binding (snd km); mret (vb_resource vb, km)) existing_mappings;
  latest_groups ← mapM (λ p, gid ← or_raise AttributeError (po_group p);
                             or_raise AttributeError (db_groups (v1_db vd) !! gid)) (policies_of vd (v1_id v1_role));
  let group_ids : gset Z := list_to_set (map g_id latest_groups) in
  let group_uuids : gset string := list_to_set (map g_uuid latest_groups) in
  d1 ← foldM rename_role (v1_db vd)
         (select (λ r, bool_decide (r_type r = CUSTOM) && bool_decide (r_id r ∈ map r_id existing_v2_roles)) (db_roles (v1_db vd)));
  l ← foldM (bind_resource v1_role (dict_of by_resource) (set_iter group_uuids)) (mkLatest (with_db (λ _, d1) vd) [] []) perm_groupings;
  let bindings := map snd (lt_bindings l) in
  result ← check_migrate_result (mkMigrateResult (map snd (lt_roles l)) (map fst (lt_bindings l)) bindings);
  mret (set_binding_groups bindings group_ids (lt_vd l), result).

(** [v1_role_to_v2_bindings]: the events are those of a new ungrouped workspace. *)
Definition v1_role_to_v2_bindings (ws_id : string) (v1_role : V1Role)
    (resource_for_scope : Scope → result (gset V2boundresource)) (existing_role_bindings : list (Z * BindingMapping))
    (existing_v2_roles : list RoleV2) (vd : V1Db) : result (V1Db * MigrateCustomRoleResult * list ReplicationEvent) :=
  g ← group_permissions ws_id v1_role resource_for_scope (v1_db vd);
  '(vd', r) ← permission_groupings_to_v2_role_bindings (gr_perms g) v1_role existing_role_bindings existing_v2_roles
                (with_db (λ _, gr_db g) vd);
  mret (vd', r, gr_events g).

(** [relation_tuples_for_bindings] *)
Definition relation_tuples_for_bindings (bindings : list BindingMapping) : result (list RelationTuple) :=
  ls ← mapM mapping_as_tuples bindings; mret (concat ls).

(** [migrate_role] *)
Definition migrate_role (ws_id : string) (role : V1Role) (resource_for_scope : Scope → result (gset V2boundresource))
    (current_bindings : list (Z * BindingMapping)) (current_v2_roles : list RoleV2) (vd : V1Db) :
    result (V1Db * list RelationTuple * MigrateCustomRoleResult * list ReplicationEvent) :=
  '(vd', migrate_result, events) ←
    v1_role_to_v2_bindings ws_id role resource_for_scope current_bindings current_v2_roles vd;
  relationships ← relation_tuples_for_bindings (map snd (mr_binding_mappings migrate_result));
  mret (vd', relationships, migrate_result, events).

(* ------------------------------------------------------------------ *)
(** * The dual-write handler of custom roles *)

Record RoleHandler := mkRoleHandler {
  rh_event_type : ReplicationEventType;
  rh_role : V1Role;
  rh_tenant : Tenant;
  rh_root_workspace : Workspace;
  rh_default_workspace : Workspace;
  rh_binding_mappings : list (Z * BindingMapping);
  rh_role_bindings : list RoleBinding;
  rh_v2_roles : list RoleV2;
  rh_current_role_relations : list RelationTuple;
  rh_role_relations : list RelationTuple;
  rh_expected_empty : bool;
}.

(** [InventoryApiDualWriteHandler.__init__]; None when replication is disabled, which
    makes every method do nothing. *)
Definition role_handler_init (role : V1Role) (event_type : ReplicationEventType) (tenant : option Tenant) (vd : V1Db) :
    result (option RoleHandler) :=
  let d := v1_db vd in
  _ ← raise_if (v1_system role) ValueError;
  if negb REPLICATION_TO_RELATION_ENABLED then mret None else
  dual_write (
    binding_tenant ← match tenant with
                     | Some t => mret t
                     | None => or_raise (DoesNotExist "Tenant") (db_tenants d !! v1_tenant role)
                     end;
    _ ← raise_if (String.eqb (tenant_name binding_tenant) PUBLIC_TENANT_NAME) DualWriteException;
    root ← built_in_workspace d (t_id binding_tenant) ROOT_WS;
    dflt ← built_in_workspace d (t_id binding_tenant) DEFAULT_WS;
    _ ← from_settings;
    _ ← assert_v1_write_allowed (db_mappings d !! t_id binding_tenant);
    mret (Some (mkRoleHandler event_type role binding_tenant root dflt [] [] [] [] [] false))).

(** The owner tuples of V2 roles. *)
Definition owner_relationships (tenant : Tenant) (roles : list RoleV2) : result (list RelationTuple) :=
  match tenant_resource_id tenant with
  | Some rid => mapM (λ r, role_owner_relationship (r_uuid r) rid) roles
  | None => mret []
  end.

(** [prepare_for_update] *)
Definition rh_prepare_for_update (h : RoleHandler) (vd : V1Db) : result RoleHandler :=
  dual_write (
    let mappings := role_mappings vd (v1_id (rh_role h)) in
    let bindings := source_bindings vd (v1_id (rh_role h)) in
    let roles := v2_roles_of vd (v1_id (rh_role h)) in
    current ← match mappings with
              | [] => mret (rh_current_role_relations h)
              | _ => ts ← relation_tuples_for_bindings (map snd mappings);
                     os ← owner_relationships (rh_tenant h) roles;
                     mret (ts ++ os)
              end;
    mret (mkRoleHandler (rh_event_type h) (rh_role h) (rh_tenant h) (rh_root_workspace h) (rh_default_workspace h)
            mappings bindings roles current (rh_role_relations h) (rh_expected_empty h))).

(** [_update_by_pk] on each of the three tables. *)
Definition update_mappings_by_pk (old : list (Z * BindingMapping)) (new : list (option Z * BindingMapping)) (vd : V1Db) :
    result (V1Db * list (Z * BindingMapping)) :=
  let keyed := map (λ km, (default (f_mapping (gen (mkBound (bm_namespace (snd km)) (bm_resource_type (snd km))
                                                      (bm_resource_id (snd km))))) (fst km), snd km)) new in
  vd' ← foldM (λ vd km, save_mapping (fst km) (snd km) vd) vd keyed;
  mret (delete_mappings (list_to_set (map fst old) ∖ list_to_set (omap fst new)) vd', keyed).
Definition update_bindings_by_pk (old new : list RoleBinding) (vd : V1Db) : result V1Db :=
  vd' ← foldM (λ vd b, save_binding b vd) vd new;
  mret (with_db (delete_bindings (list_to_set (map b_id old) ∖ list_to_set (map b_id new))) vd').
Definition update_v2_roles_by_pk (old new : list RoleV2) (vd : V1Db) : result V1Db :=
  vd' ← foldM (λ vd r, save_v2_role r vd) vd new;
  mret (delete_v2_roles (list_to_set (map r_id old) ∖ list_to_set (map r_id new)) vd').

(** The resources a role's scopes stand for. *)
Definition role_resource_map (h : RoleHandler) (service : ImplicitResourceService) (vd : V1Db) :
    result (gmap Scope (gset V2boundresource)) :=
  perms ← mapM (λ a, or_raise AttributeError (db_permissions (v1_db vd) !! ac_permission a)) (v1_access (rh_role h));
  binding_scopes ← binding_scopes_for_permissions service (map p_permission perms);
  resources ← mapM (λ scope, model ← bound_model_for_scope scope (rh_tenant h) (rh_root_workspace h) (rh_default_workspace h);
                             r ← for_model model; mret (scope, r)) binding_scopes;
  mret (with_workspace_scope_inheritance (dict_of resources)).

(** [_generate_relations_and_mappings_for_role] *)
Definition generate_relations_and_mappings_for_role (ws_id : string) (h : RoleHandler) (vd : V1Db) :
    result (V1Db * RoleHandler * list ReplicationEvent) :=
  dual_write (
    service ← from_settings;
    resource_map ← role_resource_map h service vd;
    '(vd1, relations0, migrate_result, events) ←
      migrate_role ws_id (rh_role h) (bound_resource_resolver_from_map resource_map) (rh_binding_mappings h) (rh_v2_roles h) vd;
    let relations := deduplicate_role_permission_relationships relations0 in
    '(vd2, mappings) ← update_mappings_by_pk (rh_binding_mappings h) (mr_binding_mappings migrate_result) vd1;
    vd3 ← update_bindings_by_pk (rh_role_bindings h) (mr_role_bindings migrate_result) vd2;
    vd4 ← update_v2_roles_by_pk (rh_v2_roles h) (mr_v2_roles migrate_result) vd3;
    os ← owner_relationships (rh_tenant h) (mr_v2_roles migrate_result);
    mret (vd4, mkRoleHandler (rh_event_type h) (rh_role h) (rh_tenant h) (rh_root_workspace h) (rh_default_workspace h)
                 mappings (mr_role_bindings migrate_result) (mr_v2_roles migrate_result)
                 (rh_current_role_relations h) (relations ++ os) (rh_expected_empty h), events)).

(** [_replicate]; the info of the event also carries the mappings. *)
Definition rh_replicate (h : RoleHandler) (vd : V1Db) : result (list ReplicationEvent) :=
  if rh_expected_empty h then mret [] else
  match rh_current_role_relations h, rh_role_relations h with
  | [], [] => mret []
  | _, _ =>
      dual_write (
        tenant ← or_raise (DoesNotExist "Tenant") (db_tenants (v1_db vd) !! v1_tenant (rh_role h));
        emit (mkReplicationEvent (rh_event_type h)
          [("v1_role_uuid", Some (v1_uuid (rh_role h))); ("org_id", Some (py_str (org_id tenant)))]
          (rh_role_relations h) (rh_current_role_relations h)))
  end.

(** [replicate_new_or_updated_role] *)
Definition set_role (role : V1Role) (h : RoleHandler) : RoleHandler :=
  mkRoleHandler (rh_event_type h) role (rh_tenant h) (rh_root_workspace h) (rh_default_workspace h)
    (rh_binding_mappings h) (rh_role_bindings h) (rh_v2_roles h) (rh_current_role_relations h)
    (rh_role_relations h) (rh_expected_empty h).
Definition set_expected_empty (h : RoleHandler) : RoleHandler :=
  mkRoleHandler (rh_event_type h) (rh_role h) (rh_tenant h) (rh_root_workspace h) (rh_default_workspace h)
    (rh_binding_mappings h) (rh_role_bindings h) (rh_v2_roles h) (rh_current_role_relations h)
    (rh_role_relations h) true.
Definition replicate_new_or_updated_role (ws_id : string) (role : V1Role) (h : RoleHandler) (vd : V1Db) :
    result (V1Db * list ReplicationEvent) :=
  '(vd', h', events) ← generate_relations_and_mappings_for_role ws_id (set_role role h) vd;
  events' ← rh_replicate h' vd';
  mret (vd', events ++ events').

(** [replicate_deleted_role] *)
Definition replicate_deleted_role (h : RoleHandler) (vd : V1Db) : result (list ReplicationEvent) := rh_replicate h vd.

(* ------------------------------------------------------------------ *)
(** * The requests on custom roles *)

Definition put_v1_role (role : V1Role) : V1Db → V1Db := with_v1_roles (<[v1_id role := role]>).

(** [perform_create]: [role] is the row that the serializer saved. *)
Definition perform_create (ws_id : string) (role : V1Role) (vd : V1Db) : result (V1Db * list ReplicationEvent) :=
  let vd1 := put_v1_role role vd in
  handler ← role_handler_init role CREATE_CUSTOM_ROLE None vd1;
  match handler with
  | None => mret (vd1, [])
  | Some h => replicate_new_or_updated_role ws_id role (if decide (v1_access role = []) then set_expected_empty h else h) vd1
  end.

(** [perform_update]: from the row [instance] to the row [role]. *)
Definition perform_update (ws_id : string) (instance role : V1Role) (vd : V1Db) : result (V1Db * list ReplicationEvent) :=
  handler ← role_handler_init instance UPDATE_CUSTOM_ROLE None vd;
  match handler with
  | None => mret (put_v1_role role vd, [])
  | Some h => h' ← rh_prepare_for_update h vd;
              replicate_new_or_updated_role ws_id role h' (put_v1_role role vd)
  end.

(** [delete_policies_if_no_role_attached] *)
Definition delete_policies_if_no_role_attached (role : V1Role) : V1Db → V1Db :=
  with_policies (filter (λ kp, ¬ (v1_id role ∈ po_roles (snd kp) ∧ size (po_roles (snd kp)) = 1))).

(** [perform_destroy] *)
Definition perform_destroy (instance : V1Role) (vd : V1Db) : result (V1Db * list ReplicationEvent) :=
  public ← or_raise (DoesNotExist "Tenant")
    (head (select (λ t, String.eqb (tenant_name t) PUBLIC_TENANT_NAME) (db_tenants (v1_db vd))));
  _ ← raise_if (Z.eqb (v1_tenant instance) (t_id public)) (SerializerValidationError "role");
  handler ← role_handler_init instance DELETE_CUSTOM_ROLE None vd;
  let delete vd := delete_v1_role (v1_id instance) (delete_policies_if_no_role_attached instance vd) in
  match handler with
  | None => mret (delete vd, [])
  | Some h =>
      h' ← (if decide (v1_access instance = []) then mret (set_expected_empty h) else rh_prepare_for_update h vd);
      events ← replicate_deleted_role h' (delete vd);
      mret (delete vd, events)
  end.
End bindings.
End migration.

(* ------------------------------------------------------------------ *)
(** * What a role grants *)

Section grants.
Context `{Settings} `{PySetOrder} `{RowOrder}.

(** All the ids are workspaces of the tenant. *)
Definition in_tenant (d : Db) (tenant : Z) (ids : list string) : Prop :=
  ∀ i, i ∈ ids → ∃ k w, db_workspaces d !! k = Some w ∧ w_tenant w = tenant ∧ w_id w = i.

(** A value of a filter stands for the workspace it names, and null for the ungrouped
    workspace of the tenant. *)
Inductive value_grants (d : Db) (tenant : Z) : json → V2boundresource → Prop :=
| vg_workspace s : s ≠ "" → value_grants d tenant (JStr s) (mkBound "rbac" "workspace" s)
| vg_ungrouped k w : db_workspaces d !! k = Some w → w_tenant w = tenant → w_type w = UNGROUPED_HOSTS →
    value_grants d tenant JNull (mkBound "rbac" "workspace" (w_id w)).

(** A filter on group.id whose workspaces are all of the tenant stands for its values. *)
Definition filter_grants (d : Db) (tenant : Z) (attri_filter0 : list (string * json)) (r : V2boundresource) : Prop :=
  ∃ attri_filter ids vs v,
    repaired_filter attri_filter0 = Ok (Some attri_filter) ∧ assoc "key" attri_filter = Some (JStr "group.id")
    ∧ get_workspace_ids_from_resource_definition attri_filter = Ok ids ∧ in_tenant d tenant ids
    ∧ values_from_attribute_filter attri_filter = Ok vs ∧ v ∈ vs ∧ value_grants d tenant v r.

(** Roles of the external tenant ocm keep the default workspace only. *)
Definition ocm_allows (ocm : bool) (default_ws_id : option string) (r : V2boundresource) : Prop :=
  ocm = true → br_namespace r = "rbac" → br_name r = "workspace" → default_ws_id = Some (br_id r).

Definition access_grants (service : ImplicitResourceService) (resource_for_scope : Scope → result (gset V2boundresource))
    (d : Db) (role : V1Role) (a : Access) (r : V2boundresource) : Prop :=
  match ac_resource_definitions a with
  | [] => ∃ p scope R, db_permissions d !! ac_permission a = Some p ∧ scope_for_permission service (p_permission p) = Ok scope
                       ∧ resource_for_scope scope = Ok R ∧ r ∈ R
  | rds => ∃ f, f ∈ rds ∧ filter_grants d (v1_tenant role) f r
  end.

Definition default_of (role : V1Role) (d : Db) : option string :=
  match built_in_workspace d (v1_tenant role) DEFAULT_WS with Ok w => Some (w_id w) | Raise _ => None end.

Definition granted (service : ImplicitResourceService) (resource_for_scope : Scope → result (gset V2boundresource))
    (default_ws_id : option string) (d : Db) (role : V1Role) (p : Z) (r : V2boundresource) : Prop :=
  ocm_allows (is_ocm role) default_ws_id r
  ∧ ∃ a, a ∈ v1_access role ∧ ac_permission a = p ∧ access_grants service resource_for_scope d role a r.

(** What the groupings hold. *)
Definition holds (g : PermissionGroupings) (r : V2boundresource) (p : Z) : Prop := ∃ ps, (r, ps) ∈ g ∧ p ∈ ps.

Lemma holds_nil r p : holds [] r p ↔ False.
Proof. split; [|done]. by intros (ps & ?%elem_of_nil & _). Qed.

Lemma holds_cons k c g r p : holds ((k, c) :: g) r p ↔ (r = k ∧ p ∈ c) ∨ holds g r p.
Proof. unfold holds. setoid_rewrite elem_of_cons. naive_solver. Qed.

Lemma add_element_holds g k v r p : holds (add_element g k v) r p ↔ holds g r p ∨ (r = k ∧ p = v).
Proof.
  induction g as [|[k' c] g IH]; cbn [add_element].
  - rewrite holds_cons, holds_nil. set_solver.
  - case_decide as Hk; rewrite !holds_cons, ?IH; set_solver.
Qed.

Lemma add_element_keys g k v r : r ∈ map fst (add_element g k v) ↔ r ∈ map fst g ∨ r = k.
Proof. induction g as [|[k' c] g IH]; cbn [add_element]; [set_solver|]. case_decide; cbn; set_solver. Qed.

(** The dictionary keeps one entry for a resource, never an empty one. *)
Definition groupings_ok (g : PermissionGroupings) : Prop :=
  NoDup (map fst g) ∧ (∀ r ps, (r, ps) ∈ g → ps ≠ ∅ ∧ br_namespace r = "rbac").

Lemma add_element_ok g k v : br_namespace k = "rbac" → groupings_ok g → groupings_ok (add_element g k v).
Proof.
  intros Hk [Hnd Hne]. split.
  - clear Hne. induction g as [|[k' c] g IH]; cbn [add_element]; [constructor; [set_solver|constructor]|].
    cbn in Hnd. apply NoDup_cons in Hnd as [Hk' Hnd]. case_decide; cbn; apply NoDup_cons; [done|].
    split; [|by apply IH]. rewrite add_element_keys. naive_solver.
  - induction g as [|[k' c] g IH]; cbn [add_element]; intros r ps.
    + intros [= -> ->]%list_elem_of_singleton. split; [set_solver|done].
    + case_decide as E; intros [[= -> ->]|Hin]%elem_of_cons.
      * destruct (Hne k' c) as [_ Hn]; [by left|]. split; [set_solver|done].
      * apply Hne. by right.
      * apply Hne. by left.
      * apply IH; [by apply NoDup_cons in Hnd as [_ ?]| intros; apply Hne; by right|done].
Qed.

(** The workspaces gain at most the ungrouped one of the tenant. *)
Definition ungrouped_of (d : Db) (tenant : Z) (w : Workspace) : Prop :=
  (∃ k, db_workspaces d !! k = Some w) ∧ w_tenant w = tenant ∧ w_type w = UNGROUPED_HOSTS.
Definition grows (ws_id : string) (tenant : Z) (d d' : Db) : Prop :=
  d' = d ∨ (∀ w, ¬ ungrouped_of d tenant w) ∧
    ∃ w, d' = put_workspace w d ∧ w_id w = ws_id ∧ w_tenant w = tenant ∧ w_type w = UNGROUPED_HOSTS
         ∧ db_workspaces d !! ws_id = None.
Definition one_ungrouped (d : Db) (tenant : Z) : Prop :=
  ∀ w w', ungrouped_of d tenant w → ungrouped_of d tenant w' → w = w'.

Lemma lookup_put_workspace w d k x :
  db_workspaces d !! w_id w = None →
  db_workspaces (put_workspace w d) !! k = Some x ↔ (k = w_id w ∧ x = w) ∨ db_workspaces d !! k = Some x.
Proof. cbn. intros Hn. rewrite lookup_insert_Some. naive_solver. Qed.

Lemma grows_mono ws_id t d d' k w : grows ws_id t d d' → db_workspaces d !! k = Some w → db_workspaces d' !! k = Some w.
Proof.
  intros [-> |(_ & x & -> & Hid & _ & _ & Hn)] Hw; [done|]. apply lookup_put_workspace; [by rewrite Hid|by right].
Qed.

Lemma grows_one ws_id t d d' : grows ws_id t d d' → one_ungrouped d t → one_ungrouped d' t.
Proof.
  intros [-> |(Hno & x & -> & Hid & Hx & Hty & Hn)] Hone; [done|].
  assert (∀ y, ungrouped_of (put_workspace x d) t y → y = x) as Hy.
  { intros y ((k & Hk) & Hy). apply lookup_put_workspace in Hk as [[_ ->]|Hk]; [done| |by rewrite Hid].
    by destruct (Hno y); [split; [eauto|]|..]. }
  intros y y' ->%Hy ->%Hy. done.
Qed.

Lemma grows_trans ws_id t d1 d2 d3 : grows ws_id t d1 d2 → grows ws_id t d2 d3 → grows ws_id t d1 d3.
Proof.
  intros [-> |(Hno & x & -> & Hid & Hx & Hty & Hn)] [-> |(Hno' & y & -> & H')]; try (by left); [right; eauto|right; eauto 10|].
  destruct (Hno' x). split; [|done]. exists (w_id x). cbn. apply lookup_insert_eq.
Qed.

Lemma grows_permissions ws_id t d d' : grows ws_id t d d' → db_permissions d' = db_permissions d.
Proof. by intros [-> |(_ & x & -> & _)]. Qed.

(** The events keep the parent tuples in step, whatever else the store holds. *)
Definition parents_step (d d' : Db) (es : list ReplicationEvent) : Prop :=
  REPLICATION_TO_RELATION_ENABLED = true → ∀ X, replay (parents_graph d ∪ X) es = Ok (parents_graph d' ∪ X).

Lemma parents_step_nil d : parents_step d d [].
Proof. by intros _ X. Qed.

Lemma parents_step_app d1 d2 d3 es es' : parents_step d1 d2 es → parents_step d2 d3 es' → parents_step d1 d3 (es ++ es').
Proof.
  intros H1' H2' He X. unfold replay. rewrite foldM_app. specialize (H1' He X). unfold replay in H1'. rewrite H1'. cbn.
  by apply H2'.
Qed.

Lemma ungrouped_workspace_run ws_id t d d' w events :
  get_or_create_ungrouped_workspace ws_id t d = Ok (d', w, events) →
  grows ws_id t d d' ∧ ungrouped_of d' t w ∧ parents_step d d' events.
Proof.
  unfold get_or_create_ungrouped_workspace. intros (dw & _ & Hr)%bind_Ok.
  set (sel := select _ _) in Hr. assert (∀ x, x ∈ sel ↔ ungrouped_of d t x) as Hsel.
  { intros x. unfold sel. rewrite elem_of_select, andb_true_iff, Z.eqb_eq, bool_decide_eq_true. unfold ungrouped_of. tauto. }
  destruct sel as [|x sel'].
  - apply bind_Ok in Hr as (x & Hx & Hr). apply bind_Ok in Hr as ([es ws] & Hes & [= <- <- <-]).
    apply ws_full_clean_Ok in Hx as (Hx & _ & _ & _ & Hn). apply ws_clean_keeps in Hx as (Hid & _ & Hty & Htn & _ & Hpar & _).
    cbn in Hid, Hty, Htn, Hpar. specialize (Hn eq_refl). split_and!.
    + right. split; [intros y Hy%Hsel; by apply elem_of_nil in Hy|]. exists x. rewrite <- Hid. done.
    + split; [|by rewrite Htn, Hty]. exists (w_id x). cbn. apply lookup_insert_eq.
    + intros He X. destruct (replicate_new_effect _ _ _ _ _ _ He Hpar Hes) as [-> _].
      rewrite (parents_graph_put _ _ _ Hpar). f_equal. assert (parent_of d (w_id x) = None) as ->.
      { unfold parent_of. by rewrite Hn. }
      set_solver.
  - injection Hr as <- <- <-. split_and!; [by left|apply Hsel; by left|apply parents_step_nil].
Qed.

(** A part of the grouping that adds what [G] says, in the state it leaves and in any
    later one. *)
Section steps.
Variables (ws_id : string) (tenant : Z).

Record adds (G : Db → V2boundresource → Z → Prop) (g g' : Grouping) : Prop := {
  adds_grows : grows ws_id tenant (gr_db g) (gr_db g');
  adds_ok : groupings_ok (gr_perms g) → groupings_ok (gr_perms g');
  adds_holds r p : holds (gr_perms g') r p ↔ holds (gr_perms g) r p ∨ G (gr_db g') r p;
  adds_stable d r p : grows ws_id tenant (gr_db g') d → one_ungrouped d tenant → G (gr_db g') r p ↔ G d r p;
  adds_events : ∃ es, gr_events g' = gr_events g ++ es ∧ parents_step (gr_db g) (gr_db g') es;
}.

Lemma no_events g g' : gr_db g' = gr_db g → gr_events g' = gr_events g →
  ∃ es, gr_events g' = gr_events g ++ es ∧ parents_step (gr_db g) (gr_db g') es.
Proof. intros -> ->. exists []. split; [by rewrite app_nil_r|apply parents_step_nil]. Qed.

Lemma adds_nothing g : adds (λ _ _ _, False) g g.
Proof. split; [by left|done|naive_solver|done|by apply no_events]. Qed.

Lemma adds_ext G G' g g' :
  one_ungrouped (gr_db g) tenant →
  (∀ d r p, grows ws_id tenant (gr_db g') d → one_ungrouped d tenant → G d r p ↔ G' d r p) → adds G g g' → adds G' g g'.
Proof.
  intros Ho HG [H1' H2' H3' H4' H5']. pose proof (grows_one _ _ _ _ H1' Ho) as Ho'. split; [done|done| | |done].
  - intros r p. pose proof (HG (gr_db g') r p (or_introl eq_refl) Ho'). specialize (H3' r p). tauto.
  - intros d r p Hg Hd. pose proof (HG d r p Hg Hd). pose proof (HG (gr_db g') r p (or_introl eq_refl) Ho').
    specialize (H4' d r p Hg Hd). tauto.
Qed.

Lemma adds_trans G1 G2 g1 g2 g3 :
  one_ungrouped (gr_db g1) tenant → adds G1 g1 g2 → adds G2 g2 g3 → adds (λ d r p, G1 d r p ∨ G2 d r p) g1 g3.
Proof.
  intros Ho [A1 A2 A3 A4 (es & A5 & A6)] [B1 B2 B3 B4 (es' & B5 & B6)].
  assert (one_ungrouped (gr_db g3) tenant) as Ho3 by (eapply grows_one; [done|]; by eapply grows_one). split.
  - by eapply grows_trans.
  - auto.
  - intros r p. specialize (A3 r p). specialize (B3 r p). specialize (A4 (gr_db g3) r p B1 Ho3). tauto.
  - intros d r p Hg Hd. specialize (B4 d r p Hg Hd). pose proof (A4 (gr_db g3) r p B1 Ho3).
    specialize (A4 d r p (grows_trans _ _ _ _ _ B1 Hg) Hd). tauto.
  - exists (es ++ es'). split; [by rewrite B5, A5, app_assoc|by eapply parents_step_app].
Qed.

Lemma adds_foldM {X} (f : Grouping → X → result Grouping) (G : X → Db → V2boundresource → Z → Prop) l g g' :
  (∀ x g g', x ∈ l → one_ungrouped (gr_db g) tenant → f g x = Ok g' → adds (G x) g g') →
  one_ungrouped (gr_db g) tenant → foldM f g l = Ok g' → adds (λ d r p, ∃ x, x ∈ l ∧ G x d r p) g g'.
Proof.
  revert g. induction l as [|x l IH]; cbn [foldM]; intros g Hf Ho Hr.
  - injection Hr as <-. eapply adds_ext, adds_nothing; [done|]. intros. cbn. setoid_rewrite elem_of_nil. naive_solver.
  - apply bind_Ok in Hr as (g1 & Hx & Hr).
    assert (adds (G x) g g1) as A1 by (apply Hf; [by left|done|done]).
    assert (one_ungrouped (gr_db g1) tenant) as Ho1 by (eapply grows_one; [apply A1|done]).
    assert (adds (λ d r p, ∃ x, x ∈ l ∧ G x d r p) g1 g') as A2 by (apply IH; [intros; apply Hf; [by right|..]; done|done|done]).
    eapply adds_ext; [done| |by eapply adds_trans]. intros. cbn. setoid_rewrite elem_of_cons. naive_solver.
Qed.

Lemma mk_bound_Ok n m i r : mk_V2boundresource n m i = Ok r → r = mkBound n m i.
Proof. unfold mk_V2boundresource. case_match; [|done]. by intros [= <-]. Qed.

Section role.
Variables (role : V1Role) (ocm : bool) (dflt : option string).
Hypothesis Htenant : v1_tenant role = tenant.

Definition named (p : Z) (s : string) (r : V2boundresource) (q : Z) : Prop :=
  q = p ∧ ocm_allows ocm dflt r ∧ r = mkBound "rbac" "workspace" s.

Lemma add_named_adds p s g g' :
  (if ocm && bool_decide (("rbac", "workspace") = ("rbac", "workspace")) && negb (bool_decide (dflt = Some s)) then mret g
   else r ← mk_V2boundresource "rbac" "workspace" s;
        mret (mkGrouping (gr_db g) (gr_events g) (add_element (gr_perms g) r p))) = Ok g' →
  adds (λ _, named p s) g g'.
Proof.
  rewrite (bool_decide_true (("rbac", "workspace") = _)), andb_true_r by done.
  destruct (ocm && _) eqn:Ho; intros Hr.
  - injection Hr as <-. apply andb_true_iff in Ho as [Ho Hd]. apply negb_true_iff, bool_decide_eq_false in Hd.
    split; [by left|done|..|by apply no_events]; unfold named, ocm_allows; naive_solver.
  - apply bind_Ok in Hr as (r & ->%mk_bound_Ok & [= <-]). split; cbn; [by left|by apply add_element_ok| |done|by apply no_events].
    intros r q. rewrite add_element_holds. unfold named.
    assert (ocm_allows ocm dflt (mkBound "rbac" "workspace" s)); [|naive_solver].
    intros -> _ _. cbn in Ho. by apply negb_false_iff, bool_decide_eq_true in Ho.
Qed.

Definition value_adds (p : Z) (v : json) (d : Db) (r : V2boundresource) (q : Z) : Prop :=
  q = p ∧ ocm_allows ocm dflt r ∧ value_grants d tenant v r.

Lemma add_value_adds p v g g' :
  one_ungrouped (gr_db g) tenant → add_value ws_id role ocm dflt ("rbac", "workspace") p g v = Ok g' →
  adds (value_adds p v) g g'.
Proof.
  intros Ho. unfold add_value. cbn [fst snd].
  destruct v as [| | | |s| |].
  1: { rewrite bool_decide_true by done. cbn [negb raise_if]. intros (_ & _ & Hr)%bind_Ok.
       apply bind_Ok in Hr as ([[d' w] es] & (Hg & Hw & Hes)%ungrouped_workspace_run & Hr). rewrite Htenant in Hg, Hw.
       pose proof (add_named_adds _ _ _ _ Hr) as A. pose proof (adds_grows _ _ _ A) as HA. cbn in HA.
       eapply (adds_ext (λ d r q, False ∨ named p (w_id w) r q)); [done| |eapply adds_trans; [done| |exact A]].
       - intros d r q Hd Hone. unfold named, value_adds. assert (ungrouped_of d tenant w) as Hw'.
         { destruct Hw as ((k & Hk) & Hw). split; [|done]. exists k. by do 2 (eapply grows_mono; [done|]). }
         split; [|intros (-> & Hal & Hv); inversion Hv as [|k' w' Hk' Ht' Hu']; subst; right; split_and!; [done|done|]].
         + intros [[]|(-> & Hal & ->)]. destruct Hw' as ((k & Hk) & ? & ?). split_and!; [done|done|]. by econstructor.
         + by rewrite (Hone w w') by (done || by split; [eauto|]).
       - split; cbn; [done|done|naive_solver|done|by exists es]. }
  4: { destruct (String.eqb_spec s "") as [->|Hs]; intros Hr.
       - injection Hr as <-. eapply adds_ext, adds_nothing; [done|]. intros d r q _ _. split; [done|].
         intros (_ & _ & Hv). by inversion Hv.
       - apply add_named_adds in Hr. eapply adds_ext; [done| |exact Hr]. intros d r q _ _. unfold named, value_adds.
         split; [intros (-> & ? & ->); split_and!; [done|done|by constructor]|].
         intros (-> & ? & Hv). by inversion Hv; subst. }
  all: destruct (ocm && _); intros [= <-]; eapply adds_ext, adds_nothing; [done|]; intros ? ? ? _ _; split; [done|];
    intros (_ & _ & Hv); by inversion Hv.
Qed.

(** The requested ids that the freshness of a new workspace is about. *)
Definition filter_ids (f0 : list (string * json)) (ids : list string) : Prop :=
  ∃ f, repaired_filter f0 = Ok (Some f) ∧ get_workspace_ids_from_resource_definition f = Ok ids.

Lemma in_tenant_grows d d' ids :
  grows ws_id tenant d d' → ws_id ∉ ids → in_tenant d tenant ids ↔ in_tenant d' tenant ids.
Proof.
  intros Hg Hn. split; intros Hin i Hi; destruct (Hin i Hi) as (k & w & Hk & Hw & Hid).
  - exists k, w. split_and!; [by eapply grows_mono|done|done].
  - destruct Hg as [-> |(_ & x & -> & Hx & _ & _ & Hnone)]; [by exists k, w|].
    apply lookup_put_workspace in Hk as [[_ ->]|Hk]; [congruence|by exists k, w|by rewrite Hx].
Qed.

Lemma requested_in_tenant d ids :
  (list_to_set ids : gset string)
  = list_to_set (map w_id (select (λ w, Z.eqb (w_tenant w) tenant && bool_decide (w_id w ∈ (list_to_set ids : gset string)))
      (db_workspaces d))) ↔ in_tenant d tenant ids.
Proof.
  rewrite set_eq. setoid_rewrite elem_of_list_to_set. setoid_rewrite list_elem_of_fmap. setoid_rewrite elem_of_select.
  setoid_rewrite andb_true_iff. setoid_rewrite Z.eqb_eq. setoid_rewrite bool_decide_eq_true. setoid_rewrite elem_of_list_to_set.
  unfold in_tenant. split; [intros E i Hi; apply E in Hi as (w & -> & [Hw _] & k & Hk); eauto|].
  intros Hin i. split; [intros Hi; destruct (Hin i Hi) as (k & w & Hk & Hw & <-); eauto 10|naive_solver].
Qed.

Lemma add_resource_definition_adds p f0 g g' :
  one_ungrouped (gr_db g) tenant → (∀ ids, filter_ids f0 ids → ws_id ∉ ids) →
  add_resource_definition ws_id role ocm dflt p g f0 = Ok g' →
  adds (λ d r q, q = p ∧ ocm_allows ocm dflt r ∧ filter_grants d tenant f0 r) g g'.
Proof.
  intros Ho Hids. unfold add_resource_definition. intros (rep & Hrep & Hr)%bind_Ok.
  assert (∀ P : Db → V2boundresource → Z → Prop, (∀ d r q, grows ws_id tenant (gr_db g) d → ¬ P d r q) → g' = g → adds P g g') as Hskip.
  { intros P HP ->. eapply adds_ext, adds_nothing; [done|]. intros d r q Hd _. split; [done|by apply HP]. }
  destruct rep as [f|].
  2:{ injection Hr as <-. apply Hskip; [|done]. intros d r q _ (_ & _ & f & ids & vs & v & Hf & _). congruence. }
  apply bind_Ok in Hr as (key & Hkey%or_raise_Ok & Hr). apply bind_Ok in Hr as (ty & Hty & Hr).
  destruct ty as [ty|].
  2:{ injection Hr as <-. apply Hskip; [|done]. intros d r q _ (_ & _ & f' & ids & vs & v & Hf & Hk & _).
      assert (f' = f) as -> by congruence. rewrite Hkey in Hk. injection Hk as ->. by cbn in Hty. }
  assert (key = JStr "group.id" ∧ ty = ("rbac", "workspace")) as [-> ->].
  { destruct key; cbn in Hty; try done. destruct (String.eqb_spec s "group.id") as [->|]; [|done]. by injection Hty as <-. }
  apply bind_Ok in Hr as (skip & Hskip' & Hr). rewrite decide_True in Hskip' by done.
  apply bind_Ok in Hskip' as (ids & Hgi & [= <-]). assert (ws_id ∉ ids) as Hn by (apply Hids; by exists f).
  pose proof (requested_in_tenant (gr_db g) ids) as Hreq. cbn zeta in Hr. rewrite Htenant in Hr.
  destruct (bool_decide _) eqn:Hb in Hr; cbn [negb] in Hr.
  - apply bool_decide_eq_true, Hreq in Hb. apply bind_Ok in Hr as (vs & Hvs & Hr).
    assert (adds (λ d r q, ∃ v, v ∈ vs ∧ value_adds p v d r q) g g') as A.
    { eapply adds_foldM; [|done|exact Hr]. intros; by eapply add_value_adds. }
    eapply adds_ext; [done| |exact A]. intros d r q Hd _.
    assert (in_tenant d tenant ids) as Hin.
    { eapply (in_tenant_grows (gr_db g)); [|done|done]. eapply grows_trans; [apply A|done]. }
    unfold value_adds. split; [intros (v & Hv & -> & Hal & Hvg); split_and!; [done|done|]; by exists f, ids, vs, v|].
    intros (-> & Hal & f' & ids' & vs' & v & Hf & _ & _ & _ & Hvs' & Hv & Hvg).
    assert (f' = f) as -> by congruence. assert (vs' = vs) as -> by congruence. by exists v.
  - apply bool_decide_eq_false in Hb. rewrite Hreq in Hb. injection Hr as <-. apply Hskip; [|done].
    intros d r q Hd (_ & _ & f' & ids' & vs & v & Hf & Hk & Hids' & Hin & _).
    assert (f' = f) as -> by congruence. assert (ids' = ids) as -> by congruence. by apply Hb, (in_tenant_grows _ d).
Qed.

Section accesses.
Variables (service : ImplicitResourceService) (rfs : Scope → result (gset V2boundresource)).
Hypothesis Hrfs : ∀ s R r, rfs s = Ok R → r ∈ R → br_namespace r = "rbac".

Lemma add_resources_adds p l g :
  (∀ r, r ∈ l → br_namespace r = "rbac") →
  adds (λ _ r q, q = p ∧ ocm_allows ocm dflt r ∧ r ∈ l) g
    (foldl (λ g resolved,
      if ocm && String.eqb (br_namespace resolved) "rbac" && String.eqb (br_name resolved) "workspace"
         && negb (bool_decide (dflt = Some (br_id resolved)))
      then g else mkGrouping (gr_db g) (gr_events g) (add_element (gr_perms g) resolved p)) g l).
Proof.
  revert g. induction l as [|x l IH]; intros g Hl; cbn [foldl].
  { split; [by left|done| |done|by apply no_events]. intros r q. setoid_rewrite elem_of_nil. naive_solver. }
  match goal with |- adds _ _ (foldl _ ?x _) => set (g1 := x) end. destruct (IH g1) as [Hg Hok Hh _ (es & Hes & Hps)]; [intros; apply Hl; by right|].
  assert (gr_db g1 = gr_db g ∧ gr_events g1 = gr_events g) as [Hdb Hev] by (unfold g1; by case_match).
  split; [by rewrite <- Hdb|intros; apply Hok; unfold g1; case_match; [done|]; apply add_element_ok; [apply Hl; by left|done]| |done|exists es; by rewrite <- Hdb, <- Hev].
  intros r q. rewrite Hh. setoid_rewrite elem_of_cons.
  assert (holds (gr_perms g1) r q ↔ holds (gr_perms g) r q ∨ q = p ∧ ocm_allows ocm dflt r ∧ r = x) as ->; [|naive_solver].
  unfold g1. destruct (ocm && _ && _ && _) eqn:Hc.
  - apply andb_true_iff in Hc as [[[-> Hns%String.eqb_eq]%andb_true_iff Hn%String.eqb_eq]%andb_true_iff Hd].
    apply negb_true_iff, bool_decide_eq_false in Hd. unfold ocm_allows. naive_solver.
  - cbn. rewrite add_element_holds. assert (ocm_allows ocm dflt x); [|naive_solver].
    intros -> Hns Hn. rewrite Hns, Hn, !String.eqb_refl in Hc. by apply negb_false_iff, bool_decide_eq_true in Hc.
Qed.

Lemma group_access_adds a g g' :
  one_ungrouped (gr_db g) tenant → (∀ f ids, f ∈ ac_resource_definitions a → filter_ids f ids → ws_id ∉ ids) →
  group_access ws_id role ocm dflt service rfs g a = Ok g' →
  adds (λ d r q, q = ac_permission a ∧ ocm_allows ocm dflt r ∧ access_grants service rfs d role a r) g g'.
Proof.
  intros Ho Hids. unfold group_access, access_grants. intros (perm & Hperm%or_raise_Ok & Hr)%bind_Ok.
  destruct (ac_resource_definitions a) as [|f0 fs].
  - apply bind_Ok in Hr as (scope & Hsc & Hr). apply bind_Ok in Hr as (R & HR & [= <-]).
    assert (∀ r, r ∈ set_iter R → br_namespace r = "rbac") as Hns.
    { intros r ?%elem_of_set_iter. by eapply Hrfs. }
    pose proof (add_resources_adds (ac_permission a) (set_iter R) g Hns) as A. eapply adds_ext; [done| |exact A].
    intros d r q Hd _. setoid_rewrite elem_of_set_iter.
    assert (db_permissions d = db_permissions (gr_db g)) as ->.
    { eapply grows_permissions, grows_trans; [apply A|done]. }
    split; [intros (-> & ? & ?); split_and!; [done|done|]; by exists perm, scope, R|].
    intros (-> & ? & p' & s' & R' & Hp' & Hs' & HR' & Hin). assert (p' = perm) as -> by congruence.
    assert (s' = scope) as -> by congruence. assert (R' = R) as -> by congruence. done.
  - eapply adds_ext; [done| |eapply adds_foldM; [|done|exact Hr]].
    2:{ intros f g1 g1' Hf Ho1 Hr1. eapply add_resource_definition_adds; [done| |exact Hr1]. intros ids. by apply Hids. }
    intros d r q _ _. rewrite Htenant. cbn. naive_solver.
Qed.
End accesses.
End role.
End steps.

(** what the migration binds is exactly what the V1 role grants.  A permission is
    grouped under a resource if and only if some access of the role grants it there:
    an access without resource definitions at the resources of the permission's
    scope, an access with them at the workspaces that its group.id filters name, null
    standing for the ungrouped workspace, filters that name a workspace of another
    tenant standing for nothing.  Each resource comes once, with at least one
    permission, and the workspaces gain at most the ungrouped one, whose
    parent tuple is replicated at once. *)
Lemma group_permissions_run service rfs ws_id role d g
    (Hservice : from_settings = Ok service)
    (Hrfs : ∀ s R r, rfs s = Ok R → r ∈ R → br_namespace r = "rbac")
    (Hone : one_ungrouped d (v1_tenant role))
    (Hfresh : ∀ a f ids, a ∈ v1_access role → f ∈ ac_resource_definitions a → filter_ids f ids → ws_id ∉ ids)
    (Hg : group_permissions ws_id role rfs d = Ok g) :
  (∀ r p, holds (gr_perms g) r p ↔ granted service rfs (default_of role d) (gr_db g) role p r)
  ∧ groupings_ok (gr_perms g) ∧ grows ws_id (v1_tenant role) d (gr_db g) ∧ parents_step d (gr_db g) (gr_events g).
Proof.
  unfold group_permissions in Hg. rewrite Hservice in Hg. cbn [mbind result_bind] in Hg.
  apply bind_Ok in Hg as (dflt & Hd & Hg).
  assert (∀ r, ocm_allows (is_ocm role) dflt r ↔ ocm_allows (is_ocm role) (default_of role d) r) as Hdflt.
  { clear Hg. revert Hd. unfold ocm_allows, default_of. destruct (is_ocm role); [|done].
    destruct (built_in_workspace _ _ _) as [w|[]]; by intros [= <-]. }
  apply (adds_foldM ws_id (v1_tenant role) _
    (λ a d r q, q = ac_permission a ∧ ocm_allows (is_ocm role) dflt r ∧ access_grants service rfs d role a r)) in Hg as [Hgr Hok Hh _ (es & Hes & Hps)];
    [|intros; by eapply group_access_adds; eauto|done].
  cbn in Hgr, Hok, Hh. split_and!; [|apply Hok; split; [constructor|by intros ? ? ?%elem_of_nil]|done|by rewrite Hes].
  intros r p. rewrite Hh, holds_nil. unfold granted. setoid_rewrite Hdflt. naive_solver.
Qed.
End grants.
