(* ===== verification/RoleMigrationGraph.v ===== *)
(** What the migration of a custom role does to the tables, and that the event it
    emits does the same to the relation graph: the loop over the resources
    ([bind_resource]) keeps one V2 role for each set of permissions and one binding
    for each resource, and the requests on custom roles keep the graph of the V1 rows
    in step with the store. *)

From S2P Require Import Prelude.
From S2P Require Import PyString.
From S2P Require Import Config.
From S2P Require Import PyUuid.
From S2P Require Import RelationTypes.
From S2P Require Import TupleStore.
From S2P Require Import Permissions.
From S2P Require Import ScopeService.
From S2P Require Import Outbox.
From S2P Require Import Tenants.
From S2P Require Import Db.
From S2P Require Import BindingGraph.
From S2P Require Import RoleBindingService.
From S2P Require Import RoleScopes.
From S2P Require Import RoleV2Service.
From S2P Require Import Workspaces.
From S2P Require Import BindingMapping.
From S2P Require Import V1State.
From S2P Require Import RoleMigration.

(* ------------------------------------------------------------------ *)
(** * V2 roles *)

Section roles.
Context `{Settings} `{PySetOrder} `{RowOrder}.
Variable (role : V1Role).
Implicit Types (vd : V1Db) (r : RoleV2).

Abbreviation rid := (v1_id role).
Definition set_source (i : Z) : V1Db → V1Db := with_sources (<[i := rid]>).

Lemma set_source_id i vd : v1_sources vd !! i = Some rid → set_source i vd = vd.
Proof. intros Hi. destruct vd. unfold set_source, with_sources. cbn in *. by rewrite insert_id. Qed.

(** [_v2_custom_role_from_v1] writes one row, a new one or the one of the role that
    has the UUID, and the UUID stays unique. *)
Lemma v2_custom_role_run pk n target vd vd' r :
  role_keys vd → v2_custom_role_from_v1 pk role n target vd = Ok (vd', r) →
  r_uuid r = target ∧ r_type r = CUSTOM ∧ r_tenant r = v1_tenant role
  ∧ vd' = set_source (r_id r) (put_role r vd)
  ∧ (r_id r = pk ∨ ∃ old, db_roles (v1_db vd) !! r_id r = Some old ∧ r_uuid old = target ∧ v1_sources vd !! r_id r = Some rid)
  ∧ ∀ i s, db_roles (v1_db vd) !! i = Some s → r_uuid s = target → i = r_id r.
Proof.
  intros [Hid Hu]. unfold v2_custom_role_from_v1. cbv zeta.
  match goal with |- match ?x with _ => _ end = _ → _ => set (sel := x) end.
  assert (∀ s, s ∈ sel → r_type s = CUSTOM ∧ r_uuid s = target ∧ r_tenant s = v1_tenant role
                         ∧ v1_sources vd !! r_id s = Some rid ∧ db_roles (v1_db vd) !! r_id s = Some s) as Hsel.
  { intros s [Hs [i Hi]]%elem_of_select. rewrite !andb_true_iff, String.eqb_eq, Z.eqb_eq, !bool_decide_eq_true in Hs.
    pose proof (Hid i s Hi) as <-. tauto. }
  destruct sel as [|old [|]]; [intros (v1 & [-> Huq]%save_v2_role_Ok & [= <- <-])%bind_Ok|
    intros (v1 & [-> Huq]%save_v2_role_Ok & [= <- <-])%bind_Ok|done]; cbn in *.
  - split_and!; [done..|by left|]. intros i s Hs Ht. rewrite <- (Hid i s Hs). by eapply Huq.
  - destruct (Hsel old) as (Ht & Hu' & Htn & Hsrc & Hrow); [by left|]. split_and!; [done..| |right; by exists old|].
    + symmetry. by apply set_source_id.
    + intros i s Hs <-. rewrite <- (Hid i s Hs). eapply Huq; eauto.
Qed.

Variables (parse_uuid : string → result string) (gen : V2boundresource → fresh).
Variable (ex : gmap V2boundresource (Z * BindingMapping)).

(** What the loop knows about the V2 roles, from the state [vd1] it started in, with the
    resources [done] behind it. *)
Definition uuid_source (done : list V2boundresource) (u : string) : Prop :=
  ∃ res, res ∈ done ∧ (u = snd (f_role (gen res)) ∨ ∃ pk m, ex !! res = Some (pk, m) ∧ parse_uuid (vr_id (bm_role_value m)) = Ok u).

Record rinv (vd1 : V1Db) (done : list V2boundresource) (vd : V1Db) (rs : list (gset Z * RoleV2)) : Prop := {
  ri_keys : role_keys vd;
  ri_other_sources i s : s ≠ rid → v1_sources vd !! i = Some s ↔ v1_sources vd1 !! i = Some s;
  ri_kept i : v1_sources vd1 !! i = Some rid → v1_sources vd !! i = Some rid;
  ri_mine i : v1_sources vd !! i = Some rid → v1_sources vd1 !! i = Some rid ∨ i ∈ map (λ pr, r_id (snd pr)) rs;
  ri_other i : v1_sources vd !! i ≠ Some rid → db_roles (v1_db vd) !! i = db_roles (v1_db vd1) !! i;
  ri_rows i : is_Some (db_roles (v1_db vd) !! i) → is_Some (db_roles (v1_db vd1) !! i) ∨ ∃ res, res ∈ done ∧ i = fst (f_role (gen res));
  ri_role ps r : (ps, r) ∈ rs →
    r_permissions r = ps ∧ r_type r = CUSTOM ∧ r_tenant r = v1_tenant role ∧ db_roles (v1_db vd) !! r_id r = Some r
    ∧ v1_sources vd !! r_id r = Some rid ∧ uuid_source done (r_uuid r);
  ri_from ps r : (ps, r) ∈ rs → v1_sources vd1 !! r_id r = Some rid ∨ db_roles (v1_db vd1) !! r_id r = None;
  ri_ps : NoDup (map fst rs);
  ri_ids : NoDup (map (λ pr, r_id (snd pr)) rs);
}.

(** The keys that new rows may get are not in use. *)
Record fresh_roles (vd1 : V1Db) (all : list V2boundresource) : Prop := {
  fr_row res : res ∈ all → db_roles (v1_db vd1) !! fst (f_role (gen res)) = None;
  fr_source res : res ∈ all → v1_sources vd1 !! fst (f_role (gen res)) = None;
  fr_pk res res' : res ∈ all → res' ∈ all → fst (f_role (gen res)) = fst (f_role (gen res')) → res = res';
  fr_uuid res res' : res ∈ all → res' ∈ all → snd (f_role (gen res)) = snd (f_role (gen res')) → res = res';
  fr_stored res res' pk m : res ∈ all → ex !! res' = Some (pk, m) → vr_id (bm_role_value m) ≠ snd (f_role (gen res));
}.

Lemma rinv_init vd1 : role_keys vd1 → rinv vd1 [] vd1 [].
Proof. intros Hk. split; cbn; try done; try (by left); try (by constructor); try (by intros ? ? ?%elem_of_nil); eauto. Qed.

Lemma rinv_more vd1 done res vd rs : rinv vd1 done vd rs → rinv vd1 (done ++ [res]) vd rs.
Proof.
  intros [A B C D E F G K I J]. split; try done.
  - intros i [?|(x & Hx & ->)]%F; [by left|]. right. exists x. set_solver.
  - intros ps r (? & ? & ? & ? & ? & x & Hx & Hu)%G. split_and!; [done..|]. exists x. set_solver.
Qed.

Section step.
Variables (vd1 : V1Db) (all done : list V2boundresource) (res : V2boundresource) (vd : V1Db) (rs : list (gset Z * RoleV2)).
Hypotheses (Hf : fresh_roles vd1 all) (Hdone : done ⊆ all) (Hres : res ∈ all) (Hnew : res ∉ done) (Hri : rinv vd1 done vd rs).

Lemma fresh_pk_row : db_roles (v1_db vd) !! fst (f_role (gen res)) = None.
Proof.
  apply eq_None_not_Some. intros [Hs|(x & Hx & E)]%(ri_rows _ _ _ _ Hri).
  - rewrite (fr_row _ _ Hf res Hres) in Hs. by destruct Hs.
  - apply (fr_pk _ _ Hf) in E as ->; [done|done|by apply Hdone].
Qed.

Lemma fresh_pk_source s : v1_sources vd !! fst (f_role (gen res)) ≠ Some s.
Proof.
  intros Hs. destruct (decide (s = rid)) as [->|Hne].
  - apply (ri_mine _ _ _ _ Hri) in Hs as [Hs|Hin]; [by rewrite (fr_source _ _ Hf res Hres) in Hs|].
    apply list_elem_of_fmap in Hin as ([ps r] & E & Hin). apply (ri_role _ _ _ _ Hri) in Hin as (_ & _ & _ & Hr & _).
    cbn in E. by rewrite <- E, fresh_pk_row in Hr.
  - apply (ri_other_sources _ _ _ _ Hri) in Hs; [|done]. by rewrite (fr_source _ _ Hf res Hres) in Hs.
Qed.

Lemma rinv_step ps n target vd' r :
  ps ∉ map fst rs → (∀ pr, pr ∈ rs → r_uuid (snd pr) ≠ target) → uuid_source [res] target →
  v2_custom_role_from_v1 (fst (f_role (gen res))) role n target vd = Ok (vd', r) →
  let r' := set_permissions r ps in
  rinv vd1 (done ++ [res]) (put_role r' vd') (rs ++ [(ps, r')]).
Proof.
  intros Hps Hnt Hsrc Hrun r'. pose proof (ri_keys _ _ _ _ Hri) as Hk.
  apply v2_custom_role_run in Hrun as (Hu & Hty & Htn & -> & Hid & Huq); [|done].
  assert (∀ pr, pr ∈ rs → r_id (snd pr) ≠ r_id r) as Hids.
  { intros [qs q] Hin E. destruct (ri_role _ _ _ _ Hri _ _ Hin) as (_ & _ & _ & Hq & _). cbn in E. rewrite E in Hq.
    destruct Hid as [Hid|(old & Hold & Hou & _)]; [by rewrite Hid, fresh_pk_row in Hq|].
    rewrite Hold in Hq. injection Hq as ->. by apply (Hnt _ Hin). }
  assert (∀ i, db_roles (v1_db (put_role r' (set_source (r_id r) (put_role r vd)))) !! i
               = if decide (i = r_id r) then Some r' else db_roles (v1_db vd) !! i) as Hrows.
  { intros i. cbn. case_decide as E; [subst; apply lookup_insert_eq|]. by rewrite !lookup_insert_ne by done. }
  assert (∀ i, v1_sources (put_role r' (set_source (r_id r) (put_role r vd))) !! i
               = if decide (i = r_id r) then Some rid else v1_sources vd !! i) as Hsrcs.
  { intros i. cbn. case_decide as E; [subst; apply lookup_insert_eq|]. by rewrite lookup_insert_ne by done. }
  destruct (rinv_more vd1 _ res _ _ Hri) as [A B C D E F G K I J].
  assert (∀ s, v1_sources vd !! r_id r = Some s → s = rid) as Hrs.
  { intros s Hs. destruct Hid as [Hid|(old & _ & _ & Hsr)]; [|congruence]. rewrite Hid in Hs. by apply fresh_pk_source in Hs. }
  split.
  - apply role_keys_put; [apply (role_keys_put r); [done|]|]; cbn.
    + intros i s Hs E'. rewrite (proj1 Hk i s Hs). apply (Huq i s Hs). congruence.
    + intros i s [[<- <-]|[_ Hs]]%lookup_insert_Some E'; [done|]. rewrite (proj1 Hk i s Hs). apply (Huq i s Hs). congruence.
  - intros i s Hs. rewrite Hsrcs. case_decide as E'; [|by apply B]. subst i. rewrite <- B by done. naive_solver.
  - intros i Hi. rewrite Hsrcs. case_decide; [done|by apply C].
  - intros i. rewrite Hsrcs, map_app, elem_of_app. case_decide as E'; [subst i; right; right; by left|]. intros [?|?]%D; tauto.
  - intros i. rewrite Hsrcs, Hrows. case_decide; [done|by apply E].
  - intros i. rewrite Hrows. case_decide as E'; [subst i; intros _|by apply F].
    destruct Hid as [->|(old & Hold & _)]; [right; exists res; set_solver|]. apply F. by rewrite Hold.
  - intros qs q [Hin|[= -> ->]%list_elem_of_singleton]%elem_of_app.
    + destruct (G _ _ Hin) as (? & ? & ? & ? & ? & ?). pose proof (Hids _ Hin) as Hne. cbn in Hne.
      rewrite Hrows, Hsrcs, !decide_False by done. done.
    + rewrite Hrows, Hsrcs. cbn. rewrite !decide_True by done. split_and!; [done..|].
      rewrite Hu. destruct Hsrc as (x & ->%list_elem_of_singleton & Hx). exists res. set_solver.
  - intros qs q [Hin|[= -> ->]%list_elem_of_singleton]%elem_of_app; [by apply (K qs)|]. cbn.
    destruct Hid as [->|(old & _ & _ & Hsr)]; [right; by apply (fr_row _ _ Hf)|].
    apply D in Hsr as [?|(pr & E' & Hin)%list_elem_of_fmap]; [by left|]. by destruct (Hids pr Hin).
  - rewrite map_app. apply NoDup_app. split_and!; [done| |by apply NoDup_singleton]. cbn. set_solver.
  - rewrite map_app. apply NoDup_app. split_and!; [done| |by apply NoDup_singleton]. cbn.
    intros i (pr & -> & Hin)%list_elem_of_fmap E'%list_elem_of_singleton. by apply (Hids pr Hin).
Qed.
End step.
End roles.

(* ------------------------------------------------------------------ *)
(** * Bindings *)

(** The tables that the loop does not write. *)
Definition same_rest (vd1 vd : V1Db) : Prop :=
  let d1 := v1_db vd1 in let d := v1_db vd in
  vd = mkV1Db (mkDb (db_permissions d1) (db_roles d) (db_groups d1) (db_principals d1) (db_bindings d)
                 (db_group_entries d1) (db_principal_entries d1) (db_workspaces d1) (db_mappings d1) (db_tenants d1))
         (v1_roles vd1) (v1_policies vd1) (v1_sources vd) (v1_bm vd1) (v1_members vd1).

Lemma same_rest_refl vd : same_rest vd vd.
Proof. by destruct vd as [[]]. Qed.
Lemma same_rest_trans vd1 vd2 vd3 : same_rest vd1 vd2 → same_rest vd2 vd3 → same_rest vd1 vd3.
Proof. unfold same_rest. cbv zeta. intros E1 E2. rewrite E2 at 1. rewrite E1. reflexivity. Qed.
Lemma same_rest_put_role r vd : same_rest vd (put_role r vd).
Proof. by destruct vd as [[]]. Qed.
Lemma same_rest_put_binding b vd : same_rest vd (put_binding b vd).
Proof. by destruct vd as [[]]. Qed.
Lemma same_rest_set_source role i vd : same_rest vd (set_source role i vd).
Proof. by destruct vd as [[]]. Qed.

Definition binding_keys (vd : V1Db) : Prop :=
  (∀ i b, db_bindings (v1_db vd) !! i = Some b → b_id b = i)
  ∧ (∀ i j b c, db_bindings (v1_db vd) !! i = Some b → db_bindings (v1_db vd) !! j = Some c → b_uuid b = b_uuid c → i = j).

Lemma binding_keys_put b vd vd' : binding_keys vd → save_binding b vd = Ok vd' → binding_keys (put_binding b vd).
Proof.
  intros [Hid Hu] (_ & Hb & _)%save_binding_Ok. split; cbn.
  - intros i c [[<- <-]|[_ Hc]]%lookup_insert_Some; [done|by apply Hid].
  - intros i j c c' [[<- <-]|[Hi Hc]]%lookup_insert_Some [[<- <-]|[Hj Hc']]%lookup_insert_Some Heq; [done|..].
    + destruct (decide (b_id c' = b_id b)) as [E|E]; [by rewrite <- E, (Hid _ _ Hc')|]. by destruct (Hb j c' Hc' E).
    + destruct (decide (b_id c = b_id b)) as [E|E]; [by rewrite <- (Hid _ _ Hc)|]. by destruct (Hb i c Hc E).
    + by apply (Hu i j c c').
Qed.

Section bindings.
Context `{Settings} `{PySetOrder} `{RowOrder}.
Variables (gen : V2boundresource → fresh) (role : V1Role) (ex : gmap V2boundresource (Z * BindingMapping)).
Variable (group_uuids : list string).
Hypothesis Hex : ∀ res pk m, ex !! res = Some (pk, m) →
  res = mkBound (bm_namespace m) (bm_resource_type m) (bm_resource_id m) ∧ bm_role m = v1_id role.

(** The names of a set of permissions. *)
Definition permission_names (d : Db) (ps : gset Z) : gset string :=
  list_to_set (map (λ p, v2_string (p_parts p)) (permissions_of d ps)).

(** The UUID of the binding for a resource, and the mapping that stores it. *)
Definition binding_uuid (res : V2boundresource) : string :=
  match ex !! res with Some (_, m) => bm_id m | None => snd (f_binding (gen res)) end.
Definition mapping_for (d : Db) (res : V2boundresource) (r : RoleV2) : BindingMapping :=
  mkBindingMapping (binding_uuid res) (mkV2role (r_uuid r) false (permission_names d (r_permissions r))) group_uuids ∅
    (v1_id role) (Some (r_id r)) "rbac" (br_name res) (br_id res).
Definition binding_for (i : Z) (res : V2boundresource) (r : RoleV2) : RoleBinding :=
  mkRoleBinding i (binding_uuid res) (r_id r) (br_name res) (br_id res) (v1_tenant role).

Lemma migration_value_Ok d b r gs vb :
  r_type r = CUSTOM → binding_migration_value d b r gs = Ok vb →
  vb = mkV2rolebinding (b_uuid b) (mkV2role (r_uuid r) false (permission_names d (r_permissions r)))
         (mkBound "rbac" (b_resource_type b) (b_resource_id b)) gs ∅.
Proof.
  unfold binding_migration_value, role_migration_value. intros ->. cbn.
  by intros (rr & ->%mk_bound_Ok & [= <-])%bind_Ok.
Qed.

(** [_get_or_create_binding] writes the binding for the resource and returns the
    mapping for it. *)
Lemma get_or_create_binding_run r res vd vd' k m b :
  r_type r = CUSTOM → binding_keys vd → br_namespace res = "rbac" →
  get_or_create_binding (gen res) role r res (ex !! res) group_uuids vd = Ok (vd', (k, m), b) →
  k = fst <$> ex !! res ∧ m = mapping_for (v1_db vd) res r ∧ b = binding_for (b_id b) res r ∧ vd' = put_binding b vd
  ∧ binding_keys vd'
  ∧ (b_id b = fst (f_binding (gen res)) ∨ ∃ old, db_bindings (v1_db vd) !! b_id b = Some old ∧ b_uuid old = binding_uuid res).
Proof.
  intros Hty Hk Hns. unfold get_or_create_binding, binding_for, mapping_for, binding_uuid.
  intros (_ & _ & Hr)%bind_Ok. destruct (ex !! res) as [[pk m0]|] eqn:He.
  - apply bind_Ok in Hr as (value & Hv & Hr). apply bind_Ok in Hr as (b0 & Hb & Hr). apply bind_Ok in Hr as (vd0 & Hsave & Hr).
    apply bind_Ok in Hr as (vb & ->%migration_value_Ok & Hr); [|done]. apply bind_Ok in Hr as (m' & Hm & [= <- <- <- <-]).
    pose proof (binding_keys_put _ _ _ Hk Hsave) as Hk'. apply save_binding_Ok in Hsave as [-> _].
    unfold get_role_binding in Hv. apply bind_Ok in Hv as (r0 & _ & [= <-]). cbn in Hb.
    unfold update_mappings_from_role_binding in Hm. apply bind_Ok in Hm as (_ & _ & [= <-]).
    destruct (Hex _ _ _ He) as [-> Hrole]. cbn in *.
    match type of Hb with match ?x with _ => _ end = _ => set (sel := x) in Hb end.
    assert (∀ c, c ∈ sel → db_bindings (v1_db vd) !! b_id c = Some c ∧ b_uuid c = bm_id m0) as Hsel.
    { intros c [Hc' [i Hi]]%elem_of_select. apply andb_true_iff in Hc' as [_ Hc'%String.eqb_eq].
      by rewrite (proj1 Hk i c Hi). }
    destruct sel as [|old [|]]; [injection Hb as <-|injection Hb as <-|done]; cbn; rewrite Hrole, ?Hns in *; split_and!; try done.
    + by left.
    + right. exists old. apply Hsel. by left.
  - apply bind_Ok in Hr as (vd0 & Hsave & Hr). apply bind_Ok in Hr as (vb & ->%migration_value_Ok & [= <- <- <- <-]); [|done].
    pose proof (binding_keys_put _ _ _ Hk Hsave) as Hk'. apply save_binding_Ok in Hsave as [-> _]. cbn. split_and!; try done. by left.
Qed.

(** What the loop knows about the bindings. *)
Definition bound_ok (vd1 vd : V1Db) (rs : list (gset Z * RoleV2)) (rp : V2boundresource * gset Z)
    (x : option Z * BindingMapping * RoleBinding) : Prop :=
  ∃ r, (snd rp, r) ∈ rs ∧ x = (fst <$> ex !! fst rp, mapping_for (v1_db vd1) (fst rp) r, binding_for (b_id (snd x)) (fst rp) r)
       ∧ db_bindings (v1_db vd) !! b_id (snd x) = Some (snd x).

Record binv (vd1 : V1Db) (done : PermissionGroupings) (vd : V1Db) (rs : list (gset Z * RoleV2))
    (bs : list (option Z * BindingMapping * RoleBinding)) : Prop := {
  bi_rest : same_rest vd1 vd;
  bi_keys : binding_keys vd;
  bi_bound : Forall2 (bound_ok vd1 vd rs) done bs;
  bi_rows i b : db_bindings (v1_db vd) !! i = Some b → db_bindings (v1_db vd1) !! i = Some b ∨ b ∈ map snd bs;
  bi_kept i b : db_bindings (v1_db vd1) !! i = Some b → i ∉ map (λ x, b_id (snd x)) bs → db_bindings (v1_db vd) !! i = Some b;
  bi_new i : is_Some (db_bindings (v1_db vd) !! i) →
    is_Some (db_bindings (v1_db vd1) !! i) ∨ ∃ rp, rp ∈ done ∧ i = fst (f_binding (gen (fst rp)));
  bi_ids : NoDup (map (λ x, b_id (snd x)) bs);
  bi_same i b0 : i ∈ map (λ x, b_id (snd x)) bs → db_bindings (v1_db vd1) !! i = Some b0 →
    ∃ rp, rp ∈ done ∧ b_uuid b0 = binding_uuid (fst rp);
}.

Record fresh_bindings (vd1 : V1Db) (all : list V2boundresource) : Prop := {
  fb_row res : res ∈ all → db_bindings (v1_db vd1) !! fst (f_binding (gen res)) = None;
  fb_pk res res' : res ∈ all → res' ∈ all → fst (f_binding (gen res)) = fst (f_binding (gen res')) → res = res';
  fb_uuid res res' : res ∈ all → res' ∈ all → binding_uuid res = binding_uuid res' → res = res';
}.

Lemma permission_names_rest vd1 vd ps : same_rest vd1 vd → permission_names (v1_db vd) ps = permission_names (v1_db vd1) ps.
Proof. unfold same_rest. intros E. by rewrite E. Qed.

Lemma binv_init vd1 : binding_keys vd1 → binv vd1 [] vd1 [] [].
Proof.
  intros Hk. split; cbn; try done; try apply same_rest_refl; try apply NoDup_nil_2; try (by intros ? ? ?%elem_of_nil); intros; by left.
Qed.

(** A step that leaves the bindings alone and may add roles. *)
Lemma binv_roles vd1 done vd vd' rs rs' bs :
  binv vd1 done vd rs bs → same_rest vd vd' → db_bindings (v1_db vd') = db_bindings (v1_db vd) → rs ⊆ rs' → binv vd1 done vd' rs' bs.
Proof.
  intros [A B C D E F G K] Hr Hb Hrs. split; rewrite ?Hb; try done.
  - by eapply same_rest_trans.
  - by unfold binding_keys in *; rewrite Hb.
  - eapply Forall2_impl; [done|]. intros rp x (r & Hin & Hx & Hb'). exists r. rewrite Hb. auto.
Qed.

Lemma binv_step vd1 all done res ps vd rs bs r vd' k m b :
  fresh_bindings vd1 all → map fst done ⊆ all → res ∈ all → res ∉ map fst done → br_namespace res = "rbac" →
  binv vd1 done vd rs bs → (ps, r) ∈ rs → r_type r = CUSTOM →
  get_or_create_binding (gen res) role r res (ex !! res) group_uuids vd = Ok (vd', (k, m), b) →
  binv vd1 (done ++ [(res, ps)]) vd' rs (bs ++ [(k, m, b)]).
Proof.
  intros Hf Hdone Hres Hnew Hns [A B C D E F G K] Hr Hty Hrun.
  apply get_or_create_binding_run in Hrun as (-> & -> & Hb & -> & Hk' & Hid); [|done..].
  assert (db_bindings (v1_db vd) !! fst (f_binding (gen res)) = None) as Hfree.
  { apply eq_None_not_Some. intros [Hs|(rp & Hin & E')]%F.
    - rewrite (fb_row _ _ Hf res Hres) in Hs. by destruct Hs.
    - apply Hnew, list_elem_of_fmap. exists rp. split; [|done]. apply (fb_pk _ _ Hf); [done| |done].
      apply Hdone, list_elem_of_fmap. eauto. }
  assert (∀ x, x ∈ bs → b_id (snd x) ≠ b_id b) as Hne.
  { intros x Hx E'. apply (Forall2_elem_r _ _ _ x C) in Hx as ([res' ps'] & Hin & r' & _ & Hx & Hrow). cbn in Hx.
    rewrite E' in Hrow. destruct Hid as [Hid|(old & Hold & Hou)]; [by rewrite Hid, Hfree in Hrow|].
    rewrite Hold in Hrow. injection Hrow as ->. rewrite Hx in Hou. cbn in Hou.
    assert (res' ∈ map fst done) as Hin' by (apply list_elem_of_fmap; by exists (res', ps')).
    apply (fb_uuid _ _ Hf) in Hou as ->; [done|by apply Hdone|done]. }
  split.
  - eapply same_rest_trans; [done|apply same_rest_put_binding].
  - done.
  - apply Forall2_app; [|constructor; [|constructor]].
    + eapply Forall2_impl_r; [exact C|]. intros rp x Hx (r' & Hin & Hx' & Hrow). exists r'. split_and!; [done..|].
      cbn. rewrite lookup_insert_ne; [done|]. intros E'. by apply (Hne x Hx).
    + exists r. cbn. rewrite lookup_insert_eq. split_and!; [done| |done].
      f_equal; [|exact Hb]. f_equal. unfold mapping_for. by rewrite (permission_names_rest vd1 vd) by done.
  - intros i c. cbn. rewrite map_app, elem_of_app. cbn.
    intros [[<- <-]|[_ [?|?]%D]]%lookup_insert_Some; [right; right; by left|by left|tauto].
  - intros i c Hi. rewrite map_app, elem_of_app. cbn. intros Hn. rewrite lookup_insert_ne; [apply E; tauto|].
    intros <-. apply Hn. right. by left.
  - intros i. cbn. intros [c [[<- <-]|[_ Hc]]%lookup_insert_Some].
    + destruct Hid as [->|(old & Hold & _)]; [right; exists (res, ps); set_solver|].
      destruct (F (b_id b)) as [?|(rp & Hin & ->)]; [by rewrite Hold|by left|right; exists rp; set_solver].
    + destruct (F i) as [?|(rp & Hin & ->)]; [by rewrite Hc|by left|right; exists rp; set_solver].
  - rewrite map_app. apply NoDup_app. split_and!; [done| |by apply NoDup_singleton].
    intros i (x & -> & Hin)%list_elem_of_fmap E'%list_elem_of_singleton. by apply (Hne x Hin).
  - intros i b0. rewrite map_app, elem_of_app. cbn. intros [Hi| ->%list_elem_of_singleton] Hb0.
    + destruct (K i b0 Hi Hb0) as (rp & Hin & Hu). exists rp. split; [set_solver|done].
    + exists (res, ps). split; [set_solver|]. cbn. destruct Hid as [Hid|(old & Hold & Hou)].
      { by rewrite Hid, (fb_row _ _ Hf res Hres) in Hb0. }
      destruct (D _ _ Hold) as [Ho|(x & -> & Hx)%list_elem_of_fmap]; [congruence|].
      apply (Forall2_elem_r _ _ _ x C) in Hx as Hx'. destruct Hx' as (rp & _ & r' & _ & _ & Hrow).
      rewrite <- (proj1 B _ _ Hold) in Hne. by destruct (Hne x Hx).
Qed.
End bindings.

(* ------------------------------------------------------------------ *)
(** * The loop over the resources *)

Section loop.
Context `{Settings} `{PySetOrder} `{RowOrder}.
Variables (parse_uuid : string → result string) (gen : V2boundresource → fresh).
Variables (role : V1Role) (ex : gmap V2boundresource (Z * BindingMapping)) (group_uuids : list string).
Hypothesis Hex : ∀ res pk m, ex !! res = Some (pk, m) →
  res = mkBound (bm_namespace m) (bm_resource_type m) (bm_resource_id m) ∧ bm_role m = v1_id role.
Hypothesis Hparse : ∀ res pk m u, ex !! res = Some (pk, m) → parse_uuid (vr_id (bm_role_value m)) = Ok u → u = vr_id (bm_role_value m).

Lemma target_role_uuid_Ok new ev latest t :
  target_role_uuid_for parse_uuid new ev latest = Ok t →
  t = new ∨ ∃ vb, ev = Some vb ∧ parse_uuid (vr_id (vb_role vb)) = Ok t ∧ ∀ r, r ∈ latest → r_uuid r ≠ vr_id (vb_role vb).
Proof.
  unfold target_role_uuid_for. destruct ev as [vb|]; [|intros [= <-]; by left].
  destruct (existsb _ _) eqn:He; [intros [= <-]; by left|]. intros Ht. right. exists vb. split_and!; [done..|].
  intros r Hr E. rewrite existsb_false in He. specialize (He r Hr). by rewrite E, String.eqb_refl in He.
Qed.

Record linv (vd1 : V1Db) (done : PermissionGroupings) (l : Latest) : Prop := {
  li_roles : rinv role parse_uuid gen ex vd1 (map fst done) (lt_vd l) (lt_roles l);
  li_bindings : binv gen role ex group_uuids vd1 done (lt_vd l) (lt_roles l) (lt_bindings l);
}.

Section choice.
Variables (vd1 : V1Db) (all : list V2boundresource) (done : PermissionGroupings) (res : V2boundresource) (l : Latest).
Hypotheses (Hfr : fresh_roles gen ex vd1 all) (Hdone : map fst done ⊆ all) (Hres : res ∈ all) (Hnew : res ∉ map fst done).
Hypothesis (Hl : linv vd1 done l).

(** The UUID chosen for a new V2 role is not one of a role of this run. *)
Lemma target_unused ev target :
  match ex !! res with Some (_, m) => vb ← get_role_binding m; mret (Some vb) | None => mret None end = Ok ev →
  target_role_uuid_for parse_uuid (snd (f_role (gen res))) ev (map snd (lt_roles l)) = Ok target →
  uuid_source parse_uuid gen ex [res] target ∧ ∀ pr, pr ∈ lt_roles l → r_uuid (snd pr) ≠ target.
Proof.
  intros Hev [-> |(vb & -> & Hp & Hu)]%target_role_uuid_Ok.
  - split; [exists res; split; [by left|by left]|]. intros [ps r] Hin E.
    destruct (ri_role _ _ _ _ _ _ _ _ (li_roles _ _ _ Hl) _ _ Hin) as (_ & _ & _ & _ & _ & x & Hx & [Hu|(pk & m & Hm & Hu)]);
      cbn in E; rewrite E in Hu.
    + apply (fr_uuid _ _ _ _ Hfr) in Hu as ->; [done|done|by apply Hdone].
    + pose proof (Hparse _ _ _ _ Hm Hu) as E'. by apply (fr_stored _ _ _ _ Hfr res x pk m).
  - destruct (ex !! res) as [[pk m]|] eqn:He; [|done].
    apply bind_Ok in Hev as (vb' & (rr & _ & [= <-])%bind_Ok & [= <-]). cbn in Hp, Hu.
    split; [exists res; split; [by left|right; eauto]|]. intros pr Hin.
    rewrite (Hparse _ _ _ _ He Hp). apply Hu, list_elem_of_fmap. eauto.
Qed.

(** The first half of the body: the V2 role with the permissions. *)
Lemma choose_role ps vd rs r :
  match list_find (λ pr, fst pr = ps) (lt_roles l) with
  | Some (_, (_, r)) => mret (lt_vd l, lt_roles l, r)
  | None =>
      existing_value ← match ex !! res with Some (_, m) => vb ← get_role_binding m; mret (Some vb) | None => mret None end;
      target ← target_role_uuid_for parse_uuid (snd (f_role (gen res))) existing_value (map snd (lt_roles l));
      '(vd, r) ← v2_custom_role_from_v1 (fst (f_role (gen res))) role (length (lt_roles l) + 1) target (lt_vd l);
      let r' := set_permissions r ps in
      mret (with_db (with_roles (<[r_id r' := r']>)) vd, lt_roles l ++ [(ps, r')], r')
  end = Ok (vd, rs, r) →
  rinv role parse_uuid gen ex vd1 (map fst done ++ [res]) vd rs ∧ binv gen role ex group_uuids vd1 done vd rs (lt_bindings l)
  ∧ (ps, r) ∈ rs.
Proof.
  pose proof (li_roles _ _ _ Hl) as Hri. pose proof (li_bindings _ _ _ Hl) as Hbi. intros Hrole.
  destruct (list_find _ _) as [[i [ps' r0]]|] eqn:Hfind.
  - injection Hrole as <- <- <-. apply list_find_Some in Hfind as (Hi & E & _). cbn in E. subst ps'.
    split_and!; [by apply rinv_more|done|]. by eapply list_elem_of_lookup_2.
  - apply list_find_None in Hfind. rewrite Forall_forall in Hfind.
    apply bind_Ok in Hrole as (ev & Hev & Hrole). apply bind_Ok in Hrole as (target & Ht & Hrole).
    apply bind_Ok in Hrole as ([vd0 r0] & Hc & [= <- <- <-]). destruct (target_unused _ _ Hev Ht) as [Hsrc Hnt].
    assert (ps ∉ map fst (lt_roles l)) as Hps by (intros ([ps' x] & -> & Hin)%list_elem_of_fmap; by apply (Hfind _ Hin)).
    split_and!; [exact (rinv_step _ _ _ _ _ _ _ _ _ _ Hfr Hdone Hres Hnew Hri ps _ _ _ _ Hps Hnt Hsrc Hc)| |set_solver].
    apply v2_custom_role_run in Hc as (_ & _ & _ & -> & _); [|by eapply ri_keys].
    eapply binv_roles; [done| |done|set_solver].
    exact (same_rest_trans _ _ _ (same_rest_put_role r0 _) (same_rest_trans _ _ _ (same_rest_set_source role (r_id r0) _)
      (same_rest_put_role (set_permissions r0 ps) _))).
Qed.
End choice.

Lemma rinv_binding vd1 done vd rs b :
  rinv role parse_uuid gen ex vd1 done vd rs → rinv role parse_uuid gen ex vd1 done (put_binding b vd) rs.
Proof. intros [A B C D E F G K I J]. by split. Qed.

Lemma bind_resource_step vd1 all done res ps l l' :
  fresh_roles gen ex vd1 all → fresh_bindings gen ex vd1 all → map fst done ⊆ all → res ∈ all → res ∉ map fst done →
  br_namespace res = "rbac" → linv vd1 done l → bind_resource parse_uuid gen role ex group_uuids l (res, ps) = Ok l' →
  linv vd1 (done ++ [(res, ps)]) l'.
Proof.
  intros Hfr Hfb Hdone Hres Hnew Hns Hl Hrun. unfold bind_resource in Hrun.
  apply bind_Ok in Hrun as ([[vd rs] r] & Hrole & Hrun). apply bind_Ok in Hrun as ([[vd' [k m]] b] & Hbind & [= <-]).
  destruct (choose_role _ _ _ _ _ Hfr Hdone Hres Hnew Hl _ _ _ _ Hrole) as (Hri & Hbi & Hin).
  assert (r_type r = CUSTOM) as Hty by (by destruct (ri_role _ _ _ _ _ _ _ _ Hri _ _ Hin) as (_ & ? & _)).
  split; cbn; [rewrite map_app; cbn|by eapply binv_step].
  apply get_or_create_binding_run in Hbind as (_ & _ & _ & -> & _); [|done|done|by eapply bi_keys|done]. by apply rinv_binding.
Qed.

Lemma bind_resources vd1 g l :
  fresh_roles gen ex vd1 (map fst g) → fresh_bindings gen ex vd1 (map fst g) → groupings_ok g → role_keys vd1 → binding_keys vd1 →
  foldM (bind_resource parse_uuid gen role ex group_uuids) (mkLatest vd1 [] []) g = Ok l → linv vd1 g l.
Proof.
  intros Hfr Hfb [Hnd Hok] Hrk Hbk.
  assert (∀ rest done l0, g = done ++ rest → linv vd1 done l0 →
    foldM (bind_resource parse_uuid gen role ex group_uuids) l0 rest = Ok l → linv vd1 g l) as Hgen.
  { intros rest. induction rest as [|[res ps] rest IH]; cbn [foldM]; intros done l0 Hg Hl Hr.
    { injection Hr as <-. by rewrite Hg, app_nil_r. }
    apply bind_Ok in Hr as (l1 & Hb & Hr). apply (IH (done ++ [(res, ps)]) l1); [by rewrite Hg, <- app_assoc| |done].
    rewrite Hg, map_app in Hnd. apply NoDup_app in Hnd as (_ & Hnd & _). cbn in Hnd.
    eapply bind_resource_step; [done|done|..| |done|done].
    - rewrite Hg, map_app. set_solver.
    - rewrite Hg, map_app. set_solver.
    - intros Hin. apply (Hnd _ Hin). by left.
    - apply (Hok res ps). rewrite Hg. set_solver. }
  intros Hr. eapply (Hgen g []); [done| |done]. split; [by apply rinv_init|by apply binv_init].
Qed.
End loop.

(* ------------------------------------------------------------------ *)
(** * The migration of a role *)

(** Renaming roles changes no other column. *)
Definition role_key (r : RoleV2) : Z * string * RoleType * Z * gset Z :=
  (r_id r, r_uuid r, r_type r, r_tenant r, r_permissions r).

Record renamed (ids : list Z) (d d1 : Db) : Prop := {
  rn_rest : d1 = with_roles (λ _, db_roles d1) d;
  rn_other i : i ∉ ids → db_roles d1 !! i = db_roles d !! i;
  rn_keys i : role_key <$> db_roles d1 !! i = role_key <$> db_roles d !! i;
}.

Lemma rename_roles rows d d1 :
  (∀ r, r ∈ rows → db_roles d !! r_id r = Some r) → foldM rename_role d rows = Ok d1 → renamed (map r_id rows) d d1.
Proof.
  intros Hrows Hr.
  assert (∀ l d0, renamed (map r_id rows) d d0 → l ⊆ rows → foldM rename_role d0 l = Ok d1 → renamed (map r_id rows) d d1) as Hgen.
  { intros l. induction l as [|r l IH]; intros d0 Hn Hl Hf; cbn [foldM] in Hf; [by injection Hf as <-|].
    apply bind_Ok in Hf as (d2 & Hd2 & Hf). apply (IH d2); [|set_solver|done].
    apply bind_Ok in Hd2 as (_ & _ & [= <-]). assert (r ∈ rows) as Hin by set_solver. destruct Hn as [A B C]. split.
    - cbn. rewrite A. done.
    - intros i Hi. cbn. rewrite lookup_insert_ne; [by apply B|]. intros <-. apply Hi, list_elem_of_fmap. eauto.
    - intros i. cbn. destruct (decide (i = r_id r)) as [->|Hne]; [|by rewrite lookup_insert_ne].
      by rewrite lookup_insert_eq, (Hrows r Hin). }
  apply (Hgen rows d); [split; [by destruct d|done|done]|set_solver|done].
Qed.

Section migration.
Context `{Settings} `{PySetOrder} `{RowOrder}.
Implicit Types (vd : V1Db) (role : V1Role).

(** The rows of a role before the migration. *)
Lemma elem_of_role_mappings vd rid pk m :
  (pk, m) ∈ role_mappings vd rid ↔ v1_bm vd !! pk = Some m ∧ bm_role m = rid.
Proof.
  unfold role_mappings. rewrite list_elem_of_In, filter_In, <- list_elem_of_In, (row_order_perm _ _ _), elem_of_map_to_list.
  cbn. by rewrite Z.eqb_eq.
Qed.

Lemma elem_of_v2_roles vd rid r :
  role_keys vd → r ∈ v2_roles_of vd rid ↔ db_roles (v1_db vd) !! r_id r = Some r ∧ v1_sources vd !! r_id r = Some rid.
Proof.
  intros [Hid _]. unfold v2_roles_of. rewrite elem_of_select, bool_decide_eq_true. split.
  - intros [Hs [i Hi]]. pose proof (Hid i r Hi). by subst i.
  - intros [Hr Hs]. eauto.
Qed.

(** The integrity of the V1 rows. *)
Record v1_wf (vd : V1Db) : Prop := {
  vw_roles : role_keys vd;
  vw_bindings : binding_keys vd;
  vw_source i s : v1_sources vd !! i = Some s → is_Some (db_roles (v1_db vd) !! i);
  vw_bm_id i j m n : v1_bm vd !! i = Some m → v1_bm vd !! j = Some n → bm_id m = bm_id n → i = j;
  vw_bm_role i j m n : v1_bm vd !! i = Some m → v1_bm vd !! j = Some n →
    vr_id (bm_role_value m) = vr_id (bm_role_value n) → bm_role m = bm_role n;
  vw_custom i r s : db_roles (v1_db vd) !! i = Some r → v1_sources vd !! i = Some s → r_type r = CUSTOM →
    ∃ pk m, v1_bm vd !! pk = Some m ∧ bm_role m = s;
}.

(** ** The part of the graph that belongs to one role *)

Lemma elem_of_mapping_tuples m t :
  t ∈ mapping_tuples m ↔
  t = vt_role (bm_id m) (vr_id (bm_role_value m))
  ∨ (∃ p, p ∈ vr_permissions (bm_role_value m) ∧ t = vt_perm (vr_id (bm_role_value m)) p)
  ∨ t = vt_resource (bm_namespace m) (bm_resource_type m) (bm_resource_id m) (bm_id m)
  ∨ (∃ g, g ∈ bm_groups m ∧ t = vt_group (bm_id m) g)
  ∨ (∃ u, u ∈ user_values (bm_users m) ∧ t = vt_user (bm_id m) u).
Proof.
  unfold mapping_tuples, frame_tuples, subject_tuples.
  rewrite !elem_of_union, !elem_of_singleton, !elem_of_list_to_set, !list_elem_of_fmap. setoid_rewrite elem_of_elements. naive_solver.
Qed.

Lemma mapping_tuples_shared m m' t :
  t ∈ mapping_tuples m → t ∈ mapping_tuples m' →
  bm_id m = bm_id m' ∨ vr_id (bm_role_value m) = vr_id (bm_role_value m').
Proof.
  rewrite !elem_of_mapping_tuples.
  intros [-> |[(p & _ & ->)|[-> |[(x & _ & ->)|(x & _ & ->)]]]] [E|[(q & _ & E)|[E|[(y & _ & E)|(y & _ & E)]]]];
    unfold vt_role, vt_perm, vt_resource, vt_group, vt_user, rel_tuple in E; injection E; intros; tauto || congruence.
Qed.

Lemma mapping_tuples_owner m r rid : t_owner r rid ∉ mapping_tuples m.
Proof.
  rewrite elem_of_mapping_tuples. intros [E|[(p & _ & E)|[E|[(x & _ & E)|(x & _ & E)]]]];
    unfold t_owner, vt_role, vt_perm, vt_resource, vt_group, vt_user, rel_tuple in E; injection E; intros; congruence.
Qed.

Definition others (vd : V1Db) (rid : Z) (t : RelationTuple) : Prop :=
  (∃ pk m, v1_bm vd !! pk = Some m ∧ bm_role m ≠ rid ∧ t ∈ mapping_tuples m)
  ∨ (∃ i r s, db_roles (v1_db vd) !! i = Some r ∧ r_type r = CUSTOM ∧ v1_sources vd !! i = Some s ∧ s ≠ rid ∧ t ∈ owner_tuples vd r).
Definition mine (vd : V1Db) (rid : Z) (t : RelationTuple) : Prop :=
  (∃ pk m, v1_bm vd !! pk = Some m ∧ bm_role m = rid ∧ t ∈ mapping_tuples m)
  ∨ (∃ i r, db_roles (v1_db vd) !! i = Some r ∧ v1_sources vd !! i = Some rid ∧ t ∈ owner_tuples vd r).

Lemma graph_split vd rid t :
  v1_wf vd →
  t ∈ v1_graph vd ↔ others vd rid t ∨
    (∃ pk m, v1_bm vd !! pk = Some m ∧ bm_role m = rid ∧ t ∈ mapping_tuples m)
    ∨ (∃ i r, db_roles (v1_db vd) !! i = Some r ∧ r_type r = CUSTOM ∧ v1_sources vd !! i = Some rid ∧ t ∈ owner_tuples vd r).
Proof.
  intros Hwf. unfold v1_graph, others. rewrite elem_of_union, elem_of_mappings_graph, elem_of_owners_graph.
  setoid_rewrite sourced_spec. split.
  - intros [(pk & m & Hb & Ht)|(i & r & Hr & (Hty & s & Hs) & Ht)].
    + destruct (decide (bm_role m = rid)); naive_solver.
    + rewrite (proj1 (vw_roles _ Hwf) i r Hr) in Hs. destruct (decide (s = rid)) as [->|]; naive_solver.
  - assert (∀ i r, db_roles (v1_db vd) !! i = Some r → r_id r = i) as Hid by apply Hwf.
    intros [[(pk & m & Hb & _ & Ht)|(i & r & s & Hr & Hty & Hs & _ & Ht)]|[(pk & m & Hb & _ & Ht)|(i & r & Hr & Hty & Hs & Ht)]];
      [left; eauto|right|left; eauto|right]; exists i, r; rewrite (Hid i r Hr); eauto 10.
Qed.

Lemma mine_not_others vd rid t : v1_wf vd → mine vd rid t → others vd rid t → False.
Proof.
  intros Hwf [(pk & m & Hb & Hr & Ht)|(i & r & Hrow & Hs & Ht)] [(pk' & m' & Hb' & Hr' & Ht')|(j & r' & s' & Hrow' & _ & Hs' & Hne & Ht')].
  - destruct (mapping_tuples_shared _ _ _ Ht Ht') as [E|E].
    + assert (pk = pk') as -> by (by eapply vw_bm_id). congruence.
    + apply Hr'. rewrite <- Hr. symmetry. by eapply vw_bm_role.
  - apply elem_of_owner_tuples in Ht' as (tn & x & _ & _ & ->). by apply mapping_tuples_owner in Ht.
  - apply elem_of_owner_tuples in Ht as (tn & x & _ & _ & ->). by apply mapping_tuples_owner in Ht'.
  - apply elem_of_owner_tuples in Ht as (tn & x & _ & _ & ->), Ht' as (tn' & x' & _ & _ & E).
    unfold t_owner, rel_tuple in E. injection E as Eu _. assert (i = j) as -> by (by eapply (proj2 (vw_roles _ Hwf))). congruence.
Qed.

Lemma relation_tuples_Ok ms ts :
  relation_tuples_for_bindings ms = Ok ts →
  (∀ t, t ∈ ts ↔ ∃ m, m ∈ ms ∧ t ∈ mapping_tuples m)
  ∧ ∀ P, (∀ m ts', m ∈ ms → mapping_as_tuples m = Ok ts' → Forall P ts') → Forall P ts.
Proof.
  unfold relation_tuples_for_bindings. intros (ls & Hls%mapM_result_Ok & [= <-])%bind_Ok. split.
  - intros t. rewrite list_elem_of_In, in_concat. setoid_rewrite <- list_elem_of_In. split.
    + intros (l & Hl & Ht). apply (Forall2_elem_r _ _ _ _ Hls) in Hl as (m & Hm & Hts). exists m. split; [done|].
      by apply (mapping_as_tuples_spec m l).
    + intros (m & Hm & Ht). apply (Forall2_elem_l _ _ _ _ Hls) in Hm as (l & Hl & Hts). exists l. split; [done|].
      by apply (mapping_as_tuples_spec m l).
  - intros P HP. apply Forall_concat, Forall_forall. intros l Hl.
    apply (Forall2_elem_r _ _ _ _ Hls) in Hl as (m & Hm & Hts). by eapply HP.
Qed.

Lemma owner_relationships_Ok tn rs ts :
  owner_relationships tn rs = Ok ts →
  ∀ t, t ∈ ts ↔ ∃ r rid, r ∈ rs ∧ tenant_resource_id tn = Some rid ∧ t = t_owner r rid.
Proof.
  unfold owner_relationships. destruct (tenant_resource_id tn) as [rid|].
  - intros Hm%mapM_result_Ok t. split.
    + intros Ht. apply (Forall2_elem_r _ _ _ _ Hm) in Ht as (r & Hr & [-> _]%create_relationship_spec). eauto.
    + intros (r & x & Hr & [= <-] & ->). apply (Forall2_elem_l _ _ _ _ Hm) in Hr as (t & Ht & [-> _]%create_relationship_spec). done.
  - intros [= <-] t. split; [by intros ?%elem_of_nil|naive_solver].
Qed.
Variables (parse_uuid : string → result string) (gen : V2boundresource → fresh).

(** Keys and UUIDs that no row uses, different for different resources. *)
Record fresh_gen (vd : V1Db) : Prop := {
  fg_role res : db_roles (v1_db vd) !! fst (f_role (gen res)) = None;
  fg_binding res : db_bindings (v1_db vd) !! fst (f_binding (gen res)) = None;
  fg_mapping res : v1_bm vd !! f_mapping (gen res) = None;
  fg_role_uuid res pk m : v1_bm vd !! pk = Some m → vr_id (bm_role_value m) ≠ snd (f_role (gen res));
  fg_system_uuid res s role : v1_roles vd !! s = Some role → v1_uuid role ≠ snd (f_role (gen res));
  fg_binding_uuid res pk m : v1_bm vd !! pk = Some m → bm_id m ≠ snd (f_binding (gen res));
  fg_inj res res' :
    fst (f_role (gen res)) = fst (f_role (gen res')) ∨ snd (f_role (gen res)) = snd (f_role (gen res'))
    ∨ fst (f_binding (gen res)) = fst (f_binding (gen res')) ∨ snd (f_binding (gen res)) = snd (f_binding (gen res'))
    ∨ f_mapping (gen res) = f_mapping (gen res') → res = res';
}.

(** The stored role ids are UUIDs in the form that [uuid_utils] prints. *)
Definition parses_stored (vd : V1Db) : Prop :=
  ∀ pk m u, v1_bm vd !! pk = Some m → parse_uuid (vr_id (bm_role_value m)) = Ok u → u = vr_id (bm_role_value m).

(** The outcome of [permission_groupings_to_v2_role_bindings]. *)
Record migrated (vd : V1Db) (role : V1Role) (g : PermissionGroupings) (vd' : V1Db) (result : MigrateCustomRoleResult)
    (vd1 : V1Db) (ex : gmap V2boundresource (Z * BindingMapping)) (groups : list Group) (l : Latest) : Prop := {
  mg_start : vd1 = with_db (λ _, v1_db vd1) vd;
  mg_renamed : renamed (map r_id (v2_roles_of vd (v1_id role))) (v1_db vd) (v1_db vd1);
  mg_existing res pk m : ex !! res = Some (pk, m) →
    res = mkBound (bm_namespace m) (bm_resource_type m) (bm_resource_id m) ∧ bm_role m = v1_id role ∧ v1_bm vd !! pk = Some m;
  mg_groups : mapM (λ p, gid ← or_raise AttributeError (po_group p);
                         or_raise AttributeError (db_groups (v1_db vd) !! gid)) (policies_of vd (v1_id role)) = Ok groups;
  mg_loop : linv parse_uuid gen role ex (set_iter (list_to_set (map g_uuid groups) : gset string)) vd1 g l;
  mg_result : result = mkMigrateResult (map snd (lt_roles l)) (map fst (lt_bindings l)) (map snd (lt_bindings l));
  mg_final : vd' = set_binding_groups (map snd (lt_bindings l)) (list_to_set (map g_id groups)) (lt_vd l);
  mg_system : v1_system role = false;
}.

(** The groups of a role are those of its policies. *)
Lemma policy_groups vd rid groups :
  (∀ i grp, db_groups (v1_db vd) !! i = Some grp → g_id grp = i) →
  mapM (λ p, gid ← or_raise AttributeError (po_group p);
             or_raise AttributeError (db_groups (v1_db vd) !! gid)) (policies_of vd rid) = Ok groups →
  (∀ gid, gid ∈ map g_id groups ↔ ∃ k p, v1_policies vd !! k = Some p ∧ rid ∈ po_roles p ∧ po_group p = Some gid)
  ∧ ∀ grp, grp ∈ groups → db_groups (v1_db vd) !! g_id grp = Some grp.
Proof.
  intros Hid Hm%mapM_result_Ok.
  assert (∀ p, p ∈ policies_of vd rid ↔ ∃ k, v1_policies vd !! k = Some p ∧ rid ∈ po_roles p) as Hp.
  { intros p. unfold policies_of. rewrite elem_of_select, bool_decide_eq_true. naive_solver. }
  split.
  - intros gid. rewrite list_elem_of_fmap. split.
    + intros (grp & -> & Hin). apply (Forall2_elem_r _ _ _ _ Hm) in Hin as (p & (k & Hk & Hr)%Hp & Hg).
      apply bind_Ok in Hg as (i & Hi%or_raise_Ok & Hg%or_raise_Ok). rewrite (Hid _ _ Hg). eauto.
    + intros (k & p & Hk & Hr & Hg). assert (p ∈ policies_of vd rid) as Hin by (apply Hp; eauto).
      apply (Forall2_elem_l _ _ _ _ Hm) in Hin as (grp & Hin & Hx). rewrite Hg in Hx. cbn in Hx. apply or_raise_Ok in Hx.
      exists grp. by rewrite (Hid _ _ Hx).
  - intros grp Hin. apply (Forall2_elem_r _ _ _ _ Hm) in Hin as (p & _ & Hg).
    apply bind_Ok in Hg as (i & Hi%or_raise_Ok & Hg%or_raise_Ok). by rewrite (Hid _ _ Hg).
Qed.

Lemma by_resource_spec l by_resource :
  mapM (λ km : Z * BindingMapping, vb ← get_role_binding (snd km); mret (vb_resource vb, km)) l = Ok by_resource →
  ∀ res km, dict_of by_resource !! res = Some km →
    km ∈ l ∧ res = mkBound (bm_namespace (snd km)) (bm_resource_type (snd km)) (bm_resource_id (snd km)).
Proof.
  intros Hm%mapM_result_Ok res km Hd%dict_of_Some. apply (Forall2_elem_r _ _ _ _ Hm) in Hd as (km' & Hin & Hkm).
  apply bind_Ok in Hkm as (vb & (r & ->%mk_bound_Ok & [= <-])%bind_Ok & [= <- ->]). done.
Qed.

Lemma renamed_roles vd vd1 ids :
  role_keys vd → renamed ids (v1_db vd) (v1_db vd1) → role_keys vd1.
Proof.
  intros [Hid Hu] [_ _ Hk].
  assert (∀ i r1, db_roles (v1_db vd1) !! i = Some r1 → ∃ r, db_roles (v1_db vd) !! i = Some r ∧ role_key r1 = role_key r) as Hr.
  { intros i r1 Hr1. specialize (Hk i). rewrite Hr1 in Hk. destruct (db_roles (v1_db vd) !! i) as [r|]; [|done].
    injection Hk as Hk. exists r. unfold role_key. split; [done|]. congruence. }
  split.
  - intros i r1 (r & Hr' & [= ->])%Hr. by apply Hid.
  - intros i j r1 s1 (r & Hr' & [= _ Er])%Hr (s & Hs' & [= _ Es])%Hr E. apply (Hu i j r s); congruence.
Qed.

Lemma renamed_mono ids ids' d d1 : ids ⊆ ids' → renamed ids d d1 → renamed ids' d d1.
Proof. intros Hi [A B C]. split; [done| |done]. intros i Hn. apply B. set_solver. Qed.

Section start.
Variables (vd vd1 : V1Db) (ids : list Z) (ex : gmap V2boundresource (Z * BindingMapping)) (all : list V2boundresource).
Hypotheses (Hwf : v1_wf vd) (Hfg : fresh_gen vd) (Hsame : vd1 = with_db (λ _, v1_db vd1) vd) (Hrn : renamed ids (v1_db vd) (v1_db vd1)).
Hypothesis Hex : ∀ r pk m, ex !! r = Some (pk, m) →
  r = mkBound (bm_namespace m) (bm_resource_type m) (bm_resource_id m) ∧ v1_bm vd !! pk = Some m.

Lemma fresh_roles_start : fresh_roles gen ex vd1 all.
Proof.
  split.
  - intros res _. pose proof (rn_keys _ _ _ Hrn (fst (f_role (gen res)))) as Hk. rewrite (fg_role _ Hfg) in Hk.
    by destruct (db_roles (v1_db vd1) !! _).
  - intros res _. rewrite Hsame. cbn. apply eq_None_not_Some. intros [s Hs].
    destruct (vw_source _ Hwf _ _ Hs) as [r Hr]. by rewrite (fg_role _ Hfg) in Hr.
  - intros res res' _ _ E. apply (fg_inj _ Hfg). tauto.
  - intros res res' _ _ E. apply (fg_inj _ Hfg). tauto.
  - intros res res' pk m _ Hm. destruct (Hex _ _ _ Hm) as [_ Hb]. by apply (fg_role_uuid _ Hfg _ _ _ Hb).
Qed.

Lemma fresh_bindings_start : fresh_bindings gen ex vd1 all.
Proof.
  split.
  - intros res _. rewrite (rn_rest _ _ _ Hrn). apply (fg_binding _ Hfg).
  - intros res res' _ _ E. apply (fg_inj _ Hfg). tauto.
  - intros res res' _ _. unfold binding_uuid.
    destruct (ex !! res) as [[pk m]|] eqn:E1, (ex !! res') as [[pk' m']|] eqn:E2; intros E.
    + destruct (Hex _ _ _ E1) as [-> Hm], (Hex _ _ _ E2) as [-> Hm'].
      assert (pk = pk') as -> by (by eapply vw_bm_id). by simplify_eq.
    + destruct (Hex _ _ _ E1) as [_ Hm]. by destruct (fg_binding_uuid _ Hfg res' _ _ Hm).
    + destruct (Hex _ _ _ E2) as [_ Hm]. by destruct (fg_binding_uuid _ Hfg res _ _ Hm).
    + apply (fg_inj _ Hfg). tauto.
Qed.
End start.

Lemma groupings_run vd role g vd' result :
  v1_wf vd → fresh_gen vd → parses_stored vd → groupings_ok g →
  permission_groupings_to_v2_role_bindings parse_uuid gen g role (role_mappings vd (v1_id role)) (v2_roles_of vd (v1_id role)) vd
  = Ok (vd', result) →
  ∃ vd1 ex groups l, migrated vd role g vd' result vd1 ex groups l.
Proof.
  intros Hwf Hfg Hps Hg Hrun. unfold permission_groupings_to_v2_role_bindings in Hrun.
  apply bind_Ok in Hrun as (u1 & Hsys%raise_if_Ok & Hrun). apply bind_Ok in Hrun as (u2 & Hsrc%raise_if_Ok & Hrun).
  apply bind_Ok in Hrun as (u3 & Hty%raise_if_Ok & Hrun). apply bind_Ok in Hrun as (ids & _ & Hrun).
  apply bind_Ok in Hrun as (u4 & _ & Hrun). apply bind_Ok in Hrun as (byr & Hbyr & Hrun).
  apply bind_Ok in Hrun as (groups & Hgroups & Hrun). apply bind_Ok in Hrun as (d1 & Hd1 & Hrun).
  apply bind_Ok in Hrun as (l & Hl & Hrun). apply bind_Ok in Hrun as (res & Hres & [= <- <-]).
  unfold check_migrate_result in Hres. do 3 (apply bind_Ok in Hres as (_ & _ & Hres)). injection Hres as <-.
  set (vd1 := with_db (λ _, d1) vd) in *.
  assert (renamed (map r_id (v2_roles_of vd (v1_id role))) (v1_db vd) d1) as Hrn.
  { eapply renamed_mono; [|eapply rename_roles; [|exact Hd1]].
    - intros i (r & -> & [Hr _]%elem_of_select)%list_elem_of_fmap. apply andb_true_iff in Hr as [_ Hr%bool_decide_eq_true]. done.
    - intros r [_ [i Hi]]%elem_of_select. by rewrite (proj1 (vw_roles _ Hwf) i r Hi). }
  exists vd1, (dict_of byr), groups, l.
  assert (∀ r pk m, dict_of byr !! r = Some (pk, m) → r = mkBound (bm_namespace m) (bm_resource_type m) (bm_resource_id m)
            ∧ bm_role m = v1_id role ∧ v1_bm vd !! pk = Some m) as Hex.
  { intros r pk m Hd. destruct (by_resource_spec _ _ Hbyr _ _ Hd) as [[Hm Hr]%elem_of_role_mappings ->]. done. }
  split; try done. eapply bind_resources; [..|exact Hl]; try done.
  - intros r pk m Hd. destruct (Hex r pk m Hd) as (-> & -> & _). done.
  - intros r pk m u Hd. apply Hps with pk. by apply (Hex r pk m).
  - eapply (fresh_roles_start vd); [done|done|done|exact Hrn|]. intros r pk m Hd. by destruct (Hex r pk m Hd) as (? & _ & ?).
  - eapply (fresh_bindings_start vd); [done|done|exact Hrn|]. intros r pk m Hd. by destruct (Hex r pk m Hd) as (? & _ & ?).
  - by eapply renamed_roles; [apply vw_roles|].
  - unfold binding_keys. cbn. rewrite (rn_rest _ _ _ Hrn). apply (vw_bindings _ Hwf).
Qed.

(** The groups that bindings get. *)
Lemma elem_of_binding_groups bs gs vd i gid :
  (i, gid) ∈ db_group_entries (v1_db (set_binding_groups bs gs vd)) ↔
  (i ∈ map b_id bs ∧ gid ∈ gs) ∨ (i ∉ map b_id bs) ∧ (i, gid) ∈ db_group_entries (v1_db vd).
Proof.
  unfold set_binding_groups. cbn [with_db v1_db with_bindings db_group_entries].
  rewrite elem_of_union, elem_of_filter, elem_of_list_to_set, list_elem_of_bind. cbn [fst]. setoid_rewrite list_elem_of_bind.
  setoid_rewrite elem_of_elements. setoid_rewrite list_elem_of_singleton. rewrite elem_of_list_to_set.
  setoid_rewrite elem_of_list_to_set. naive_solver.
Qed.

(** ** The rows that are saved *)

Lemma save_mappings_run keyed vd vd' :
  foldM (λ vd km, save_mapping (fst km) (snd km) vd) vd keyed = Ok vd' → vd' = with_bm (λ bm, dict_of keyed ∪ bm) vd.
Proof.
  intros Hf. assert (vd' = with_bm (λ bm, foldl (λ m kv, <[fst kv := snd kv]> m) bm keyed) vd) as ->.
  { revert vd Hf. induction keyed as [|km keyed IH]; intros vd Hf; cbn [foldM] in Hf.
    - injection Hf as <-. by destruct vd.
    - apply bind_Ok in Hf as (v & ->%save_mapping_Ok & Hf%IH). by rewrite Hf. }
  unfold with_bm. by rewrite dict_of_insert.
Qed.

(** Saving rows that are as they are changes nothing. *)
Lemma save_bindings_run bs vd vd' :
  (∀ b, b ∈ bs → db_bindings (v1_db vd) !! b_id b = Some b) → foldM (λ vd b, save_binding b vd) vd bs = Ok vd' → vd' = vd.
Proof.
  induction bs as [|b bs IH]; cbn [foldM]; intros Hb Hf; [by injection Hf|].
  apply bind_Ok in Hf as (v & [-> _]%save_binding_Ok & Hf).
  assert (put_binding b vd = vd) as E.
  { assert (db_bindings (v1_db vd) !! b_id b = Some b) as Hrow by (apply Hb; by left). destruct vd as [[]].
    unfold put_binding, with_db, with_bindings. cbn in *. by rewrite insert_id. }
  rewrite E in Hf. apply IH; [|done]. intros c Hc. apply Hb. by right.
Qed.
Lemma save_roles_run rs vd vd' :
  (∀ r, r ∈ rs → db_roles (v1_db vd) !! r_id r = Some r) → foldM (λ vd r, save_v2_role r vd) vd rs = Ok vd' → vd' = vd.
Proof.
  induction rs as [|r rs IH]; cbn [foldM]; intros Hr Hf; [by injection Hf|].
  apply bind_Ok in Hf as (v & [-> _]%save_v2_role_Ok & Hf).
  assert (put_role r vd = vd) as E.
  { assert (db_roles (v1_db vd) !! r_id r = Some r) as Hrow by (apply Hr; by left). destruct vd as [[]].
    unfold put_role, with_db, with_roles. cbn in *. by rewrite insert_id. }
  rewrite E in Hf. apply IH; [|done]. intros c Hc. apply Hr. by right.
Qed.

Section outcome.
Variables (vd : V1Db) (role : V1Role) (g : PermissionGroupings) (vda : V1Db) (result : MigrateCustomRoleResult).
Variables (vd1 : V1Db) (ex : gmap V2boundresource (Z * BindingMapping)) (groups : list Group) (l : Latest).
Hypotheses (Hwf : v1_wf vd) (Hfg : fresh_gen vd) (Hparse : parses_stored vd) (Hg : groupings_ok g).
Hypothesis (Hm : migrated vd role g vda result vd1 ex groups l).

Abbreviation group_uuids := (set_iter (list_to_set (map g_uuid groups) : gset string)).
Abbreviation new_mapping := (mapping_for gen role ex group_uuids (v1_db vd1)).

(** The key under which the mapping for a resource is saved. *)
Definition mapping_key (res : V2boundresource) : Z :=
  match ex !! res with Some (pk, _) => pk | None => f_mapping (gen res) end.

Lemma mapping_key_inj res res' : mapping_key res = mapping_key res' → res = res'.
Proof.
  unfold mapping_key. destruct (ex !! res) as [[pk m]|] eqn:E1, (ex !! res') as [[pk' m']|] eqn:E2; intros E.
  - destruct (mg_existing _ _ _ _ _ _ _ _ _ Hm _ _ _ E1) as (-> & _ & Hb), (mg_existing _ _ _ _ _ _ _ _ _ Hm _ _ _ E2) as (-> & _ & Hb').
    congruence.
  - destruct (mg_existing _ _ _ _ _ _ _ _ _ Hm _ _ _ E1) as (_ & _ & Hb). by rewrite E, (fg_mapping _ Hfg) in Hb.
  - destruct (mg_existing _ _ _ _ _ _ _ _ _ Hm _ _ _ E2) as (_ & _ & Hb). by rewrite <- E, (fg_mapping _ Hfg) in Hb.
  - apply (fg_inj _ Hfg). tauto.
Qed.

Definition keyed : list (Z * BindingMapping) :=
  map (λ km, (default (f_mapping (gen (mkBound (bm_namespace (snd km)) (bm_resource_type (snd km)) (bm_resource_id (snd km)))))
                (fst km), snd km)) (mr_binding_mappings result).

Lemma keyed_spec :
  Forall2 (λ rp km, ∃ r, (snd rp, r) ∈ lt_roles l ∧ km = (mapping_key (fst rp), new_mapping (fst rp) r)) g keyed.
Proof.
  unfold keyed. rewrite (mg_result _ _ _ _ _ _ _ _ _ Hm). cbn [mr_binding_mappings].
  pose proof (bi_bound _ _ _ _ _ _ _ _ _ (li_bindings _ _ _ _ _ _ _ _ (mg_loop _ _ _ _ _ _ _ _ _ Hm))) as Hb.
  destruct Hg as [_ Hns]. clear Hg Hm.
  induction Hb as [|[res ps] [[k m] b] g' bs (r & Hin & Hx & _) _ IH]; cbn; constructor.
  - exists r. split; [done|]. cbn in Hx. injection Hx as -> -> _. cbn. f_equal.
    destruct (Hns res ps) as [_ Hn]; [by left|]. destruct res as [n nm i]. cbn in Hn. subst n.
    unfold mapping_key. by destruct (ex !! _) as [[pk m]|].
  - apply IH. intros. apply Hns. by right.
Qed.

Lemma keyed_keys : map fst keyed = map mapping_key (map fst g).
Proof.
  pose proof keyed_spec as Hk. revert Hk. generalize keyed g. clear.
  induction 1 as [|rp km g' ks (r & _ & ->) _ IH]; [done|]. cbn. by rewrite IH.
Qed.

Lemma keyed_NoDup : NoDup (map fst keyed).
Proof.
  rewrite keyed_keys. apply NoDup_fmap_2_strong; [|apply Hg]. intros r r' _ _. apply mapping_key_inj.
Qed.

Lemma latest_role_unique ps r r' : (ps, r) ∈ lt_roles l → (ps, r') ∈ lt_roles l → r = r'.
Proof.
  pose proof (ri_ps _ _ _ _ _ _ _ _ (li_roles _ _ _ _ _ _ _ _ (mg_loop _ _ _ _ _ _ _ _ _ Hm))) as Hnd.
  intros H1' H2'. apply (dict_of_lookup _ _ _ Hnd) in H1', H2'. congruence.
Qed.

Lemma elem_of_keyed pk m :
  (pk, m) ∈ keyed ↔ ∃ res ps r, (res, ps) ∈ g ∧ (ps, r) ∈ lt_roles l ∧ pk = mapping_key res ∧ m = new_mapping res r.
Proof.
  split.
  - intros Hin. apply (Forall2_elem_r _ _ _ _ keyed_spec) in Hin as ([res ps] & Hin & r & Hr & [= -> ->]). by exists res, ps, r.
  - intros (res & ps & r & Hin & Hr & -> & ->). apply (Forall2_elem_l _ _ _ _ keyed_spec) in Hin as (km & Hkm & r' & Hr' & ->).
    cbn in *. by rewrite (latest_role_unique _ _ _ Hr Hr').
Qed.

(** The state after the three [_update_by_pk]. *)
Definition old_mappings : gset Z :=
  list_to_set (map fst (role_mappings vd (v1_id role))) ∖ list_to_set (omap fst (mr_binding_mappings result)).
Definition old_bindings : gset Z :=
  list_to_set (map b_id (source_bindings vd (v1_id role))) ∖ list_to_set (map b_id (mr_role_bindings result)).
Definition old_roles : gset Z :=
  list_to_set (map r_id (v2_roles_of vd (v1_id role))) ∖ list_to_set (map r_id (mr_v2_roles result)).
Definition final_state : V1Db :=
  delete_v2_roles old_roles (with_db (delete_bindings old_bindings)
    (with_bm (λ bm, filter (λ kv, fst kv ∉ old_mappings) (dict_of keyed ∪ bm)) vda)).

Abbreviation Hri := (li_roles _ _ _ _ _ _ _ _ (mg_loop _ _ _ _ _ _ _ _ _ Hm)).
Abbreviation Hbi := (li_bindings _ _ _ _ _ _ _ _ (mg_loop _ _ _ _ _ _ _ _ _ Hm)).

Lemma vda_bm : v1_bm vda = v1_bm vd.
Proof.
  rewrite (mg_final _ _ _ _ _ _ _ _ _ Hm). cbn. rewrite (bi_rest _ _ _ _ _ _ _ _ _ Hbi). cbn.
  by rewrite (mg_start _ _ _ _ _ _ _ _ _ Hm).
Qed.

Lemma new_role_kept ps r : (ps, r) ∈ lt_roles l → r_id r ∉ old_roles.
Proof.
  intros Hin. unfold old_roles. rewrite (mg_result _ _ _ _ _ _ _ _ _ Hm). cbn.
  rewrite elem_of_difference, !elem_of_list_to_set. intros [_ Hn]. apply Hn. rewrite map_map. apply list_elem_of_fmap. by exists (ps, r).
Qed.

Lemma existing_keys : map fst (mr_binding_mappings result) = map (λ rp, fst <$> ex !! fst rp) g.
Proof.
  rewrite (mg_result _ _ _ _ _ _ _ _ _ Hm). cbn [mr_binding_mappings].
  pose proof (bi_bound _ _ _ _ _ _ _ _ _ Hbi) as Hb. clear Hg Hm. revert Hb. generalize (lt_bindings l).
  induction 1 as [|rp [[k m] b] g' bs (r & _ & Hx & _) _ IH]; [done|]. cbn in *. injection Hx as -> _ _. by rewrite IH.
Qed.

Lemma elem_of_old_mappings pk :
  pk ∈ old_mappings ↔ (∃ m, v1_bm vd !! pk = Some m ∧ bm_role m = v1_id role) ∧ pk ∉ map fst keyed.
Proof.
  unfold old_mappings. rewrite elem_of_difference, !elem_of_list_to_set.
  assert (pk ∈ map fst (role_mappings vd (v1_id role)) ↔ ∃ m, v1_bm vd !! pk = Some m ∧ bm_role m = v1_id role) as ->.
  { rewrite list_elem_of_fmap. setoid_rewrite <- elem_of_role_mappings.
    split; [intros ([k m] & -> & ?); by exists m|intros (m & ?); by exists (pk, m)]. }
  assert (∀ m, v1_bm vd !! pk = Some m → pk ∈ omap fst (mr_binding_mappings result) ↔ pk ∈ map fst keyed) as Hk; [|naive_solver].
  intros m Hpk. assert (pk ∈ omap fst (mr_binding_mappings result) ↔ Some pk ∈ map fst (mr_binding_mappings result)) as ->.
  { rewrite list_elem_of_omap, list_elem_of_fmap. naive_solver. }
  rewrite existing_keys, keyed_keys, map_map, !list_elem_of_fmap. unfold mapping_key. split.
  - intros (rp & E & Hin). exists rp. split; [|done]. by destruct (ex !! fst rp) as [[]|]; simplify_eq/=.
  - intros (rp & E & Hin). exists rp. split; [|done]. destruct (ex !! fst rp) as [[]|]; [by subst|].
    subst. by rewrite (fg_mapping _ Hfg) in Hpk.
Qed.

Lemma final_bm pk m :
  v1_bm final_state !! pk = Some m ↔
  (pk, m) ∈ keyed ∨ ∃ m0, v1_bm vd !! pk = Some m0 ∧ bm_role m0 ≠ v1_id role ∧ m = clear_v2_role old_roles m0.
Proof.
  cbn. rewrite vda_bm, lookup_fmap_Some. setoid_rewrite map_lookup_filter_Some. setoid_rewrite lookup_union_Some_raw.
  setoid_rewrite (dict_of_lookup _ _ _ keyed_NoDup). cbn.
  assert (∀ pk m, (pk, m) ∈ keyed → clear_v2_role old_roles m = m ∧ pk ∉ old_mappings) as Hk.
  { intros pk' m' Hin. split.
    - apply elem_of_keyed in Hin as (res & ps & r & _ & Hr & -> & ->).
      unfold clear_v2_role. cbn. rewrite decide_False; [done|]. by eapply new_role_kept.
    - rewrite elem_of_old_mappings. intros [_ Hn]. apply Hn, list_elem_of_fmap. by exists (pk', m'). }
  split.
  - intros (m0 & <- & [Hin|[Hnone Hb]] & Hold); [left; by destruct (Hk _ _ Hin) as [-> _]|].
    right. exists m0. split_and!; [done| |done]. intros Hrole. apply Hold, elem_of_old_mappings. split; [eauto|].
    intros ([k m] & -> & Hin)%list_elem_of_fmap. apply (dict_of_lookup _ _ _ keyed_NoDup) in Hin. cbn in Hnone. congruence.
  - intros [Hin|(m0 & Hb & Hrole & ->)]; [exists m; destruct (Hk _ _ Hin); auto|].
    exists m0. split_and!; [done| |].
    + right. split; [|done]. destruct (dict_of keyed !! pk) as [m|] eqn:E; [|done]. exfalso.
      apply (dict_of_lookup _ _ _ keyed_NoDup), elem_of_keyed in E as (res & ps & r & _ & _ & -> & _).
      unfold mapping_key in Hb. destruct (ex !! res) as [[k m']|] eqn:Hex; [|by rewrite (fg_mapping _ Hfg) in Hb].
      destruct (mg_existing _ _ _ _ _ _ _ _ _ Hm _ _ _ Hex) as (_ & ? & ?). congruence.
    + rewrite elem_of_old_mappings. intros [(m & ? & ?) _]. congruence.
Qed.

Lemma vda_roles : db_roles (v1_db vda) = db_roles (v1_db (lt_vd l)) ∧ v1_sources vda = v1_sources (lt_vd l).
Proof. by rewrite (mg_final _ _ _ _ _ _ _ _ _ Hm). Qed.

Lemma vd1_sources : v1_sources vd1 = v1_sources vd.
Proof. by rewrite (mg_start _ _ _ _ _ _ _ _ _ Hm). Qed.

(** A V2 role of this run was no row of another role. *)
Lemma new_role_other i r r' ps :
  db_roles (v1_db vd) !! i = Some r → v1_sources vd !! i ≠ Some (v1_id role) → (ps, r') ∈ lt_roles l → r_id r' ≠ i.
Proof.
  intros Hr Hs Hin <-. destruct (ri_from _ _ _ _ _ _ _ _ Hri _ _ Hin) as [Hs'|Hn]; [by rewrite vd1_sources in Hs'|].
  pose proof (rn_keys _ _ _ (mg_renamed _ _ _ _ _ _ _ _ _ Hm) (r_id r')) as Hk. by rewrite Hn, Hr in Hk.
Qed.

Lemma elem_of_old_roles i :
  i ∈ old_roles ↔ v1_sources vd !! i = Some (v1_id role) ∧ ∀ ps r, (ps, r) ∈ lt_roles l → r_id r ≠ i.
Proof.
  unfold old_roles. rewrite (mg_result _ _ _ _ _ _ _ _ _ Hm), elem_of_difference, !elem_of_list_to_set. cbn [mr_v2_roles].
  rewrite map_map, !list_elem_of_fmap. split.
  - intros [(r & -> & [_ Hs]%elem_of_v2_roles) Hn]; [|apply Hwf]. split; [done|]. intros ps r' Hin E. apply Hn. by exists (ps, r').
  - intros [Hs Hn]. split; [|intros ([ps r] & -> & Hin); by apply (Hn ps r Hin)].
    destruct (vw_source _ Hwf _ _ Hs) as [r Hr]. pose proof (proj1 (vw_roles _ Hwf) _ _ Hr) as <-. exists r. split; [done|].
    apply elem_of_v2_roles; [apply Hwf|done].
Qed.

Lemma other_source i :
  v1_sources vd !! i ≠ Some (v1_id role) → (∀ ps r, (ps, r) ∈ lt_roles l → r_id r ≠ i) →
  v1_sources (lt_vd l) !! i ≠ Some (v1_id role).
Proof.
  intros Hs Hn Hs'. apply (ri_mine _ _ _ _ _ _ _ _ Hri) in Hs' as [Hs'|([ps r] & -> & Hin)%list_elem_of_fmap].
  - by rewrite vd1_sources in Hs'.
  - by apply (Hn ps r).
Qed.

Lemma other_row i :
  v1_sources vd !! i ≠ Some (v1_id role) → (∀ ps r, (ps, r) ∈ lt_roles l → r_id r ≠ i) →
  db_roles (v1_db (lt_vd l)) !! i = db_roles (v1_db vd) !! i.
Proof.
  intros Hs Hn. rewrite (ri_other _ _ _ _ _ _ _ _ Hri) by by apply other_source.
  apply (rn_other _ _ _ (mg_renamed _ _ _ _ _ _ _ _ _ Hm)). intros (r & -> & [_ Hr]%elem_of_v2_roles)%list_elem_of_fmap; [done|apply Hwf].
Qed.

Lemma final_roles i r :
  db_roles (v1_db final_state) !! i = Some r ↔
  (∃ ps, (ps, r) ∈ lt_roles l ∧ i = r_id r) ∨ (db_roles (v1_db vd) !! i = Some r ∧ v1_sources vd !! i ≠ Some (v1_id role)).
Proof.
  cbn. rewrite (proj1 vda_roles), map_lookup_filter_Some. cbn. split.
  - intros [Hr Hold]. destruct (decide (i ∈ map (λ pr, r_id (snd pr)) (lt_roles l))) as [Hin|Hn].
    + left. apply list_elem_of_fmap in Hin as ([ps r'] & -> & Hin). exists ps.
      destruct (ri_role _ _ _ _ _ _ _ _ Hri _ _ Hin) as (_ & _ & _ & Hr' & _). by simplify_eq/=.
    + right. assert (v1_sources vd !! i ≠ Some (v1_id role)) as Hs.
      { intros Hs. apply Hold, elem_of_old_roles. split; [done|]. intros ps r' Hin E. apply Hn, list_elem_of_fmap. by exists (ps, r'). }
      split; [|done]. rewrite <- Hr. symmetry. apply other_row; [done|]. intros ps r' Hin E. apply Hn, list_elem_of_fmap. by exists (ps, r').
  - intros [(ps & Hin & ->)|[Hr Hs]].
    + destruct (ri_role _ _ _ _ _ _ _ _ Hri _ _ Hin) as (_ & _ & _ & Hr' & _). split; [done|]. by eapply new_role_kept.
    + rewrite other_row; [|done|intros ps r' Hin; by eapply new_role_other]. split; [done|]. rewrite elem_of_old_roles. tauto.
Qed.

Lemma final_sources i s :
  v1_sources final_state !! i = Some s ↔
  (s = v1_id role ∧ ∃ ps r, (ps, r) ∈ lt_roles l ∧ i = r_id r) ∨ (s ≠ v1_id role ∧ v1_sources vd !! i = Some s).
Proof.
  cbn. rewrite (proj2 vda_roles), map_lookup_filter_Some. cbn. destruct (decide (s = v1_id role)) as [->|Hs].
  - split.
    + intros [Hs Hold]. left. split; [done|]. destruct (decide (i ∈ map (λ pr, r_id (snd pr)) (lt_roles l))) as [Hin|Hn].
      { apply list_elem_of_fmap in Hin as ([ps r] & -> & Hin). by exists ps, r. }
      assert (∀ ps r, (ps, r) ∈ lt_roles l → r_id r ≠ i) as Hn'.
      { intros ps r Hin E. apply Hn, list_elem_of_fmap. by exists (ps, r). }
      exfalso. destruct (decide (v1_sources vd !! i = Some (v1_id role))) as [Hv|Hv].
      * by apply Hold, elem_of_old_roles.
      * by apply (other_source i).
    + intros [(_ & ps & r & Hin & ->)|[? _]]; [|done].
      destruct (ri_role _ _ _ _ _ _ _ _ Hri _ _ Hin) as (_ & _ & _ & _ & Hs' & _). split; [done|]. by eapply new_role_kept.
  - rewrite (ri_other_sources _ _ _ _ _ _ _ _ Hri _ _ Hs), vd1_sources, elem_of_old_roles. naive_solver.
Qed.

Lemma final_bindings i b :
  db_bindings (v1_db final_state) !! i = Some b ↔
  db_bindings (v1_db (lt_vd l)) !! i = Some b ∧ (i ∉ old_bindings) ∧ (b_role b ∉ old_roles).
Proof.
  cbn. rewrite (mg_final _ _ _ _ _ _ _ _ _ Hm). cbn. unfold id. rewrite !map_lookup_filter_Some. cbn.
  rewrite elem_of_list_to_set, list_elem_of_fmap.
  assert ((∃ y, i = fst y ∧ y ∈ filter (λ kb, b_role (snd kb) ∈ old_roles)
             (map_to_list (filter (λ kb, fst kb ∉ old_bindings) (db_bindings (v1_db (lt_vd l)))))) ↔
          ∃ c, db_bindings (v1_db (lt_vd l)) !! i = Some c ∧ (i ∉ old_bindings) ∧ b_role c ∈ old_roles) as ->; [|naive_solver].
  setoid_rewrite list_elem_of_filter. setoid_rewrite elem_of_map_to_list'. setoid_rewrite map_lookup_filter_Some. cbn.
  split; [intros ([j c] & -> & Hc); cbn in *; naive_solver|intros (c & Hc); exists (i, c); naive_solver].
Qed.

Lemma new_uuid_other ps r pk m :
  (ps, r) ∈ lt_roles l → v1_bm vd !! pk = Some m → bm_role m ≠ v1_id role → r_uuid r ≠ vr_id (bm_role_value m).
Proof.
  intros Hin Hb Hrole E. destruct (ri_role _ _ _ _ _ _ _ _ Hri _ _ Hin) as (_ & _ & _ & _ & _ & res & _ & [Hu|(k & m0 & Hex & Hu)]).
  - apply (fg_role_uuid _ Hfg res _ _ Hb). congruence.
  - destruct (mg_existing _ _ _ _ _ _ _ _ _ Hm _ _ _ Hex) as (_ & Hr0 & Hb0).
    apply (Hparse _ _ _ Hb0) in Hu. apply Hrole. rewrite <- Hr0. eapply vw_bm_role; [done|done|done|congruence].
Qed.

Lemma new_id_other res pk m :
  v1_bm vd !! pk = Some m → bm_role m ≠ v1_id role → binding_uuid gen ex res ≠ bm_id m.
Proof.
  intros Hb Hrole E. unfold binding_uuid in E. destruct (ex !! res) as [[k m0]|] eqn:Hex.
  - destruct (mg_existing _ _ _ _ _ _ _ _ _ Hm _ _ _ Hex) as (_ & Hr0 & Hb0).
    assert (k = pk) as -> by (by eapply vw_bm_id). congruence.
  - by apply (fg_binding_uuid _ Hfg res _ _ Hb).
Qed.

Lemma binding_uuid_inj res res' : binding_uuid gen ex res = binding_uuid gen ex res' → res = res'.
Proof.
  assert (fresh_bindings gen ex vd1 [res; res']) as Hfb.
  { eapply (fresh_bindings_start vd); [done|done|apply Hm|]. intros r pk m Hd.
    by destruct (mg_existing _ _ _ _ _ _ _ _ _ Hm _ _ _ Hd) as (? & _ & ?). }
  apply (fb_uuid _ _ _ _ Hfb); set_solver.
Qed.

Lemma clear_v2_role_id ids m : bm_id (clear_v2_role ids m) = bm_id m.
Proof. unfold clear_v2_role. by repeat case_match. Qed.
Lemma clear_v2_role_role ids m : bm_role (clear_v2_role ids m) = bm_role m.
Proof. unfold clear_v2_role. by repeat case_match. Qed.
Lemma clear_v2_role_groups ids m : bm_groups (clear_v2_role ids m) = bm_groups m.
Proof. unfold clear_v2_role. by repeat case_match. Qed.
Lemma clear_v2_role_value ids m : bm_role_value (clear_v2_role ids m) = bm_role_value m.
Proof. unfold clear_v2_role. by repeat case_match. Qed.

Lemma final_wf : v1_wf final_state.
Proof.
  split.
  - pose proof (ri_keys _ _ _ _ _ _ _ _ Hri) as [Hid Hu]. unfold role_keys. cbn. rewrite (proj1 vda_roles).
    split; setoid_rewrite map_lookup_filter_Some; naive_solver.
  - pose proof (bi_keys _ _ _ _ _ _ _ _ _ Hbi) as [Hid Hu]. split; setoid_rewrite final_bindings; naive_solver.
  - intros i s Hs. apply final_sources in Hs as [(-> & ps & r & Hin & ->)|[Hne Hs]].
    + exists r. apply final_roles. left. by exists ps.
    + destruct (vw_source _ Hwf _ _ Hs) as [r Hr]. exists r. apply final_roles. right. split; [done|congruence].
  - intros i j m n. rewrite !final_bm. intros [(res & ps & r & _ & _ & -> & ->)%elem_of_keyed|(m0 & Hm0 & Hr0 & ->)]
      [(res' & ps' & r' & _ & _ & -> & ->)%elem_of_keyed|(n0 & Hn0 & Hr0' & ->)]; cbn;
      rewrite ?clear_v2_role_id; intros E.
    + by apply binding_uuid_inj in E as ->.
    + by apply (new_id_other res) in Hn0.
    + by apply (new_id_other res') in Hm0.
    + by eapply vw_bm_id.
  - intros i j m n. rewrite !final_bm. intros [(res & ps & r & _ & Hr & -> & ->)%elem_of_keyed|(m0 & Hm0 & Hr0 & ->)]
      [(res' & ps' & r' & _ & Hr' & -> & ->)%elem_of_keyed|(n0 & Hn0 & Hr0' & ->)]; cbn;
      rewrite ?clear_v2_role_role, ?clear_v2_role_value; intros E.
    + done.
    + by apply (new_uuid_other _ _ _ _ Hr) in Hn0.
    + by apply (new_uuid_other _ _ _ _ Hr') in Hm0.
    + by eapply vw_bm_role.
  - intros i r s Hr Hs Hty. apply final_sources in Hs as [(-> & ps & r' & Hin & ->)|[Hne Hs]].
    + destruct (ri_role _ _ _ _ _ _ _ _ Hri _ _ Hin) as (_ & _ & _ & _ & _ & res & ([res' ps'] & -> & Hg')%list_elem_of_fmap & _).
      apply (Forall2_elem_l _ _ _ _ keyed_spec) in Hg' as ([pk m] & Hk & r0 & _ & [= -> ->]).
      eexists _, _. rewrite final_bm. split; [left; exact Hk|done].
    + apply final_roles in Hr as [(ps & Hin & ->)|[Hr _]].
      { destruct (vw_source _ Hwf _ _ Hs) as [r0 Hr0]. by destruct (new_role_other _ _ _ _ Hr0 ltac:(congruence) Hin). }
      destruct (vw_custom _ Hwf _ _ _ Hr Hs Hty) as (pk & m & Hb & <-).
      exists pk, (clear_v2_role old_roles m). rewrite final_bm. split; [right; by exists m|]. apply clear_v2_role_role.
Qed.

(** The tables that the migration leaves alone. *)
Lemma final_rest :
  db_tenants (v1_db final_state) = db_tenants (v1_db vd) ∧ db_workspaces (v1_db final_state) = db_workspaces (v1_db vd)
  ∧ db_permissions (v1_db final_state) = db_permissions (v1_db vd) ∧ v1_roles final_state = v1_roles vd
  ∧ db_groups (v1_db final_state) = db_groups (v1_db vd)
  ∧ db_principals (v1_db final_state) = db_principals (v1_db vd) ∧ v1_members final_state = v1_members vd.
Proof.
  cbn. rewrite (mg_final _ _ _ _ _ _ _ _ _ Hm). cbn. rewrite (bi_rest _ _ _ _ _ _ _ _ _ Hbi). cbn.
  rewrite (rn_rest _ _ _ (mg_renamed _ _ _ _ _ _ _ _ _ Hm)). cbn. by rewrite (mg_start _ _ _ _ _ _ _ _ _ Hm).
Qed.

Lemma final_owner_tuples r : owner_tuples final_state r = owner_tuples vd r.
Proof. unfold owner_tuples. by rewrite (proj1 final_rest). Qed.

Lemma final_others t : others final_state (v1_id role) t ↔ others vd (v1_id role) t.
Proof.
  unfold others. setoid_rewrite final_bm. setoid_rewrite final_roles. setoid_rewrite final_sources. setoid_rewrite final_owner_tuples.
  split.
  - intros [(pk & m & [(res & ps & r & _ & _ & _ & ->)%elem_of_keyed|(m0 & Hb & Hr & ->)] & Hne & Ht)|
            (i & r & s & Hr & Hty & [[-> _]|[_ Hs]] & Hne & Ht)]; [done| |done|].
    + left. exists pk, m0. by rewrite clear_v2_role_tuples in Ht.
    + right. exists i, r, s. destruct Hr as [(ps & Hin & ->)|[Hr _]]; [|done]. exfalso.
      destruct (vw_source _ Hwf _ _ Hs) as [r0 Hr0]. by destruct (new_role_other _ _ _ _ Hr0 ltac:(congruence) Hin).
  - intros [(pk & m & Hb & Hne & Ht)|(i & r & s & Hr & Hty & Hs & Hne & Ht)].
    + left. exists pk, (clear_v2_role old_roles m). rewrite clear_v2_role_tuples, clear_v2_role_role. eauto 10.
    + right. exists i, r, s. split_and!; [right; split; [done|congruence]|done|by right|done|done].
Qed.

(** The graph of the new state: what belongs to other roles, the new mappings and the
    owners of the new V2 roles. *)
Lemma final_graph t :
  t ∈ v1_graph final_state ↔ others vd (v1_id role) t
    ∨ (∃ pk m, (pk, m) ∈ keyed ∧ t ∈ mapping_tuples m) ∨ (∃ ps r, (ps, r) ∈ lt_roles l ∧ t ∈ owner_tuples vd r).
Proof.
  rewrite (graph_split _ (v1_id role)) by apply final_wf. rewrite final_others. apply or_iff_compat_l.
  setoid_rewrite final_bm. setoid_rewrite final_roles. setoid_rewrite final_sources. setoid_rewrite final_owner_tuples. split.
  - intros [(pk & m & [Hin|(m0 & _ & Hr & ->)] & Hrole & Ht)|(i & r & Hr & Hty & [(_ & ps & r' & Hin & ->)|[? _]] & Ht)]; [left; eauto| | |done].
    + by rewrite clear_v2_role_role in Hrole.
    + right. destruct Hr as [(ps' & Hin' & E)|[Hr Hs]]; [by exists ps', r|].
      by destruct (new_role_other _ _ _ _ Hr Hs Hin).
  - intros [(pk & m & Hin & Ht)|(ps & r & Hin & Ht)].
    + left. exists pk, m. split_and!; [by left| |done]. by apply elem_of_keyed in Hin as (res & ps & r & _ & _ & _ & ->).
    + right. exists (r_id r), r. destruct (ri_role _ _ _ _ _ _ _ _ Hri _ _ Hin) as (_ & Hty & _).
      split_and!; [left; by exists ps|done|left; split; [done|by exists ps, r]|done].
Qed.

(** The tuples of a new mapping pass the check for duplicates by text. *)
Lemma new_mapping_rbac pk m ts :
  (∀ i p, db_permissions (v1_db vd) !! i = Some p → has_char "@" (v2_string (p_parts p)) = false) →
  (pk, m) ∈ keyed → mapping_as_tuples m = Ok ts → Forall (λ t, rbac_tuple t = true) ts.
Proof.
  intros Hat (res & ps & r & _ & _ & _ & ->)%elem_of_keyed. apply mapping_as_tuples_rbac; [done|]. cbn.
  unfold permission_names, permissions_of. intros p Hp. apply elem_of_list_to_set, list_elem_of_fmap in Hp as (q & -> & Hq).
  apply list_elem_of_omap in Hq as (i & _ & Hi).
  rewrite (rn_rest _ _ _ (mg_renamed _ _ _ _ _ _ _ _ _ Hm)) in Hi. cbn in Hi. by rewrite (Hat _ _ Hi).
Qed.

Lemma final_policies : v1_policies final_state = v1_policies vd.
Proof.
  cbn. rewrite (mg_final _ _ _ _ _ _ _ _ _ Hm). cbn. rewrite (bi_rest _ _ _ _ _ _ _ _ _ Hbi). cbn.
  by rewrite (mg_start _ _ _ _ _ _ _ _ _ Hm).
Qed.

(** A binding that the mapping of another role names is as it was. *)
Lemma other_binding_same pk m i b :
  v1_bm vd !! pk = Some m → bm_role m ≠ v1_id role → db_bindings (v1_db final_state) !! i = Some b → b_uuid b = bm_id m →
  db_bindings (v1_db vd) !! i = Some b
  ∧ ∀ gid, (i, gid) ∈ db_group_entries (v1_db final_state) ↔ (i, gid) ∈ db_group_entries (v1_db vd).
Proof.
  intros Hb Hne Hi Hu.
  assert (∀ x, x ∈ lt_bindings l → b_uuid (snd x) ≠ bm_id m) as Hnew.
  { intros x Hx E. apply (Forall2_elem_r _ _ _ _ (bi_bound _ _ _ _ _ _ _ _ _ Hbi)) in Hx as (rp & _ & r & _ & Ex & _).
    rewrite Ex in E. cbn in E. by apply (new_id_other (fst rp) pk m). }
  assert (v1_db vd1 = with_roles (λ _, db_roles (v1_db vd1)) (v1_db vd)) as Evd1 by apply (mg_renamed _ _ _ _ _ _ _ _ _ Hm).
  pose proof (proj1 (final_bindings i b) Hi) as (Hl & Ho & Hr).
  assert (i ∉ map b_id (map snd (lt_bindings l))) as Hnin.
  { intros (c & -> & (x & -> & Hx)%list_elem_of_fmap)%list_elem_of_fmap.
    apply (Forall2_elem_r _ _ _ _ (bi_bound _ _ _ _ _ _ _ _ _ Hbi)) in Hx as Hx'. destruct Hx' as (rp & _ & r & _ & _ & Hrow).
    rewrite Hrow in Hl. injection Hl as <-. by apply (Hnew x). }
  split.
  - apply (bi_rows _ _ _ _ _ _ _ _ _ Hbi) in Hl as [Hl|(x & -> & Hx)%list_elem_of_fmap]; [|by destruct (Hnew x)].
    by rewrite Evd1 in Hl.
  - intros gid. cbn in Hi |- *. apply map_lookup_filter_Some in Hi as [[_ Hn1]%map_lookup_filter_Some Hn2]. cbn in Hn1, Hn2.
    rewrite !elem_of_filter. cbn [fst]. rewrite (mg_final _ _ _ _ _ _ _ _ _ Hm) in Hn2 |- *.
    rewrite elem_of_binding_groups. rewrite (bi_rest _ _ _ _ _ _ _ _ _ Hbi). cbn. rewrite Evd1. cbn. tauto.
Qed.

(** The bindings of the mappings of other roles stay. *)
Lemma other_binding_kept pk m i b :
  v1_bm vd !! pk = Some m → bm_role m ≠ v1_id role → db_bindings (v1_db vd) !! i = Some b → b_uuid b = bm_id m →
  v1_sources vd !! b_role b = Some (bm_role m) →
  db_bindings (v1_db final_state) !! i = Some b ∧ v1_sources final_state !! b_role b = Some (bm_role m).
Proof.
  intros Hb Hne Hi Hu Hs. split; [|apply final_sources; by right].
  assert (db_bindings (v1_db vd1) !! i = Some b) as Hi1 by (by rewrite (rn_rest _ _ _ (mg_renamed _ _ _ _ _ _ _ _ _ Hm))).
  apply final_bindings. split_and!.
  - apply (bi_kept _ _ _ _ _ _ _ _ _ Hbi); [done|]. intros Hin.
    destruct (bi_same _ _ _ _ _ _ _ _ _ Hbi _ _ Hin Hi1) as ([res ps] & Hg' & E). cbn in E. rewrite Hu in E.
    by apply (new_id_other res pk m).
  - unfold old_bindings. rewrite elem_of_difference, elem_of_list_to_set. intros [(c & -> & Hc)%list_elem_of_fmap _].
    apply elem_of_select in Hc as [Hc%bool_decide_eq_true [j Hj]].
    assert (c = b) as -> by (rewrite (proj1 (vw_bindings _ Hwf) _ _ Hj) in Hi; congruence). congruence.
  - intros Hold%elem_of_old_roles. destruct Hold as [Hold _]. congruence.
Qed.

(** Each resource has its mapping and its binding, for the same V2 role and groups. *)
Lemma new_binding_row res ps :
  (res, ps) ∈ g →
  ∃ r b, (ps, r) ∈ lt_roles l ∧ (mapping_key res, new_mapping res r) ∈ keyed
    ∧ db_bindings (v1_db final_state) !! b_id b = Some b ∧ b = binding_for gen role ex (b_id b) res r
    ∧ ∀ gid, (b_id b, gid) ∈ db_group_entries (v1_db final_state) ↔ gid ∈ map g_id groups.
Proof.
  intros Hin. apply (Forall2_elem_l _ _ _ _ (bi_bound _ _ _ _ _ _ _ _ _ Hbi)) in Hin as Hx.
  destruct Hx as ([[k m] b] & Hx & r & Hr & [= -> -> Hb] & Hrow). cbn in Hr, Hb, Hrow.
  assert (b_id b ∈ map b_id (map snd (lt_bindings l))) as Hbid.
  { apply list_elem_of_fmap. exists b. split; [done|]. apply list_elem_of_fmap. by eexists (_, b). }
  assert (db_bindings (v1_db final_state) !! b_id b = Some b) as Hfb.
  { apply final_bindings. split_and!; [done| |].
    - unfold old_bindings. rewrite (mg_result _ _ _ _ _ _ _ _ _ Hm). cbn. set_solver.
    - rewrite Hb. cbn. by eapply new_role_kept. }
  exists r, b. split_and!; [done|apply elem_of_keyed; by exists res, ps, r|done|done|].
  intros gid. cbn in Hfb |- *. apply map_lookup_filter_Some in Hfb as [[_ Hn1]%map_lookup_filter_Some Hn2]. cbn in Hn1, Hn2.
  rewrite !elem_of_filter. cbn [fst]. rewrite (mg_final _ _ _ _ _ _ _ _ _ Hm) in Hn2 |- *.
  rewrite elem_of_binding_groups, (elem_of_list_to_set (C := gset Z) gid). tauto.
Qed.
End outcome.
End migration.
