(* ===== verification/RoleRequests.v ===== *)
(** The requests on custom V1 roles (rbac/management/role/view.py) with the handler that
    replicates them (rbac/management/role/inventory_api_dual_write_handler.py): after
    any sequence of creations, updates and deletions the tuple store holds the graph of
    the rows. *)

From stdpp Require Import pretty.
From S2P Require Import Prelude.
From S2P Require Import PyString.
From S2P Require Import Config.
From S2P Require Import PyUuid.
From S2P Require Import RelationTypes.
From S2P Require Import TupleStore.
From S2P Require Import Permissions.
From S2P Require Import ScopeService.
From S2P Require Import Outbox.
From S2P Require Import Tenants.
From S2P Require Import Db.
From S2P Require Import BindingGraph.
From S2P Require Import RoleBindingService.
From S2P Require Import RoleScopes.
From S2P Require Import RoleV2Service.
From S2P Require Import Workspaces.
From S2P Require Import BindingMapping.
From S2P Require Import V1State.
From S2P Require Import RoleMigration.
From S2P Require Import RoleMigrationGraph.

(* ------------------------------------------------------------------ *)
(** * The handler *)

Section handler.
Context `{Settings} `{PySetOrder} `{RowOrder}.
Variables (parse_uuid : string → result string) (gen : V2boundresource → fresh).

(** What the handler holds before the rows are written. *)
Record prepared (h : RoleHandler) (vd : V1Db) : Prop := {
  pr_mappings : rh_binding_mappings h = role_mappings vd (v1_id (rh_role h));
  pr_bindings : rh_role_bindings h = source_bindings vd (v1_id (rh_role h));
  pr_roles : rh_v2_roles h = v2_roles_of vd (v1_id (rh_role h));
  pr_tenant : db_tenants (v1_db vd) !! v1_tenant (rh_role h) = Some (rh_tenant h);
  pr_sound t : t ∈ rh_current_role_relations h → mine vd (v1_id (rh_role h)) t;
  pr_complete t : t ∈ v1_graph vd → others vd (v1_id (rh_role h)) t ∨ t ∈ rh_current_role_relations h;
}.

Lemma prepare_run h vd h' :
  rh_prepare_for_update h vd = Ok h' → v1_wf vd → rh_current_role_relations h = [] →
  db_tenants (v1_db vd) !! v1_tenant (rh_role h) = Some (rh_tenant h) →
  (∀ i r, db_roles (v1_db vd) !! i = Some r → v1_sources vd !! i = Some (v1_id (rh_role h)) → r_tenant r = v1_tenant (rh_role h)) →
  prepared h' vd ∧ rh_role h' = rh_role h ∧ rh_expected_empty h' = rh_expected_empty h ∧ rh_role_relations h' = rh_role_relations h.
Proof.
  intros Hr%dual_write_Ok Hwf Hcur Htn Hrt. apply bind_Ok in Hr as (cur & Hc & [= <-]).
  set (rid := v1_id (rh_role h)) in *.
  assert ((∀ km, km ∉ role_mappings vd rid) ∧ cur = [] ∨ ∃ ts os, cur = ts ++ os
    ∧ (∀ t, t ∈ ts ↔ ∃ m, m ∈ map snd (role_mappings vd rid) ∧ t ∈ mapping_tuples m)
    ∧ ∀ t, t ∈ os ↔ ∃ r x, r ∈ v2_roles_of vd rid ∧ tenant_resource_id (rh_tenant h) = Some x ∧ t = t_owner r x) as Hcase.
  { destruct (role_mappings vd rid) as [|km kms] eqn:Hkm.
    - left. injection Hc as <-. split; [by intros ? ?%elem_of_nil|done].
    - right. apply bind_Ok in Hc as (ts & Hts & Hc). apply bind_Ok in Hc as (os & Hos & [= <-]). exists ts, os.
      split_and!; [done|by apply relation_tuples_Ok|by apply owner_relationships_Ok]. }
  clear Hc. split; [|done]. split; cbn; try done.
  - intros t Ht. destruct Hcase as [[_ ->]|(ts & os & -> & Hts & Hos)]; [by apply elem_of_nil in Ht|].
    apply elem_of_app in Ht as [(m & ([pk m'] & -> & [Hb Hm]%elem_of_role_mappings)%list_elem_of_fmap & Ht)%Hts|
                                (r & x & [Hrow Hs]%elem_of_v2_roles & Hx & ->)%Hos]; [left; eauto|right|apply Hwf].
    exists (r_id r), r. split_and!; [done..|]. apply elem_of_owner_tuples. exists (rh_tenant h), x. by rewrite (Hrt _ _ Hrow Hs).
  - intros t [?|Ht]%(graph_split _ rid); [by left| |done]. right.
    assert (∃ pk m, (pk, m) ∈ role_mappings vd rid) as (pk0 & m0 & Hin).
    { destruct Ht as [(pk & m & Hb & Hm & _)|(i & r & Hrow & Hty & Hs & _)].
      - exists pk, m. by apply elem_of_role_mappings.
      - destruct (vw_custom _ Hwf _ _ _ Hrow Hs Hty) as (pk & m & Hb & Hm). exists pk, m. by apply elem_of_role_mappings. }
    destruct Hcase as [[Hno _]|(ts & os & -> & Hts & Hos)]; [by destruct (Hno _ Hin)|]. apply elem_of_app.
    destruct Ht as [(pk & m & Hb & Hm & Ht)|(i & r & Hrow & Hty & Hs & Ht)]; [left; apply Hts|right; apply Hos].
    + exists m. split; [|done]. apply list_elem_of_fmap. exists (pk, m). by rewrite elem_of_role_mappings.
    + apply elem_of_owner_tuples in Ht as (tn & x & Htn' & Hx & ->). exists r, x.
      rewrite (Hrt _ _ Hrow Hs), Htn in Htn'. injection Htn' as <-. split_and!; [|done..].
      apply elem_of_v2_roles; [apply Hwf|]. by rewrite (proj1 (vw_roles _ Hwf) _ _ Hrow).
Qed.

(** ** Growing workspaces *)

Lemma grows_workspaces ws_id tn d d' : grows ws_id tn d d' → ∃ f, d' = with_workspaces f d.
Proof. intros [-> |(_ & w & -> & _)]; [exists id; by destruct d|by eexists]. Qed.

Lemma with_workspaces_wf f vd : v1_wf vd → v1_wf (with_db (with_workspaces f) vd).
Proof. intros [A B C D E F]. by split. Qed.

Lemma with_workspaces_fresh f vd : fresh_gen gen vd → fresh_gen gen (with_db (with_workspaces f) vd).
Proof. intros [A B C D E F G]. by split. Qed.

(** ** The resources of the scopes *)

Lemma for_model_rbac model r : for_model model = Ok r → br_namespace r = "rbac".
Proof.
  intros (o & Ho & ->%or_raise_Ok)%bind_Ok. unfold try_for_model in Ho. destruct model as [t|w].
  - destruct (tenant_resource_id t); [|done]. by apply bind_Ok in Ho as (x & ->%mk_bound_Ok & [= <-]).
  - by apply bind_Ok in Ho as (x & ->%mk_bound_Ok & [= <-]).
Qed.

Lemma role_resource_map_rbac h service vd m s R r :
  role_resource_map h service vd = Ok m → bound_resource_resolver_from_map m s = Ok R → r ∈ R → br_namespace r = "rbac".
Proof.
  intros (perms & _ & Hr)%bind_Ok HR Hin. apply bind_Ok in Hr as (bs & _ & Hr).
  apply bind_Ok in Hr as (rs & Hrs%mapM_result_Ok & [= <-]).
  assert (∀ k x, dict_of rs !! k = Some x → br_namespace x = "rbac") as Hd.
  { intros k x Hx%dict_of_Some. apply (Forall2_elem_r _ _ _ _ Hrs) in Hx as (sc & _ & Hx).
    apply bind_Ok in Hx as (mo & _ & Hx). apply bind_Ok in Hx as (y & Hy & [= _ <-]).
    by apply for_model_rbac in Hy. }
  unfold bound_resource_resolver_from_map in HR. apply or_raise_Ok in HR.
  unfold with_workspace_scope_inheritance in HR.
  match type of HR with context [fmap _ ?f] => set (flat := f) in HR end.
  assert (∀ k x, flat !! k = Some x → br_namespace x = "rbac") as Hf.
  { intros k x. unfold flat. destruct (dict_of rs !! Scope.ROOT) eqn:E1; [|by apply Hd].
    destruct (dict_of rs !! Scope.DEFAULT); [by apply Hd|].
    intros [[_ <-]|[_ ?]]%lookup_insert_Some; [by eapply Hd|by eapply Hd]. }
  apply lookup_insert_Some in HR as [[_ <-]|[_ HR]].
  - apply elem_of_list_to_set, elem_of_values in Hin as [k Hk]. by eapply Hf.
  - rewrite lookup_fmap in HR. destruct (flat !! s) as [x|] eqn:E; [|done]. injection HR as <-.
    apply elem_of_singleton in Hin as ->. by eapply Hf.
Qed.

(** ** Generating the rows *)

(** No permission name has the character that separates the subject in the text of a
    relationship. *)
Definition clean_names (d : Db) : Prop :=
  ∀ i p, db_permissions d !! i = Some p → has_char "@" (v2_string (p_parts p)) = false.

(** The id for a new ungrouped workspace is in no filter of the role. *)
Definition unnamed (ws_id : string) (role : V1Role) : Prop :=
  ∀ a f ids, a ∈ v1_access role → f ∈ ac_resource_definitions a → filter_ids f ids → ws_id ∉ ids.

Abbreviation grouped vd g := (with_db (λ _, gr_db g) vd).

Record generated (ws_id : string) (role : V1Role) (vd : V1Db) (g : Grouping) (vd' : V1Db) (relations : list RelationTuple)
    (vda : V1Db) (result : MigrateCustomRoleResult) (vd1 : V1Db) (ex : gmap V2boundresource (Z * BindingMapping))
    (groups : list Group) (l : Latest) : Prop := {
  gn_wf : v1_wf (grouped vd g);
  gn_fresh : fresh_gen gen (grouped vd g);
  gn_ok : groupings_ok (gr_perms g);
  gn_grows : grows ws_id (v1_tenant role) (v1_db vd) (gr_db g);
  gn_holds r p : holds (gr_perms g) r p → ∃ a, a ∈ v1_access role ∧ ac_permission a = p;
  gn_parents : parents_step (v1_db vd) (gr_db g) (gr_events g);
  gn_migrated : migrated parse_uuid gen (grouped vd g) role (gr_perms g) vda result vd1 ex groups l;
  gn_final : vd' = final_state gen (grouped vd g) role vda result;
  gn_relations t : t ∈ relations ↔ (∃ pk m, (pk, m) ∈ keyed gen result ∧ t ∈ mapping_tuples m)
                                   ∨ (∃ ps r, (ps, r) ∈ lt_roles l ∧ t ∈ owner_tuples vd r);
}.

(** Saving the outcome of a migration gives the final state. *)
Lemma save_outcome vd role g vda result vd1 ex groups l vd2 ms vd3 vd4 :
  migrated parse_uuid gen vd role g vda result vd1 ex groups l →
  update_mappings_by_pk gen (role_mappings vd (v1_id role)) (mr_binding_mappings result) vda = Ok (vd2, ms) →
  update_bindings_by_pk (source_bindings vd (v1_id role)) (mr_role_bindings result) vd2 = Ok vd3 →
  update_v2_roles_by_pk (v2_roles_of vd (v1_id role)) (mr_v2_roles result) vd3 = Ok vd4 →
  vd4 = final_state gen vd role vda result ∧ ms = keyed gen result.
Proof.
  intros Hm (v2 & ->%save_mappings_run & [= <- <-])%bind_Ok (v3 & Hv3 & [= <-])%bind_Ok (v4 & Hv4 & [= <-])%bind_Ok.
  pose proof (mg_loop _ _ _ _ _ _ _ _ _ _ _ Hm) as [Hri Hbi].
  apply save_bindings_run in Hv3 as ->.
  2: { intros b Hb. rewrite (mg_result _ _ _ _ _ _ _ _ _ _ _ Hm) in Hb. cbn in Hb. apply list_elem_of_fmap in Hb as (x & -> & Hx).
       apply (Forall2_elem_r _ _ _ _ (bi_bound _ _ _ _ _ _ _ _ _ Hbi)) in Hx as (rp & _ & r & _ & _ & Hrow).
       cbn. by rewrite (mg_final _ _ _ _ _ _ _ _ _ _ _ Hm). }
  apply save_roles_run in Hv4 as ->; [done|].
  intros r Hr. rewrite (mg_result _ _ _ _ _ _ _ _ _ _ _ Hm) in Hr. cbn in Hr. apply list_elem_of_fmap in Hr as ([ps r'] & -> & Hr).
  cbn. rewrite (proj1 (vda_roles _ _ _ _ _ _ _ _ _ _ _ Hm)). by destruct (ri_role _ _ _ _ _ _ _ _ Hri _ _ Hr) as (_ & _ & _ & ? & _).
Qed.

Lemma generate_run ws_id h vd vd' h' es :
  generate_relations_and_mappings_for_role parse_uuid gen ws_id h vd = Ok (vd', h', es) →
  prepared h vd → v1_wf vd → fresh_gen gen vd → parses_stored parse_uuid vd → clean_names (v1_db vd) →
  one_ungrouped (v1_db vd) (v1_tenant (rh_role h)) → unnamed ws_id (rh_role h) →
  rh_role h' = rh_role h ∧ rh_expected_empty h' = rh_expected_empty h
  ∧ rh_current_role_relations h' = rh_current_role_relations h
  ∧ ∃ g vda result vd1 ex groups l,
      es = gr_events g ∧ generated ws_id (rh_role h) vd g vd' (rh_role_relations h') vda result vd1 ex groups l
      ∧ ∃ service rm, from_settings = Ok service ∧ role_resource_map h service vd = Ok rm
          ∧ ∀ r p, holds (gr_perms g) r p ↔ granted service (bound_resource_resolver_from_map rm)
                     (default_of (rh_role h) (v1_db vd)) (gr_db g) (rh_role h) p r.
Proof.
  intros Hr%dual_write_Ok [Hpm Hpb Hpr Hpt _ _] Hwf Hfg Hps Hcl Hone Hun.
  apply bind_Ok in Hr as (service & Hservice & Hr). apply bind_Ok in Hr as (rm & Hrm & Hr).
  apply bind_Ok in Hr as ([[[vda rel0] result] evs] & Hmig & Hr).
  apply bind_Ok in Hr as ([vd2 ms] & Hms & Hr). apply bind_Ok in Hr as (vd3 & Hvd3 & Hr).
  apply bind_Ok in Hr as (vd4 & Hvd4 & Hr). apply bind_Ok in Hr as (os & Hos & [= <- <- <-]). cbn. do 3 (split; [done|]).
  unfold migrate_role in Hmig. apply bind_Ok in Hmig as ([[vda' result'] evs'] & Hv & Hmig).
  apply bind_Ok in Hmig as (rel & Hrel & [= -> -> -> ->]).
  unfold v1_role_to_v2_bindings in Hv. apply bind_Ok in Hv as (g & Hg & Hv). apply bind_Ok in Hv as ([vdb result'] & Hv & [= -> -> <-]).
  destruct (group_permissions_run service (bound_resource_resolver_from_map rm) ws_id (rh_role h) (v1_db vd) g Hservice)
    as (Hh & Hok & Hgr & Hpar); [|exact Hone|exact Hun|exact Hg|].
  { intros s R r. by eapply role_resource_map_rbac. }
  destruct (grows_workspaces _ _ _ _ Hgr) as [f Hf].
  assert (grouped vd g = with_db (with_workspaces f) vd) as Hvdg by (unfold with_db; by rewrite Hf).
  assert (v1_wf (grouped vd g) ∧ fresh_gen gen (grouped vd g)) as [Hwf' Hfg'].
  { rewrite Hvdg. split; [by apply with_workspaces_wf|by apply with_workspaces_fresh]. }
  rewrite Hpm, Hpr in Hv. rewrite Hpm in Hms. rewrite Hpb in Hvd3. rewrite Hpr in Hvd4.
  assert (∀ rid, role_mappings vd rid = role_mappings (grouped vd g) rid ∧ source_bindings vd rid = source_bindings (grouped vd g) rid
                 ∧ v2_roles_of vd rid = v2_roles_of (grouped vd g) rid) as Hsame by (by rewrite Hvdg).
  destruct (Hsame (v1_id (rh_role h))) as (Es1 & Es2 & Es3). rewrite Es1, Es3 in Hv. rewrite Es1 in Hms. rewrite Es2 in Hvd3. rewrite Es3 in Hvd4.
  destruct (groupings_run _ _ _ _ _ _ _ Hwf' Hfg' Hps Hok Hv) as (vd1 & ex & groups & l & Hm).
  destruct (save_outcome _ _ _ _ _ _ _ _ _ _ _ _ _ Hm Hms Hvd3 Hvd4) as [-> _].
  exists g, vda, result, vd1, ex, groups, l. split; [done|]. split; [|by exists service, rm]. split; try done.
  { intros r p (_ & a & Ha & Hp & _)%Hh. eauto. }
  intros t. rewrite elem_of_app. f_equiv.
  - destruct (relation_tuples_Ok _ _ Hrel) as [Hts HP].
    assert (∀ m, m ∈ map snd (mr_binding_mappings result) ↔ ∃ pk, (pk, m) ∈ keyed gen result) as Hk.
    { intros m. unfold keyed. setoid_rewrite list_elem_of_fmap. split.
      - intros ([k m'] & -> & Hin). eexists. by exists (k, m').
      - intros (pk & [k m'] & [= -> ->] & Hin). by exists (k, m'). }
    assert (Forall (λ t, rbac_tuple t = true) rel0) as Hrb.
    { apply HP. intros m ts' [pk Hin]%Hk. eapply new_mapping_rbac; [done|exact Hm| |exact Hin].
      cbn. by rewrite (grows_permissions _ _ _ _ Hgr). }
    unfold deduplicate_role_permission_relationships. destruct (dedup_elem ∅ rel0 t Hrb) as [D1 D2].
    transitivity (t ∈ rel0); [split; [done|intros [?|?]%D2; [done|set_solver]]|]. rewrite Hts. setoid_rewrite Hk. naive_solver.
  - rewrite (owner_relationships_Ok _ _ _ Hos). rewrite (mg_result _ _ _ _ _ _ _ _ _ _ _ Hm). cbn. setoid_rewrite elem_of_owner_tuples.
    setoid_rewrite list_elem_of_fmap.
    pose proof (mg_loop _ _ _ _ _ _ _ _ _ _ _ Hm) as [Hri _]. split.
    + intros (r & x & ([ps r'] & -> & Hin) & Hx & ->). exists ps, r'. split; [done|]. exists (rh_tenant h), x.
      destruct (ri_role _ _ _ _ _ _ _ _ Hri _ _ Hin) as (_ & _ & -> & _). done.
    + intros (ps & r & Hin & tn & x & Htn & Hx & ->). exists r, x.
      destruct (ri_role _ _ _ _ _ _ _ _ Hri _ _ Hin) as (_ & _ & Et & _). rewrite Et, Hpt in Htn. injection Htn as <-.
      split_and!; [by exists (ps, r)|done..].
Qed.

(** ** Replicating *)

Lemma members_graph_rest vd vd' :
  db_groups (v1_db vd') = db_groups (v1_db vd) → db_principals (v1_db vd') = db_principals (v1_db vd) →
  v1_members vd' = v1_members vd → members_graph vd' = members_graph vd.
Proof. intros Eg Ep Em. unfold members_graph, member_tuples. by rewrite Em, Eg, Ep. Qed.

Lemma replicate_run h vd es :
  REPLICATION_TO_RELATION_ENABLED = true → rh_replicate h vd = Ok es →
  (rh_expected_empty h = true → rh_current_role_relations h = [] ∧ rh_role_relations h = []) →
  ∀ store, replay store es = Ok (list_to_set (rh_role_relations h) ∪ (store ∖ list_to_set (rh_current_role_relations h))).
Proof.
  intros He Hr Hempty store. unfold rh_replicate in Hr.
  assert (rh_current_role_relations h = [] → rh_role_relations h = [] → es = [] →
          replay store es = Ok (list_to_set (rh_role_relations h) ∪ (store ∖ list_to_set (rh_current_role_relations h)))) as Hnil.
  { intros -> -> ->. unfold replay. cbn. f_equal. set_solver. }
  destruct (rh_expected_empty h); [injection Hr as <-; apply Hnil; try done; by apply Hempty|].
  assert (dual_write (tenant ← or_raise (DoesNotExist "Tenant") (db_tenants (v1_db vd) !! v1_tenant (rh_role h));
      emit (mkReplicationEvent (rh_event_type h)
          [("v1_role_uuid", Some (v1_uuid (rh_role h))); ("org_id", Some (py_str (org_id tenant)))]
          (rh_role_relations h) (rh_current_role_relations h))) = Ok es →
    replay store es = Ok (list_to_set (rh_role_relations h) ∪ (store ∖ list_to_set (rh_current_role_relations h)))) as Hemit.
  { intros (tn & _ & Hem)%dual_write_Ok%bind_Ok. by rewrite (emit_accepted _ _ He Hem). }
  destruct (rh_current_role_relations h), (rh_role_relations h); [injection Hr as <-; by apply Hnil|by apply Hemit..].
Qed.

Lemma mine_not_member vd rid vd' t : mine vd rid t → t ∉ members_graph vd'.
Proof.
  rewrite elem_of_members_graph. intros [(pk & m & _ & _ & Ht)|(i & r & _ & _ & Ht)] (gid & pid & g & p & u & _ & _ & _ & _ & ->).
  - by apply elem_of_mapping_tuples in Ht as [E|[(q & _ & E)|[E|[(x & _ & E)|(x & _ & E)]]]].
  - apply elem_of_owner_tuples in Ht as (tn & x & _ & _ & E). discriminate E.
Qed.

Lemma mine_not_parent vd rid d t : mine vd rid t → t ∉ parents_graph d.
Proof.
  rewrite elem_of_parents_graph. intros [(pk & m & _ & _ & Ht)|(i & r & _ & _ & Ht)] (w & p & _ & ->).
  - by apply elem_of_mapping_tuples in Ht as [E|[(q & _ & E)|[E|[(x & _ & E)|(x & _ & E)]]]].
  - apply elem_of_owner_tuples in Ht as (tn & x & _ & _ & E). discriminate E.
Qed.
End handler.

(* ------------------------------------------------------------------ *)
(** * The integrity of the rows *)

(** The role binding beside a mapping. *)
Definition has_binding (vd : V1Db) (m : BindingMapping) : Prop :=
  ∃ i b, db_bindings (v1_db vd) !! i = Some b ∧ b_uuid b = bm_id m ∧ v1_sources vd !! b_role b = Some (bm_role m).

Definition group_keys (d : Db) : Prop :=
  (∀ i g, db_groups d !! i = Some g → g_id g = i)
  ∧ (∀ i j g h, db_groups d !! i = Some g → db_groups d !! j = Some h → g_uuid g = g_uuid h → i = j).

Definition user_keys (d : Db) : Prop :=
  (∀ i p, db_principals d !! i = Some p → pr_id p = i)
  ∧ (∀ i j p q u, db_principals d !! i = Some p → db_principals d !! j = Some q → user_id p = Some u → user_id q = Some u → i = j).

Record v1_ok (vd : V1Db) : Prop := {
  vo_wf : v1_wf vd;
  vo_bm_role pk m : v1_bm vd !! pk = Some m → is_Some (v1_roles vd !! bm_role m);
  vo_source i s : v1_sources vd !! i = Some s → is_Some (v1_roles vd !! s);
  vo_tenant i r s role : db_roles (v1_db vd) !! i = Some r → v1_sources vd !! i = Some s → v1_roles vd !! s = Some role →
    r_tenant r = v1_tenant role;
  vo_names : clean_names (v1_db vd);
  vo_ungrouped tn : one_ungrouped (v1_db vd) tn;
  vo_custom i r s role : db_roles (v1_db vd) !! i = Some r → r_type r = CUSTOM → v1_sources vd !! i = Some s →
    v1_roles vd !! s = Some role → v1_system role = false;
  vo_uuid i j role role' : v1_roles vd !! i = Some role → v1_roles vd !! j = Some role' → v1_uuid role = v1_uuid role' → i = j;
  vo_system_uuid i role pk m : v1_roles vd !! i = Some role → v1_system role = true → v1_bm vd !! pk = Some m →
    vr_id (bm_role_value m) = v1_uuid role → bm_role m = i;
  vo_role_id i role : v1_roles vd !! i = Some role → v1_id role = i;
  vo_groups : group_keys (v1_db vd);
  vo_users : user_keys (v1_db vd);
  vo_system_perms pk m role : v1_bm vd !! pk = Some m → v1_roles vd !! bm_role m = Some role → v1_system role = true →
    vr_permissions (bm_role_value m) = ∅;
  vo_bound pk m role : v1_bm vd !! pk = Some m → v1_roles vd !! bm_role m = Some role → v1_system role = false → has_binding vd m;
}.

(** A custom role that has a mapping has access. *)
Definition access_ok (P : Z → Prop) (vd : V1Db) : Prop :=
  ∀ pk m role, v1_bm vd !! pk = Some m → P (bm_role m) → v1_roles vd !! bm_role m = Some role → v1_system role = false →
    v1_access role ≠ [].

(** The group entries of a role binding are the groups of a mapping. *)
Definition synced (vd : V1Db) (i : Z) (m : BindingMapping) : Prop :=
  ∀ gid, (i, gid) ∈ db_group_entries (v1_db vd) ↔ ∃ grp, db_groups (v1_db vd) !! gid = Some grp ∧ g_uuid grp ∈ bm_groups m.

(** Every role binding that has the UUID of a mapping has its groups. *)
Definition in_step (vd : V1Db) : Prop := ∀ pk m i b,
  v1_bm vd !! pk = Some m → db_bindings (v1_db vd) !! i = Some b → b_uuid b = bm_id m → synced vd i m.

(** A policy gives the role to the group. *)
Definition policy_group (vd : V1Db) (rid gid : Z) : Prop :=
  ∃ k p, v1_policies vd !! k = Some p ∧ rid ∈ po_roles p ∧ po_group p = Some gid.

(** The mappings of a custom role are for the groups of the policies that have it. *)
Definition assigned (vd : V1Db) : Prop := ∀ pk m role,
  v1_bm vd !! pk = Some m → v1_roles vd !! bm_role m = Some role → v1_system role = false →
  NoDup (bm_groups m)
  ∧ ∀ u, u ∈ bm_groups m ↔ ∃ gid grp, policy_group vd (bm_role m) gid ∧ db_groups (v1_db vd) !! gid = Some grp ∧ g_uuid grp = u.

Lemma grows_all_one ws_id t d d' tn : grows ws_id t d d' → one_ungrouped d tn → one_ungrouped d' tn.
Proof.
  intros Hg. destruct (decide (tn = t)) as [->|Hne]; [by eapply grows_one|].
  destruct Hg as [-> |(_ & x & -> & Hid & Hx & _ & Hn)]; [done|]. intros Hone.
  assert (∀ y, ungrouped_of (put_workspace x d) tn y → ungrouped_of d tn y) as Hy.
  { intros y ((k & Hk) & Hy). apply lookup_put_workspace in Hk as [[_ ->]|Hk]; [destruct Hy; congruence| |by rewrite Hid].
    split; [eauto|done]. }
  intros y y' ?%Hy ?%Hy. by apply Hone.
Qed.

(** The tuples that the rows stand for. *)
Definition rows_graph `{Settings} (vd : V1Db) : tuples := parents_graph (v1_db vd) ∪ v1_graph vd ∪ members_graph vd.

Section update.
Context `{Settings} `{PySetOrder} `{RowOrder}.
Variables (parse_uuid : string → result string) (gen : V2boundresource → fresh).

Section outcome.
Variables (ws_id : string) (role : V1Role) (vd : V1Db) (g : Grouping) (vd' : V1Db) (relations : list RelationTuple).
Variables (vda : V1Db) (result : MigrateCustomRoleResult) (vd1 : V1Db) (ex : gmap V2boundresource (Z * BindingMapping)).
Variables (groups : list Group) (l : Latest).
Hypothesis Hgn : generated parse_uuid gen ws_id role vd g vd' relations vda result vd1 ex groups l.
Hypotheses (Hok : v1_ok vd) (Hps : parses_stored parse_uuid vd) (Hrow : v1_roles vd !! v1_id role = Some role).

Abbreviation Hwf' := (gn_wf _ _ _ _ _ _ _ _ _ _ _ _ _ _ Hgn).
Abbreviation Hfresh := (gn_fresh _ _ _ _ _ _ _ _ _ _ _ _ _ _ Hgn).
Abbreviation Hgok := (gn_ok _ _ _ _ _ _ _ _ _ _ _ _ _ _ Hgn).
Abbreviation Hgrows := (gn_grows _ _ _ _ _ _ _ _ _ _ _ _ _ _ Hgn).
Abbreviation Hfinal := (gn_final _ _ _ _ _ _ _ _ _ _ _ _ _ _ Hgn).
Abbreviation Hm := (gn_migrated _ _ _ _ _ _ _ _ _ _ _ _ _ _ Hgn).
Abbreviation Hri := (li_roles _ _ _ _ _ _ _ _ (mg_loop _ _ _ _ _ _ _ _ _ _ _ Hm)).

Lemma generated_rest :
  db_tenants (v1_db vd') = db_tenants (v1_db vd) ∧ db_workspaces (v1_db vd') = db_workspaces (gr_db g)
  ∧ db_permissions (v1_db vd') = db_permissions (v1_db vd) ∧ v1_roles vd' = v1_roles vd ∧ db_groups (v1_db vd') = db_groups (v1_db vd)
  ∧ db_principals (v1_db vd') = db_principals (v1_db vd) ∧ v1_members vd' = v1_members vd.
Proof.
  rewrite Hfinal.
  destruct (final_rest _ _ _ _ _ _ _ _ _ _ _ Hm) as (-> & -> & -> & -> & -> & -> & ->). cbn.
  destruct (grows_workspaces _ _ _ _ Hgrows) as [f ->]. done.
Qed.

Lemma generated_wf : v1_wf vd'.
Proof.
  rewrite Hfinal.
  eapply final_wf; [apply Hwf'|apply Hfresh|done|
    apply Hgok|exact Hm].
Qed.

Lemma generated_graph t : t ∈ v1_graph vd' ↔ others vd (v1_id role) t ∨ t ∈ relations.
Proof.
  rewrite (gn_relations _ _ _ _ _ _ _ _ _ _ _ _ _ _ Hgn), Hfinal.
  rewrite (final_graph _ _ _ _ _ _ _ _ _ _ _ Hwf' Hfresh
             Hps Hgok Hm).
  unfold others, owner_tuples. cbn. destruct (grows_workspaces _ _ _ _ Hgrows) as [f ->]. done.
Qed.

(** Only access makes groupings. *)
Lemma generated_nonempty r ps : (r, ps) ∈ gr_perms g → v1_access role ≠ [].
Proof.
  intros Hin. destruct Hgok as [_ Hne]. destruct (Hne r ps Hin) as [[p Hp]%set_choose_L _].
  destruct (gn_holds _ _ _ _ _ _ _ _ _ _ _ _ _ _ Hgn r p) as (a & Ha & _); [by exists ps|].
  intros E. rewrite E in Ha. by apply elem_of_nil in Ha.
Qed.

Lemma latest_role_nonempty ps r : (ps, r) ∈ lt_roles l → v1_access role ≠ [].
Proof.
  intros Hin. destruct (ri_role _ _ _ _ _ _ _ _ Hri _ _ Hin) as (_ & _ & _ & _ & _ & res & ([k c] & _ & Hk)%list_elem_of_fmap & _).
  by apply generated_nonempty in Hk.
Qed.

Lemma keyed_nonempty pk m : (pk, m) ∈ keyed gen result → bm_role m = v1_id role ∧ v1_access role ≠ [].
Proof.
  intros (res & ps & r & Hin & _ & _ & ->)%(elem_of_keyed _ _ _ _ _ _ _ _ _ _ _ Hgok Hm). split; [done|]. by apply generated_nonempty in Hin.
Qed.

Lemma generated_empty : v1_access role = [] → relations = [].
Proof.
  intros Ha. apply elem_of_nil_inv. intros t Ht.
  apply (gn_relations _ _ _ _ _ _ _ _ _ _ _ _ _ _ Hgn) in Ht as [(pk & m & [_ Hk]%keyed_nonempty & _)|(ps & r & Hk%latest_role_nonempty & _)]; done.
Qed.

Lemma generated_ok : v1_ok vd'.
Proof.
  destruct generated_rest as (Et & Ew & Ep & Er & Eg & Epr & _). split.
  - apply generated_wf.
  - intros pk m. rewrite Er, Hfinal, (final_bm _ _ _ _ _ _ _ _ _ _ _ Hfresh Hgok Hm).
    intros [[-> _]%keyed_nonempty|(m0 & Hb & _ & ->)]; [eauto|].
    rewrite clear_v2_role_role. by apply (vo_bm_role _ Hok pk).
  - intros i s. rewrite Er, Hfinal, (final_sources _ _ _ _ _ _ _ _ _ _ _ Hwf' Hm). intros [[-> _]|[_ Hs]]; [eauto|by apply (vo_source _ Hok i)].
  - intros i r s role'. rewrite Er, Hfinal, (final_sources _ _ _ _ _ _ _ _ _ _ _ Hwf' Hm), (final_roles _ _ _ _ _ _ _ _ _ _ _ Hwf' Hm).
    destruct (grows_workspaces _ _ _ _ Hgrows) as [f Hf]. cbn. rewrite Hf. cbn.
    intros [(ps & Hin & ->)|[Hr Hn]] [[-> Hs]|[Hne Hs]] Hrole.
    + rewrite Hrow in Hrole. injection Hrole as <-. by destruct (ri_role _ _ _ _ _ _ _ _ Hri _ _ Hin) as (_ & _ & ? & _).
    + destruct (vw_source _ (vo_wf _ Hok) _ _ Hs) as [r0 Hr0].
      destruct (new_role_other _ _ _ _ _ _ _ _ _ _ _ Hm (r_id r) r0 r ps) as []; try done; [cbn; by rewrite Hf|cbn; congruence].
    + destruct Hs as (ps & r' & Hin & ->).
      destruct (new_role_other _ _ _ _ _ _ _ _ _ _ _ Hm (r_id r') r r' ps) as []; try done. cbn; by rewrite Hf.
    + by apply (vo_tenant _ Hok i r s role').
  - unfold clean_names. rewrite Ep. apply (vo_names _ Hok).
  - intros tn. pose proof (grows_all_one _ _ _ _ tn Hgrows (vo_ungrouped _ Hok tn)) as Hone.
    unfold one_ungrouped, ungrouped_of in *. by rewrite Ew.
  - intros i r s role'. rewrite Er, Hfinal, (final_sources _ _ _ _ _ _ _ _ _ _ _ Hwf' Hm), (final_roles _ _ _ _ _ _ _ _ _ _ _ Hwf' Hm).
    destruct (grows_workspaces _ _ _ _ Hgrows) as [f Hf]. cbn. rewrite Hf. cbn.
    intros Hr Hty [[-> _]|[Hne Hs]] Hrole.
    + rewrite Hrow in Hrole. injection Hrole as <-. apply (mg_system _ _ _ _ _ _ _ _ _ _ _ Hm).
    + destruct Hr as [(ps & Hin & ->)|[Hr _]]; [|by apply (vo_custom _ Hok i r s role')].
      destruct (vw_source _ (vo_wf _ Hok) _ _ Hs) as [r0 Hr0].
      destruct (new_role_other _ _ _ _ _ _ _ _ _ _ _ Hm (r_id r) r0 r ps) as []; try done; [cbn; by rewrite Hf|cbn; congruence].
  - rewrite Er. apply (vo_uuid _ Hok).
  - intros i role' pk m. rewrite Er, Hfinal, (final_bm _ _ _ _ _ _ _ _ _ _ _ Hfresh Hgok Hm). intros Hrole Hsys.
    intros [(res & ps & r & Hin & Hr & -> & ->)%(elem_of_keyed _ _ _ _ _ _ _ _ _ _ _ Hgok Hm)|(m0 & Hb & Hne & ->)]; cbn.
    + destruct (ri_role _ _ _ _ _ _ _ _ Hri _ _ Hr) as (_ & _ & _ & _ & _ & res' & _ & [Hu|(pk0 & m0 & He & Hu)]); intros E.
      { rewrite Hu in E. by destruct (fg_system_uuid _ _ Hfresh res' i role' Hrole). }
      destruct (mg_existing _ _ _ _ _ _ _ _ _ _ _ Hm _ _ _ He) as (_ & Hr0 & Hb0). cbn in Hb0. rewrite <- Hr0.
      apply (vo_system_uuid _ Hok i role' pk0 m0); try done. rewrite <- E. symmetry. by eapply Hps.
    + rewrite clear_v2_role_role, clear_v2_role_value. by apply (vo_system_uuid _ Hok i role' pk m0).
  - rewrite Er. apply (vo_role_id _ Hok).
  - unfold group_keys. rewrite Eg. apply (vo_groups _ Hok).
  - unfold user_keys. rewrite Epr. apply (vo_users _ Hok).
  - intros pk m role'. rewrite Er, Hfinal, (final_bm _ _ _ _ _ _ _ _ _ _ _ Hfresh Hgok Hm).
    intros [[-> _]%keyed_nonempty|(m0 & Hb & Hne & ->)].
    + rewrite Hrow. intros [= <-]. by rewrite (mg_system _ _ _ _ _ _ _ _ _ _ _ Hm).
    + rewrite clear_v2_role_role, clear_v2_role_value. by apply (vo_system_perms _ Hok pk).
  - intros pk m role'. rewrite Er. unfold has_binding. rewrite Hfinal, (final_bm _ _ _ _ _ _ _ _ _ _ _ Hfresh Hgok Hm).
    intros [(res & ps & r & Hin & Hr & -> & ->)%(elem_of_keyed _ _ _ _ _ _ _ _ _ _ _ Hgok Hm)|(m0 & Hb & Hne & ->)] Hrole Hsys.
    + destruct (new_binding_row _ _ _ _ _ _ _ _ _ _ _ Hwf' Hfresh Hps Hgok Hm res ps Hin) as (r' & b & Hr' & _ & Hb & Eb & _).
      exists (b_id b), b. rewrite Eb at 3 4. split_and!; [done|done|]. cbn.
      apply (final_sources _ _ _ _ _ _ _ _ _ _ _ Hwf' Hm). left. split; [done|]. by exists ps, r'.
    + rewrite clear_v2_role_role in Hrole. destruct (vo_bound _ Hok _ _ _ Hb Hrole Hsys) as (i & b & Hi & Hu & Hs).
      destruct (grows_workspaces _ _ _ _ Hgrows) as [f Hf].
      destruct (other_binding_kept _ _ _ _ _ _ _ _ _ _ _ Hwf' Hfresh Hm pk m0 i b) as [H1' H2']; [done|done|cbn; by rewrite Hf|done|done|].
      exists i, b. rewrite clear_v2_role_role, clear_v2_role_id. done.
Qed.

Lemma generated_access : access_ok (λ i, i ≠ v1_id role) vd → access_ok (λ _, True) vd'.
Proof.
  intros Ha pk m role' Hb _. destruct generated_rest as (_ & _ & _ & -> & _).
  rewrite Hfinal, (final_bm _ _ _ _ _ _ _ _ _ _ _ Hfresh Hgok Hm) in Hb.
  destruct Hb as [[-> Hne]%keyed_nonempty|(m0 & Hb & Hn & ->)].
  - rewrite Hrow. by intros [= <-] _.
  - rewrite clear_v2_role_role. by apply (Ha pk).
Qed.

(** The mapping of a resource, the binding beside it and the V2 role of both. *)
Definition bound_at (res : V2boundresource) (r : RoleV2) (pk : Z) (m : BindingMapping) : Prop :=
  ∃ i b, v1_bm vd' !! pk = Some m ∧ bm_role m = v1_id role ∧ mkBound (bm_namespace m) (bm_resource_type m) (bm_resource_id m) = res
    ∧ db_roles (v1_db vd') !! r_id r = Some r ∧ v1_sources vd' !! r_id r = Some (v1_id role)
    ∧ bm_v2_role m = Some (r_id r) ∧ bm_role_value m = mkV2role (r_uuid r) false (permission_names (v1_db vd') (r_permissions r))
    ∧ db_bindings (v1_db vd') !! i = Some b ∧ b_uuid b = bm_id m ∧ b_role b = r_id r
    ∧ b_resource_type b = br_name res ∧ b_resource_id b = br_id res ∧ b_tenant b = v1_tenant role
    ∧ (∀ gid, (i, gid) ∈ db_group_entries (v1_db vd') ↔
         ∃ k p, v1_policies vd !! k = Some p ∧ v1_id role ∈ po_roles p ∧ po_group p = Some gid)
    ∧ (∀ gid, (i, gid) ∈ db_group_entries (v1_db vd') → is_Some (db_groups (v1_db vd') !! gid))
    ∧ (∀ u, u ∈ bm_groups m ↔ ∃ gid grp, (i, gid) ∈ db_group_entries (v1_db vd') ∧ db_groups (v1_db vd') !! gid = Some grp ∧ g_uuid grp = u)
    ∧ NoDup (bm_groups m).

Abbreviation new_mapping := (mapping_for gen role ex (set_iter (list_to_set (map g_uuid groups) : gset string)) (v1_db vd1)).

Lemma generated_bound res ps :
  (res, ps) ∈ gr_perms g →
  ∃ r, (ps, r) ∈ lt_roles l ∧ r_permissions r = ps ∧ bound_at res r (mapping_key gen ex res) (new_mapping res r).
Proof.
  intros Hin. destruct (new_binding_row _ _ _ _ _ _ _ _ _ _ _ Hwf' Hfresh Hps Hgok Hm res ps Hin) as (r & b & Hr & Hk & Hb & Eb & Hge).
  rewrite <- Hfinal in Hb, Hge. exists r. split; [done|].
  destruct (ri_role _ _ _ _ _ _ _ _ Hri _ _ Hr) as (Hps' & _ & _ & _ & _ & _). split; [done|].
  destruct generated_rest as (_ & _ & Ep & _ & Eg & _).
  destruct (grows_workspaces _ _ _ _ Hgrows) as [f Hf].
  assert (db_permissions (v1_db vd1) = db_permissions (v1_db vd)) as Ep1.
  { rewrite (rn_rest _ _ _ (mg_renamed _ _ _ _ _ _ _ _ _ _ _ Hm)). cbn. by rewrite Hf. }
  assert (∀ i grp, db_groups (v1_db (with_db (λ _, gr_db g) vd)) !! i = Some grp → g_id grp = i) as Hgk
    by (cbn; rewrite Hf; apply (vo_groups _ Hok)).
  destruct (policy_groups _ _ _ Hgk (mg_groups _ _ _ _ _ _ _ _ _ _ _ Hm)) as [Hpol Hgrp].
  exists (b_id b), b.
  split_and!; try done.
  - rewrite Hfinal. apply (final_bm _ _ _ _ _ _ _ _ _ _ _ Hfresh Hgok Hm). by left.
  - destruct Hgok as [_ Hns]. destruct (Hns _ _ Hin) as [_ Hn]. destruct res as [n nm i']. cbn in *. by subst n.
  - rewrite Hfinal. apply (final_roles _ _ _ _ _ _ _ _ _ _ _ Hwf' Hm). left. eauto.
  - rewrite Hfinal. apply (final_sources _ _ _ _ _ _ _ _ _ _ _ Hwf' Hm). left. eauto.
  - cbn. unfold permission_names, permissions_of. by rewrite Ep1, Ep.
  - by rewrite Eb.
  - by rewrite Eb.
  - by rewrite Eb.
  - by rewrite Eb.
  - by rewrite Eb.
  - intros gid. by rewrite Hge, Hpol.
  - intros gid (grp & -> & Hgg%Hgrp)%Hge%list_elem_of_fmap. rewrite Eg. cbn in Hgg. rewrite Hf in Hgg. eauto.
  - intros u. cbn. rewrite elem_of_set_iter, elem_of_list_to_set, list_elem_of_fmap. setoid_rewrite Hge. setoid_rewrite list_elem_of_fmap.
    rewrite Eg. cbn in Hgrp. rewrite Hf in Hgrp. cbn in Hgrp. split.
    + intros (grp & -> & Hg). exists (g_id grp), grp. split_and!; [eauto|by apply Hgrp|done].
    + intros (gid & grp & (grp' & -> & Hg) & Hgl & <-). apply Hgrp in Hg as Hg'. rewrite Hg' in Hgl. injection Hgl as <-. eauto.
  - cbn. rewrite set_iter_perm. apply NoDup_elements.
Qed.

Lemma generated_mapping pk m :
  v1_bm vd' !! pk = Some m → bm_role m = v1_id role →
  ∃ res r, (res, r_permissions r) ∈ gr_perms g ∧ pk = mapping_key gen ex res ∧ bound_at res r pk m.
Proof.
  intros Hb Hrole. rewrite Hfinal, (final_bm _ _ _ _ _ _ _ _ _ _ _ Hfresh Hgok Hm) in Hb.
  destruct Hb as [(res & ps & r & Hin & Hr & -> & ->)%(elem_of_keyed _ _ _ _ _ _ _ _ _ _ _ Hgok Hm)|(m0 & _ & Hn & ->)].
  - destruct (generated_bound _ _ Hin) as (r' & Hr' & <- & Hb). exists res, r'. split; [done|].
    by rewrite (latest_role_unique _ _ _ _ _ _ _ _ _ _ _ Hm _ _ _ Hr Hr').
  - by rewrite clear_v2_role_role in Hrole.
Qed.

(** The role bindings stay in step with the mappings, and these with the policies. *)
Lemma generated_in_step : in_step vd → in_step vd'.
Proof.
  intros Hs pk m i b Hb Hi Hu. destruct generated_rest as (_ & _ & _ & _ & Eg & _). destruct (decide (bm_role m = v1_id role)) as [E|Hne].
  - destruct (generated_mapping _ _ Hb E) as (res & r & _ & _ & i0 & b0 & _ & _ & _ & _ & _ & _ & _ & Hb0 & Hu0 & _ & _ & _ & _ & _ & Hex & Hgr & _).
    assert (i = i0) as <- by (apply (proj2 (vw_bindings _ generated_wf) _ _ b b0); congruence). intros gid. split.
    + intros Hin. destruct (Hex gid Hin) as [grp Hg]. exists grp. split; [done|]. apply Hgr. eauto.
    + intros (grp & Hg & (gid' & grp' & Hin & Hg' & E')%Hgr).
      by rewrite (proj2 (vo_groups _ generated_ok) _ _ _ _ Hg Hg' (eq_sym E')).
  - rewrite Hfinal, (final_bm _ _ _ _ _ _ _ _ _ _ _ Hfresh Hgok Hm) in Hb. destruct Hb as [[? _]%keyed_nonempty|(m0 & Hb & Hn & ->)]; [done|].
    rewrite clear_v2_role_id in Hu. rewrite Hfinal in Hi.
    destruct (other_binding_same _ _ _ _ _ _ _ _ _ _ _ Hwf' Hfresh Hm pk m0 i b Hb Hn Hi Hu) as [Hi0 Hent].
    destruct (grows_workspaces _ _ _ _ Hgrows) as [f Hf]. cbn [with_db v1_db] in Hi0, Hent. rewrite Hf in Hi0. setoid_rewrite Hf in Hent at 2.
    intros gid. rewrite Eg, clear_v2_role_groups. rewrite Hfinal. etrans; [apply Hent|]. by apply (Hs pk m0 i b).
Qed.

Lemma generated_assigned : assigned vd → assigned vd'.
Proof.
  intros Ha pk m role' Hb Hr Hs. destruct generated_rest as (_ & _ & _ & Er & Eg & _).
  assert (∀ rid gid, policy_group vd' rid gid ↔ policy_group vd rid gid) as Hpg.
  { intros rid gid. unfold policy_group. by rewrite Hfinal, (final_policies _ _ _ _ _ _ _ _ _ _ _ Hm). }
  setoid_rewrite Hpg. destruct (decide (bm_role m = v1_id role)) as [E|Hne].
  - destruct (generated_mapping _ _ Hb E) as (res & r & _ & _ & i0 & b0 & _ & _ & _ & _ & _ & _ & _ & _ & _ & _ & _ & _ & _ & Hent & _ & Hgr & Hn).
    split; [done|]. intros u. rewrite Hgr, E. unfold policy_group. by setoid_rewrite Hent.
  - rewrite Hfinal, (final_bm _ _ _ _ _ _ _ _ _ _ _ Hfresh Hgok Hm) in Hb. destruct Hb as [[? _]%keyed_nonempty|(m0 & Hb & Hn & ->)]; [done|].
    rewrite clear_v2_role_role in Hr |- *. rewrite Er in Hr. rewrite Eg, clear_v2_role_groups. by eapply Ha.
Qed.

Lemma bound_at_resource res r pk m :
  bound_at res r pk m → (res, r_permissions r) ∈ gr_perms g ∧ pk = mapping_key gen ex res.
Proof.
  intros (i & b & Hb & Hrole & <- & Hr & _ & Hv & _).
  destruct (generated_mapping _ _ Hb Hrole) as (res & r' & Hin & -> & (i' & b' & _ & _ & <- & Hr' & _ & Hv' & _)).
  rewrite Hv in Hv'. injection Hv' as Hv'. rewrite <- Hv', Hr in Hr'. by injection Hr' as <-.
Qed.

Lemma generated_holds res p : holds (gr_perms g) res p ↔ ∃ r pk m, bound_at res r pk m ∧ p ∈ r_permissions r.
Proof.
  split.
  - intros (ps & Hin & Hp). destruct (generated_bound _ _ Hin) as (r & _ & <- & Hb). eauto.
  - intros (r & pk & m & [Hin _]%bound_at_resource & Hp). by exists (r_permissions r).
Qed.
End outcome.

Lemma new_or_updated_run ws_id role h vd vd' es :
  replicate_new_or_updated_role parse_uuid gen ws_id role h vd = Ok (vd', es) →
  v1_ok vd → access_ok (λ i, i ≠ v1_id role) vd → v1_roles vd !! v1_id role = Some role → prepared (set_role role h) vd →
  fresh_gen gen vd → parses_stored parse_uuid vd → unnamed ws_id role →
  (rh_expected_empty h = true → v1_access role = [] ∧ rh_current_role_relations h = []) →
  v1_ok vd' ∧ access_ok (λ _, True) vd' ∧ (in_step vd → in_step vd') ∧ (assigned vd → assigned vd')
  ∧ (REPLICATION_TO_RELATION_ENABLED = true →
     replay (rows_graph vd) es = Ok (rows_graph vd')).
Proof.
  intros ([[vd2 h'] es1] & Hgen & Hr)%bind_Ok Hok Hacc Hrow Hpr Hfg Hps Hun Hempty.
  apply bind_Ok in Hr as (es2 & Hrep & [= <- <-]).
  destruct (generate_run _ _ _ _ _ _ _ _ Hgen Hpr (vo_wf _ Hok) Hfg Hps (vo_names _ Hok) (vo_ungrouped _ Hok _) Hun)
    as (_ & Ee & Ec & g & vda & result & vd1 & ex & groups & l & -> & Hgn & _). cbn in Ee, Ec, Hgn.
  split; [by eapply generated_ok|]. split; [by eapply generated_access|].
  split; [by eapply generated_in_step|]. split; [by eapply generated_assigned|]. intros He.
  unfold replay, rows_graph. rewrite foldM_app, <- (assoc_L (∪)).
  pose proof (gn_parents _ _ _ _ _ _ _ _ _ _ _ _ _ _ Hgn He (v1_graph vd ∪ members_graph vd)) as Hp.
  unfold replay in Hp. rewrite Hp. cbn [mbind result_bind].
  pose proof (replicate_run _ _ _ He Hrep) as Hev. unfold replay in Hev. rewrite Hev; clear Hev Hp.
  2: { rewrite Ee, Ec. intros [Ha Hc]%Hempty. split; [done|]. eapply generated_empty; [exact Hgn|..]; done. }
  f_equal. rewrite Ec.
  assert (parents_graph (v1_db vd2) = parents_graph (gr_db g)) as ->.
  { unfold parents_graph. f_equal. f_equal. f_equal. by eapply generated_rest. }
  assert (members_graph vd2 = members_graph vd) as -> by (apply members_graph_rest; by eapply generated_rest).
  destruct Hpr as [_ _ _ _ Hsound Hcomplete]. cbn in Hsound, Hcomplete.
  apply set_eq. intros t. rewrite !elem_of_union, elem_of_difference, !elem_of_union, !elem_of_list_to_set.
  assert (t ∈ v1_graph vd2 ↔ others vd (v1_id role) t ∨ t ∈ rh_role_relations h') as -> by (by eapply generated_graph). split.
  - intros [?|[[?|[Ht%Hcomplete|?]] Hn]]; tauto.
  - intros [[Hp|[Ho|?]]|Hmem]; [right|right|by left|right]; split.
    + by left.
    + intros Hc%Hsound. by eapply mine_not_parent.
    + right. left. apply (graph_split _ (v1_id role)); [apply Hok|by left].
    + intros Hc%Hsound. by apply (mine_not_others vd (v1_id role) t (vo_wf _ Hok)).
    + by right; right.
    + intros Hc%Hsound. by eapply mine_not_member.
Qed.
End update.

(* ------------------------------------------------------------------ *)
(** * Writing and deleting the V1 role *)

(** A policy that goes with a role has no other. *)
Lemma kept_policies role vd rid gid :
  rid ≠ v1_id role → policy_group (delete_policies_if_no_role_attached role vd) rid gid ↔ policy_group vd rid gid.
Proof.
  intros Hne. unfold policy_group. cbn. setoid_rewrite map_lookup_filter_Some. cbn. split.
  - intros (k & p & [Hp _] & Hin & Hg). eauto.
  - intros (k & p & Hp & Hin & Hg). exists k, p. split_and!; try done. intros [Hr Hs]. apply Hne.
    apply (size_singleton_inv (po_roles p)); done.
Qed.

Lemma put_v1_role_ok role vd :
  v1_ok vd → v1_system role = false →
  (∀ i r, db_roles (v1_db vd) !! i = Some r → v1_sources vd !! i = Some (v1_id role) → r_tenant r = v1_tenant role) →
  (∀ i r, v1_roles vd !! i = Some r → v1_uuid r = v1_uuid role → i = v1_id role) →
  (∀ pk m, v1_bm vd !! pk = Some m → bm_role m = v1_id role → has_binding vd m) →
  v1_ok (put_v1_role role vd).
Proof.
  intros [A B C D E F G U V I Gk Uk P K] Hsys Ht Hu Hb. split; try done.
  - by destruct A.
  - intros pk m [r Hr]%B. cbn. rewrite lookup_insert_is_Some. destruct (decide (v1_id role = bm_role m)); eauto.
  - intros i s [r Hr]%C. cbn. rewrite lookup_insert_is_Some. destruct (decide (v1_id role = s)); eauto.
  - cbn. intros i r s role' Hr Hs [[<- <-]|[_ Hrole]]%lookup_insert_Some; [by eapply Ht|by eapply D].
  - cbn. intros i r s role' Hr Hty Hs [[<- <-]|[_ Hrole]]%lookup_insert_Some; [done|by eapply G].
  - cbn. intros i j r r' [[<- <-]|[_ Hi]]%lookup_insert_Some [[<- <-]|[_ Hj]]%lookup_insert_Some E'; [done|..].
    + symmetry. by eapply Hu.
    + by eapply Hu.
    + by eapply U.
  - cbn. intros i r pk m [[<- <-]|[_ Hi]]%lookup_insert_Some Hs Hm E'; [congruence|by eapply V].
  - cbn. intros i r [[<- <-]|[_ Hi]]%lookup_insert_Some; [done|by apply I].
  - cbn. intros pk m role' Hm [[E' <-]|[_ Hrole]]%lookup_insert_Some Hs; [congruence|by apply (P pk m role')].
  - cbn. intros pk m role' Hm [[E' <-]|[_ Hrole]]%lookup_insert_Some Hs; [by apply (Hb pk)|by apply (K pk m role')].
Qed.

Lemma put_v1_role_access role vd :
  access_ok (λ _, True) vd → access_ok (λ i, i ≠ v1_id role) (put_v1_role role vd).
Proof. intros Ha pk m r Hb Hne Hr. cbn in Hr. rewrite lookup_insert_ne in Hr by done. by eapply Ha. Qed.

Lemma put_v1_role_assigned role vd :
  (∀ pk m, v1_bm vd !! pk = Some m → bm_role m = v1_id role → ∃ r, v1_roles vd !! v1_id role = Some r ∧ v1_system r = false) →
  assigned vd → assigned (put_v1_role role vd).
Proof.
  intros Hold Ha pk m r Hb Hr Hs. cbn in Hr. apply lookup_insert_Some in Hr as [[E <-]|[_ Hr]]; [|by apply (Ha pk m r)].
  destruct (Hold pk m Hb (eq_sym E)) as (r0 & Hr0 & Hs0). apply (Ha pk m r0); [done|by rewrite <- E|done].
Qed.

Lemma put_v1_role_fresh gen role vd :
  fresh_gen gen vd → (∀ res, v1_uuid role ≠ snd (f_role (gen res))) → fresh_gen gen (put_v1_role role vd).
Proof. intros [A B C D E F G] Hu. split; try done. cbn. intros res s r [[<- <-]|[_ Hr]]%lookup_insert_Some; [done|by eapply E]. Qed.

Section destroy.
Variables (rid : Z) (vd : V1Db).
Hypothesis Hok : v1_ok vd.

Definition source_keys : gset Z := list_to_set (map fst (filter (λ kv, snd kv = rid) (map_to_list (v1_sources vd)))).

Lemma elem_of_source_keys i : i ∈ source_keys ↔ v1_sources vd !! i = Some rid.
Proof.
  unfold source_keys. rewrite elem_of_list_to_set, list_elem_of_fmap. setoid_rewrite list_elem_of_filter. split.
  - by intros ([k s] & -> & <- & Hk%elem_of_map_to_list).
  - intros Hi. exists (i, rid). split; [done|]. by rewrite elem_of_map_to_list.
Qed.

Lemma deleted_bm pk m :
  v1_bm (delete_v1_role rid vd) !! pk = Some m ↔
  ∃ m0, v1_bm vd !! pk = Some m0 ∧ bm_role m0 ≠ rid ∧ m = clear_v2_role source_keys m0.
Proof.
  cbn. rewrite map_lookup_filter_Some, lookup_fmap, fmap_Some. cbn. split.
  - intros [(m0 & Hb & ->) Hr]. rewrite clear_v2_role_role in Hr. eauto.
  - intros (m0 & Hb & Hr & ->). split; [eauto|]. by rewrite clear_v2_role_role.
Qed.

Lemma deleted_sources i s : v1_sources (delete_v1_role rid vd) !! i = Some s ↔ v1_sources vd !! i = Some s ∧ s ≠ rid.
Proof. cbn. rewrite map_lookup_filter_Some. cbn. rewrite elem_of_source_keys. naive_solver. Qed.

Lemma deleted_roles i r :
  db_roles (v1_db (delete_v1_role rid vd)) !! i = Some r ↔ db_roles (v1_db vd) !! i = Some r ∧ v1_sources vd !! i ≠ Some rid.
Proof. cbn. rewrite map_lookup_filter_Some. cbn. by rewrite elem_of_source_keys. Qed.

Lemma deleted_bindings i b :
  db_bindings (v1_db (delete_v1_role rid vd)) !! i = Some b ↔ db_bindings (v1_db vd) !! i = Some b ∧ v1_sources vd !! b_role b ≠ Some rid.
Proof.
  cbn. rewrite map_lookup_filter_Some, elem_of_list_to_set, list_elem_of_fmap. setoid_rewrite list_elem_of_filter.
  setoid_rewrite elem_of_map_to_list'. rewrite <- (elem_of_source_keys (b_role b)). cbn. split.
  - intros [Hi Hn]. split; [done|]. intros Hs. apply Hn. by exists (i, b).
  - intros [Hi Hn]. split; [done|]. intros ([j c] & -> & Hs & Hj). cbn in *. rewrite Hi in Hj. by injection Hj as <-.
Qed.

Lemma deleted_ok : v1_ok (delete_v1_role rid vd).
Proof.
  destruct Hok as [[[Hid Hu] [Hbid Hbu] Hsrc Hbm Hbr Hcu] Hfb Hfs Htn Hcl Hun Hcs Huu Hsu Hri Hgk Huk Hsp Hbo]. split; try done.
  - split.
    + split; setoid_rewrite deleted_roles; naive_solver.
    + split; cbn; setoid_rewrite map_lookup_filter_Some; naive_solver.
    + intros i s [Hs Hne]%deleted_sources. destruct (Hsrc _ _ Hs) as [r Hr]. exists r. apply deleted_roles. split; [done|congruence].
    + intros i j m n (m0 & Hm & _ & ->)%deleted_bm (n0 & Hn & _ & ->)%deleted_bm. rewrite !clear_v2_role_id. by apply Hbm.
    + intros i j m n (m0 & Hm & _ & ->)%deleted_bm (n0 & Hn & _ & ->)%deleted_bm.
      rewrite !clear_v2_role_value, !clear_v2_role_role. by eapply Hbr.
    + intros i r s [Hr _]%deleted_roles [Hs Hne]%deleted_sources Hty. destruct (Hcu _ _ _ Hr Hs Hty) as (pk & m & Hm & <-).
      exists pk, (clear_v2_role source_keys m). rewrite deleted_bm, clear_v2_role_role. eauto.
  - intros pk m (m0 & Hm & Hne & ->)%deleted_bm. rewrite clear_v2_role_role. cbn.
    rewrite lookup_delete_ne by done. by eapply Hfb.
  - intros i s [Hs Hne]%deleted_sources. cbn. rewrite lookup_delete_ne by done. by eapply Hfs.
  - intros i r s role [Hr _]%deleted_roles [Hs _]%deleted_sources Hrole. cbn in Hrole.
    apply lookup_delete_Some in Hrole as [_ Hrole]. by eapply Htn.
  - intros i r s role [Hr _]%deleted_roles Hty [Hs _]%deleted_sources Hrole. cbn in Hrole.
    apply lookup_delete_Some in Hrole as [_ Hrole]. by eapply Hcs.
  - cbn. intros i j r r' [_ Hi]%lookup_delete_Some [_ Hj]%lookup_delete_Some. by apply Huu.
  - intros i role pk m Hi Hs (m0 & Hm & Hne & ->)%deleted_bm. cbn in Hi. apply lookup_delete_Some in Hi as [_ Hi].
    rewrite clear_v2_role_role, clear_v2_role_value. by eapply Hsu.
  - cbn. intros i r [_ Hi]%lookup_delete_Some. by apply Hri.
  - intros pk m role (m0 & Hm & Hne & ->)%deleted_bm. rewrite clear_v2_role_role, clear_v2_role_value. cbn.
    intros [_ Hrole]%lookup_delete_Some Hsys. by apply (Hsp pk m0 role).
  - intros pk m role (m0 & Hm & Hne & ->)%deleted_bm. rewrite clear_v2_role_role. cbn.
    intros [_ Hrole]%lookup_delete_Some Hsys. destruct (Hbo pk m0 role Hm Hrole Hsys) as (i & b & Hi & Hub & Hs). exists i, b.
    rewrite deleted_sources, clear_v2_role_role, clear_v2_role_id. split_and!; try done.
    apply deleted_bindings. split; [done|congruence].
Qed.

Lemma deleted_access : access_ok (λ _, True) vd → access_ok (λ _, True) (delete_v1_role rid vd).
Proof.
  intros Ha pk m role (m0 & Hm & _ & ->)%deleted_bm _. rewrite clear_v2_role_role.
  cbn. intros [_ Hr]%lookup_delete_Some. by apply (Ha pk m0).
Qed.

Lemma deleted_in_step : in_step vd → in_step (delete_v1_role rid vd).
Proof.
  intros Hs pk m i b (m0 & Hm & _ & ->)%deleted_bm Hb Hu gid. rewrite clear_v2_role_id in Hu. rewrite clear_v2_role_groups.
  cbn in Hb |- *. apply map_lookup_filter_Some in Hb as [Hb Hn]. rewrite elem_of_filter. rewrite <- (Hs pk m0 i b Hm Hb Hu gid). tauto.
Qed.

Lemma deleted_assigned :
  (∀ pk m role, v1_bm vd !! pk = Some m → v1_roles vd !! bm_role m = Some role → v1_system role = false →
     bm_role m ≠ rid → NoDup (bm_groups m) ∧ ∀ u, u ∈ bm_groups m ↔
       ∃ gid grp, policy_group vd (bm_role m) gid ∧ db_groups (v1_db vd) !! gid = Some grp ∧ g_uuid grp = u) →
  assigned (delete_v1_role rid vd).
Proof.
  intros Ha pk m role (m0 & Hm & Hne & ->)%deleted_bm. rewrite clear_v2_role_role, clear_v2_role_groups. cbn.
  intros [_ Hr]%lookup_delete_Some Hs. destruct (Ha pk m0 role Hm Hr Hs Hne) as [Hn Hu]. split; [done|]. intros u. rewrite Hu.
  assert (∀ gid, policy_group (delete_v1_role rid vd) (bm_role m0) gid ↔ policy_group vd (bm_role m0) gid) as Hpg.
  { intros gid. unfold policy_group. cbn. setoid_rewrite lookup_fmap. setoid_rewrite fmap_Some. split.
    - intros (k & p & (p0 & Hp & ->) & Hin & Hg). cbn in Hin, Hg. apply elem_of_difference in Hin as [Hin _]. eauto.
    - intros (k & p & Hp & Hin & Hg). exists k, (with_po_roles (.∖ {[rid]}) p). split; [eauto|]. cbn. split; [|done].
      apply elem_of_difference. by rewrite elem_of_singleton. }
  by setoid_rewrite Hpg.
Qed.

Lemma deleted_graph `{Settings} t : t ∈ v1_graph (delete_v1_role rid vd) ↔ others vd rid t.
Proof.
  rewrite (graph_split _ rid) by apply deleted_ok. unfold others. setoid_rewrite deleted_bm. setoid_rewrite deleted_roles.
  setoid_rewrite deleted_sources. change (owner_tuples (delete_v1_role rid vd)) with (owner_tuples vd). split.
  - intros [[(pk & m & (m0 & Hm & Hr & ->) & _ & Ht)|(i & r & s & [Hr _] & Hty & [Hs _] & Hne & Ht)]|
            [(pk & m & (m0 & Hm & Hr & ->) & E & Ht)|(i & r & _ & _ & [_ ?] & _)]]; [left|right|..|done].
    + rewrite clear_v2_role_tuples in Ht. eauto.
    + eauto 10.
    + by rewrite clear_v2_role_role in E.
  - intros [(pk & m & Hm & Hr & Ht)|(i & r & s & Hr & Hty & Hs & Hne & Ht)]; left; [left|right].
    + exists pk, (clear_v2_role source_keys m). rewrite clear_v2_role_tuples, clear_v2_role_role. eauto 10.
    + exists i, r, s. split_and!; try done. congruence.
Qed.
End destroy.

(* ------------------------------------------------------------------ *)
(** * The requests *)

Section requests.
Context `{Settings} `{PySetOrder} `{RowOrder}.
Variable (parse_uuid : string → result string).

Definition v1_inv (vd : V1Db) : Prop := v1_ok vd ∧ access_ok (λ _, True) vd.

(** What a request needs from the generator of keys and UUIDs and from [uuid_utils]. *)
Definition can_generate (gen : V2boundresource → fresh) (ws_id : string) (role : V1Role) (vd : V1Db) : Prop :=
  (fresh_gen gen vd ∧ ∀ res, v1_uuid role ≠ snd (f_role (gen res))) ∧ parses_stored parse_uuid vd ∧ unnamed ws_id role.

(** One request. *)
Inductive role_step : V1Db → list ReplicationEvent → V1Db → Prop :=
| rs_create gen ws_id role vd vd' es :
    can_generate gen ws_id role vd → v1_roles vd !! v1_id role = None →
    (∀ i r, v1_roles vd !! i = Some r → v1_uuid r ≠ v1_uuid role) →
    perform_create parse_uuid gen ws_id role vd = Ok (vd', es) → role_step vd es vd'
| rs_update gen ws_id instance role vd vd' es :
    can_generate gen ws_id role vd → v1_roles vd !! v1_id instance = Some instance →
    v1_id role = v1_id instance → v1_tenant role = v1_tenant instance → v1_system role = v1_system instance →
    v1_uuid role = v1_uuid instance →
    perform_update parse_uuid gen ws_id instance role vd = Ok (vd', es) → role_step vd es vd'
| rs_destroy instance vd vd' es :
    v1_roles vd !! v1_id instance = Some instance → perform_destroy instance vd = Ok (vd', es) → role_step vd es vd'.

(** A history of requests and the events that they emitted. *)
Inductive role_history : V1Db → list ReplicationEvent → V1Db → Prop :=
| rh_nil vd : role_history vd [] vd
| rh_step vd es vd1 es' vd2 : role_history vd es vd1 → role_step vd1 es' vd2 → role_history vd (es ++ es') vd2.

Lemma role_handler_init_run role et vd o :
  REPLICATION_TO_RELATION_ENABLED = true → role_handler_init role et None vd = Ok o →
  v1_system role = false ∧
  ∃ tn root dflt, o = Some (mkRoleHandler et role tn root dflt [] [] [] [] [] false)
                  ∧ db_tenants (v1_db vd) !! v1_tenant role = Some tn.
Proof.
  intros He (u & Hs%raise_if_Ok & Hr)%bind_Ok. rewrite He in Hr. cbn in Hr. split; [done|]. apply dual_write_Ok in Hr.
  apply bind_Ok in Hr as (tn & Htn%or_raise_Ok & Hr). apply bind_Ok in Hr as (_ & _ & Hr).
  apply bind_Ok in Hr as (root & _ & Hr). apply bind_Ok in Hr as (dflt & _ & Hr).
  apply bind_Ok in Hr as (_ & _ & Hr). apply bind_Ok in Hr as (_ & _ & [= <-]). eauto 10.
Qed.

(** No row refers to a role that is not there. *)
Lemma absent_role vd rid t : v1_ok vd → v1_roles vd !! rid = None → t ∈ v1_graph vd → others vd rid t.
Proof.
  intros Hok Hn [?|[(pk & m & Hb & <- & _)|(i & r & _ & _ & Hs & _)]]%(graph_split _ rid); [done|..|apply Hok]; exfalso.
  - destruct (vo_bm_role _ Hok _ _ Hb). congruence.
  - destruct (vo_source _ Hok _ _ Hs). congruence.
Qed.

Lemma absent_rows vd rid :
  v1_ok vd → v1_roles vd !! rid = None → role_mappings vd rid = [] ∧ source_bindings vd rid = [] ∧ v2_roles_of vd rid = [].
Proof.
  intros Hok Hn.
  assert (∀ i, v1_sources vd !! i ≠ Some rid) as Hs by (intros i Hs; destruct (vo_source _ Hok _ _ Hs); congruence).
  split_and!; apply elem_of_nil_inv.
  - intros [pk m] [Hb <-]%elem_of_role_mappings. destruct (vo_bm_role _ Hok _ _ Hb). congruence.
  - intros b [Hb _]%elem_of_select. by apply bool_decide_eq_true, Hs in Hb.
  - intros b [Hb _]%elem_of_select. by apply bool_decide_eq_true, Hs in Hb.
Qed.

(** A custom role without access has no tuples. *)
Lemma no_access_role vd role t :
  v1_inv vd → v1_roles vd !! v1_id role = Some role → v1_system role = false → v1_access role = [] →
  t ∈ v1_graph vd → others vd (v1_id role) t.
Proof.
  intros [Hok Ha] Hr Hs Hacc [?|[(pk & m & Hb & E & _)|(i & r & Hrow & Hty & Hsrc & _)]]%(graph_split _ (v1_id role));
    [done|..|apply Hok]; exfalso.
  - apply (Ha pk m role); try done. by rewrite E.
  - destruct (vw_custom _ (vo_wf _ Hok) _ _ _ Hrow Hsrc Hty) as (pk & m & Hb & E). apply (Ha pk m role); try done. by rewrite E.
Qed.

Definition refines (vd : V1Db) (es : list ReplicationEvent) (vd' : V1Db) : Prop :=
  v1_inv vd' ∧ replay (rows_graph vd) es = Ok (rows_graph vd').

(** What a request keeps. *)
Definition steps (vd : V1Db) (es : list ReplicationEvent) (vd' : V1Db) : Prop :=
  refines vd es vd' ∧ (in_step vd → in_step vd') ∧ (assigned vd → assigned vd').

Lemma create_refines gen ws_id role vd vd' es :
  REPLICATION_TO_RELATION_ENABLED = true → v1_inv vd → can_generate gen ws_id role vd → v1_roles vd !! v1_id role = None →
  (∀ i r, v1_roles vd !! i = Some r → v1_uuid r ≠ v1_uuid role) →
  perform_create parse_uuid gen ws_id role vd = Ok (vd', es) → steps vd es vd'.
Proof.
  intros He [Hok Ha] ([Hfg Hfu] & Hps & Hun) Hn Hnu. unfold perform_create. intros (o & Hi & Hr)%bind_Ok.
  destruct (role_handler_init_run _ _ _ _ He Hi) as (Hsys & tn & root & dflt & -> & Htn).
  assert (v1_ok (put_v1_role role vd)) as Hok'.
  { apply put_v1_role_ok; [done|done|..].
    - intros i r _ Hs. destruct (vo_source _ Hok _ _ Hs). congruence.
    - intros i r Hi' E. by destruct (Hnu i r Hi').
    - intros pk m Hb E. destruct (vo_bm_role _ Hok _ _ Hb). congruence. }
  destruct (absent_rows _ _ Hok Hn) as (E1 & E2 & E3).
  eapply new_or_updated_run in Hr as (Hok2 & Ha2 & Hst & Has & Hrep); try done.
  - split; [split; [done|by apply Hrep]|]. split; [done|]. intros ?. apply Has, put_v1_role_assigned; [|done].
    intros pk m Hb E. destruct (vo_bm_role _ Hok _ _ Hb). congruence.
  - by apply put_v1_role_access.
  - cbn. apply lookup_insert_eq.
  - case_decide; (split; cbn; try done; [by intros t ?%elem_of_nil|]); intros t Ht; left; by apply (absent_role vd).
  - by apply put_v1_role_fresh.
  - by case_decide.
Qed.

Lemma prepare_resources h vd h' role service :
  rh_prepare_for_update h vd = Ok h' → role_resource_map (set_role role h') service vd = role_resource_map (set_role role h) service vd.
Proof. by intros (cur & _ & [= <-])%dual_write_Ok%bind_Ok. Qed.

(** What an update hands to the migration. *)
Lemma update_prepared gen ws_id instance role vd x :
  REPLICATION_TO_RELATION_ENABLED = true → v1_inv vd → v1_roles vd !! v1_id instance = Some instance →
  v1_id role = v1_id instance → v1_tenant role = v1_tenant instance → v1_system role = v1_system instance →
  v1_uuid role = v1_uuid instance →
  perform_update parse_uuid gen ws_id instance role vd = Ok x →
  ∃ h0 h, role_handler_init instance UPDATE_CUSTOM_ROLE None vd = Ok (Some h0)
    ∧ replicate_new_or_updated_role parse_uuid gen ws_id role h (put_v1_role role vd) = Ok x
    ∧ (∀ service, role_resource_map (set_role role h) service vd = role_resource_map (set_role role h0) service vd)
    ∧ v1_ok (put_v1_role role vd) ∧ prepared (set_role role h) (put_v1_role role vd) ∧ rh_expected_empty h = false
    ∧ v1_system instance = false.
Proof.
  intros He [Hok Ha] Hrow Eid Etn Esys Euu. unfold perform_update. intros (o & Hi & Hr)%bind_Ok.
  destruct (role_handler_init_run _ _ _ _ He Hi) as (Hsys & tn & root & dflt & -> & Htn).
  apply bind_Ok in Hr as (h & Hh & Hr). eexists _, h. split; [exact Hi|]. split; [exact Hr|].
  split; [intros service; by apply prepare_resources|].
  assert (∀ i r, db_roles (v1_db vd) !! i = Some r → v1_sources vd !! i = Some (v1_id instance) → r_tenant r = v1_tenant instance) as Hrt.
  { intros i r Hr' Hs. by eapply vo_tenant. }
  apply prepare_run in Hh as (Hpr & Erole & Eempty & _); [|apply Hok|done|done|exact Hrt]. cbn in Erole, Eempty. split_and!.
  - apply put_v1_role_ok; [done|congruence|by rewrite Eid, Etn| |].
    { intros i r Hi' E. rewrite Eid. apply (vo_uuid _ Hok _ _ _ _ Hi' Hrow). congruence. }
    intros pk m Hb E. apply (vo_bound _ Hok pk m instance); [done|congruence|done].
  - destruct Hpr as [P1 P2 P3 P4 P5 P6]. rewrite Erole in P1, P2, P3, P4, P5, P6.
    split; cbn; rewrite ?Eid, ?Etn; [done|done|done|done|exact P5|exact P6].
  - done.
  - done.
Qed.

Lemma update_refines gen ws_id instance role vd vd' es :
  REPLICATION_TO_RELATION_ENABLED = true → v1_inv vd → can_generate gen ws_id role vd →
  v1_roles vd !! v1_id instance = Some instance → v1_id role = v1_id instance → v1_tenant role = v1_tenant instance →
  v1_system role = v1_system instance → v1_uuid role = v1_uuid instance →
  perform_update parse_uuid gen ws_id instance role vd = Ok (vd', es) → steps vd es vd'.
Proof.
  intros He Hinv ([Hfg Hfu] & Hps & Hun) Hrow Eid Etn Esys Euu Hrun.
  destruct (update_prepared _ _ _ _ _ _ He Hinv Hrow Eid Etn Esys Euu Hrun) as (h0 & h & _ & Hr & _ & Hok & Hpr & Eempty & Hsys).
  eapply new_or_updated_run in Hr as (Hok2 & Ha2 & Hst & Has & Hrep); try done.
  - split; [split; [done|by apply Hrep]|]. split; [done|]. intros ?. apply Has, put_v1_role_assigned; [|done].
    intros pk m _ _. exists instance. by rewrite Eid.
  - apply put_v1_role_access, Hinv.
  - cbn. apply lookup_insert_eq.
  - by apply put_v1_role_fresh.
  - by rewrite Eempty.
Qed.

Lemma destroy_refines instance vd vd' es :
  REPLICATION_TO_RELATION_ENABLED = true → v1_inv vd → v1_roles vd !! v1_id instance = Some instance →
  perform_destroy instance vd = Ok (vd', es) → steps vd es vd'.
Proof.
  intros He [Hok Ha] Hrow. unfold perform_destroy. intros (public & _ & Hr)%bind_Ok. apply bind_Ok in Hr as (_ & _ & Hr).
  apply bind_Ok in Hr as (o & Hi & Hr). destruct (role_handler_init_run _ _ _ _ He Hi) as (Hsys & tn & root & dflt & -> & Htn).
  apply bind_Ok in Hr as (h & Hh & Hr). apply bind_Ok in Hr as (es' & Hes & [= <- <-]).
  set (vd0 := delete_policies_if_no_role_attached instance vd) in *.
  assert (v1_ok vd0) as Hok0 by (destruct Hok as [A B C D E F G U V I Gk Uk P K]; split; try done; by destruct A).
  assert ((rh_expected_empty h = true → rh_current_role_relations h = [] ∧ rh_role_relations h = [])
    ∧ rh_role_relations h = [] ∧ (∀ t, t ∈ rh_current_role_relations h → mine vd (v1_id instance) t)
    ∧ (∀ t, t ∈ v1_graph vd → others vd (v1_id instance) t ∨ t ∈ rh_current_role_relations h)) as (Hempty & Hrel & Hsound & Hcomplete).
  { case_decide as Hacc.
    - injection Hh as <-. cbn. split_and!; [done|done|by intros t ?%elem_of_nil|]. intros t Ht. left. by eapply no_access_role.
    - apply prepare_run in Hh as ([_ _ _ _ P5 P6] & Erole & Eempty & Erel); [|apply Hok|done|done|intros; by eapply vo_tenant].
      rewrite Erole in P5, P6. cbn in Eempty, Erel. by rewrite Eempty, Erel. }
  split; [split; [split; [by apply deleted_ok|by apply deleted_access]|]|split; [apply (deleted_in_step _ vd0)|]].
  2: { intros Has. apply deleted_assigned. intros pk m r Hb Hr' Hs' Hne. destruct (Has pk m r Hb Hr' Hs') as [Hn Hu].
       split; [done|]. intros u. rewrite Hu. unfold vd0. by setoid_rewrite (kept_policies instance vd (bm_role m) _ Hne). }
  rewrite (replicate_run _ _ _ He Hes Hempty), Hrel. f_equal. unfold rows_graph.
  change (parents_graph (v1_db (delete_v1_role (v1_id instance) vd0))) with (parents_graph (v1_db vd)).
  change (members_graph (delete_v1_role (v1_id instance) vd0)) with (members_graph vd).
  apply set_eq. intros t. rewrite elem_of_union, elem_of_difference, !elem_of_union, !elem_of_list_to_set, deleted_graph by done.
  change (others vd0) with (others vd). split.
  - intros [?%elem_of_nil|[[[?|Ht%Hcomplete]|?] Hn]]; tauto.
  - intros [[Hp|Ho]|Hmem]; right; split; [by left; left| |left; right| |by right|].
    + intros Hc%Hsound. by eapply mine_not_parent.
    + apply (graph_split _ (v1_id instance)); [apply Hok|by left].
    + intros Hc%Hsound. by apply (mine_not_others vd (v1_id instance) t (vo_wf _ Hok)).
    + intros Hc%Hsound. by eapply mine_not_member.
Qed.

(** What a role grants depends on the permissions and the workspaces. *)
Lemma granted_rest service rfs dflt d d' role p r :
  db_permissions d = db_permissions d' → db_workspaces d = db_workspaces d' →
  granted service rfs dflt d role p r ↔ granted service rfs dflt d' role p r.
Proof.
  intros Ep Ew.
  assert (∀ v, value_grants d (v1_tenant role) v r ↔ value_grants d' (v1_tenant role) v r) as Hv.
  { intros v. split; destruct 1; econstructor; rewrite ?Ew in *; done. }
  assert (∀ f, filter_grants d (v1_tenant role) f r ↔ filter_grants d' (v1_tenant role) f r) as Hf.
  { intros f. unfold filter_grants, in_tenant. rewrite Ew. by setoid_rewrite Hv. }
  assert (∀ a, access_grants service rfs d role a r ↔ access_grants service rfs d' role a r) as Ha.
  { intros a. unfold access_grants. rewrite Ep. destruct (ac_resource_definitions a); [done|]. by setoid_rewrite Hf. }
  unfold granted. by setoid_rewrite Ha.
Qed.

Lemma role_step_refines vd es vd' :
  REPLICATION_TO_RELATION_ENABLED = true → v1_inv vd → role_step vd es vd' → steps vd es vd'.
Proof.
  intros He Hinv. destruct 1; [by eapply create_refines|by eapply update_refines|by eapply destroy_refines].
Qed.

(** C6: after the update of a custom role, a V2 role with a permission is bound at a
    resource if and only if the V1 role, as it is now, grants that permission there.
    Each resource has one mapping; beside it is a role binding with its UUID, its
    resource and its V2 role; and both are for the groups of the policies that have the
    role.  No other mapping of the role is left. *)
Theorem update_role_grants gen ws_id instance role vd vd' es
    (He : REPLICATION_TO_RELATION_ENABLED = true) (Hinv : v1_inv vd) (Hgen : can_generate gen ws_id role vd)
    (Hrow : v1_roles vd !! v1_id instance = Some instance)
    (Hid : v1_id role = v1_id instance) (Htenant : v1_tenant role = v1_tenant instance)
    (Hsystem : v1_system role = v1_system instance) (Huuid : v1_uuid role = v1_uuid instance)
    (Hrun : perform_update parse_uuid gen ws_id instance role vd = Ok (vd', es)) :
  ∃ h service rm, role_handler_init instance UPDATE_CUSTOM_ROLE None vd = Ok (Some h)
    ∧ from_settings = Ok service ∧ role_resource_map (set_role role h) service vd = Ok rm
    ∧ (∀ res p, (∃ r pk m, bound_at role vd vd' res r pk m ∧ p ∈ r_permissions r) ↔
         granted service (bound_resource_resolver_from_map rm) (default_of role (v1_db vd)) (v1_db vd') role p res)
    ∧ (∀ res r r' pk pk' m m', bound_at role vd vd' res r pk m → bound_at role vd vd' res r' pk' m' → pk = pk')
    ∧ (∀ pk m, v1_bm vd' !! pk = Some m → bm_role m = v1_id role → ∃ res r, bound_at role vd vd' res r pk m).
Proof.
  destruct Hgen as ([Hfg Hfu] & Hps & Hun).
  destruct (update_prepared _ _ _ _ _ _ He Hinv Hrow Hid Htenant Hsystem Huuid Hrun) as (h0 & h & Hi & Hr & Hres & Hok & Hpr & _).
  apply bind_Ok in Hr as ([[vd2 h'] es1] & Hg & Hr). apply bind_Ok in Hr as (es2 & _ & [= <- <-]).
  destruct (generate_run _ _ _ _ _ _ _ _ Hg Hpr (vo_wf _ Hok) (put_v1_role_fresh _ _ _ Hfg Hfu) Hps (vo_names _ Hok) (vo_ungrouped _ Hok _) Hun)
    as (_ & _ & _ & g & vda & result & vd1 & ex & groups & l & -> & Hgn & service & rm & Hs & Hrm & Hh). cbn in Hgn, Hh.
  exists h0, service, rm. split; [done|]. split; [done|]. split; [by rewrite <- Hres|]. split_and!.
  - intros res p. rewrite <- (granted_rest _ _ _ (gr_db g)), <- Hh.
    + symmetry. by eapply (generated_holds _ _ _ _ (put_v1_role role vd)).
    + destruct (grows_workspaces _ _ _ _ (gn_grows _ _ _ _ _ _ _ _ _ _ _ _ _ _ Hgn)) as [f ->]. symmetry. by eapply generated_rest.
    + symmetry. by eapply generated_rest.
  - intros res r r' pk pk' m m' Hb Hb'.
    eapply (bound_at_resource _ _ _ _ (put_v1_role role vd)) in Hb as [_ ->], Hb' as [_ ->]; done.
  - intros pk m Hb Hrole. eapply (generated_mapping _ _ _ _ (put_v1_role role vd)) in Hrole as (res & r & _ & _ & Hx); try done. by exists res, r.
Qed.

(** Through any history of creations, updates and deletions of custom roles the
    events that are emitted take the tuple store from the graph of the rows before to
    the graph of the rows after (workspace parents, binding mappings with their V2
    roles and permissions, owners of V2 roles), and the rows stay well formed. *)
Theorem role_requests_refine vd es vd'
    (He : REPLICATION_TO_RELATION_ENABLED = true) (Hinv : v1_inv vd) (Hrun : role_history vd es vd') :
  v1_inv vd' ∧ replay (rows_graph vd) es = Ok (rows_graph vd').
Proof.
  induction Hrun as [vd|vd es vd1 es' vd2 Hrun IH Hstep]; [done|]. destruct (IH Hinv) as [Hinv1 Hr1].
  destruct (role_step_refines _ _ _ He Hinv1 Hstep) as [[Hinv2 Hr2] _]. split; [done|].
  unfold replay in *. rewrite foldM_app, Hr1. cbn. done.
Qed.
End requests.

(* ------------------------------------------------------------------ *)
(** * A concrete history *)

(** Keys and UUIDs made from a number of the resource, small for the [known] ones, with a
    sign and a prefix of their own. *)
Definition resource_number (known : list V2boundresource) (res : V2boundresource) : N :=
  match list_find (λ r, r = res) known with
  | Some (i, _) => N.of_nat i
  | None => N.of_nat (length known) + N.pos (encode res)
  end%N.
Definition resource_gen (known : list V2boundresource) (c : string) (sign : Z) (res : V2boundresource) : fresh :=
  let n := resource_number known res in
  let k := (sign * (1 + Z.of_N n))%Z in
  mkFresh (k, c +:+ "r" +:+ pretty n) (k, c +:+ "b" +:+ pretty n) k.

Lemma resource_number_inj known res res' : resource_number known res = resource_number known res' → res = res'.
Proof.
  unfold resource_number. destruct (list_find _ known) as [[i x]|] eqn:E1, (list_find _ known) as [[j y]|] eqn:E2 in |- *.
  - apply list_find_Some in E1 as (H1' & -> & _), E2 as (H2' & -> & _). intros ->%Nat2N.inj. congruence.
  - apply list_find_Some in E1 as (H1'%lookup_lt_Some & _). lia.
  - apply list_find_Some in E2 as (H2'%lookup_lt_Some & _). lia.
  - intros E. apply encode_inj. lia.
Qed.

Definition gen_checked (c : string) (sign : Z) (vd : V1Db) : bool :=
  forallb (λ i, (sign * i <=? 0)%Z)
    (map fst (map_to_list (db_roles (v1_db vd))) ++ map fst (map_to_list (db_bindings (v1_db vd))) ++ map fst (map_to_list (v1_bm vd)))
  && forallb (λ m, negb (startswith c (bm_id m)) && negb (startswith c (vr_id (bm_role_value m)))) (map snd (map_to_list (v1_bm vd)))
  && forallb (λ r, negb (startswith c (v1_uuid r))) (map snd (map_to_list (v1_roles vd))).

Lemma resource_gen_fresh known c sign vd :
  (sign = 1 ∨ sign = -1)%Z → gen_checked c sign vd = true → fresh_gen (resource_gen known c sign) vd.
Proof.
  intros Hsign Hc. apply andb_true_iff in Hc as [[Hk Hs]%andb_true_iff Hv]. rewrite forallb_forall in Hk, Hs, Hv.
  setoid_rewrite <- list_elem_of_In in Hk. setoid_rewrite <- list_elem_of_In in Hs. setoid_rewrite <- list_elem_of_In in Hv.
  assert (∀ {A} (m : gmap Z A) n, (∀ i, i ∈ map fst (map_to_list m) → (sign * i <=? 0)%Z = true) → m !! (sign * (1 + Z.of_N n))%Z = None) as Hnone.
  { intros A m n Hm. destruct (m !! _) as [x|] eqn:E; [|done]. apply elem_of_map_to_list in E.
    assert ((sign * (sign * (1 + Z.of_N n)) <=? 0)%Z = true) as Hle%Z.leb_le; [|destruct Hsign; subst; lia].
    apply Hm, list_elem_of_fmap. by exists (sign * (1 + Z.of_N n), x)%Z. }
  assert (∀ pk m s, v1_bm vd !! pk = Some m → bm_id m ≠ c +:+ s ∧ vr_id (bm_role_value m) ≠ c +:+ s) as Hp.
  { intros pk m s Hm. assert (m ∈ map snd (map_to_list (v1_bm vd))) as Hin by (apply elem_of_values; eauto).
    apply Hs, andb_true_iff in Hin as [H1'%negb_true_iff H2'%negb_true_iff].
    split; intros E; [rewrite E, startswith_app in H1'|rewrite E, startswith_app in H2']; done. }
  split; intros res.
  - apply Hnone. intros i Hi. apply Hk. set_solver.
  - apply Hnone. intros i Hi. apply Hk. set_solver.
  - apply Hnone. intros i Hi. apply Hk. set_solver.
  - intros pk m Hm. by eapply Hp.
  - intros i r Hr E. assert (r ∈ map snd (map_to_list (v1_roles vd))) as Hin by (apply elem_of_values; eauto).
    apply Hv, negb_true_iff in Hin. cbn in E. by rewrite E, startswith_app in Hin.
  - intros pk m Hm. by eapply Hp.
  - intros res'. cbn. intros E. assert (resource_number known res = resource_number known res') as En.
    { destruct E as [E|[E|[E|[E|E]]]]; [destruct Hsign; lia| |destruct Hsign; lia| |destruct Hsign; lia].
      - apply (inj (String.append c)) in E. apply (inj (String.append "r")) in E. by apply (inj pretty) in E.
      - apply (inj (String.append c)) in E. apply (inj (String.append "b")) in E. by apply (inj pretty) in E. }
    by apply resource_number_inj in En.
Qed.

Definition ws_uuid (c : string) : string := "00000000-0000-0000-0000-00000000000" +:+ c.

(** Two tenants, three workspaces, two permissions and a group with a policy. *)
Definition v1_sample : V1Db :=
  mkV1Db (mkDb (list_to_map [(1, mkPermission 1 "inventory:groups:read" (mkPermissionValue "inventory" "groups" "read"));
                             (2, mkPermission 2 "inventory:hosts:write" (mkPermissionValue "inventory" "hosts" "write"))]%Z)
            ∅ {[5%Z := mkGroup 5 "g5" 7 false false false "five" None]} ∅ ∅ ∅ ∅
            (list_to_map [((ws_uuid "0"), mkWorkspace (ws_uuid "0") "root" None None ROOT_WS 7);
                          ((ws_uuid "1"), mkWorkspace (ws_uuid "1") "default" None (Some (ws_uuid "0")) DEFAULT_WS 7);
                          ((ws_uuid "2"), mkWorkspace (ws_uuid "2") "one" None (Some (ws_uuid "1")) STANDARD 7)])%Z
            {[7%Z := mkTenantMapping 7 None None "" "" "" "" "" "" "" ""]}
            (list_to_map [(7, sample_tenant); (1, mkTenant 1 PUBLIC_TENANT_NAME None None (JDict []) true)]%Z))
    ∅ {[9%Z := mkPolicy (Some 5%Z) "System Policy for Group g5" true 7 {[100%Z]}]} ∅ ∅ ∅.

(** A role with one permission everywhere, and the same role with two permissions, one
    of them for a workspace and the hosts without a group. *)
Definition v1_first : V1Role := mkV1Role 100 "v1" "role" "role" None false 7 [mkAccess 1 []] None.
Definition v1_second : V1Role :=
  mkV1Role 100 "v1" "role" "role" None false 7
    [mkAccess 1 []; mkAccess 2 [[("key", JStr "group.id"); ("operation", JStr "in"); ("value", JList [JStr (ws_uuid "2"); JNull])]]] None.

Definition sample_resources : list V2boundresource := map (λ c, mkBound "rbac" "workspace" (ws_uuid c)) ["1"; "2"; "3"].
Definition v1_created := @perform_create sample_settings _ _ Ok (resource_gen sample_resources "x" 1) (ws_uuid "3") v1_first v1_sample.
Definition v1_updated vd := @perform_update sample_settings _ _ Ok (resource_gen sample_resources "y" (-1)) (ws_uuid "3") v1_first v1_second vd.
Definition v1_destroyed vd := @perform_destroy sample_settings _ _ v1_second vd.

Lemma v1_sample_inv : v1_inv v1_sample.
Proof.
  assert (map_Forall (λ _ p, has_char "@" (v2_string (p_parts p)) = false) (db_permissions (v1_db v1_sample))) as Hn by by_compute.
  assert (map_Forall (λ _ w, w_type w ≠ UNGROUPED_HOSTS) (db_workspaces (v1_db v1_sample))) as Hw by by_compute.
  split; [split|done]; [by repeat split|done|done|done|exact Hn| |done|done|done|done| |by split|done|done].
  - intros tn w w' ((k & Hk) & _ & Ht). by destruct (Hw k w Hk).
  - split; cbn.
    + by intros i g [<- <-]%lookup_singleton_Some.
    + by intros i j g h [<- _]%lookup_singleton_Some [<- _]%lookup_singleton_Some.
Qed.

(** The ids that a list of filters names. *)
Lemma unnamed_checked ws_id role :
  forallb (λ a, forallb (λ f, match repaired_filter f with
                              | Ok (Some f') => match get_workspace_ids_from_resource_definition f' with
                                                | Ok ids => negb (bool_decide (ws_id ∈ ids)) | Raise _ => true end
                              | _ => true end) (ac_resource_definitions a)) (v1_access role) = true →
  unnamed ws_id role.
Proof.
  rewrite forallb_forall. intros Hc a f ids Ha%list_elem_of_In Hf%list_elem_of_In (f' & Hr & Hi).
  specialize (Hc a Ha). rewrite forallb_forall in Hc. specialize (Hc f Hf). rewrite Hr, Hi in Hc.
  by apply negb_true_iff, bool_decide_eq_false in Hc.
Qed.

Lemma v1_created_ok :
  ∃ vd es, v1_created = Ok (vd, es) ∧ @role_step sample_settings _ _ Ok v1_sample es vd ∧ v1_inv vd
    ∧ @can_generate Ok (resource_gen sample_resources "y" (-1)) (ws_uuid "3") v1_second vd
    ∧ v1_roles vd !! 100%Z = Some v1_first.
Proof.
  assert (match v1_created with
          | Ok (vd, _) => gen_checked "y" (-1) vd
          | Raise _ => false end = true) as Hg by (by vm_compute).
  assert (match v1_created with Ok (vd, _) => v1_roles vd !! 100%Z | Raise _ => None end = Some v1_first) as Hrow by (by vm_compute).
  destruct v1_created as [[vd es]|] eqn:Hr; [|done]. exists vd, es.
  assert (@can_generate Ok (resource_gen sample_resources "x" 1) (ws_uuid "3") v1_first v1_sample) as Hgen.
  { refine (conj (conj _ _) (conj _ _)); [apply resource_gen_fresh; [by left|by vm_compute]|done|by intros ? ? ? _ [= <-]|by apply unnamed_checked]. }
  split_and!; [reflexivity| | | |exact Hrow].
  - eapply rs_create; [exact Hgen|reflexivity|done|exact Hr].
  - eapply (@create_refines sample_settings _ _ Ok); [reflexivity|exact v1_sample_inv|exact Hgen|reflexivity|done|exact Hr].
  - refine (conj (conj _ _) (conj _ _)); [apply resource_gen_fresh; [by right|done]|done|by intros ? ? ? _ [= <-]|by apply unnamed_checked; vm_compute].
Qed.

Lemma role_requests_refine_witness :
  ∃ vd es, @role_history sample_settings _ _ Ok v1_sample es vd ∧ length es = 4%nat
    ∧ v1_inv vd ∧ replay (@rows_graph sample_settings v1_sample) es = Ok (@rows_graph sample_settings vd).
Proof.
  destruct v1_created_ok as (vd1 & es1 & H1' & Hstep1 & _ & Hgen & Hrow).
  assert (match v1_created with
          | Ok (vd, es) => match v1_updated vd with
            | Ok (vd', es') => match v1_destroyed vd' with
              | Ok (_, es'') => Nat.eqb (length (es ++ es' ++ es'')) 4 | Raise _ => false end
            | Raise _ => false end
          | Raise _ => false end = true) as Hc by (by vm_compute).
  assert (match v1_created with
          | Ok (vd, _) => match v1_updated vd with Ok (vd', _) => v1_roles vd' !! 100%Z | Raise _ => None end
          | Raise _ => None end = Some v1_second) as Hrow2 by (by vm_compute).
  rewrite H1' in Hc, Hrow2. destruct (v1_updated vd1) as [[vd2 es2]|] eqn:H2'; [|done].
  destruct (v1_destroyed vd2) as [[vd3 es3]|] eqn:H3'; [|done]. apply Nat.eqb_eq in Hc.
  exists vd3, ((([] ++ es1) ++ es2) ++ es3).
  assert (@role_history sample_settings _ _ Ok v1_sample ((([] ++ es1) ++ es2) ++ es3) vd3) as Hrun.
  { econstructor; [econstructor; [econstructor; [constructor|exact Hstep1]|]|].
    - eapply (rs_update _ _ _ v1_first v1_second); [exact Hgen|exact Hrow|reflexivity|reflexivity|reflexivity|reflexivity|exact H2'].
    - eapply (rs_destroy _ v1_second); [exact Hrow2|exact H3']. }
  split; [exact Hrun|]. split; [by rewrite app_nil_l, <- app_assoc|].
  exact (@role_requests_refine sample_settings _ _ Ok v1_sample _ vd3 eq_refl v1_sample_inv Hrun).
Defined.

Lemma update_role_grants_witness :
  ∃ vd vd' es, v1_updated vd = Ok (vd', es) ∧ size (v1_bm vd') = 3%nat
    ∧ map_Forall (λ pk m, bm_role m = 100%Z → ∃ res r, @bound_at _ v1_second vd vd' res r pk m) (v1_bm vd').
Proof.
  destruct v1_created_ok as (vd1 & es1 & H1' & _ & Hinv & Hgen & Hrow).
  assert (match v1_created with
          | Ok (vd, _) => match v1_updated vd with Ok (vd', _) => Nat.eqb (size (v1_bm vd')) 3 | Raise _ => false end
          | Raise _ => false end = true) as Hc by (by vm_compute).
  rewrite H1' in Hc. destruct (v1_updated vd1) as [[vd2 es2]|] eqn:H2'; [|done]. apply Nat.eqb_eq in Hc.
  exists vd1, vd2, es2. split; [exact H2'|]. split; [exact Hc|].
  destruct (@update_role_grants sample_settings _ _ Ok _ _ v1_first v1_second _ _ _ eq_refl Hinv Hgen Hrow eq_refl eq_refl eq_refl eq_refl H2')
    as (h & service & rm & _ & _ & _ & _ & _ & Hall).
  exact Hall.
Defined.
