(* ===== verification/SubjectHandler.v ===== *)
(** Binding V1 roles to subjects:
    rbac/management/group/inventory_api_dual_write_subject_handler.py with the writes of
    rbac/management/role_binding/model.py that it uses.  The handler changes binding
    mappings through callbacks, keeps the role bindings beside them in step, and
    collects the tuples to add and to remove. *)

From S2P Require Import Prelude.
From S2P Require Import PyString.
From S2P Require Import Config.
From S2P Require Import RelationTypes.
From S2P Require Import TupleStore.
From S2P Require Import Permissions.
From S2P Require Import ScopeService.
From S2P Require Import Outbox.
From S2P Require Import Tenants.
From S2P Require Import Db.
From S2P Require Import BindingGraph.
From S2P Require Import RoleBindingService.
From S2P Require Import RoleV2Service.
From S2P Require Import Workspaces.
From S2P Require Import BindingMapping.
From S2P Require Import V1State.
From S2P Require Import RoleMigration.

(* ------------------------------------------------------------------ *)
(** * The subjects of a role binding *)

(** [update_groups] and [update_principals]: the entries of binding [i] are deleted and
    created anew. *)
Definition update_groups (i : Z) (groups : gset Z) : Db → Db :=
  with_bindings id (λ ge, set_map (λ g, (i, g)) groups ∪ filter (λ e, fst e ≠ i) ge) id.
Definition update_principals (i : Z) (principals_by_source : gset (string * Z)) : Db → Db :=
  with_bindings id id (λ pe, set_map (λ sp, (i, snd sp, fst sp)) principals_by_source ∪ filter (λ e, fst (fst e) ≠ i) pe).

Section subjects.
Context `{Settings} `{PySetOrder} `{RowOrder}.

(** [update_groups_by_uuid] *)
Definition update_groups_by_uuid (i : Z) (uuids : list string) (d : Db) : result Db :=
  let wanted : gset string := list_to_set uuids in
  let groups := select (λ g, bool_decide (g_uuid g ∈ wanted)) (db_groups d) in
  _ ← raise_if (negb (bool_decide (list_to_set (map g_uuid groups) = wanted))) ValueError;
  mret (update_groups i (list_to_set (map g_id groups)) d).

(** [update_principals_by_user_id]: [users] maps each source to a user id. *)
Definition update_principals_by_user_id (i : Z) (users : gmap string string) (d : Db) : result Db :=
  let user_ids : gset string := list_to_set (user_values users) in
  let principals := select (λ p, match user_id p with Some u => bool_decide (u ∈ user_ids) | None => false end) (db_principals d) in
  _ ← raise_if (negb (bool_decide (list_to_set (omap user_id principals) = user_ids))) ValueError;
  let principals_by_id := dict_of (omap (λ p, u ← user_id p; Some (u, p)) principals) in
  entries ← mapM (λ su, p ← or_raise KeyError (principals_by_id !! snd su); mret (fst su, pr_id p)) (map_to_list users);
  mret (update_principals i (list_to_set entries) d).

(* ------------------------------------------------------------------ *)
(** * One mapping and its role binding *)

(** [_sync_binding_mapping_to_role_binding] *)
Definition sync_binding_mapping_to_role_binding (m : BindingMapping) (b : RoleBinding) (vd : V1Db) : result V1Db :=
  _ ← raise_if (negb (bool_decide (v1_sources vd !! b_role b = Some (bm_role m)))) AssertionError;
  _ ← raise_if (negb (String.eqb (b_resource_type b) (bm_resource_type m))) AssertionError;
  _ ← raise_if (negb (String.eqb (b_resource_id b) (bm_resource_id m))) AssertionError;
  d1 ← update_groups_by_uuid (b_id b) (bm_groups m) (v1_db vd);
  d2 ← update_principals_by_user_id (b_id b) (bm_users m) d1;
  mret (with_db (λ _, d2) vd).

(** [_update_role_binding]: also the mapping after the update and what the callback
    added and removed. *)
Definition mapping_key_attrs (m : BindingMapping) : string * Z * string * string * string :=
  (bm_id m, bm_role m, bm_namespace m, bm_resource_type m, bm_resource_id m).
Definition update_role_binding (update_mapping : mapping_update) (pk : Z) (m : BindingMapping)
    (role_binding : option RoleBinding) (vd : V1Db) :
    result (V1Db * BindingMapping * list RelationTuple * list RelationTuple) :=
  '(m', add, rem) ← update_mapping m;
  _ ← raise_if (negb (bool_decide (mapping_key_attrs m' = mapping_key_attrs m))) ValueError;
  role ← or_raise (DoesNotExist "Role") (v1_roles vd !! bm_role m');
  _ ← raise_if (negb (v1_system role) && negb (Nat.eqb (size (bm_users m')) 0)) ValueError;
  vd1 ← save_mapping pk m' vd;
  vd2 ← match role_binding with
        | Some b => sync_binding_mapping_to_role_binding m' b vd1
        | None => mret vd1
        end;
  mret (vd2, m', add, rem).

(** [_get_or_migrate_binding_for_system_role]; [new_pk] is the key that a new row gets. *)
Definition get_or_migrate_binding_for_system_role (new_pk tenant : Z) (m : BindingMapping) (vd : V1Db) :
    result (V1Db * RoleBinding) :=
  v1_role ← or_raise (DoesNotExist "Role") (v1_roles vd !! bm_role m);
  _ ← raise_if (negb (v1_system v1_role)) ValueError;
  v2_role ← match select (λ r, bool_decide (r_type r = SEEDED) && bool_decide (v1_sources vd !! r_id r = Some (v1_id v1_role)))
                    (db_roles (v1_db vd)) with
            | [r] => mret r
            | [] => Raise (DoesNotExist "SeededRoleV2")
            | _ => Raise (MultipleObjectsReturned "SeededRoleV2")
            end;
  match select (λ b, Z.eqb (b_tenant b) tenant && String.eqb (b_uuid b) (bm_id m) && Z.eqb (b_role b) (r_id v2_role)
                     && String.eqb (b_resource_type b) (bm_resource_type m) && String.eqb (b_resource_id b) (bm_resource_id m))
          (db_bindings (v1_db vd)) with
  | b :: _ => mret (vd, b)
  | [] =>
      let b := mkRoleBinding new_pk (bm_id m) (r_id v2_role) (bm_resource_type m) (bm_resource_id m) tenant in
      vd1 ← save_binding b vd;
      vd2 ← sync_binding_mapping_to_role_binding m b vd1;
      mret (vd2, b)
  end.
End subjects.

(* ------------------------------------------------------------------ *)
(** * The handler *)

Record SubjectHandler := mkSubjectHandler {
  sh_tenant : Tenant;
  sh_root_workspace : Workspace;
  sh_default_workspace : Workspace;
  sh_event_type : ReplicationEventType;
  sh_tenant_version : TenantVersion;
}.

(** What a request has done so far: the rows, [relations_to_add],
    [relations_to_remove], and the events already replicated. *)
Record SubjectState := mkSubjectState {
  ss_vd : V1Db;
  ss_add : list RelationTuple;
  ss_remove : list RelationTuple;
  ss_events : list ReplicationEvent;
}.

(** The keys and the UUID that new rows of a system role get, from the rows there are:
    the sequences of the database and [uuid4]. *)
Record sys_fresh := mkSysFresh { sf_mapping : Z; sf_binding : Z; sf_uuid : string }.

Section handler.
Context `{Settings} `{PySetOrder} `{RowOrder}.

(** [__init__]; None when replication is disabled. *)
Definition subject_handler_init (tenant : Tenant) (root_workspace default_workspace : Workspace)
    (event_type : ReplicationEventType) (vd : V1Db) : result (option SubjectHandler) :=
  if negb REPLICATION_TO_RELATION_ENABLED then mret None else
  dual_write (
    _ ← raise_if (negb (Z.eqb (w_tenant root_workspace) (t_id tenant))) ValueError;
    _ ← raise_if (negb (Z.eqb (w_tenant default_workspace) (t_id tenant))) ValueError;
    version ← lock_tenant_version (db_mappings (v1_db vd) !! t_id tenant);
    mret (Some (mkSubjectHandler tenant root_workspace default_workspace event_type version))).

(** [_deduplicate_subject_relations] *)
Definition is_subject_tuple (rel : RelationTuple) : bool :=
  let ty := otype (resource rel) in
  String.eqb (namespace ty) "rbac" && String.eqb (name ty) "role_binding" && String.eqb (relation rel) "subject".
Fixpoint deduplicate_subjects (seen : gset string) (relationships : list RelationTuple) : result (list RelationTuple) :=
  match relationships with
  | [] => mret []
  | rel :: rest =>
      let key := stringify_spicedb_relationship rel in
      if bool_decide (key ∈ seen) then
        if is_subject_tuple rel then deduplicate_subjects seen rest else Raise ValueError
      else l ← deduplicate_subjects ({[key]} ∪ seen) rest; mret (rel :: l)
  end.
Definition deduplicate_subject_relations : list RelationTuple → result (list RelationTuple) := deduplicate_subjects ∅.

(** [_expect_v1_tenant] *)
Definition expect_v1_tenant (h : SubjectHandler) : result unit :=
  match sh_tenant_version h with VERSION_1 => mret tt | VERSION_2 => Raise RuntimeError end.

(** [_create_default_mapping_for_system_role], for groups or for users; also the tuples
    of the mapping. *)
Definition create_default_mapping_for_system_role (uuid : string) (system_role : V1Role) (res : V2boundresource)
    (groups : list string) (users : gmap string string) (vd : V1Db) : result (BindingMapping * list RelationTuple) :=
  _ ← raise_if (negb (v1_system system_role)) AssertionError;
  let binding := mkV2rolebinding uuid (for_system_role (v1_uuid system_role)) res groups users in
  let v2_role := head (select (λ r, bool_decide (r_type r = SEEDED) && String.eqb (r_uuid r) (v1_uuid system_role))
                         (db_roles (v1_db vd))) in
  let m := for_role_binding binding (v1_id system_role) (r_id <$> v2_role) in
  ts ← mapping_as_tuples m;
  mret (m, ts).

(** [_lock_resource_for_update]: the row has to be there. *)
Definition lock_resource_for_update (res : BoundModel) (vd : V1Db) : result unit :=
  match res with
  | BTenant t => raise_if (negb (bool_decide (is_Some (db_tenants (v1_db vd) !! t_id t)))) (DoesNotExist "Tenant")
  | BWorkspace w => raise_if (negb (bool_decide (is_Some (db_workspaces (v1_db vd) !! w_id w)))) (DoesNotExist "Workspace")
  end.

Section callbacks.
Variables (gen : V1Db → sys_fresh) (h : SubjectHandler) (role : V1Role).
Variables (update_mapping : mapping_update).
Variables (create_default : option (V2boundresource → V1Db → result (BindingMapping * list RelationTuple))).

(** The role binding of a mapping; with [suppress_migration] there may be none. *)
Definition binding_of_mapping (suppress_migration : bool) (m : BindingMapping) (vd : V1Db) :
    result (V1Db * option RoleBinding) :=
  if suppress_migration then
    let found := head (select (λ b, String.eqb (b_uuid b) (bm_id m)) (db_bindings (v1_db vd))) in
    _ ← match found with
        | Some b => raise_if (negb (bool_decide ((bm_resource_type m, bm_resource_id m, Some (bm_role m)) =
                                                 (b_resource_type b, b_resource_id b, v1_sources vd !! b_role b)))) AssertionError
        | None => mret tt
        end;
    mret (vd, found)
  else
    '(vd1, b) ← get_or_migrate_binding_for_system_role (sf_binding (gen vd)) (t_id (sh_tenant h)) m vd;
    mret (vd1, Some b).

(** The mapping of the role for the resource, when there is one: the body of the try
    block.  None is [BindingMapping.DoesNotExist]. *)
Definition update_existing_mapping (suppress_migration : bool) (res : V2boundresource) (st : SubjectState) :
    result (option SubjectState) :=
  let vd := ss_vd st in
  match List.filter (λ km, String.eqb (bm_namespace (snd km)) (br_namespace res) && String.eqb (bm_resource_type (snd km)) (br_name res)
                           && String.eqb (bm_resource_id (snd km)) (br_id res)) (role_mappings vd (v1_id role)) with
  | [] => mret None
  | [(pk, m)] =>
      '(vd1, role_binding) ← binding_of_mapping suppress_migration m vd;
      '(vd2, m', add, rem) ← update_role_binding update_mapping pk m role_binding vd1;
      if is_unassigned m' then
        ts ← mapping_as_tuples m';
        let vd3 := delete_mappings {[pk]} vd2 in
        vd4 ← match role_binding with
              | Some b =>
                  _ ← raise_if (existsb (λ e, Z.eqb (fst e) (b_id b)) (elements (db_group_entries (v1_db vd3)))) AssertionError;
                  _ ← raise_if (existsb (λ e, Z.eqb (fst (fst e)) (b_id b)) (elements (db_principal_entries (v1_db vd3)))) AssertionError;
                  mret (with_db (delete_bindings {[b_id b]}) vd3)
              | None => mret vd3
              end;
        mret (Some (mkSubjectState vd4 (ss_add st ++ add) (ss_remove st ++ rem ++ ts) (ss_events st)))
      else mret (Some (mkSubjectState vd2 (ss_add st ++ add) (ss_remove st ++ rem) (ss_events st)))
  | _ => Raise (MultipleObjectsReturned "BindingMapping")
  end.

(** [_update_mapping_for_system_role]; [unlocked] is 0 when the resource is locked
    already and 1 otherwise.  The recursive call does not pass [suppress_migration] on. *)
Fixpoint update_mapping_for_system_role (unlocked : nat) (suppress_migration : bool) (scope : Scope) (st : SubjectState) :
    result SubjectState :=
  _ ← expect_v1_tenant h;
  _ ← raise_if (negb (v1_system role)) DualWriteException;
  local_resource ← bound_model_for_scope scope (sh_tenant h) (sh_root_workspace h) (sh_default_workspace h);
  v2_resource ← for_model local_resource;
  updated ← update_existing_mapping suppress_migration v2_resource st;
  match updated, create_default with
  | Some st', _ => mret st'
  | None, None => mret st
  | None, Some create =>
      match unlocked with
      | S n =>
          _ ← lock_resource_for_update local_resource (ss_vd st);
          update_mapping_for_system_role n false scope st
      | O =>
          let keys := gen (ss_vd st) in
          '(m, ts) ← create v2_resource (ss_vd st);
          vd1 ← save_mapping (sf_mapping keys) m (ss_vd st);
          '(vd2, _) ← get_or_migrate_binding_for_system_role (sf_binding keys) (t_id (sh_tenant h)) m vd1;
          mret (mkSubjectState vd2 (ss_add st ++ ts) (ss_remove st) (ss_events st))
      end
  end.

Section custom.
Variables (parse_uuid : string → result string) (role_gen : V2boundresource → fresh) (ws_id : string).

(** [_migrate_custom_role] *)
Definition migrate_custom_role (st : SubjectState) : result SubjectState :=
  _ ← raise_if (v1_system role) ValueError;
  handler ← role_handler_init role MIGRATE_CUSTOM_ROLE (Some (sh_tenant h)) (ss_vd st);
  match handler with
  | None => mret st
  | Some rh =>
      rh' ← rh_prepare_for_update rh (ss_vd st);
      '(vd', events) ← replicate_new_or_updated_role parse_uuid role_gen ws_id role rh' (ss_vd st);
      mret (mkSubjectState vd' (ss_add st) (ss_remove st) (ss_events st ++ events))
  end.

(** The loop of [_update_mappings_for_custom_role]. *)
Definition update_custom_mapping (bindings_by_id : gmap string RoleBinding) (st : SubjectState) (km : Z * BindingMapping) :
    result SubjectState :=
  b ← or_raise KeyError (bindings_by_id !! bm_id (snd km));
  '(vd', _, add, rem) ← update_role_binding update_mapping (fst km) (snd km) (Some b) (ss_vd st);
  mret (mkSubjectState vd' (ss_add st ++ add) (ss_remove st ++ rem) (ss_events st)).

(** [_update_mappings_for_custom_role]; [unmigrated] is 0 once the role has been migrated
    and 1 before.  The two cases without mappings differ in what they log. *)
Fixpoint update_mappings_for_custom_role (unmigrated : nat) (st : SubjectState) : result SubjectState :=
  _ ← expect_v1_tenant h;
  let vd := ss_vd st in
  let mappings := role_mappings vd (v1_id role) in
  let bindings_by_id := dict_of (map (λ b, (b_uuid b, b)) (source_bindings vd (v1_id role))) in
  match mappings, unmigrated with
  | [], _ => mret st
  | _, S n =>
      if Nat.eqb (size bindings_by_id) 0 then
        st' ← migrate_custom_role st;
        update_mappings_for_custom_role n st'
      else
        _ ← raise_if (negb (Nat.eqb (length mappings) (size bindings_by_id))) AssertionError;
        foldM (update_custom_mapping bindings_by_id) st mappings
  | _, O =>
      _ ← raise_if (negb (Nat.eqb (length mappings) (size bindings_by_id))) AssertionError;
      foldM (update_custom_mapping bindings_by_id) st mappings
  end.

(** [_update_mapping_for_role] *)
Definition update_mapping_for_role (scope : Scope) (st : SubjectState) : result SubjectState :=
  if v1_system role then update_mapping_for_system_role 1 false scope st
  else update_mappings_for_custom_role 1 st.
End custom.
End callbacks.

(** [_with_system_roles_for_share]: the set of the roles, in an arbitrary order, with the
    system roles read again. *)
Definition with_system_roles_for_share (roles : list V1Role) (vd : V1Db) : result (list V1Role) :=
  let distinct := map snd (row_order (dict_of (rev (map (λ r, (v1_id r, r)) roles)))) in
  let custom := List.filter (λ r, negb (v1_system r)) distinct in
  let ids := map v1_id (List.filter v1_system distinct) in
  let locked := select (λ r, v1_system r && bool_decide (v1_id r ∈ ids)) (v1_roles vd) in
  let final := custom ++ locked in
  _ ← raise_if (negb (bool_decide ((list_to_set (map v1_id final) : gset Z) = list_to_set (map v1_id roles)))) RuntimeError;
  mret final.
End handler.
