(* ===== verification/SubjectRuns.v ===== *)
(** What the runs of SubjectHandler do to the rows and to the relation graph: each call
    that updates the bindings of a role changes the graph by the tuples that it collects,
    keeps the rows well formed and keeps the role bindings in step with the mappings.
    The lemmas are stated for any callback that meets the interface [MappingUpdate] and
    keeps to a mode, so groups and cross-account requests share them. *)

From S2P Require Import Prelude.
From S2P Require Import PyString.
From S2P Require Import Config.
From S2P Require Import RelationTypes.
From S2P Require Import TupleStore.
From S2P Require Import Permissions.
From S2P Require Import ScopeService.
From S2P Require Import Outbox.
From S2P Require Import Tenants.
From S2P Require Import Db.
From S2P Require Import BindingGraph.
From S2P Require Import RoleBindingService.
From S2P Require Import RoleV2Service.
From S2P Require Import Workspaces.
From S2P Require Import BindingMapping.
From S2P Require Import V1State.
From S2P Require Import RoleMigration.
From S2P Require Import RoleScopes.
From S2P Require Import RoleMigrationGraph.
From S2P Require Import RoleRequests.
From S2P Require Import SubjectHandler.

(* ------------------------------------------------------------------ *)
(** * Changes of bindings and mappings *)

(** Only the role bindings, their subjects and the mappings differ. *)
Record only_bindings (vd vd' : V1Db) : Prop := {
  ob_roles : v1_roles vd' = v1_roles vd;
  ob_policies : v1_policies vd' = v1_policies vd;
  ob_sources : v1_sources vd' = v1_sources vd;
  ob_members : v1_members vd' = v1_members vd;
  ob_db : v1_db vd' = with_bindings (λ _, db_bindings (v1_db vd')) (λ _, db_group_entries (v1_db vd'))
                        (λ _, db_principal_entries (v1_db vd')) (v1_db vd);
}.

#[export] Instance only_bindings_preorder : PreOrder only_bindings.
Proof.
  split.
  - intros [[]]. by split.
  - intros vd1 vd2 vd3 [A B C D E] [A' B' C' D' E']. split; try congruence.
    rewrite E', E at 1. cbn. reflexivity.
Qed.

Lemma only_bindings_tables vd vd' :
  only_bindings vd vd' →
  db_permissions (v1_db vd') = db_permissions (v1_db vd) ∧ db_roles (v1_db vd') = db_roles (v1_db vd)
  ∧ db_groups (v1_db vd') = db_groups (v1_db vd) ∧ db_principals (v1_db vd') = db_principals (v1_db vd)
  ∧ db_workspaces (v1_db vd') = db_workspaces (v1_db vd) ∧ db_mappings (v1_db vd') = db_mappings (v1_db vd)
  ∧ db_tenants (v1_db vd') = db_tenants (v1_db vd).
Proof. intros [_ _ _ _ E]. by rewrite E. Qed.

(** The identity of a mapping. *)
Definition same_identity (m m' : BindingMapping) : Prop :=
  bm_id m' = bm_id m ∧ bm_role m' = bm_role m ∧ bm_role_value m' = bm_role_value m.

Lemma same_key_identity m m' : same_key m m' → same_identity m m'.
Proof. unfold same_key. intros E. rewrite E. done. Qed.

(** Rows that keep the identities of the mappings stay well formed. *)
Record rebinds (vd vd' : V1Db) : Prop := {
  rb_only : only_bindings vd vd';
  rb_keys : binding_keys vd → binding_keys vd';
  rb_bm pk m' : v1_bm vd' !! pk = Some m' → ∃ m, v1_bm vd !! pk = Some m ∧ same_identity m m';
  rb_kept pk m role : v1_bm vd !! pk = Some m → v1_roles vd !! bm_role m = Some role → v1_system role = false →
    is_Some (v1_bm vd' !! pk);
  rb_bound pk m role : v1_bm vd !! pk = Some m → v1_roles vd !! bm_role m = Some role → v1_system role = false →
    has_binding vd m → has_binding vd' m;
}.

Lemma rebinds_ok vd vd' : rebinds vd vd' → v1_inv vd → v1_inv vd'.
Proof.
  intros [Ho Hk Hbm Hkept Hbound] [Hok Ha].
  destruct (only_bindings_tables _ _ Ho) as (Ep & Edr & Eg & Epr & Ew & _). destruct Ho as [Er _ Es _ _].
  assert (∀ pk m', v1_bm vd' !! pk = Some m' → ∃ m, v1_bm vd !! pk = Some m ∧ bm_id m' = bm_id m ∧ bm_role m' = bm_role m
    ∧ bm_role_value m' = bm_role_value m) as Hm by exact Hbm. clear Hbm.
  split.
  - destruct Hok as [Hwf Hbr Hsrc Htn Hnm Hung Hcu Huu Hsu Hri Hgk Huk Hsp Hbo].
    split; unfold clean_names, one_ungrouped, ungrouped_of, group_keys, user_keys; rewrite ?Er, ?Es, ?Ep, ?Edr, ?Eg, ?Epr, ?Ew; try done.
    + destruct Hwf as [W1 W2 W3 W4 W5 W6]. split; unfold role_keys; rewrite ?Er, ?Es, ?Edr; try done; [by apply Hk|..].
      * intros i j m n (m0 & Hm0 & -> & _)%Hm (n0 & Hn0 & -> & _)%Hm. by eapply W4.
      * intros i j m n (m0 & Hm0 & _ & -> & ->)%Hm (n0 & Hn0 & _ & -> & ->)%Hm. by eapply W5.
      * intros i r s Hr Hs Hty. destruct (W6 _ _ _ Hr Hs Hty) as (pk & m & Hb & <-).
        destruct (Hsrc _ _ Hs) as [role Hrole].
        destruct (Hkept _ _ _ Hb Hrole) as [m' Hm']; [by eapply Hcu|]. exists pk, m'. split; [done|].
        apply Hm in Hm' as (m0 & Hm0 & _ & E & _). congruence.
    + intros pk m (m0 & Hm0 & _ & -> & _)%Hm. by eapply Hbr.
    + intros i role pk m Hi Hs (m0 & Hm0 & _ & -> & ->)%Hm. by eapply Hsu.
    + intros pk m role (m0 & Hm0 & _ & -> & ->)%Hm. by eapply Hsp.
    + intros pk m role (m0 & Hm0 & E & E' & _)%Hm. rewrite E'. intros Hrole Hs.
      unfold has_binding. rewrite E, E'. eapply Hbound; try done. by eapply Hbo.
  - intros pk m role (m0 & Hm0 & _ & -> & _)%Hm. rewrite Er. by apply (Ha pk).
Qed.

(* ------------------------------------------------------------------ *)
(** * The tuples of a change *)

(** Which tuples a request may collect: additions that cover the removals, or removals
    only. *)
Inductive mode := Grow | Shrink.
Definition mode_ok (md : mode) (add rem : list RelationTuple) : Prop :=
  match md with Grow => rem ⊆ add | Shrink => add = [] end.

Lemma mode_ok_nil md : mode_ok md [] [].
Proof. destruct md; cbn; set_solver. Qed.

Section delta.
Context `{Settings} `{PySetOrder} `{RowOrder}.
Implicit Types (vd : V1Db) (m : BindingMapping) (add rem : list RelationTuple).

(** Bindings and mappings change, and the graph changes by the given tuples. A change that
    adds nothing makes no new binding ids. *)
Definition bound_id vd (id : string) : Prop := ∃ pk m, v1_bm vd !! pk = Some m ∧ bm_id m = id.
Record delta (vd vd' : V1Db) (add rem : list RelationTuple) : Prop := {
  dl_inv : v1_inv vd';
  dl_only : only_bindings vd vd';
  dl_graph t : t ∈ v1_graph vd' ↔ t ∈ add ∨ t ∈ v1_graph vd ∧ t ∉ rem;
  dl_add : Forall (λ t, rbac_tuple t = true) add;
  dl_rem : Forall (λ t, ∃ m, t ∈ mapping_tuples m ∧ (add = [] → bound_id vd (bm_id m))) rem;
  dl_ids : add = [] → ∀ id, bound_id vd' id → bound_id vd id;
}.

Lemma delta_refl vd : v1_inv vd → delta vd vd [] [].
Proof. intros Hi. split; [done|done| |done|done|done]. intros t. rewrite !elem_of_nil. tauto. Qed.

Lemma delta_trans md vd1 vd2 vd3 add1 rem1 add2 rem2 :
  mode_ok md add1 rem1 → mode_ok md add2 rem2 → delta vd1 vd2 add1 rem1 → delta vd2 vd3 add2 rem2 →
  delta vd1 vd3 (add1 ++ add2) (rem1 ++ rem2) ∧ mode_ok md (add1 ++ add2) (rem1 ++ rem2).
Proof.
  intros M1 M2 [A1 B1 C1 D1 E1 F1] [A2 B2 C2 D2 E2 F2].
  assert (∀ t, t ∈ add1 → t ∈ rem2 → t ∈ add2) as Hm.
  { intros t Ht. destruct md; cbn in *; [set_solver|]. subst. by apply elem_of_nil in Ht. }
  split; [split|].
  - done.
  - by trans vd2.
  - intros t. rewrite C2, C1, !elem_of_app. specialize (Hm t). destruct (decide (t ∈ rem2)); naive_solver.
  - by apply Forall_app_2.
  - apply Forall_app_2; [eapply Forall_impl; [exact E1|]|eapply Forall_impl; [exact E2|]];
      intros t (m & Hm' & Hb); exists m; (split; [done|]); intros [-> ->]%app_nil; [auto|by apply F1, Hb].
  - intros [-> ->]%app_nil. naive_solver.
  - destruct md; cbn in *; [set_solver|by subst].
Qed.

(** The graph of rows whose bindings and mappings changed. *)
Lemma only_bindings_graph vd vd' t :
  only_bindings vd vd' →
  t ∈ v1_graph vd' ↔ (∃ pk m, v1_bm vd' !! pk = Some m ∧ t ∈ mapping_tuples m) ∨ t ∈ owners_graph vd.
Proof.
  intros Ho. unfold v1_graph. rewrite elem_of_union, elem_of_mappings_graph.
  destruct (only_bindings_tables _ _ Ho) as (_ & Er & _ & _ & _ & _ & Et). destruct Ho as [_ _ Es _ _].
  unfold owners_graph, sourced, owner_tuples. by rewrite Er, Es, Et.
Qed.

Lemma owners_not_mapping vd m t : t ∈ owners_graph vd → t ∈ mapping_tuples m → False.
Proof.
  intros (i & r & _ & _ & (tn & x & _ & _ & ->)%elem_of_owner_tuples)%elem_of_owners_graph Hm. by apply mapping_tuples_owner in Hm.
Qed.

Lemma elem_of_v1_graph vd t :
  t ∈ v1_graph vd ↔ (∃ pk m, v1_bm vd !! pk = Some m ∧ t ∈ mapping_tuples m) ∨ t ∈ owners_graph vd.
Proof. by apply only_bindings_graph. Qed.

(** Role bindings and their subjects only. *)
Lemma delta_bindings vd vd' :
  v1_inv vd → only_bindings vd vd' → v1_bm vd' = v1_bm vd → binding_keys vd' →
  (∀ i b, db_bindings (v1_db vd) !! i = Some b → db_bindings (v1_db vd') !! i = Some b) →
  delta vd vd' [] [].
Proof.
  intros Hi Ho Eb Hk Hkeep. split; [|done| |done|done|unfold bound_id; by rewrite Eb].
  - apply (rebinds_ok vd); [|done]. split; try done.
    + rewrite Eb. intros pk m Hm. by exists m.
    + rewrite Eb. intros pk m role Hm. by exists m.
    + intros pk m role _ _ _ (i & b & Hb & Hu & Hs). exists i, b. rewrite (ob_sources _ _ Ho). auto.
  - intros t. rewrite (only_bindings_graph _ _ _ Ho), elem_of_v1_graph, Eb, !elem_of_nil. tauto.
Qed.

(** A subject tuple belongs to one mapping. *)
Lemma subject_of_mapping id m t : is_subject_of id t → t ∈ mapping_tuples m → bm_id m = id.
Proof.
  unfold mapping_tuples. intros Hs [Ht|Ht]%elem_of_union; [by destruct (frame_not_subject _ _ _ Ht Hs)|]. apply subject_tuples_kind in Ht.
  destruct Hs as [[g ->]|[u ->]], Ht as [[g' E]|[u' E]].
  - by apply vt_group_inj in E as [-> _].
  - by apply vt_group_user in E.
  - symmetry in E. by apply vt_group_user in E.
  - by apply vt_user_inj in E as [-> _].
Qed.

Lemma subject_in_mapping id t : is_subject_of id t → ∃ m, t ∈ mapping_tuples m ∧ bm_id m = id.
Proof.
  intros [[g ->]|[u ->]].
  - exists (mkBindingMapping id (mkV2role "" true ∅) [g] ∅ 0 None "" "" ""). split; [|done]. apply elem_of_mapping_tuples. cbn.
    right; right; right; left. exists g. split; [by left|done].
  - exists (mkBindingMapping id (mkV2role "" true ∅) [] {["" := u]} 0 None "" "" ""). split; [|done]. apply elem_of_mapping_tuples. cbn.
    right; right; right; right. exists u. split; [|done]. apply elem_of_user_values. exists "". apply lookup_singleton_eq.
Qed.

(** The subjects of a mapping. *)
Lemma delta_mapping P f `{!MappingUpdate P f} vd vd' pk m m' add rem :
  v1_inv vd → v1_bm vd !! pk = Some m → P m → f m = Ok (m', add, rem) →
  only_bindings vd vd' → v1_bm vd' = <[pk := m']> (v1_bm vd) → db_bindings (v1_db vd') = db_bindings (v1_db vd) →
  delta vd vd' add rem.
Proof.
  intros Hi Hpk HP Hf Ho Eb Ebs.
  pose proof (same_key_identity _ _ (mu_key _ _ _ _ Hf)) as Hid. pose proof (mu_subjects _ _ _ _ Hf) as Hs.
  pose proof (mapping_update_effect P f _ _ _ _ HP Hf) as He. rewrite Forall_app, !Forall_forall in Hs. destruct Hs as [_ Hs].
  split; [|done| |by eapply mu_valid| |].
  - apply (rebinds_ok vd); [|done]. split; [done|..].
    + unfold binding_keys. by rewrite Ebs.
    + rewrite Eb. intros pk' m2 [[<- <-]|[_ Hm2]]%lookup_insert_Some; eauto. by exists m2.
    + intros pk' m2 role Hm2 _ _. rewrite Eb. destruct (decide (pk = pk')) as [<-|Hne]; [by rewrite lookup_insert_eq|].
      rewrite lookup_insert_ne by done. eauto.
    + intros pk' m2 role _ _ _. unfold has_binding. by rewrite Ebs, (ob_sources _ _ Ho).
  - intros t. rewrite (only_bindings_graph _ _ _ Ho), elem_of_v1_graph, Eb.
    assert (t ∈ mapping_tuples m' ↔ t ∈ add ∨ t ∈ mapping_tuples m ∧ t ∉ rem) as Hm'.
    { rewrite He, elem_of_union, elem_of_difference, !elem_of_list_to_set. tauto. }
    assert (∀ pk2 m2, v1_bm vd !! pk2 = Some m2 → t ∈ mapping_tuples m2 → t ∈ rem → pk2 = pk) as Hone.
    { intros pk2 m2 Hm2 Ht Hr%Hs. eapply vw_bm_id; [apply Hi|exact Hm2|exact Hpk|]. by eapply subject_of_mapping. }
    assert (t ∈ owners_graph vd → t ∈ rem → False) as Hown.
    { intros Ht (mm & Hmm & _)%Hs%subject_in_mapping. by eapply owners_not_mapping. }
    setoid_rewrite lookup_insert_Some. split.
    + intros [(pk2 & m2 & [[<- <-]|[Hne Hm2]] & Ht)|Ht]; [apply Hm' in Ht|..].
      * destruct Ht as [?|[Ht Hn]]; [by left|]. right. split; [|done]. left. eauto.
      * right. split; [left; eauto|]. intros Hr. by destruct (Hone _ _ Hm2 Ht Hr).
      * right. split; [by right|]. by intros ?%Hown.
    + intros [Ha|[[(pk2 & m2 & Hm2 & Ht)|Ht] Hn]]; [left|left|by right].
      * exists pk, m'. split; [by left|]. apply Hm'. by left.
      * destruct (decide (pk = pk2)) as [<-|Hne]; [|exists pk2, m2; by auto].
        exists pk, m'. split; [by left|]. apply Hm'. right. split; [congruence|done].
  - apply Forall_forall. intros t (mm & Hmm & E)%Hs%subject_in_mapping. exists mm. split; [done|]. intros _. by exists pk, m.
  - intros _ id (pk' & m2 & Hm2 & <-). rewrite Eb in Hm2. apply lookup_insert_Some in Hm2 as [[<- <-]|[_ Hm2]]; [|by exists pk', m2].
    exists pk, m. split; [done|]. by destruct Hid.
Qed.

(** A mapping of a system role shares no tuple with another mapping. *)
Lemma system_mapping_tuples m m' t :
  vr_permissions (bm_role_value m) = ∅ → t ∈ mapping_tuples m → t ∈ mapping_tuples m' → bm_id m = bm_id m'.
Proof.
  rewrite !elem_of_mapping_tuples. intros ->.
  intros [-> |[(p & ?%not_elem_of_empty & _)|[-> |[(x & _ & ->)|(x & _ & ->)]]]] [E|[(q & _ & E)|[E|[(y & _ & E)|(y & _ & E)]]]];
    try done; unfold vt_role, vt_perm, vt_resource, vt_group, vt_user, rel_tuple in E; injection E; intros; tauto || congruence.
Qed.

(** A mapping of a system role goes, and role bindings with its UUID may go with it. *)
Lemma delta_delete vd vd' pk m role ts :
  v1_inv vd → v1_bm vd !! pk = Some m → v1_roles vd !! bm_role m = Some role → v1_system role = true →
  mapping_as_tuples m = Ok ts → only_bindings vd vd' → v1_bm vd' = delete pk (v1_bm vd) → binding_keys vd' →
  (∀ i b, db_bindings (v1_db vd) !! i = Some b → b_uuid b ≠ bm_id m → db_bindings (v1_db vd') !! i = Some b) →
  delta vd vd' [] ts.
Proof.
  intros Hi Hpk Hrole Hsys Hts Ho Eb Hk Hkeep. pose proof (vw_bm_id _ (vo_wf _ (proj1 Hi))) as Hid.
  pose proof (mapping_as_tuples_spec _ _ Hts) as Hin.
  split; [|done| |done|apply Forall_forall; intros t Ht%Hin; exists m; split; [done|]; by exists pk, m
         |intros _ id (pk' & m' & Hm' & <-); rewrite Eb in Hm'; apply lookup_delete_Some in Hm' as [_ ?]; by exists pk', m'].
  - apply (rebinds_ok vd); [|done]. split; try done.
    + rewrite Eb. intros pk' m' [_ Hm]%lookup_delete_Some. by exists m'.
    + intros pk' m' role' Hm' Hr Hs. rewrite Eb, lookup_delete_ne; [eauto|]. intros <-. congruence.
    + intros pk' m' role' Hm' Hr Hs (i & b & Hb & Hu & Hsrc). exists i, b. rewrite (ob_sources _ _ Ho).
      split_and!; try done. apply Hkeep; [done|]. rewrite Hu. intros E. rewrite (Hid _ _ _ _ Hm' Hpk E) in Hm'. congruence.
  - intros t. rewrite (only_bindings_graph _ _ _ Ho), elem_of_v1_graph, Eb, elem_of_nil, Hin.
    setoid_rewrite lookup_delete_Some. split.
    + intros [(pk' & m' & [Hne Hm'] & Ht)|Ht]; right; (split; [eauto|]).
      * intros Ht'. apply Hne. apply (Hid _ _ m m'); try done. apply (system_mapping_tuples m m' t); try done.
        apply (vo_system_perms _ (proj1 Hi) pk m role); done.
      * intros Ht'. by eapply owners_not_mapping.
    + intros [[]|[[(pk' & m' & Hm' & Ht)|?] Hn]]; [|by right]. left. exists pk', m'. split_and!; try done. congruence.
Qed.

(** A new mapping of a system role. *)
Lemma delta_new vd pk m role ts :
  v1_inv vd → v1_bm vd !! pk = None → (∀ pk' m', v1_bm vd !! pk' = Some m' → bm_id m' ≠ bm_id m) →
  v1_roles vd !! bm_role m = Some role → v1_system role = true →
  bm_role_value m = for_system_role (v1_uuid role) → bm_namespace m = "rbac" → mapping_as_tuples m = Ok ts →
  delta vd (with_bm (<[pk := m]>) vd) ts [].
Proof.
  intros [Hok Ha] Hpk Hid Hrole Hsys Hval Hns Hts. pose proof (mapping_as_tuples_spec _ _ Hts) as Hin.
  assert (only_bindings vd (with_bm (<[pk := m]>) vd)) as Ho by (destruct vd as [[]]; by split).
  split; [|done| |eapply mapping_as_tuples_rbac; [done|by rewrite Hval|done]|done|].
  - split.
    + destruct Hok as [Hwf Hbr Hsrc Htn Hnm Hung Hcu Huu Hsu Hri Hgk Huk Hsp Hbo]. split; try done; cbn.
      * destruct Hwf as [W1 W2 W3 W4 W5 W6]. split; try done; cbn.
        -- intros i j m1 m2 [[<- <-]|[_ H1']]%lookup_insert_Some [[<- <-]|[_ H2']]%lookup_insert_Some E; [done|..].
           ++ by destruct (Hid _ _ H2').
           ++ by destruct (Hid _ _ H1').
           ++ by eapply W4.
        -- assert (∀ i m1, v1_bm vd !! i = Some m1 → vr_id (bm_role_value m1) = v1_uuid role → bm_role m1 = bm_role m) as Hs.
           { intros i m1 H1' E. by apply (Hsu (bm_role m) role i m1). }
           intros i j m1 m2 [[<- <-]|[_ H1']]%lookup_insert_Some [[<- <-]|[_ H2']]%lookup_insert_Some; [done|..].
           ++ rewrite Hval. intros E. symmetry. eapply Hs; [exact H2'|by rewrite <- E].
           ++ rewrite Hval. intros E. by eapply Hs.
           ++ by eapply W5.
        -- intros i r s Hr Hs Hty. destruct (W6 _ _ _ Hr Hs Hty) as (pk' & m' & Hm' & E). exists pk', m'.
           rewrite lookup_insert_ne; [done|]. congruence.
      * intros pk' m' [[<- <-]|[_ Hm']]%lookup_insert_Some; [eauto|by eapply Hbr].
      * intros i r pk' m' Hr Hs [[<- <-]|[_ Hm']]%lookup_insert_Some; [|by apply (Hsu i r pk' m')].
        rewrite Hval. cbn. intros E. by apply (Huu _ _ role r).
      * intros pk' m' r [[<- <-]|[_ Hm']]%lookup_insert_Some; [by rewrite Hval|by eapply Hsp].
      * intros pk' m' r [[<- <-]|[_ Hm']]%lookup_insert_Some; [congruence|]. apply (Hbo pk' m' r Hm').
    + intros pk' m' r. cbn. intros [[<- <-]|[_ Hm']]%lookup_insert_Some _; [congruence|by apply (Ha pk')].
  - intros t. rewrite (only_bindings_graph _ _ _ Ho), elem_of_v1_graph, elem_of_nil, Hin. cbn.
    setoid_rewrite lookup_insert_Some. split.
    + intros [(pk' & m' & [[<- <-]|[Hne Hm']] & Ht)|Ht]; [by left|right; eauto 10..].
    + intros [Ht|[[(pk' & m' & Hm' & Ht)|Ht] _]]; [left; eauto 10| |by right].
      left. exists pk', m'. split; [|done]. right. split; [congruence|done].
  - intros ->. assert (vt_role (bm_id m) (vr_id (bm_role_value m)) ∈ []) as []%elem_of_nil. apply Hin, elem_of_mapping_tuples. by left.
Qed.
End delta.

(* ------------------------------------------------------------------ *)
(** * The writes of the handler *)

(** Entries of other bindings stay. *)
Definition entries_kept (P : Z → Prop) (vd vd' : V1Db) : Prop :=
  ∀ i gid, P i → (i, gid) ∈ db_group_entries (v1_db vd') ↔ (i, gid) ∈ db_group_entries (v1_db vd).

(** What new rows of a system role get from the generator. *)
Definition sys_gen_ok (gen : V1Db → sys_fresh) : Prop := ∀ vd,
  v1_bm vd !! sf_mapping (gen vd) = None ∧ db_bindings (v1_db vd) !! sf_binding (gen vd) = None
  ∧ (∀ pk m, v1_bm vd !! pk = Some m → bm_id m ≠ sf_uuid (gen vd))
  ∧ ∀ i b, db_bindings (v1_db vd) !! i = Some b → b_uuid b ≠ sf_uuid (gen vd).

(** An update that keeps to a mode; only shrinking ones leave a mapping without
    subjects. *)
Class ModeUpdate (md : mode) (f : mapping_update) : Prop := {
  mo_mode m m' add rem : f m = Ok (m', add, rem) → mode_ok md add rem;
  mo_grow m m' add rem : md = Grow → f m = Ok (m', add, rem) → is_unassigned m' = false;
}.

(** What a run over the bindings of a role does. *)
Record moved `{Settings} (md : mode) (rid : Z) (vd vd' : V1Db) (add rem : list RelationTuple) : Prop := {
  mv_delta : delta vd vd' add rem;
  mv_mode : mode_ok md add rem;
  mv_step : in_step vd → in_step vd';
  mv_others pk m : bm_role m ≠ rid → v1_bm vd' !! pk = Some m ↔ v1_bm vd !! pk = Some m;
}.

Section writes.
Context `{Settings} `{PySetOrder} `{RowOrder}.
Implicit Types (vd : V1Db) (m : BindingMapping) (b : RoleBinding).

Lemma update_groups_by_uuid_Ok i uuids d d' :
  update_groups_by_uuid i uuids d = Ok d' →
  ∃ gs, d' = update_groups i gs d ∧ ∀ gid, gid ∈ gs ↔ ∃ k g, db_groups d !! k = Some g ∧ g_id g = gid ∧ g_uuid g ∈ uuids.
Proof.
  unfold update_groups_by_uuid. intros (u & _ & [= <-])%bind_Ok. eexists. split; [reflexivity|]. intros gid.
  rewrite elem_of_list_to_set, list_elem_of_fmap. setoid_rewrite elem_of_select. split.
  - intros (g & -> & Hg%bool_decide_eq_true & k & Hk). exists k, g. by rewrite elem_of_list_to_set in Hg.
  - intros (k & g & Hk & <- & Hg). exists g. split; [done|]. split; [|eauto]. by rewrite bool_decide_eq_true, elem_of_list_to_set.
Qed.

Lemma update_principals_Ok i users d d' :
  update_principals_by_user_id i users d = Ok d' → ∃ ps, d' = update_principals i ps d.
Proof. unfold update_principals_by_user_id. intros (u & _ & Hr)%bind_Ok. apply bind_Ok in Hr as (e & _ & [= <-]). eauto. Qed.

Lemma sync_Ok m b vd vd' :
  sync_binding_mapping_to_role_binding m b vd = Ok vd' → group_keys (v1_db vd) →
  v1_sources vd !! b_role b = Some (bm_role m) ∧ only_bindings vd vd' ∧ v1_bm vd' = v1_bm vd
  ∧ db_bindings (v1_db vd') = db_bindings (v1_db vd) ∧ synced vd' (b_id b) m ∧ entries_kept (λ i, i ≠ b_id b) vd vd'.
Proof.
  unfold sync_binding_mapping_to_role_binding. intros (u1 & Hs%raise_if_Ok%negb_false_iff%bool_decide_eq_true & Hr)%bind_Ok [Hid _].
  apply bind_Ok in Hr as (u2 & _ & Hr). apply bind_Ok in Hr as (u3 & _ & Hr).
  apply bind_Ok in Hr as (d1 & (gs & -> & Hgs)%update_groups_by_uuid_Ok & Hr).
  apply bind_Ok in Hr as (d2 & (ps & ->)%update_principals_Ok & [= <-]). split; [done|].
  split; [destruct vd as [[]]; by split|]. split; [done|]. split; [done|]. split.
  - intros gid. cbn. rewrite elem_of_union, elem_of_map, elem_of_filter. setoid_rewrite Hgs. split.
    + intros [(g & [= ->] & k & grp & Hk & <- & Hu)|[[] _]]; [|done]. exists grp. by rewrite (Hid _ _ Hk).
    + intros (grp & Hg & Hu). left. exists gid. split; [done|]. exists gid, grp. by rewrite (Hid _ _ Hg).
  - intros i gid Hne. cbn. rewrite elem_of_union, elem_of_map, elem_of_filter. cbn. naive_solver.
Qed.

Lemma update_role_binding_Ok f pk m rb vd vd' m' add rem :
  update_role_binding f pk m rb vd = Ok (vd', m', add, rem) → group_keys (v1_db vd) →
  f m = Ok (m', add, rem) ∧ only_bindings vd vd' ∧ v1_bm vd' = <[pk := m']> (v1_bm vd)
  ∧ db_bindings (v1_db vd') = db_bindings (v1_db vd)
  ∧ (∀ b, rb = Some b → v1_sources vd !! b_role b = Some (bm_role m') ∧ synced vd' (b_id b) m')
  ∧ entries_kept (λ i, ∀ b, rb = Some b → i ≠ b_id b) vd vd'.
Proof.
  unfold update_role_binding. intros ([[m1 add1] rem1] & Hf & Hr)%bind_Ok Hg.
  apply bind_Ok in Hr as (u1 & _ & Hr). apply bind_Ok in Hr as (role & _ & Hr). apply bind_Ok in Hr as (u2 & _ & Hr).
  apply bind_Ok in Hr as (vd1 & ->%save_mapping_Ok & Hr). apply bind_Ok in Hr as (vd2 & Hs & [= <- <- <- <-]).
  split; [done|]. assert (only_bindings vd (with_bm (<[pk := m1]>) vd)) as Ho by (destruct vd as [[]]; by split).
  destruct rb as [b|]; [|injection Hs as <-; split_and!; by try done].
  apply sync_Ok in Hs as (Hsrc & Ho' & Eb & Ebs & Hsy & Hk); [|done]. split; [by trans (with_bm (<[pk := m1]>) vd)|].
  split_and!; [done|done|by intros ? [= <-]|]. intros i gid Hne. by apply Hk, Hne.
Qed.

Lemma get_or_migrate_Ok new_pk tenant m vd vd' b :
  get_or_migrate_binding_for_system_role new_pk tenant m vd = Ok (vd', b) →
  v1_inv vd → db_bindings (v1_db vd) !! new_pk = None →
  delta vd vd' [] [] ∧ v1_bm vd' = v1_bm vd
  ∧ (∀ i c, db_bindings (v1_db vd') !! i = Some c ↔ i = b_id b ∧ c = b ∨ i ≠ b_id b ∧ db_bindings (v1_db vd) !! i = Some c)
  ∧ b_uuid b = bm_id m ∧ (vd' = vd ∨ db_bindings (v1_db vd) !! b_id b = None ∧ synced vd' (b_id b) m)
  ∧ entries_kept (λ i, is_Some (db_bindings (v1_db vd) !! i)) vd vd'.
Proof.
  unfold get_or_migrate_binding_for_system_role. intros (v1_role & _ & Hr)%bind_Ok Hi Hfresh.
  apply bind_Ok in Hr as (u1 & _ & Hr). apply bind_Ok in Hr as (v2 & _ & Hr).
  pose proof (vw_bindings _ (vo_wf _ (proj1 Hi))) as [Hid Hu].
  destruct (select _ _) as [|b0 l] eqn:Hsel in Hr.
  - apply bind_Ok in Hr as (vd1 & Hsave & Hr). pose proof (binding_keys_put _ _ _ (conj Hid Hu) Hsave) as Hk.
    apply save_binding_Ok in Hsave as [-> _]. apply bind_Ok in Hr as (vd2 & Hs & [= <- <-]).
    set (b := mkRoleBinding _ _ _ _ _ _) in *.
    assert (only_bindings vd (put_binding b vd)) as Ho by (destruct vd as [[]]; by split).
    assert (∀ i c, db_bindings (v1_db (put_binding b vd)) !! i = Some c ↔
              i = b_id b ∧ c = b ∨ i ≠ b_id b ∧ db_bindings (v1_db vd) !! i = Some c) as Hrows.
    { intros i c. cbn. rewrite lookup_insert_Some. naive_solver. }
    apply sync_Ok in Hs as (_ & Ho' & Eb & Ebs & Hsy & Hent); [|apply Hi].
    assert (only_bindings vd vd2) as Ho2 by (by trans (put_binding b vd)).
    assert (binding_keys vd2) as Hk2 by (unfold binding_keys; by rewrite Ebs).
    split_and!; try done.
    + apply delta_bindings; try done. intros i c Hc. rewrite Ebs. apply Hrows. right. split; [|done].
      intros ->. cbn in Hc. congruence.
    + by rewrite Ebs.
    + by right.
    + intros i gid [c Hc]. rewrite (Hent i gid); [done|]. intros ->. cbn in Hc. congruence.
  - injection Hr as <- <-. assert (b0 ∈ b0 :: l) as Hin by left. rewrite <- Hsel in Hin.
    apply elem_of_select in Hin as [Hb [k Hk]]. rewrite !andb_true_iff, !String.eqb_eq in Hb. destruct Hb as ((((_ & Hb) & _) & _) & _).
    pose proof (Hid _ _ Hk) as <-. split_and!; try done; [by apply delta_refl| |by left].
    intros i c. destruct (decide (i = b_id b0)) as [->|]; [|naive_solver]. rewrite Hk. naive_solver.
Qed.

Lemma moved_refl md rid vd : v1_inv vd → moved md rid vd vd [] [].
Proof. intros Hi. split; [by apply delta_refl|by apply mode_ok_nil|done|done]. Qed.

Lemma moved_trans md rid vd1 vd2 vd3 add1 rem1 add2 rem2 :
  moved md rid vd1 vd2 add1 rem1 → moved md rid vd2 vd3 add2 rem2 → moved md rid vd1 vd3 (add1 ++ add2) (rem1 ++ rem2).
Proof.
  intros [D1 M1 S1 O1] [D2 M2 S2 O2]. destruct (delta_trans _ _ _ _ _ _ _ _ M1 M2 D1 D2) as [D M]. split; [done|done|by auto|].
  intros pk m Hne. by rewrite O2, O1.
Qed.

(** Only rows without a place in the graph have changed. *)
Lemma moved_step md rid vd vd' :
  delta vd vd' [] [] → v1_bm vd' = v1_bm vd → (in_step vd → in_step vd') → moved md rid vd vd' [] [].
Proof. intros Hd Eb Hs. split; [done|by apply mode_ok_nil|done|]. intros pk m _. by rewrite Eb. Qed.

Lemma get_or_migrate_moved md rid new_pk tenant pk m vd vd' b :
  get_or_migrate_binding_for_system_role new_pk tenant m vd = Ok (vd', b) →
  v1_inv vd → db_bindings (v1_db vd) !! new_pk = None → v1_bm vd !! pk = Some m → moved md rid vd vd' [] [].
Proof.
  intros Hr Hi Hn Hpk. pose proof (vw_bm_id _ (vo_wf _ (proj1 Hi))) as Hbm.
  destruct (get_or_migrate_Ok _ _ _ _ _ _ Hr Hi Hn) as (Hd & Eb & Hrows & Hu & Hnew & Hent). apply moved_step; [done|done|].
  intros Hs pk' m' i c Hm' Hc Huc. rewrite Eb in Hm'. apply Hrows in Hc as [[-> ->]|[Hne Hc]].
  - destruct Hnew as [->|[_ Hsy]].
    + eapply Hs; [done| |exact Huc]. apply Hrows. by left.
    + assert (pk = pk') as <- by (apply (Hbm _ _ m m'); congruence). rewrite Hpk in Hm'. by injection Hm' as <-.
  - intros gid. rewrite (Hent i gid) by eauto. destruct (only_bindings_tables _ _ (dl_only _ _ _ _ Hd)) as (_ & _ & -> & _).
    by apply (Hs pk' m' i c).
Qed.

(** The update of a mapping and of the binding beside it. *)
Lemma update_role_binding_moved P f md `{!MappingUpdate P f} `{!ModeUpdate md f} pk m rb vd vd' m' add rem :
  update_role_binding f pk m rb vd = Ok (vd', m', add, rem) → v1_inv vd → v1_bm vd !! pk = Some m → P m →
  (∀ i c, db_bindings (v1_db vd) !! i = Some c → b_uuid c = bm_id m → ∃ b, rb = Some b ∧ b_id b = i) →
  (∀ b, rb = Some b → db_bindings (v1_db vd) !! b_id b = Some b ∧ b_uuid b = bm_id m) →
  moved md (bm_role m) vd vd' add rem.
Proof.
  intros Hr Hi Hpk HP Hall Hrb. pose proof (vw_bm_id _ (vo_wf _ (proj1 Hi))) as Hbm.
  destruct (update_role_binding_Ok _ _ _ _ _ _ _ _ _ Hr) as (Hf & Ho & Eb & Ebs & Hsy & Hent); [apply Hi|].
  destruct (same_key_identity _ _ (mu_key _ _ _ _ Hf)) as (Eid & Erole & _). split.
  - by eapply delta_mapping.
  - by eapply mo_mode.
  - intros Hs pk' m2 i c. rewrite Eb, Ebs. intros [[<- <-]|[Hne Hm2]]%lookup_insert_Some Hc Hu.
    + rewrite Eid in Hu. destruct (Hall _ _ Hc Hu) as (b & E & <-). by apply Hsy.
    + intros gid. rewrite (Hent i gid).
      * destruct (only_bindings_tables _ _ Ho) as (_ & _ & -> & _). by apply (Hs pk' m2 i c).
      * intros b E Ei. destruct (Hrb b E) as [Hb Hub]. rewrite <- Ei, Hc in Hb. injection Hb as <-.
        apply Hne, (Hbm _ _ m m2); congruence.
  - intros pk' m2 Hne. rewrite Eb, lookup_insert_Some. split; [intros [[<- <-]|[_ ?]]; [congruence|done]|].
    intros Hm2. right. split; [|done]. congruence.
Qed.
End writes.

(* ------------------------------------------------------------------ *)
(** * Runs of the handler *)

(** The rows and the collected tuples after a run over the bindings of a role. *)
Definition advanced `{Settings} (md : mode) (rid : Z) (st st' : SubjectState) : Prop :=
  ∃ add rem, ss_add st' = ss_add st ++ add ∧ ss_remove st' = ss_remove st ++ rem ∧ ss_events st' = ss_events st
    ∧ moved md rid (ss_vd st) (ss_vd st') add rem.

Section runs.
Context `{Settings} `{PySetOrder} `{RowOrder}.
Implicit Types (vd : V1Db) (st : SubjectState).

Lemma advanced_refl md rid st : v1_inv (ss_vd st) → advanced md rid st st.
Proof. intros Hi. exists [], []. rewrite !app_nil_r. split_and!; try done. by apply moved_refl. Qed.

Lemma advanced_trans md rid st1 st2 st3 : advanced md rid st1 st2 → advanced md rid st2 st3 → advanced md rid st1 st3.
Proof.
  intros (a1 & r1 & A1 & R1 & E1 & M1) (a2 & r2 & A2 & R2 & E2 & M2). exists (a1 ++ a2), (r1 ++ r2).
  rewrite A2, A1, R2, R1, E2, E1, !app_assoc. split_and!; try done. by eapply moved_trans.
Qed.

Lemma advanced_inv md rid st st' : advanced md rid st st' → v1_inv (ss_vd st').
Proof. intros (a & r & _ & _ & _ & M). apply M. Qed.
Lemma advanced_roles md rid st st' : advanced md rid st st' → v1_roles (ss_vd st') = v1_roles (ss_vd st).
Proof. intros (a & r & _ & _ & _ & M). apply M. Qed.

Lemma delete_one_mapping pk vd : v1_bm (delete_mappings {[pk]} vd) = delete pk (v1_bm vd).
Proof.
  apply map_eq. intros i. cbn. apply option_eq. intros m. rewrite map_lookup_filter_Some, lookup_delete_Some. cbn.
  rewrite not_elem_of_singleton. naive_solver.
Qed.

Lemma delete_moved vd vd' pk m role ts :
  v1_inv vd → v1_bm vd !! pk = Some m → v1_roles vd !! bm_role m = Some role → v1_system role = true →
  mapping_as_tuples m = Ok ts →
  (vd' = delete_mappings {[pk]} vd
   ∨ ∃ b, db_bindings (v1_db vd) !! b_id b = Some b ∧ b_uuid b = bm_id m
     ∧ vd' = with_db (delete_bindings {[b_id b]}) (delete_mappings {[pk]} vd)) →
  moved Shrink (bm_role m) vd vd' [] ts.
Proof.
  intros Hi Hpk Hrole Hsys Hts Hvd. pose proof (vw_bindings _ (vo_wf _ (proj1 Hi))) as [Hid Hu].
  assert (v1_bm vd' = delete pk (v1_bm vd)) as Eb by (destruct Hvd as [->|(b & _ & _ & ->)]; apply delete_one_mapping).
  assert (only_bindings vd vd') as Ho by (destruct vd as [[]]; destruct Hvd as [->|(b & _ & _ & ->)]; by split).
  assert (∀ i c, db_bindings (v1_db vd') !! i = Some c → db_bindings (v1_db vd) !! i = Some c
    ∧ ∀ gid, (i, gid) ∈ db_group_entries (v1_db vd') ↔ (i, gid) ∈ db_group_entries (v1_db vd)) as Hsub.
  { intros i c. destruct Hvd as [->|(b & _ & _ & ->)]; [done|]. cbn. rewrite map_lookup_filter_Some. intros [Hc Hn].
    split; [done|]. intros gid. rewrite elem_of_filter. naive_solver. }
  split.
  - eapply delta_delete; try done.
    + split; [intros i c [Hc _]%Hsub; by apply Hid|]. intros i j c c' [Hc _]%Hsub [Hc' _]%Hsub. by apply (Hu i j c c').
    + intros i c Hc Hne. destruct Hvd as [->|(b & Hb & Hub & ->)]; [done|]. cbn. apply map_lookup_filter_Some. split; [done|].
      cbn. intros ->%elem_of_singleton. congruence.
  - done.
  - intros Hs pk' m' i c. rewrite Eb. intros [_ Hm']%lookup_delete_Some [Hc He]%Hsub Huc gid. rewrite He.
    destruct (only_bindings_tables _ _ Ho) as (_ & _ & -> & _). by apply (Hs pk' m' i c).
  - intros pk' m' Hne. rewrite Eb, lookup_delete_Some. split; [naive_solver|]. intros Hm'. split; [|done]. congruence.
Qed.

(** A new mapping of the system role. *)
Lemma create_moved role uuid res groups users vd m ts pk :
  create_default_mapping_for_system_role uuid role res groups users vd = Ok (m, ts) →
  br_namespace res = "rbac" → v1_inv vd → v1_roles vd !! v1_id role = Some role → v1_system role = true →
  v1_bm vd !! pk = None → (∀ pk' m', v1_bm vd !! pk' = Some m' → bm_id m' ≠ uuid) →
  (∀ i b, db_bindings (v1_db vd) !! i = Some b → b_uuid b ≠ uuid) →
  moved Grow (v1_id role) vd (with_bm (<[pk := m]>) vd) ts [] ∧ bm_role m = v1_id role ∧ bm_groups m = groups ∧ bm_users m = users.
Proof.
  unfold create_default_mapping_for_system_role. intros (u & _ & Hr)%bind_Ok Hns Hi Hrole Hsys Hpk Hid Hb.
  apply bind_Ok in Hr as (l & Hts & [= <- <-]). split; [|done]. split.
  - eapply delta_new; try done.
  - cbn. set_solver.
  - intros Hs pk' m' i b. cbn. intros [[<- <-]|[_ Hm']]%lookup_insert_Some Hb' E; [by destruct (Hb _ _ Hb')|]. by apply (Hs pk' m' i b).
  - intros pk' m' Hne. cbn. rewrite lookup_insert_Some. split; [naive_solver|]. intros Hm'. right. split; [|done]. congruence.
Qed.

Section callbacks.
Variables (gen : V1Db → sys_fresh) (h : SubjectHandler) (role : V1Role) (md : mode) (P : BindingMapping → Prop) (f : mapping_update).
Context `{!MappingUpdate P f} `{!ModeUpdate md f}.
Hypotheses (Hgen : sys_gen_ok gen) (Hpres : ∀ m m' add rem, P m → f m = Ok (m', add, rem) → P m').

(** The mappings of the role meet the precondition of the update. *)
Definition ready (vd : V1Db) : Prop := ∀ pk m, v1_bm vd !! pk = Some m → bm_role m = v1_id role → P m.

(** The role binding of a mapping of a system role. *)
Lemma find_binding suppress pk m vd vd1 rb :
  binding_of_mapping gen h suppress m vd = Ok (vd1, rb) →
  v1_inv vd → v1_bm vd !! pk = Some m →
  moved md (bm_role m) vd vd1 [] [] ∧ v1_bm vd1 = v1_bm vd
  ∧ (∀ i c, db_bindings (v1_db vd1) !! i = Some c → b_uuid c = bm_id m → ∃ b, rb = Some b ∧ b_id b = i)
  ∧ (∀ b, rb = Some b → db_bindings (v1_db vd1) !! b_id b = Some b ∧ b_uuid b = bm_id m).
Proof.
  unfold binding_of_mapping. intros Hr Hi Hpk. pose proof (vw_bindings _ (vo_wf _ (proj1 Hi))) as [Hid Hu]. destruct suppress.
  - apply bind_Ok in Hr as (u & _ & [= <- <-]).
    assert (∀ c, c ∈ select (λ b, String.eqb (b_uuid b) (bm_id m)) (db_bindings (v1_db vd)) ↔
              db_bindings (v1_db vd) !! b_id c = Some c ∧ b_uuid c = bm_id m) as Hsel.
    { intros c. rewrite elem_of_select, String.eqb_eq. split; [intros [E [k Hk]]; by rewrite (Hid _ _ Hk)|naive_solver]. }
    destruct (select _ _) as [|b l]; cbn; (split; [by apply moved_refl|]); (split; [done|]); split; try done.
    + intros i c Hc E. assert (c ∈ []) as []%elem_of_nil. apply Hsel. by rewrite (Hid _ _ Hc).
    + intros i c Hc E. exists b. split; [done|]. destruct (proj1 (Hsel b)) as [Hb Eb]; [left|]. apply (Hu _ _ b c); congruence.
    + intros c [= <-]. apply Hsel. left.
  - apply bind_Ok in Hr as ([vd2 b] & Hr & [= <- <-]). destruct (Hgen vd) as (_ & Hn & _).
    destruct (get_or_migrate_Ok _ _ _ _ _ _ Hr Hi Hn) as (Hd & Eb & Hrows & Hub & _ & _).
    split; [by eapply get_or_migrate_moved|]. split; [done|].
    assert (db_bindings (v1_db vd2) !! b_id b = Some b) as Hb by (apply Hrows; by left). split.
    + intros i c Hc E. exists b. split; [done|].
      apply (proj2 (vw_bindings _ (vo_wf _ (proj1 (dl_inv _ _ _ _ Hd)))) _ _ b c); congruence.
    + by intros c [= <-].
Qed.

Lemma update_existing_run suppress res st st' :
  update_existing_mapping gen h role f suppress res st = Ok (Some st') →
  v1_inv (ss_vd st) → v1_roles (ss_vd st) !! v1_id role = Some role → v1_system role = true → ready (ss_vd st) →
  advanced md (v1_id role) st st' ∧ ready (ss_vd st').
Proof.
  intros Hr Hi Hrole Hsys Hp. unfold update_existing_mapping in Hr.
  destruct (List.filter _ _) as [|[pk m] [|? ?]] eqn:Hfl in Hr; [done| |done].
  assert (In (pk, m) [(pk, m)]) as Hin by (by left). rewrite <- Hfl in Hin.
  apply filter_In in Hin as [Hin%list_elem_of_In%elem_of_role_mappings _]. destruct Hin as [Hpk Em].
  apply bind_Ok in Hr as ([vd1 rb] & Hrb & Hr). apply find_binding with (pk := pk) in Hrb as (M1 & Eb1 & Hall & Hrow); [|done..].
  apply bind_Ok in Hr as ([[[vd2 m'] add] rem] & Hup & Hr).
  pose proof (dl_inv _ _ _ _ (mv_delta _ _ _ _ _ _ M1)) as Hi1.
  assert (v1_bm vd1 !! pk = Some m) as Hpk1 by (by rewrite Eb1).
  pose proof (update_role_binding_moved _ _ md _ _ _ _ _ _ _ _ Hup Hi1 Hpk1 (Hp _ _ Hpk Em) Hall Hrow) as M2.
  destruct (update_role_binding_Ok _ _ _ _ _ _ _ _ _ Hup) as (Hf & Ho2 & Eb2 & Ebs2 & _); [apply Hi1|].
  destruct (same_key_identity _ _ (mu_key _ _ _ _ Hf)) as (Eid & Erole & _).
  pose proof (moved_trans _ _ _ _ _ _ _ _ _ M1 M2) as M12. cbn in M12.
  assert (ready vd2) as Hp2.
  { intros pk' m2. rewrite Eb2, Eb1, <- Em. intros [[<- <-]|[_ Hm2]]%lookup_insert_Some E; [eapply Hpres; [|exact Hf]; by eapply Hp|].
    apply (Hp pk'); congruence. }
  destruct (is_unassigned m') eqn:Hun.
  - assert (md = Shrink) as -> by (destruct md; [|done]; pose proof (mo_grow _ _ _ _ eq_refl Hf); congruence).
    apply bind_Ok in Hr as (ts & Hts & Hr). apply bind_Ok in Hr as (vd4 & Hd & [= <-]).
    assert (moved Shrink (bm_role m') vd2 vd4 [] ts) as M3.
    { eapply (delete_moved _ _ pk m' role); [apply M2|by rewrite Eb2, lookup_insert_eq| |done|done|].
      - rewrite (ob_roles _ _ (dl_only _ _ _ _ (mv_delta _ _ _ _ _ _ M12))), Erole. congruence.
      - destruct rb as [b|]; [|injection Hd as <-; by left].
        apply bind_Ok in Hd as (u1 & _ & Hd). apply bind_Ok in Hd as (u2 & _ & [= <-]). right. exists b.
        destruct (Hrow b eq_refl) as [Hb Hub]. rewrite Ebs2, Eid. done. }
    rewrite Erole in M3. split.
    + exists add, (rem ++ ts). split_and!; try done. rewrite <- Em, <- (app_nil_r add). by eapply moved_trans.
    + assert (v1_bm vd4 = delete pk (v1_bm vd2)) as Eb4.
      { destruct rb as [b|]; [|injection Hd as <-; apply delete_one_mapping].
        apply bind_Ok in Hd as (u1 & _ & Hd). apply bind_Ok in Hd as (u2 & _ & [= <-]). apply delete_one_mapping. }
      intros pk' m2. cbn. rewrite Eb4. intros [_ Hm2]%lookup_delete_Some. by apply Hp2 in Hm2.
  - injection Hr as <-. split; [|done]. exists add, rem. rewrite <- Em. split_and!; done.
Qed.

Variable create : option (V2boundresource → V1Db → result (BindingMapping * list RelationTuple)).
Hypothesis Hcreate : ∀ c, create = Some c → md = Grow ∧ ∃ groups users,
  (∀ res vd, c res vd = create_default_mapping_for_system_role (sf_uuid (gen vd)) role res groups users vd)
  ∧ ∀ m, bm_groups m = groups → bm_users m = users → P m.

Lemma system_role_run unlocked suppress scope st st' :
  update_mapping_for_system_role gen h role f create unlocked suppress scope st = Ok st' →
  v1_inv (ss_vd st) → v1_roles (ss_vd st) !! v1_id role = Some role → ready (ss_vd st) →
  advanced md (v1_id role) st st' ∧ ready (ss_vd st').
Proof.
  intros Hr Hi Hrole Hp. revert suppress Hr. induction unlocked as [|n IH]; intros suppress; cbn [update_mapping_for_system_role];
    intros (u1 & _ & Hr)%bind_Ok; apply bind_Ok in Hr as (u2 & Hsys%raise_if_Ok%negb_false_iff & Hr);
    apply bind_Ok in Hr as (loc & _ & Hr); apply bind_Ok in Hr as (res & Hres%for_model_rbac & Hr);
    apply bind_Ok in Hr as (o & Ho & Hr); (destruct o as [st1|]; [injection Hr as <-; by eapply update_existing_run|]);
    (destruct create as [c|] eqn:Ec; [|injection Hr as <-; split; [by apply advanced_refl|done]]).
  - apply bind_Ok in Hr as ([m ts] & Hc & Hr). apply bind_Ok in Hr as (vd1 & Hsave%save_mapping_Ok & Hr).
    apply bind_Ok in Hr as ([vd2 b] & Hg & [= <-]). destruct (Hgen (ss_vd st)) as (G1 & G2 & G3 & G4).
    destruct (Hcreate c eq_refl) as (Emd & groups & users & Hcc & HcP). rewrite Hcc in Hc.
    destruct (create_moved _ _ _ _ _ _ _ _ _ Hc Hres Hi Hrole Hsys G1 G3 G4) as (M1 & Em & Eg & Eu). rewrite <- Hsave in M1. rewrite Emd.
    assert (moved Grow (v1_id role) vd1 vd2 [] []) as M2.
    { eapply get_or_migrate_moved; [exact Hg|apply M1|by rewrite Hsave|by rewrite Hsave; apply lookup_insert_eq]. }
    destruct (get_or_migrate_Ok _ _ _ _ _ _ Hg) as (_ & Eb2 & _); [apply M1|by rewrite Hsave|]. split.
    + exists ts, []. rewrite app_nil_r. split_and!; try done. cbn. rewrite <- (app_nil_r ts). by eapply (moved_trans _ _ _ _ _ _ []).
    + intros pk' m'. cbn. rewrite Eb2, Hsave. cbn. intros [[<- <-]|[_ Hm']]%lookup_insert_Some E; [by apply HcP|by eapply Hp].
  - apply bind_Ok in Hr as (u3 & _ & Hr). by eapply IH.
Qed.

(** The loop over the mappings of a custom role. *)
Lemma custom_loop_run by_id l st st' :
  foldM (update_custom_mapping f by_id) st l = Ok st' →
  NoDup (map fst l) → (∀ pk m, (pk, m) ∈ l → v1_bm (ss_vd st) !! pk = Some m ∧ bm_role m = v1_id role) →
  (∀ u b, by_id !! u = Some b → db_bindings (v1_db (ss_vd st)) !! b_id b = Some b ∧ b_uuid b = u) →
  v1_inv (ss_vd st) → ready (ss_vd st) →
  advanced md (v1_id role) st st' ∧ ready (ss_vd st')
  ∧ (∀ pk m, (pk, m) ∈ l → ∃ m' add rem, f m = Ok (m', add, rem) ∧ v1_bm (ss_vd st') !! pk = Some m')
  ∧ (∀ pk, pk ∉ map fst l → v1_bm (ss_vd st') !! pk = v1_bm (ss_vd st) !! pk).
Proof.
  revert st. induction l as [|[pk m] l IH]; intros st Hr Hnd Hl Hby Hi Hp; cbn [foldM] in Hr.
  { injection Hr as <-. split_and!; [by apply advanced_refl|done| |done]. by intros ? ? ?%elem_of_nil. }
  destruct (update_custom_mapping _ _ _ _) as [st1|] eqn:E in Hr; [|done]. cbn in Hnd. apply NoDup_cons in Hnd as [Hnin Hnd].
  unfold update_custom_mapping in E. cbn in E. apply bind_Ok in E as (b & Hb%or_raise_Ok & E).
  apply bind_Ok in E as ([[[vd1 m'] add] rem] & Hup & [= <-]).
  destruct (Hl pk m) as [Hpk Em]; [left|]. destruct (Hby _ _ Hb) as [Hrow Hub].
  assert (moved md (v1_id role) (ss_vd st) vd1 add rem) as M.
  { rewrite <- Em. eapply update_role_binding_moved; try done; [by eapply Hp| |by intros c [= <-]].
    intros i c Hc E. exists b. split; [done|]. apply (proj2 (vw_bindings _ (vo_wf _ (proj1 Hi))) _ _ b c); congruence. }
  destruct (update_role_binding_Ok _ _ _ _ _ _ _ _ _ Hup) as (Hf & Ho & Eb & Ebs & _); [apply Hi|].
  apply IH in Hr as (Hadv & Hp' & Hdone & Hrest); cbn; [|done|..].
  - split_and!.
    + eapply advanced_trans; [|exact Hadv]. exists add, rem. by split_and!.
    + done.
    + intros pk' m2 [[= -> ->]|Hin]%elem_of_cons; [|by apply Hdone]. exists m', add, rem. split; [done|].
      rewrite Hrest by done. cbn. by rewrite Eb, lookup_insert_eq.
    + intros pk' [Hne Hn]%not_elem_of_cons. rewrite Hrest by done. cbn. by rewrite Eb, lookup_insert_ne.
  - intros pk' m2 Hin. destruct (Hl pk' m2) as [Hm2 E2]; [by right|]. split; [|done]. rewrite Eb, lookup_insert_ne; [done|].
    intros <-. apply Hnin, list_elem_of_fmap. by exists (pk, m2).
  - intros u c Hc. rewrite Ebs. by apply Hby.
  - apply M.
  - intros pk' m2. rewrite Eb. intros [[<- <-]|[_ Hm2]]%lookup_insert_Some E2; [eapply Hpres; [|exact Hf]; by eapply Hp|by eapply Hp].
Qed.

(** The mappings of the role are those before, each one updated. *)
Definition mapped (vd vd' : V1Db) : Prop :=
  (∀ pk m, v1_bm vd !! pk = Some m → bm_role m = v1_id role → ∃ m' add rem, f m = Ok (m', add, rem) ∧ v1_bm vd' !! pk = Some m')
  ∧ (∀ pk m', v1_bm vd' !! pk = Some m' → bm_role m' = v1_id role → ∃ m add rem, v1_bm vd !! pk = Some m ∧ bm_role m = v1_id role
       ∧ f m = Ok (m', add, rem)).

Lemma custom_mappings_run st st' :
  foldM (update_custom_mapping f (dict_of (map (λ b, (b_uuid b, b)) (source_bindings (ss_vd st) (v1_id role))))) st
    (role_mappings (ss_vd st) (v1_id role)) = Ok st' →
  v1_inv (ss_vd st) → ready (ss_vd st) →
  advanced md (v1_id role) st st' ∧ ready (ss_vd st') ∧ mapped (ss_vd st) (ss_vd st').
Proof.
  intros Hr Hi Hp.
  apply custom_loop_run in Hr as (Hadv & Hp' & Hdone & Hrest); [| |by intros pk m ?%elem_of_role_mappings| |done|done].
  - split; [done|]. split; [done|]. split.
    + intros pk m Hm E. by apply Hdone, elem_of_role_mappings.
    + intros pk m' Hm' E. destruct (decide (pk ∈ map fst (role_mappings (ss_vd st) (v1_id role)))) as [Hin|Hn].
      * apply list_elem_of_fmap in Hin as ([k m] & -> & Hin). destruct (Hdone _ _ Hin) as (m2 & add & rem & Hf & Hm2).
        apply elem_of_role_mappings in Hin as [Hm Em]. exists m, add, rem. cbn in Hm'. split_and!; try done. congruence.
      * rewrite Hrest in Hm' by done. destruct Hn. apply list_elem_of_fmap. exists (pk, m'). split; [done|]. by apply elem_of_role_mappings.
  - apply NoDup_map_filter. rewrite (row_order_perm _ _ _). apply NoDup_fst_map_to_list.
  - intros u b (c & [= -> ->] & Hc)%dict_of_Some%list_elem_of_fmap. apply elem_of_select in Hc as [_ [k Hk]].
    by rewrite (proj1 (vw_bindings _ (vo_wf _ (proj1 Hi))) _ _ Hk).
Qed.

Lemma custom_role_run parse_uuid role_gen ws_id unmigrated st st' :
  update_mappings_for_custom_role h role f parse_uuid role_gen ws_id unmigrated st = Ok st' →
  v1_inv (ss_vd st) → v1_roles (ss_vd st) !! v1_id role = Some role → v1_system role = false → ready (ss_vd st) →
  advanced md (v1_id role) st st' ∧ ready (ss_vd st') ∧ mapped (ss_vd st) (ss_vd st').
Proof.
  intros Hr Hi Hrole Hsys Hp. destruct (role_mappings (ss_vd st) (v1_id role)) as [|[pk m] l] eqn:El.
  - assert (∀ pk m, v1_bm (ss_vd st) !! pk = Some m → bm_role m = v1_id role → False) as Hn.
    { intros pk m Hm E. assert ((pk, m) ∈ role_mappings (ss_vd st) (v1_id role)) as Hin by (by apply elem_of_role_mappings).
      rewrite El in Hin. by apply elem_of_nil in Hin. }
    assert (st' = st) as ->.
    { destruct unmigrated; cbn [update_mappings_for_custom_role] in Hr; apply bind_Ok in Hr as (u & _ & Hr); rewrite El in Hr; by injection Hr. }
    split_and!; [by apply advanced_refl|done|]. split; intros; by edestruct Hn.
  - assert ((pk, m) ∈ role_mappings (ss_vd st) (v1_id role)) as [Hm Em]%elem_of_role_mappings by (rewrite El; left).
    destruct (vo_bound _ (proj1 Hi) pk m role) as (i & b & Hb & Hu & Hs); [done|by rewrite Em|done|].
    set (by_id := dict_of (map (λ b, (b_uuid b, b)) (source_bindings (ss_vd st) (v1_id role)))) in *.
    assert (is_Some (by_id !! b_uuid b)) as [c Hc].
    { apply dict_of_is_Some, list_elem_of_fmap. exists (b_uuid b, b). split; [done|]. apply list_elem_of_fmap. exists b.
      split; [done|]. apply elem_of_select. split; [|eauto]. apply bool_decide_eq_true. by rewrite Hs, Em. }
    assert (Nat.eqb (size by_id) 0 = false) as Hsz.
    { apply Nat.eqb_neq. intros ->%map_size_empty_inv. by rewrite lookup_empty in Hc. }
    apply custom_mappings_run; [|done|done]. fold by_id. rewrite El.
    destruct unmigrated; cbn [update_mappings_for_custom_role] in Hr; apply bind_Ok in Hr as (u & _ & Hr); rewrite El in Hr;
      fold by_id in Hr; rewrite ?Hsz in Hr; by apply bind_Ok in Hr as (u2 & _ & Hr).
Qed.
End callbacks.
End runs.

(* ------------------------------------------------------------------ *)
(** * The event of a request *)

Section events.
Context `{Settings} `{PySetOrder} `{RowOrder}.

(** The duplicates that are dropped are copies. *)
Lemma deduplicate_subjects_elem seen l l' :
  deduplicate_subjects seen l = Ok l' → Forall (λ t, rbac_tuple t = true) l →
  ∀ t, (t ∈ l' → t ∈ l) ∧ (t ∈ l → t ∈ l' ∨ stringify_spicedb_relationship t ∈ seen).
Proof.
  intros Hd Hl. revert seen l' Hd. induction Hl as [|u l Hu Hl IH]; cbn; intros seen l' Hd t.
  { injection Hd as <-. set_solver. }
  case_bool_decide as Hk.
  - destruct (is_subject_tuple u); [|done]. destruct (IH _ _ Hd t) as [H1' H2']. split; [set_solver|]. intros [->|?]%elem_of_cons; auto.
  - apply bind_Ok in Hd as (l1 & Hd & [= <-]). destruct (IH _ _ Hd t) as [H1' H2']. split; [set_solver|].
    intros [->|Hin]%elem_of_cons; [left; left|]. destruct (H2' Hin) as [?|[Ek%elem_of_singleton|?]%elem_of_union]; [left; by right| |by right].
    left. rewrite Forall_forall in Hl. rewrite (rbac_tuple_key_inj t u); [left|auto..].
Qed.

Lemma mapping_not_rest vd m t : t ∈ mapping_tuples m → (t ∉ parents_graph (v1_db vd)) ∧ t ∉ members_graph vd.
Proof.
  rewrite elem_of_mapping_tuples, elem_of_parents_graph, elem_of_members_graph. intros Ht. split.
  - intros (w & p & _ & ->). by destruct Ht as [E|[(q & _ & E)|[E|[(x & _ & E)|(x & _ & E)]]]].
  - intros (gid & pid & g & p & u & _ & _ & _ & _ & ->). by destruct Ht as [E|[(q & _ & E)|[E|[(x & _ & E)|(x & _ & E)]]]].
Qed.

Lemma delta_rows vd vd' add rem t :
  delta vd vd' add rem → t ∈ rows_graph vd' ↔ t ∈ add ∨ t ∈ rows_graph vd ∧ t ∉ rem.
Proof.
  intros [_ Ho Hg _ Hr _]. unfold rows_graph. rewrite !elem_of_union, Hg.
  destruct (only_bindings_tables _ _ Ho) as (_ & _ & Eg & Ep & Ew & _).
  rewrite (members_graph_rest _ _ Eg Ep (ob_members _ _ Ho)).
  assert (parents_graph (v1_db vd') = parents_graph (v1_db vd)) as -> by (unfold parents_graph; by rewrite Ew).
  assert (t ∈ rem → (t ∉ parents_graph (v1_db vd)) ∧ t ∉ members_graph vd) as Hn.
  { intros Ht. rewrite Forall_forall in Hr. destruct (Hr t Ht) as (m & Hm & _). by eapply mapping_not_rest. }
  destruct (decide (t ∈ rem)); tauto.
Qed.

(** The event whose tuples were collected leads from the rows before to the rows after. *)
Lemma delta_event vd vd' add rem e es :
  REPLICATION_TO_RELATION_ENABLED = true → delta vd vd' add rem → (∀ t, t ∈ ev_add e ↔ t ∈ add) → ev_remove e = rem →
  emit e = Ok es → replay (rows_graph vd) es = Ok (rows_graph vd').
Proof.
  intros He Hd Ha Hr Hem. rewrite (emit_accepted _ _ He Hem). f_equal. apply set_eq. intros t.
  rewrite (delta_rows _ _ _ _ _ Hd), elem_of_union, elem_of_difference, !elem_of_list_to_set, Ha, Hr. tauto.
Qed.

Lemma delta_no_event vd vd' : delta vd vd' [] [] → replay (rows_graph vd) [] = Ok (rows_graph vd').
Proof. intros Hd. unfold replay. cbn. f_equal. apply set_eq. intros t. rewrite (delta_rows _ _ _ _ _ Hd), !elem_of_nil. tauto. Qed.
End events.

(* ------------------------------------------------------------------ *)
(** * A generator *)

(** Keys after the last one and text longer than any other. *)
Definition next_key {A} (m : gmap Z A) : Z := (1 + foldr Z.max 0 (map fst (map_to_list m)))%Z.
Fixpoint zs (n : nat) : string := match n with O => "" | S n' => String "z" (zs n') end.
Definition next_uuid (l : list string) : string := zs (S (foldr Nat.max 0%nat (map String.length l))).
Definition next_sys (vd : V1Db) : sys_fresh :=
  mkSysFresh (next_key (v1_bm vd)) (next_key (db_bindings (v1_db vd)))
    (next_uuid (map (λ kv, bm_id (snd kv)) (map_to_list (v1_bm vd)) ++ map (λ kv, b_uuid (snd kv)) (map_to_list (db_bindings (v1_db vd))))).

Lemma next_key_fresh {A} (m : gmap Z A) : m !! next_key m = None.
Proof.
  destruct (m !! next_key m) as [x|] eqn:E; [|done]. apply elem_of_map_to_list in E.
  assert (∀ l k, k ∈ l → (k ≤ foldr Z.max 0 l)%Z) as Hmax by (induction l as [|y l IH]; intros k; [by intros ?%elem_of_nil|]; cbn; intros [->|?%IH]%elem_of_cons; lia).
  assert (next_key m ∈ map fst (map_to_list m)) as Hin%Hmax by (apply list_elem_of_fmap; by exists (next_key m, x)).
  unfold next_key in Hin. lia.
Qed.

Lemma next_uuid_fresh l s : s ∈ l → s ≠ next_uuid l.
Proof.
  assert (∀ n, String.length (zs n) = n) as Hz by (induction n as [|n IH]; [done|cbn; by rewrite IH]).
  assert (∀ l k, k ∈ l → (k ≤ foldr Nat.max 0 l)%nat) as Hmax by (induction l0 as [|y l' IH]; intros k; [by intros ?%elem_of_nil|]; cbn; intros [->|?%IH]%elem_of_cons; lia).
  intros Hin E. assert (String.length s ∈ map String.length l) as Hle%Hmax by (apply list_elem_of_fmap; eauto).
  rewrite E in Hle. unfold next_uuid in Hle. rewrite Hz in Hle. lia.
Qed.

Lemma next_sys_ok : sys_gen_ok next_sys.
Proof.
  intros vd. cbn. split_and!; [apply next_key_fresh..| |].
  - intros pk m Hm. apply next_uuid_fresh. rewrite elem_of_app. left. apply list_elem_of_fmap. exists (pk, m). by rewrite elem_of_map_to_list.
  - intros i b Hb. apply next_uuid_fresh. rewrite elem_of_app. right. apply list_elem_of_fmap. exists (i, b). by rewrite elem_of_map_to_list.
Qed.
