(* ===== verification/GroupHandler.v ===== *)
(** Groups of the V1 API: rbac/management/group/inventory_api_dual_write_group_handler.py
    and the operations of rbac/management/group/definer.py that assign roles to groups
    and take them away, with the tuples of memberships of
    rbac/management/group/model.py. *)

From S2P Require Import Prelude.
From S2P Require Import PyString.
From S2P Require Import Config.
From S2P Require Import RelationTypes.
From S2P Require Import TupleStore.
From S2P Require Import Permissions.
From S2P Require Import ScopeService.
From S2P Require Import Outbox.
From S2P Require Import Tenants.
From S2P Require Import Db.
From S2P Require Import BindingGraph.
From S2P Require Import RoleBindingService.
From S2P Require Import RoleV2Service.
From S2P Require Import Workspaces.
From S2P Require Import BindingMapping.
From S2P Require Import V1State.
From S2P Require Import RoleMigration.
From S2P Require Import RoleScopes.
From S2P Require Import SubjectHandler.

(* ------------------------------------------------------------------ *)
(** * The handler *)

Record GroupHandler := mkGroupHandler {
  gh_group : Group;
  gh_subject : SubjectHandler;
  gh_resource_service : ImplicitResourceService;
}.

Section handler.
Context `{Settings} `{PySetOrder} `{RowOrder}.

(** [__init__]; None when replication is disabled. *)
Definition group_handler_init (group : Group) (event_type : ReplicationEventType) (vd : V1Db) : result (option GroupHandler) :=
  if negb REPLICATION_TO_RELATION_ENABLED then mret None else
  dual_write (
    service ← from_settings;
    tenant ← or_raise (DoesNotExist "Tenant") (db_tenants (v1_db vd) !! g_tenant group);
    default_workspace ← built_in_workspace (v1_db vd) (t_id tenant) DEFAULT_WS;
    root_workspace ← built_in_workspace (v1_db vd) (t_id tenant) ROOT_WS;
    sub ← subject_handler_init tenant root_workspace default_workspace event_type vd;
    mret (option_map (λ s, mkGroupHandler group s service) sub)).

(** [relationship_to_principal_for_group] of a principal, and [_generate_member_relations] *)
Definition relationship_to_principal (group : Group) (p : Principal) : result (option RelationTuple) :=
  match user_id p with
  | None => mret None
  | Some u => t ← create_relationship ("rbac", "group") (g_uuid group) ("rbac", "principal")
                    (user_id_to_principal_resource_id (Some u)) "member" None;
              mret (Some t)
  end.
Definition generate_member_relations (group : Group) (principals : list Principal) : result (list RelationTuple) :=
  l ← mapM (relationship_to_principal group) principals;
  mret (omap id l).

(** [_replicate] *)
Definition gh_replicate (h : GroupHandler) (expected_empty : bool) (st : SubjectState) : result (list ReplicationEvent) :=
  if expected_empty then mret (ss_events st) else
  deduplicated_add ← deduplicate_subject_relations (ss_add st);
  match deduplicated_add, ss_remove st with
  | [], [] => mret (ss_events st)
  | _, _ =>
      events ← dual_write (emit (mkReplicationEvent (sh_event_type (gh_subject h))
        [("group_uuid", Some (g_uuid (gh_group h))); ("org_id", Some (py_str (org_id (sh_tenant (gh_subject h)))))]
        deduplicated_add (ss_remove st)));
      mret (ss_events st ++ events)
  end.

Section roles.
Variables (gen : V1Db → sys_fresh).
Variables (parse_uuid : string → result string) (role_gen : Z → V2boundresource → fresh) (ws_id : string).

Definition gh_update_mapping_for_role (h : GroupHandler) (role : V1Role) (f : mapping_update)
    (create : option (V2boundresource → V1Db → result (BindingMapping * list RelationTuple))) :
    Scope → SubjectState → result SubjectState :=
  update_mapping_for_role gen (gh_subject h) role f create parse_uuid (role_gen (v1_id role)) ws_id.

(** [reset_mapping] *)
Definition reset_mapping (group_uuid : string) : mapping_update := λ m,
  r ← unassign_group group_uuid m;
  let '(m1, rem) := match r with Some (t, m1) => (m1, [t]) | None => (m, []) end in
  '(to_add, m2) ← assign_group_to_bindings group_uuid m1;
  mret (m2, option_list to_add, rem).

(** [binding_scopes_for_role] *)
Definition binding_scopes_for_role (service : ImplicitResourceService) (role : V1Role) (vd : V1Db) : result (list Scope) :=
  perms ← mapM (λ a, or_raise AttributeError (db_permissions (v1_db vd) !! ac_permission a)) (v1_access role);
  binding_scopes_for_permissions service (map p_permission perms).

(** [generate_relations_reset_roles] without default access to remove. *)
Definition reset_role (h : GroupHandler) (st : SubjectState) (role : V1Role) : result SubjectState :=
  binding_scopes ← binding_scopes_for_role (gh_resource_service h) role (ss_vd st);
  foldM (λ st scope, gh_update_mapping_for_role h role (reset_mapping (g_uuid (gh_group h)))
           (Some (λ res vd, create_default_mapping_for_system_role (sf_uuid (gen vd)) role res [g_uuid (gh_group h)] ∅ vd))
           scope st) st binding_scopes.
Definition generate_relations_reset_roles (h : GroupHandler) (roles : list V1Role) (st : SubjectState) : result SubjectState :=
  locked ← with_system_roles_for_share roles (ss_vd st);
  foldM (reset_role h) st locked.

(** [remove_group_from_binding], [_update_mapping_for_role_removal] and
    [generate_relations_to_remove_roles] *)
Definition remove_group_from_binding (group_uuid : string) : mapping_update := λ m,
  '(removal, m') ← pop_group_from_bindings group_uuid m;
  mret (m', [], option_list removal).
Definition update_mapping_for_role_removal (h : GroupHandler) (st : SubjectState) (role : V1Role) : result SubjectState :=
  foldM (λ st scope, gh_update_mapping_for_role h role (remove_group_from_binding (g_uuid (gh_group h))) None scope st)
    st (set_iter (list_to_set CONCRETE_SCOPES : gset Scope)).
Definition generate_relations_to_remove_roles (h : GroupHandler) (roles : list V1Role) (st : SubjectState) : result SubjectState :=
  foldM (update_mapping_for_role_removal h) st roles.

(* ------------------------------------------------------------------ *)
(** * Assigning roles *)

(** [_roles_by_query_or_ids], for UUIDs and for a queryset. *)
Definition roles_by_ids (role_ids : list string) (vd : V1Db) : result (list V1Role) :=
  match select (λ r, bool_decide (v1_uuid r ∈ role_ids)) (v1_roles vd) with
  | [] => Raise (NotFoundError "role")
  | roles => mret roles
  end.
Definition roles_by_query (roleset : list V1Role) (tenant : Tenant) (vd : V1Db) : list V1Role :=
  let role_names := map v1_name roleset in
  select (λ r, bool_decide (v1_name r ∈ role_names) && Z.eqb (v1_tenant r) (t_id tenant)) (v1_roles vd).

(** [Tenant.objects.get(tenant_name="public")], and the system roles followed by the
    custom roles. *)
Definition get_public_tenant (vd : V1Db) : result Tenant :=
  match select (λ t, String.eqb (tenant_name t) PUBLIC_TENANT_NAME) (db_tenants (v1_db vd)) with
  | [t] => mret t
  | [] => Raise (DoesNotExist "Tenant")
  | _ => Raise (MultipleObjectsReturned "Tenant")
  end.
Definition system_then_custom (roles : list V1Role) (tenant : Tenant) (vd : V1Db) : result (list V1Role) :=
  public ← get_public_tenant vd;
  mret (List.filter (λ r, Z.eqb (v1_tenant r) (t_id public)) roles ++ List.filter (λ r, Z.eqb (v1_tenant r) (t_id tenant)) roles).

(** The check that the role is of the tenant or of the public tenant. *)
Definition check_role_tenant (tenant : Tenant) (vd : V1Db) (role : V1Role) : result unit :=
  if Z.eqb (v1_tenant role) (t_id tenant) then mret tt else
  owner ← or_raise (DoesNotExist "Tenant") (db_tenants (v1_db vd) !! v1_tenant role);
  raise_if (negb (String.eqb (tenant_name owner) PUBLIC_TENANT_NAME)) (SerializerValidationError "roles").

(** [Policy.objects.update_or_create(system=True, group=group, name=..., defaults=...)];
    [policy_key] is the key of a new row. *)
Definition system_policy_name (group : Group) : string := "System Policy for Group " +:+ g_uuid group.
Definition get_system_policy (policy_key : Z) (group : Group) (tenant : Tenant) (vd : V1Db) : result (V1Db * Z) :=
  match List.filter (λ kp, po_system (snd kp) && bool_decide (po_group (snd kp) = Some (g_id group))
                           && String.eqb (po_name (snd kp)) (system_policy_name group)) (row_order (v1_policies vd)) with
  | [] =>
      let p := mkPolicy (Some (g_id group)) (system_policy_name group) true (t_id tenant) ∅ in
      _ ← raise_if (existsb (λ q, String.eqb (po_name q) (po_name p) && Z.eqb (po_tenant q) (po_tenant p))
                      (map snd (map_to_list (v1_policies vd)))) (IntegrityError "unique policy name per tenant");
      mret (with_policies (<[policy_key := p]>) vd, policy_key)
  | [(k, p)] =>
      let p' := mkPolicy (po_group p) (po_name p) (po_system p) (t_id tenant) (po_roles p) in
      _ ← raise_if (existsb (λ kq, negb (Z.eqb (fst kq) k) && String.eqb (po_name (snd kq)) (po_name p')
                                   && Z.eqb (po_tenant (snd kq)) (po_tenant p'))
                      (map_to_list (v1_policies vd))) (IntegrityError "unique policy name per tenant");
      mret (with_policies (<[k := p']>) vd, k)
  | _ => Raise (MultipleObjectsReturned "Policy")
  end.

(** The role may be added by this user: [user_admin] is None without a user. *)
Definition may_add_role (user_admin : option bool) (role : V1Role) (vd : V1Db) : result bool :=
  perms ← mapM (λ a, or_raise AttributeError (db_permissions (v1_db vd) !! ac_permission a)) (v1_access role);
  mret (negb (existsb (λ p, String.eqb (application (p_parts p)) "rbac" && negb (String.eqb (verb (p_parts p)) "read")
                            && match user_admin with Some false => true | _ => false end) perms)).

(** One role of the loop of [add_roles]: the rows and the roles added so far. *)
Definition add_role_to_policy (user_admin : option bool) (policy : Z) (acc : V1Db * list V1Role) (role : V1Role) :
    result (V1Db * list V1Role) :=
  let '(vd, added) := acc in
  allowed ← may_add_role user_admin role vd;
  _ ← raise_if (negb allowed) (SerializerValidationError "add-roles");
  p ← or_raise (DoesNotExist "Policy") (v1_policies vd !! policy);
  if bool_decide (v1_id role ∈ po_roles p) then mret acc
  else mret (with_policies (<[policy := with_po_roles ({[v1_id role]} ∪.) p]>) vd, added ++ [role]).

(** [add_roles] to a group that exists, once the roles have been looked up. *)
Definition add_roles (policy_key : Z) (group : Group) (roles : list V1Role) (tenant : Tenant) (user_admin : option bool)
    (vd : V1Db) : result (V1Db * list ReplicationEvent) :=
  _ ← mapM (check_role_tenant tenant vd) roles;
  '(vd1, policy) ← get_system_policy policy_key group tenant vd;
  ordered ← system_then_custom roles tenant vd1;
  '(vd2, added) ← foldM (add_role_to_policy user_admin policy) (vd1, []) ordered;
  match added with
  | [] => mret (vd2, [])
  | _ =>
      if String.eqb (tenant_name tenant) PUBLIC_TENANT_NAME then mret (vd2, []) else
      handler ← group_handler_init group ASSIGN_ROLE vd2;
      match handler with
      | None => mret (vd2, [])
      | Some h => st ← generate_relations_reset_roles h added (mkSubjectState vd2 [] [] []);
                  events ← gh_replicate h false st;
                  mret (ss_vd st, events)
      end
  end.

(** [remove_roles]: the loops over the policies of the group and over the roles. *)
Definition remove_role_from_policy (policy : Z) (acc : V1Db * list V1Role) (role : V1Role) : result (V1Db * list V1Role) :=
  let '(vd, removed) := acc in
  p ← or_raise (DoesNotExist "Policy") (v1_policies vd !! policy);
  if bool_decide (v1_id role ∈ po_roles p)
  then mret (with_policies (<[policy := with_po_roles (.∖ {[v1_id role]}) p]>) vd, removed ++ [role])
  else mret acc.
Definition group_policies (group : Group) (vd : V1Db) : list Z :=
  map fst (List.filter (λ kp, bool_decide (po_group (snd kp) = Some (g_id group))) (row_order (v1_policies vd))).
Definition remove_roles (group : Group) (roles : list V1Role) (tenant : Tenant) (vd : V1Db) :
    result (V1Db * list ReplicationEvent) :=
  ordered ← system_then_custom roles tenant vd;
  '(vd1, removed) ← foldM (λ acc k, foldM (remove_role_from_policy k) acc ordered) (vd, []) (group_policies group vd);
  if String.eqb (tenant_name tenant) PUBLIC_TENANT_NAME then mret (vd1, []) else
  handler ← group_handler_init group UNASSIGN_ROLE vd1;
  match handler with
  | None => mret (vd1, [])
  | Some h => st ← generate_relations_to_remove_roles h removed (mkSubjectState vd1 [] [] []);
              events ← gh_replicate h false st;
              mret (ss_vd st, events)
  end.

(** The two operations for a list of UUIDs, and [update_group_roles] with
    [group.roles()]. *)
Definition add_roles_by_ids (policy_key : Z) (group : Group) (role_ids : list string) (tenant : Tenant)
    (user_admin : option bool) (vd : V1Db) : result (V1Db * list ReplicationEvent) :=
  roles ← roles_by_ids role_ids vd; add_roles policy_key group roles tenant user_admin vd.
Definition remove_roles_by_ids (group : Group) (role_ids : list string) (tenant : Tenant) (vd : V1Db) :
    result (V1Db * list ReplicationEvent) :=
  roles ← roles_by_ids role_ids vd; remove_roles group roles tenant vd.
Definition group_roles (group : Group) (vd : V1Db) : list V1Role :=
  select (λ r, existsb (λ k, match v1_policies vd !! k with Some p => bool_decide (v1_id r ∈ po_roles p) | None => false end)
                 (group_policies group vd)) (v1_roles vd).
Definition update_group_roles (policy_key : Z) (group : Group) (roleset : list V1Role) (tenant : Tenant) (vd : V1Db) :
    result (V1Db * list ReplicationEvent) :=
  '(vd1, es) ← add_roles policy_key group (roles_by_query roleset tenant vd) tenant None vd;
  match List.filter (λ r, negb (bool_decide (v1_uuid r ∈ map v1_uuid roleset))) (group_roles group vd1) with
  | [] => mret (vd1, es)
  | to_remove => '(vd2, es') ← remove_roles group (roles_by_query to_remove tenant vd1) tenant vd1;
                 mret (vd2, es ++ es')
  end.
End roles.
End handler.
