(* ===== verification/GroupRequests.v ===== *)
(** Requests of the V1 API that assign roles to groups and take them away: each one
    emits the event that takes the graph of the rows before to the graph of the rows
    after, and the policies, the binding mappings and the role bindings of custom roles
    keep agreeing on which groups a role is for. *)

From S2P Require Import Prelude.
From S2P Require Import PyString.
From S2P Require Import Config.
From S2P Require Import RelationTypes.
From S2P Require Import TupleStore.
From S2P Require Import Permissions.
From S2P Require Import ScopeService.
From S2P Require Import Outbox.
From S2P Require Import Tenants.
From S2P Require Import Db.
From S2P Require Import BindingGraph.
From S2P Require Import RoleBindingService.
From S2P Require Import RoleV2Service.
From S2P Require Import Workspaces.
From S2P Require Import BindingMapping.
From S2P Require Import V1State.
From S2P Require Import RoleMigration.
From S2P Require Import RoleScopes.
From S2P Require Import RoleMigrationGraph.
From S2P Require Import RoleRequests.
From S2P Require Import SubjectHandler.
From S2P Require Import SubjectRuns.
From S2P Require Import GroupHandler.

(* ------------------------------------------------------------------ *)
(** * The callbacks *)

(** How an update changes the groups of a mapping. *)
Definition regrouped (md : mode) (g : string) (m m' : BindingMapping) : Prop :=
  NoDup (bm_groups m) → NoDup (bm_groups m') ∧ ∀ u, u ∈ bm_groups m' ↔
    match md with Grow => u = g ∨ u ∈ bm_groups m | Shrink => u ≠ g ∧ u ∈ bm_groups m end.

Lemma regrouped_trans md g m1 m2 m3 : regrouped md g m1 m2 → regrouped md g m2 m3 → regrouped md g m1 m3.
Proof.
  intros R1 R2 Hn. destruct (R1 Hn) as [Hn2 E1]. destruct (R2 Hn2) as [Hn3 E2]. split; [done|].
  intros u. rewrite E2. destruct md; rewrite E1; tauto.
Qed.

Lemma remove_first_filter g l :
  NoDup l → (if bool_decide (g ∈ l) then list_remove_first g l else l) = filter (.≠ g) l.
Proof.
  intros Hn. destruct (list_remove_first_spec g l) as [(Hg & _ & Ef)|[Hg Ef]]; [rewrite bool_decide_true by done|by rewrite bool_decide_false].
  destruct (list_remove_first_spec g (list_remove_first g l)) as [(Hin & _)|[_ E]]; [|by rewrite <- Ef, E].
  rewrite (remove_first_perm _ _ Hg) in Hn. by apply NoDup_cons in Hn as [? _].
Qed.

Section callbacks.
Context `{Settings} `{PySetOrder}.

(** [reset_mapping] removes the group and adds it again. *)
Lemma reset_mapping_Ok g m m' add rem :
  reset_mapping g m = Ok (m', add, rem) →
  m' = with_groups (filter (.≠ g) (bm_groups m) ++ [g]) m ∧ add = [vt_group (bm_id m) g] ∧ rem = [vt_group (bm_id m) g]
  ∧ rbac_tuple (vt_group (bm_id m) g) = true.
Proof.
  unfold reset_mapping, unassign_group. intros (r & Hr & Hm)%bind_Ok. rewrite unassign_loop_eq in Hr by lia.
  apply bind_Ok in Hr as (t & [-> Hv]%create_relationship_spec & [= <-]).
  apply bind_Ok in Hm as ([o m2] & Ha & [= <- <- <-]). unfold assign_group_to_bindings in Ha. cbn in Ha.
  rewrite bool_decide_false in Ha by (rewrite list_elem_of_filter; tauto).
  apply bind_Ok in Ha as (t & ->%group_tuple_Ok & [= <- <-]). split_and!; try done. unfold rbac_tuple, vt_group. by rewrite Hv.
Qed.

#[export] Instance reset_mapping_update g : MappingUpdate (λ _, True) (reset_mapping g).
Proof.
  split; intros m m' add rem; [..|intros _]; intros (-> & -> & -> & Hv)%reset_mapping_Ok.
  - apply same_key_groups.
  - repeat constructor; eauto.
  - by constructor.
  - apply subject_tuples_eq; [done|repeat constructor; eauto|..]; cbn; intros x; rewrite !list_elem_of_singleton.
    + rewrite elem_of_app, list_elem_of_filter, list_elem_of_singleton, group_tuple_iff. tauto.
    + rewrite !user_group_iff. tauto.
Qed.
#[export] Instance reset_mapping_grows g : ModeUpdate Grow (reset_mapping g).
Proof.
  split; intros m m' add rem; [|intros _]; intros (-> & -> & -> & _)%reset_mapping_Ok; [by intros t ?|].
  unfold is_unassigned. cbn. rewrite length_app, Nat.add_1_r. done.
Qed.
Lemma reset_mapping_groups g m m' add rem : reset_mapping g m = Ok (m', add, rem) → regrouped Grow g m m'.
Proof.
  intros (-> & _)%reset_mapping_Ok Hn. cbn. split.
  - apply NoDup_app. split; [by apply NoDup_filter|]. split; [|apply NoDup_singleton].
    intros u [Hu _]%list_elem_of_filter ->%list_elem_of_singleton. done.
  - intros u. rewrite elem_of_app, list_elem_of_filter, list_elem_of_singleton. destruct (decide (u = g)); naive_solver.
Qed.

#[export] Instance remove_group_update g : MappingUpdate (λ _, True) (remove_group_from_binding g).
Proof.
  destruct (run_op_update (PopGroup g)) as [K S V E]. split; [exact K|exact S|exact V|]. intros m m' add rem _. by apply E.
Qed.
#[export] Instance remove_group_shrinks g : ModeUpdate Shrink (remove_group_from_binding g).
Proof. split; [|done]. intros m m' add rem ([t m1] & _ & [= <- <- <-])%bind_Ok. done. Qed.
Lemma remove_group_groups g m m' add rem : remove_group_from_binding g m = Ok (m', add, rem) → regrouped Shrink g m m'.
Proof.
  unfold remove_group_from_binding, pop_group_from_bindings. intros ([t m1] & Hp & [= <- _ _])%bind_Ok Hn.
  assert (m1 = with_groups (filter (.≠ g) (bm_groups m)) m) as ->.
  { pose proof (remove_first_filter g _ Hn) as E.
    rewrite E in Hp. clear E. case_bool_decide; [by injection Hp as <- <-|]. by apply bind_Ok in Hp as (t' & _ & [= <- <-]). }
  cbn. split; [by apply NoDup_filter|]. intros u. by rewrite list_elem_of_filter.
Qed.
End callbacks.

(* ------------------------------------------------------------------ *)
(** * Runs over roles *)

(** The groups of the mappings of custom roles, before and after a run over the roles
    [S]. *)
Record regroup (md : mode) (g : string) (S : list Z) (vd vd' : V1Db) : Prop := {
  rg_fwd pk m role : v1_bm vd !! pk = Some m → v1_roles vd !! bm_role m = Some role → v1_system role = false →
    ∃ m', v1_bm vd' !! pk = Some m' ∧ bm_role m' = bm_role m ∧ (bm_role m ∈ S → regrouped md g m m') ∧ (bm_role m ∉ S → m' = m);
  rg_bwd pk m' role : v1_bm vd' !! pk = Some m' → v1_roles vd !! bm_role m' = Some role → v1_system role = false →
    ∃ m, v1_bm vd !! pk = Some m ∧ bm_role m = bm_role m';
}.

(** What a part of a request has done. *)
Definition gathered `{Settings} (md : mode) (g : string) (S : list Z) (st st' : SubjectState) : Prop :=
  ∃ add rem, ss_add st' = ss_add st ++ add ∧ ss_remove st' = ss_remove st ++ rem ∧ ss_events st' = ss_events st
    ∧ delta (ss_vd st) (ss_vd st') add rem ∧ mode_ok md add rem ∧ (in_step (ss_vd st) → in_step (ss_vd st'))
    ∧ regroup md g S (ss_vd st) (ss_vd st').

Section gathered.
Context `{Settings} `{PySetOrder} `{RowOrder}.
Implicit Types (st : SubjectState).

Lemma gathered_refl md g st : v1_inv (ss_vd st) → gathered md g [] st st.
Proof.
  intros Hi. exists [], []. rewrite !app_nil_r. split_and!; try done; [by apply delta_refl|apply mode_ok_nil|].
  split; [|eauto]. intros pk m role Hm _ _. exists m. split_and!; try done. by intros ?%elem_of_nil.
Qed.

Lemma gathered_only md g S st st' : gathered md g S st st' → v1_inv (ss_vd st') ∧ only_bindings (ss_vd st) (ss_vd st').
Proof. intros (a & r & _ & _ & _ & D & _). split; apply D. Qed.

Lemma regroup_trans md g S1 S2 vd1 vd2 vd3 :
  v1_roles vd2 = v1_roles vd1 → regroup md g S1 vd1 vd2 → regroup md g S2 vd2 vd3 → regroup md g (S1 ++ S2) vd1 vd3.
Proof.
  intros Er [F1 B1] [F2 B2]. rewrite Er in F2, B2. split.
  - intros pk m role Hm Hr Hs. destruct (F1 _ _ _ Hm Hr Hs) as (m2 & Hm2 & E2 & I2 & O2).
    rewrite <- E2 in Hr. destruct (F2 _ _ _ Hm2 Hr Hs) as (m3 & Hm3 & E3 & I3 & O3). rewrite E2 in E3, I3, O3.
    exists m3. split_and!; [done|done|..].
    + intros Hin%elem_of_app. destruct (decide (bm_role m ∈ S1)) as [H1'|H1'], (decide (bm_role m ∈ S2)) as [H2'|H2'].
      * eapply regrouped_trans; eauto.
      * rewrite (O3 H2'). auto.
      * rewrite <- (O2 H1'). auto.
      * tauto.
    + rewrite elem_of_app. intros Hn. rewrite O3, O2; tauto.
  - intros pk m3 role Hm3 Hr Hs. destruct (B2 _ _ _ Hm3 Hr Hs) as (m2 & Hm2 & E2). rewrite <- E2 in Hr |- *. by eapply B1.
Qed.

Lemma gathered_trans md g S1 S2 st1 st2 st3 :
  gathered md g S1 st1 st2 → gathered md g S2 st2 st3 → gathered md g (S1 ++ S2) st1 st3.
Proof.
  intros (a1 & r1 & A1 & R1 & E1 & D1 & M1 & I1 & G1) (a2 & r2 & A2 & R2 & E2 & D2 & M2 & I2 & G2).
  destruct (delta_trans _ _ _ _ _ _ _ _ M1 M2 D1 D2) as [D M]. exists (a1 ++ a2), (r1 ++ r2).
  rewrite A2, A1, R2, R1, E2, E1, !app_assoc. split_and!; try done; [by auto|]. eapply regroup_trans; [apply D1|done|done].
Qed.

Lemma gathered_ext md g S S' st st' : (∀ x, x ∈ S ↔ x ∈ S') → gathered md g S st st' → gathered md g S' st st'.
Proof.
  intros HS (a & r & A & R & E & D & M & I & [F B]). exists a, r. split_and!; try done. split; [|done].
  intros pk m role Hm Hr Hs. destruct (F _ _ _ Hm Hr Hs) as (m' & Hm' & Em & Hi & Ho). exists m'. rewrite <- !HS. done.
Qed.

(** A loop of such parts. *)
Lemma fold_gathered {A} md g (step : SubjectState → A → result SubjectState) (S : A → list Z) rows l st st' :
  (∀ a st st', a ∈ l → v1_inv (ss_vd st) → v1_roles (ss_vd st) = rows → step st a = Ok st' → gathered md g (S a) st st') →
  v1_inv (ss_vd st) → v1_roles (ss_vd st) = rows → foldM step st l = Ok st' → gathered md g (concat (map S l)) st st'.
Proof.
  revert st. induction l as [|a l IH]; intros st Hstep Hi Hrows Hr; cbn in Hr |- *; [injection Hr as <-; by apply gathered_refl|].
  destruct (step st a) as [st1|] eqn:E; [|done]. assert (gathered md g (S a) st st1) as G1 by (apply Hstep; [left|done..]).
  destruct (gathered_only _ _ _ _ _ G1) as [Hi1 Ho1]. eapply gathered_trans; [exact G1|]. apply IH; try done.
  - intros a' s s' Ha'. apply Hstep. by right.
  - by rewrite (ob_roles _ _ Ho1).
Qed.

Section role.
Variables (gen : V1Db → sys_fresh) (sh : SubjectHandler) (role : V1Role) (md : mode) (g : string) (f : mapping_update).
Variable create : option (V2boundresource → V1Db → result (BindingMapping * list RelationTuple)).
Variables (parse_uuid : string → result string) (role_gen : V2boundresource → fresh) (ws_id : string).
Context `{!MappingUpdate (λ _, True) f} `{!ModeUpdate md f}.
Hypotheses (Hgen : sys_gen_ok gen) (Hf : ∀ m m' add rem, f m = Ok (m', add, rem) → regrouped md g m m').
Hypothesis Hcreate : ∀ c, create = Some c → md = Grow ∧ ∃ groups users,
  (∀ res vd, c res vd = create_default_mapping_for_system_role (sf_uuid (gen vd)) role res groups users vd)
  ∧ ∀ m, bm_groups m = groups → bm_users m = users → True.

Lemma role_gathered scope st st' :
  update_mapping_for_role gen sh role f create parse_uuid role_gen ws_id scope st = Ok st' →
  v1_inv (ss_vd st) → v1_roles (ss_vd st) !! v1_id role = Some role → gathered md g [v1_id role] st st'.
Proof.
  unfold update_mapping_for_role. intros Hr Hi Hrow. destruct (v1_system role) eqn:Hsys.
  - eapply (system_role_run _ _ _ md (λ _, True)) in Hr as [(a & r & A & R & E & M) _]; try done.
    exists a, r. destruct M as [D M I O]. split_and!; try done. split.
    + intros pk m role' Hm Hr' Hs'. assert (bm_role m ≠ v1_id role) as Hne by congruence. exists m. split_and!; try done.
      * by apply O.
      * by intros ?%list_elem_of_singleton.
    + intros pk m' role' Hm' Hr' Hs'. assert (bm_role m' ≠ v1_id role) as Hne by congruence. exists m'. split; [by apply O|done].
  - eapply (custom_role_run _ _ md (λ _, True)) in Hr as [(a & r & A & R & E & M) [_ [F B]]]; try done.
    exists a, r. destruct M as [D M I O]. split_and!; try done. split.
    + intros pk m role' Hm Hr' Hs'. destruct (decide (bm_role m = v1_id role)) as [Em|Hne].
      * destruct (F _ _ Hm Em) as (m' & add & rem & Hfm & Hm'). exists m'. rewrite Em, list_elem_of_singleton.
        destruct (same_key_identity _ _ (mu_key _ _ _ _ Hfm)) as (_ & Er & _). split_and!; try done; [congruence|by intros _; eapply Hf].
      * exists m. rewrite list_elem_of_singleton. split_and!; try done. by apply O.
    + intros pk m' role' Hm' Hr' Hs'. destruct (decide (bm_role m' = v1_id role)) as [Em|Hne].
      * destruct (B _ _ Hm' Em) as (m & add & rem & Hm & Er & _). exists m. split; [done|congruence].
      * exists m'. split; [by apply O|done].
Qed.
End role.
End gathered.

(* ------------------------------------------------------------------ *)
(** * The policies *)

Definition only_policies (vd vd' : V1Db) : Prop := vd' = with_policies (λ _, v1_policies vd') vd.

#[export] Instance only_policies_preorder : PreOrder only_policies.
Proof. split; [by intros []|]. unfold only_policies. intros vd1 vd2 vd3 E1 E2. rewrite E2, E1 at 1. done. Qed.

Lemma with_policies_only f vd : only_policies vd (with_policies f vd).
Proof. done. Qed.

Lemma only_policies_inv vd vd' : only_policies vd vd' → v1_inv vd → v1_inv vd' ∧ (in_step vd → in_step vd').
Proof.
  intros ->. intros [[A B C D E F G U V I Gk Uk P K] Ha]. split; [|done]. split; [|done]. split; try done. by destruct A.
Qed.

Lemma only_policies_roles vd vd' : only_policies vd vd' → v1_roles vd' = v1_roles vd ∧ v1_bm vd' = v1_bm vd ∧ v1_db vd' = v1_db vd.
Proof. by intros ->. Qed.

Lemma only_policies_graph `{Settings} vd vd' : only_policies vd vd' → rows_graph vd' = rows_graph vd.
Proof. by intros ->. Qed.

(** Writing a policy of a group over a row that is of the same group, or new. *)
Lemma policy_group_put k p gid0 vd rid gid :
  po_group p = Some gid0 →
  (∀ q, v1_policies vd !! k = Some q → po_group q = Some gid0 ∧ po_roles q ⊆ po_roles p) →
  policy_group (with_policies (<[k := p]>) vd) rid gid ↔ policy_group vd rid gid ∨ rid ∈ po_roles p ∧ gid = gid0.
Proof.
  intros Hp Hq. unfold policy_group. cbn. setoid_rewrite lookup_insert_Some. split.
  - intros (k' & p' & [[<- <-]|[Hne Hk]] & Hr & Hg); [right; split; [done|congruence]|left; eauto].
  - intros [(k' & p' & Hk & Hr & Hg)|[Hr ->]]; [|by exists k, p; auto]. destruct (decide (k = k')) as [<-|Hne]; [|by exists k', p'; auto].
    destruct (Hq _ Hk) as [Eg Hsub]. exists k, p. split; [by left|]. split; [by apply Hsub|congruence].
Qed.

Section policies.
Context `{Settings} `{PySetOrder} `{RowOrder}.

Lemma get_system_policy_Ok policy_key group tenant vd vd1 policy :
  get_system_policy policy_key group tenant vd = Ok (vd1, policy) → v1_policies vd !! policy_key = None →
  only_policies vd vd1 ∧ (∃ p, v1_policies vd1 !! policy = Some p ∧ po_group p = Some (g_id group))
  ∧ ∀ rid gid, policy_group vd1 rid gid ↔ policy_group vd rid gid.
Proof.
  unfold get_system_policy. intros Hr Hfresh. destruct (List.filter _ _) as [|[k p] [|? ?]] eqn:Hfl; [| |done].
  - apply bind_Ok in Hr as (u & _ & [= <- <-]). split; [done|]. split; [eexists; split; [apply lookup_insert_eq|done]|].
    intros rid gid. rewrite policy_group_put; [|done|by rewrite Hfresh]. cbn. set_solver.
  - apply bind_Ok in Hr as (u & _ & [= <- <-]). assert (In (k, p) [(k, p)]) as Hin by (by left). rewrite <- Hfl in Hin.
    apply filter_In in Hin as [Hin Hc]. rewrite <- list_elem_of_In, (row_order_perm _ _ _), elem_of_map_to_list in Hin.
    rewrite !andb_true_iff, bool_decide_eq_true in Hc. destruct Hc as [[_ Hg] _]. cbn in Hg.
    split; [done|]. split; [eexists; split; [apply lookup_insert_eq|done]|].
    intros rid gid. rewrite (policy_group_put _ _ (g_id group)); [|done|intros q Hq; rewrite Hin in Hq; by injection Hq as <-].
    split; [|by left]. intros [?|[Hr ->]]; [done|]. by exists k, p.
Qed.

Lemma add_role_to_policy_Ok user_admin policy gid0 ordered vd1 vd2 added :
  foldM (add_role_to_policy user_admin policy) (vd1, []) ordered = Ok (vd2, added) →
  (∃ p, v1_policies vd1 !! policy = Some p ∧ po_group p = Some gid0) →
  only_policies vd1 vd2 ∧ added ⊆ ordered
  ∧ ∀ rid gid, policy_group vd2 rid gid ↔ policy_group vd1 rid gid ∨ rid ∈ map v1_id added ∧ gid = gid0.
Proof.
  intros Hr Hp.
  apply (foldM_ind (λ acc, (only_policies vd1 (fst acc) ∧ snd acc ⊆ ordered
    ∧ (∃ p, v1_policies (fst acc) !! policy = Some p ∧ po_group p = Some gid0))
    ∧ ∀ rid gid, policy_group (fst acc) rid gid ↔ policy_group vd1 rid gid ∨ rid ∈ map v1_id (snd acc) ∧ gid = gid0)) in Hr.
  - cbn in Hr. tauto.
  - cbn. split_and!; [done|set_solver|done|]. intros rid gid. rewrite elem_of_nil. tauto.
  - intros role [vda add0] [vdb add1] Hin ((Ho & Hs & p & Hpp & Hg) & Hiff) Hstep. cbn in *.
    apply bind_Ok in Hstep as (ok & _ & Hstep). apply bind_Ok in Hstep as (u & _ & Hstep).
    apply bind_Ok in Hstep as (q & Hq%or_raise_Ok & Hstep). rewrite Hpp in Hq. injection Hq as <-.
    case_bool_decide as Hin'; injection Hstep as <- <-; [split_and!; eauto|]. split_and!.
    + by trans vda.
    + set_solver.
    + eexists. cbn. split; [apply lookup_insert_eq|done].
    + intros rid gid. rewrite (policy_group_put _ _ gid0), Hiff; [|done|].
      * cbn. rewrite map_app, elem_of_app, elem_of_union, elem_of_singleton. cbn. rewrite list_elem_of_singleton.
        assert (rid ∈ po_roles p → policy_group vda rid gid0) as Hpg by (by exists policy, p).
        rewrite Hiff in Hpg. destruct (decide (gid = gid0)) as [->|]; naive_solver.
      * intros q Hq. rewrite Hpp in Hq. injection Hq as <-. cbn. set_solver.
Qed.

(** The roles taken from one policy. *)
Lemma remove_from_policy_Ok k l vd0 rem0 vd1 rem1 p :
  foldM (remove_role_from_policy k) (vd0, rem0) l = Ok (vd1, rem1) → v1_policies vd0 !! k = Some p →
  vd1 = with_policies (<[k := with_po_roles (.∖ list_to_set (map v1_id l)) p]>) vd0 ∧ rem1 ⊆ rem0 ++ l
  ∧ ∀ i, i ∈ map v1_id rem1 ↔ i ∈ map v1_id rem0 ∨ i ∈ map v1_id l ∧ i ∈ po_roles p.
Proof.
  revert vd0 rem0 p. induction l as [|role l IH]; intros vd0 rem0 p Hr Hp; cbn [foldM] in Hr.
  - injection Hr as <- <-. split_and!; [|set_solver|set_solver]. unfold with_policies. rewrite insert_id; [by destruct vd0|].
    rewrite Hp. f_equal. unfold with_po_roles. destruct p. cbn. f_equal. set_solver.
  - destruct (remove_role_from_policy k (vd0, rem0) role) as [[vda rema]|] eqn:E; [|done].
    unfold remove_role_from_policy in E. rewrite Hp in E. cbn in E. case_bool_decide as Hin; injection E as <- <-.
    + eapply IH in Hr as (-> & Hsub & Hiff); [|apply lookup_insert_eq]. split_and!.
      * unfold with_policies. cbn. f_equal. rewrite insert_insert_eq. f_equal. unfold with_po_roles. cbn. f_equal. set_solver.
      * set_solver.
      * intros i. rewrite Hiff. cbn. rewrite map_app, elem_of_app, elem_of_difference, elem_of_singleton, elem_of_cons. cbn.
        rewrite list_elem_of_singleton. destruct (decide (i = v1_id role)) as [->|]; naive_solver.
    + eapply IH in Hr as (-> & Hsub & Hiff); [|done]. split_and!.
      * f_equal. unfold with_po_roles. cbn. f_equal. f_equal. set_solver.
      * set_solver.
      * intros i. rewrite Hiff. cbn. rewrite elem_of_cons. destruct (decide (i = v1_id role)) as [->|]; naive_solver.
Qed.

(** The roles taken from several policies. *)
Lemma remove_from_policies_Ok ks l vd0 rem0 vd1 rem1 :
  foldM (λ acc k, foldM (remove_role_from_policy k) acc l) (vd0, rem0) ks = Ok (vd1, rem1) →
  NoDup ks → (∀ k, k ∈ ks → is_Some (v1_policies vd0 !! k)) →
  only_policies vd0 vd1 ∧ rem1 ⊆ rem0 ++ l
  ∧ (∀ k, v1_policies vd1 !! k = (if decide (k ∈ ks) then with_po_roles (.∖ list_to_set (map v1_id l)) <$> v1_policies vd0 !! k
                                  else v1_policies vd0 !! k))
  ∧ ∀ i, i ∈ map v1_id rem1 ↔ i ∈ map v1_id rem0 ∨ i ∈ map v1_id l ∧ ∃ k p, k ∈ ks ∧ v1_policies vd0 !! k = Some p ∧ i ∈ po_roles p.
Proof.
  revert vd0 rem0. induction ks as [|k ks IH]; intros vd0 rem0 Hr Hnd Hks; cbn [foldM] in Hr.
  { injection Hr as <- <-. split_and!; [done|set_solver|..].
    - intros k. rewrite decide_False by set_solver. done.
    - intros i. split; [by left|]. intros [?|(_ & k & p & Hk & _)]; [done|by apply elem_of_nil in Hk]. }
  destruct (foldM _ (vd0, rem0) l) as [[vda rema]|] eqn:E; [|done]. apply NoDup_cons in Hnd as [Hnin Hnd].
  destruct (Hks k) as [p Hp]; [left|]. destruct (remove_from_policy_Ok _ _ _ _ _ _ _ E Hp) as (-> & Hsub & Hiff).
  apply IH in Hr as (Ho & Hsub' & Hpol & Hiff'); [|done|].
  - split_and!.
    + etrans; [apply with_policies_only|exact Ho].
    + set_solver.
    + intros k'. rewrite Hpol. cbn. destruct (decide (k = k')) as [<-|Hne].
      * rewrite decide_False, decide_True by (done || left). by rewrite lookup_insert_eq, Hp.
      * rewrite lookup_insert_ne by done. destruct (decide (k' ∈ ks)) as [Hk|Hk].
        -- by rewrite decide_True by (by right).
        -- by rewrite decide_False by (rewrite elem_of_cons; naive_solver).
    + intros i. rewrite Hiff', Hiff. cbn. setoid_rewrite elem_of_cons. setoid_rewrite lookup_insert_Some. split.
      * intros [[?|[? ?]]|(Hl & k' & q & Hk' & [[<- _]|[Hne Hq]] & Hi)]; [by left|by right; eauto 10|done|right; eauto 10].
      * intros [?|(Hl & k' & q & [->|Hk'] & Hq & Hi)]; [by left; left|left; right; split; [done|congruence]|].
        right. split; [done|]. exists k', q. split_and!; try done. right. split; [|done]. by intros ->.
  - intros k' Hk'. cbn. destruct (decide (k = k')) as [<-|Hne]; [by rewrite lookup_insert_eq|].
    rewrite lookup_insert_ne by done. apply Hks. by right.
Qed.

(** The roles taken from the policies of a group. *)
Lemma remove_policies_Ok group l vd vd1 removed :
  foldM (λ acc k, foldM (remove_role_from_policy k) acc l) (vd, []) (group_policies group vd) = Ok (vd1, removed) →
  only_policies vd vd1 ∧ removed ⊆ l
  ∧ ∀ rid gid, policy_group vd1 rid gid ↔ policy_group vd rid gid ∧ ¬ (rid ∈ map v1_id removed ∧ gid = g_id group).
Proof.
  assert (∀ k, k ∈ group_policies group vd ↔ ∃ p, v1_policies vd !! k = Some p ∧ po_group p = Some (g_id group)) as Hks.
  { intros k. unfold group_policies. rewrite list_elem_of_fmap. split.
    - intros ([k' p] & -> & Hin). rewrite list_elem_of_In, filter_In, <- list_elem_of_In, (row_order_perm _ _ _), elem_of_map_to_list,
        bool_decide_eq_true in Hin. eauto.
    - intros (p & Hp & Hg). exists (k, p). split; [done|].
      by rewrite list_elem_of_In, filter_In, <- list_elem_of_In, (row_order_perm _ _ _), elem_of_map_to_list, bool_decide_eq_true. }
  intros Hr. apply remove_from_policies_Ok in Hr as (Ho & Hsub & Hpol & Hiff).
  - split_and!; [done|done|]. intros rid gid. unfold policy_group. setoid_rewrite Hpol. split.
    + intros (k & p1 & Hp1 & Hrid & Hg). case_decide as Hk.
      * apply fmap_Some in Hp1 as (p & Hp & ->). cbn in Hrid, Hg. apply elem_of_difference in Hrid as [Hrid Hn].
        rewrite elem_of_list_to_set in Hn. split; [eauto|]. intros [Hin _]. apply Hiff in Hin as [?%elem_of_nil|[? _]]; done.
      * split; [eauto|]. intros [_ ->]. apply Hk, Hks. eauto.
    + intros [(k & p & Hp & Hrid & Hg) Hn]. exists k. case_decide as Hk; [|eauto]. rewrite Hp. cbn. eexists. split; [done|]. cbn.
      split; [|done]. apply elem_of_difference. split; [done|]. rewrite elem_of_list_to_set. intros Hin. apply Hn.
      apply Hks in Hk as (p' & Hp' & Hg'). rewrite Hp in Hp'. injection Hp' as <-. split; [|congruence].
      apply Hiff. right. split; [done|]. exists k, p. split_and!; try done. apply Hks. eauto.
  - apply NoDup_map_filter. rewrite (row_order_perm _ _ _). apply NoDup_fst_map_to_list.
  - intros k (p & Hp & _)%Hks. eauto.
Qed.
End policies.

(* ------------------------------------------------------------------ *)
(** * The handler *)

Section handler.
Context `{Settings} `{PySetOrder} `{RowOrder}.

Lemma gh_replicate_effect h st es :
  REPLICATION_TO_RELATION_ENABLED = true → gh_replicate h false st = Ok es → ss_events st = [] →
  Forall (λ t, rbac_tuple t = true) (ss_add st) →
  ∀ G, replay G es = Ok (list_to_set (ss_add st) ∪ (G ∖ list_to_set (ss_remove st))).
Proof.
  intros He Hr Hev Hd G. unfold gh_replicate in Hr. rewrite Hev in Hr. apply bind_Ok in Hr as (dd & Hdd & Hr).
  assert (∀ t, t ∈ dd ↔ t ∈ ss_add st) as Helem.
  { intros t. destruct (deduplicate_subjects_elem _ _ _ Hdd Hd t) as [H1' H2']. set_solver. }
  assert ((list_to_set (ss_add st) : tuples) = list_to_set dd) as ->.
  { apply set_eq. intros t. by rewrite !elem_of_list_to_set, Helem. }
  set (e := mkReplicationEvent _ _ _ _) in Hr.
  assert (∀ es', dual_write (emit e) = Ok es' → replay G es' = Ok (list_to_set dd ∪ (G ∖ list_to_set (ss_remove st)))) as Hemit.
  { intros es' Hem%dual_write_Ok. by rewrite (emit_accepted _ _ He Hem). }
  destruct dd as [|t dd]; [destruct (ss_remove st) as [|x l]|]; [|apply bind_Ok in Hr as (es' & Hem & [= <-]); by apply Hemit..].
  injection Hr as <-. unfold replay. cbn. f_equal. apply set_eq. intros t. rewrite elem_of_union, elem_of_difference. set_solver.
Qed.

Lemma gh_replicate_run h vd st es :
  REPLICATION_TO_RELATION_ENABLED = true → gh_replicate h false st = Ok es → ss_events st = [] →
  delta vd (ss_vd st) (ss_add st) (ss_remove st) → replay (rows_graph vd) es = Ok (rows_graph (ss_vd st)).
Proof.
  intros He Hr Hev Hd. rewrite (gh_replicate_effect _ _ _ He Hr Hev (dl_add _ _ _ _ Hd)). f_equal. apply set_eq. intros t.
  rewrite (delta_rows _ _ _ _ _ Hd), elem_of_union, elem_of_difference, !elem_of_list_to_set. tauto.
Qed.

Lemma subject_handler_init_Ok tenant root dflt ev vd o :
  REPLICATION_TO_RELATION_ENABLED = true → subject_handler_init tenant root dflt ev vd = Ok o →
  ∃ sh, o = Some sh ∧ sh_tenant sh = tenant ∧ lock_tenant_version (db_mappings (v1_db vd) !! t_id tenant) = Ok (sh_tenant_version sh).
Proof.
  intros He. unfold subject_handler_init. rewrite He. cbn. intros Hr%dual_write_Ok.
  apply bind_Ok in Hr as (? & _ & Hr). apply bind_Ok in Hr as (? & _ & Hr). apply bind_Ok in Hr as (v & Hv & [= <-]). eauto.
Qed.

Lemma group_handler_init_Ok group ev vd o :
  REPLICATION_TO_RELATION_ENABLED = true → group_handler_init group ev vd = Ok o → ∃ h, o = Some h ∧ gh_group h = group.
Proof.
  intros He. unfold group_handler_init. rewrite He. cbn. intros Hr%dual_write_Ok.
  apply bind_Ok in Hr as (? & _ & Hr). apply bind_Ok in Hr as (? & _ & Hr). apply bind_Ok in Hr as (? & _ & Hr).
  apply bind_Ok in Hr as (? & _ & Hr). apply bind_Ok in Hr as (sub & (sh & -> & _)%subject_handler_init_Ok & [= <-]); [|done]. eauto.
Qed.
End handler.

(* ------------------------------------------------------------------ *)
(** * The requests *)

Section requests.
Context `{Settings} `{PySetOrder} `{RowOrder}.
Variables (gen : V1Db → sys_fresh) (parse_uuid : string → result string) (role_gen : Z → V2boundresource → fresh) (ws_id : string).
Hypothesis Hgen : sys_gen_ok gen.
Implicit Types (vd : V1Db) (h : GroupHandler).

Lemma concat_singletons {A B} (f : A → B) l : concat (map (λ a, [f a]) l) = map f l.
Proof. induction l; cbn; congruence. Qed.
Lemma elem_of_map_const {A B} (b : B) (l : list A) x : l ≠ [] → x ∈ map (λ _, b) l ↔ x ∈ [b].
Proof.
  intros Hl. rewrite list_elem_of_fmap, list_elem_of_singleton. split; [by intros (a & -> & _)|].
  intros ->. destruct l as [|a l]; [done|]. exists a. split; [done|left].
Qed.

Lemma reset_gathered h roles st st' :
  generate_relations_reset_roles gen parse_uuid role_gen ws_id h roles st = Ok st' → v1_inv (ss_vd st) →
  (∀ r, r ∈ roles → v1_roles (ss_vd st) !! v1_id r = Some r) →
  gathered Grow (g_uuid (gh_group h)) (map v1_id roles) st st'.
Proof.
  unfold generate_relations_reset_roles. intros (locked & Hl & Hr)%bind_Ok Hi Hrows.
  unfold with_system_roles_for_share in Hl.
  apply bind_Ok in Hl as (u & Hset%raise_if_Ok%negb_false_iff%bool_decide_eq_true & [= <-]).
  set (final := _ ++ _) in *. assert (∀ r, r ∈ final → v1_roles (ss_vd st) !! v1_id r = Some r) as Hfinal.
  { intros r. unfold final. rewrite elem_of_app. intros [Hr'|Hr'].
    - rewrite list_elem_of_In, filter_In, <- list_elem_of_In, list_elem_of_fmap in Hr'. destruct Hr' as [([k r'] & -> & Hin) _].
      rewrite (row_order_perm _ _ _), elem_of_map_to_list in Hin. apply dict_of_Some in Hin.
      rewrite list_elem_of_In, <- in_rev, <- list_elem_of_In, list_elem_of_fmap in Hin. destruct Hin as (r0 & [= -> ->] & Hin). by apply Hrows.
    - apply elem_of_select in Hr' as [_ [k Hk]]. by rewrite (vo_role_id _ (proj1 Hi) _ _ Hk). }
  apply (fold_gathered Grow (g_uuid (gh_group h)) _ (λ r, [v1_id r]) (v1_roles (ss_vd st))) in Hr; [|clear Hr|done|done].
  - rewrite concat_singletons in Hr. eapply gathered_ext; [|exact Hr]. intros x.
    by rewrite <- !(elem_of_list_to_set (C := gset Z)), Hset.
  - intros role s s' Hin Hi' Er Hstep. unfold reset_role in Hstep.
    apply bind_Ok in Hstep as (scopes & (perms & _ & Hsc%binding_scopes_nonempty)%bind_Ok & Hstep).
    apply (fold_gathered Grow (g_uuid (gh_group h)) _ (λ _, [v1_id role]) (v1_roles (ss_vd st))) in Hstep; [|clear Hstep|done|done].
    + rewrite concat_singletons in Hstep. eapply gathered_ext; [|exact Hstep]. intros x. by apply elem_of_map_const.
    + intros sc s1 s1' _ Hi1 Er1 Hsc1. eapply role_gathered in Hsc1; [exact Hsc1|apply _|apply _|done|apply reset_mapping_groups| |done|].
      * intros c [= <-]. split; [done|]. by eexists _, _.
      * rewrite Er1. by apply Hfinal.
Qed.

Lemma removal_gathered h roles st st' :
  generate_relations_to_remove_roles gen parse_uuid role_gen ws_id h roles st = Ok st' → v1_inv (ss_vd st) →
  (∀ r, r ∈ roles → v1_roles (ss_vd st) !! v1_id r = Some r) →
  gathered Shrink (g_uuid (gh_group h)) (map v1_id roles) st st'.
Proof.
  intros Hr Hi Hrows.
  apply (fold_gathered Shrink (g_uuid (gh_group h)) _ (λ r, [v1_id r]) (v1_roles (ss_vd st))) in Hr; [|clear Hr|done|done].
  - by rewrite concat_singletons in Hr.
  - intros role s s' Hin Hi' Er Hstep. unfold update_mapping_for_role_removal in Hstep.
    apply (fold_gathered Shrink (g_uuid (gh_group h)) _ (λ _, [v1_id role]) (v1_roles (ss_vd st))) in Hstep; [|clear Hstep|done|done].
    + rewrite concat_singletons in Hstep. eapply gathered_ext; [|exact Hstep]. intros x. apply elem_of_map_const.
      intros E. assert (Scope.DEFAULT ∈ []) as []%elem_of_nil. rewrite <- E. apply elem_of_set_iter, elem_of_list_to_set. left.
    + intros sc s1 s1' _ Hi1 Er1 Hsc1. eapply role_gathered in Hsc1; [exact Hsc1|apply _|apply _|done|apply remove_group_groups|done|done|].
      rewrite Er1. by apply Hrows.
Qed.

(** How a request changes the groups that have a role. *)
Definition regranted (md : mode) (ids : list Z) (gid0 : Z) (vd vd' : V1Db) : Prop := ∀ rid gid,
  policy_group vd' rid gid ↔
  match md with
  | Grow => policy_group vd rid gid ∨ rid ∈ ids ∧ gid = gid0
  | Shrink => policy_group vd rid gid ∧ ¬ (rid ∈ ids ∧ gid = gid0)
  end.

Lemma regroup_assigned md group ids vd vd' :
  regroup md (g_uuid group) ids vd vd' → regranted md ids (g_id group) vd vd' →
  v1_roles vd' = v1_roles vd → db_groups (v1_db vd') = db_groups (v1_db vd) →
  v1_ok vd → db_groups (v1_db vd) !! g_id group = Some group → assigned vd → assigned vd'.
Proof.
  intros [F B] Hrg Er Eg Hok Hrow Ha pk m' role Hm' Hrole Hs. rewrite Er in Hrole.
  destruct (B _ _ _ Hm' Hrole Hs) as (m & Hm & Em). rewrite <- Em in Hrole. destruct (F _ _ _ Hm Hrole Hs) as (m2 & Hm2 & _ & Hin & Hout).
  rewrite Hm' in Hm2. injection Hm2 as <-. destruct (Ha _ _ _ Hm Hrole Hs) as [Hn Hu]. rewrite <- Em, Eg.
  assert (∀ gid grp, db_groups (v1_db vd) !! gid = Some grp → g_uuid grp = g_uuid group → gid = g_id group) as Hone.
  { intros gid grp Hgrp E. by apply (proj2 (vo_groups _ Hok) _ _ _ _ Hgrp Hrow). }
  destruct (decide (bm_role m ∈ ids)) as [Hi|Hi].
  - destruct (Hin Hi Hn) as [Hn' Hu']. split; [done|]. intros u. specialize (Hu' u). destruct md; rewrite Hu', Hu; setoid_rewrite (Hrg _ _).
    + split; [intros [->|(gid & grp & Hp & Hgrp & <-)]; eauto 10|]. intros (gid & grp & [Hp|[_ ->]] & Hgrp & <-); [eauto 10|].
      left. congruence.
    + split.
      * intros (Hne & gid & grp & Hp & Hgrp & <-). exists gid, grp. split_and!; try done. intros [_ ->]. congruence.
      * intros (gid & grp & [Hp Hn2] & Hgrp & <-). split; [|eauto]. intros E%(Hone _ _ Hgrp). tauto.
  - rewrite (Hout Hi). split; [done|]. intros u. rewrite Hu. setoid_rewrite (Hrg _ _). destruct md; naive_solver.
Qed.

(** The part that both requests end with. *)
Lemma gathered_steps md group ids vd vd1 st es h :
  REPLICATION_TO_RELATION_ENABLED = true → v1_inv vd → db_groups (v1_db vd) !! g_id group = Some group →
  only_policies vd vd1 → regranted md ids (g_id group) vd vd1 →
  gathered md (g_uuid group) ids (mkSubjectState vd1 [] [] []) st → gh_replicate h false st = Ok es →
  steps vd es (ss_vd st) ∧ db_groups (v1_db (ss_vd st)) = db_groups (v1_db vd).
Proof.
  intros He Hi Hrow Ho Hrg (a & r & A & R & E & D & M & I & G) Hrep. cbn in *.
  destruct (only_policies_inv _ _ Ho Hi) as [Hi1 Hst1]. destruct (only_policies_roles _ _ Ho) as (Er & Eb & Ed).
  rewrite <- A, <- R in D. destruct (only_bindings_tables _ _ (dl_only _ _ _ _ D)) as (_ & _ & Eg & _).
  split; [|by rewrite Eg, Ed]. split; [|split].
  - split; [apply D|]. rewrite <- (only_policies_graph _ _ Ho). by eapply gh_replicate_run.
  - intros ?. auto.
  - apply (regroup_assigned md group ids); [|..|apply Hi|done].
    + destruct G as [F B]. rewrite Eb, Er in *. by split.
    + intros rid gid. rewrite <- (Hrg rid gid). unfold policy_group. by rewrite (ob_policies _ _ (dl_only _ _ _ _ D)).
    + by rewrite (ob_roles _ _ (dl_only _ _ _ _ D)).
    + by rewrite Eg, Ed.
Qed.

Lemma system_then_custom_sub roles tenant vd ordered : system_then_custom roles tenant vd = Ok ordered → ordered ⊆ roles.
Proof.
  intros (public & _ & [= <-])%bind_Ok r. rewrite elem_of_app, !list_elem_of_In, !filter_In. tauto.
Qed.

Lemma add_roles_steps policy_key group roles tenant user_admin vd vd' es :
  REPLICATION_TO_RELATION_ENABLED = true → v1_inv vd → tenant_name tenant ≠ PUBLIC_TENANT_NAME →
  db_groups (v1_db vd) !! g_id group = Some group → v1_policies vd !! policy_key = None →
  (∀ r, r ∈ roles → v1_roles vd !! v1_id r = Some r) →
  add_roles gen parse_uuid role_gen ws_id policy_key group roles tenant user_admin vd = Ok (vd', es) →
  steps vd es vd' ∧ db_groups (v1_db vd') = db_groups (v1_db vd).
Proof.
  intros He Hi Htn Hrow Hpk Hrows. unfold add_roles. intros (u & _ & Hr)%bind_Ok.
  apply bind_Ok in Hr as ([vd1 policy] & Hpol & Hr). apply get_system_policy_Ok in Hpol as (Ho1 & Hp1 & Hpg1); [|done].
  apply bind_Ok in Hr as (ordered & Hord%system_then_custom_sub & Hr). apply bind_Ok in Hr as ([vd2 added] & Hadd & Hr).
  apply (add_role_to_policy_Ok _ _ (g_id group)) in Hadd as (Ho2 & Hsub & Hpg2); [|done].
  assert (only_policies vd vd2) as Ho by (by trans vd1).
  assert (regranted Grow (map v1_id added) (g_id group) vd vd2) as Hrg by (intros rid gid; by rewrite Hpg2, Hpg1).
  destruct (only_policies_inv _ _ Ho Hi) as [Hi2 Hst2].
  destruct added as [|r0 added0] eqn:Eadd.
  - injection Hr as <- <-. destruct (only_policies_roles _ _ Ho) as (Er & Eb & Ed).
    split; [|by rewrite Ed]. split; [split; [done|]|split; [done|]].
    + unfold replay. cbn. by rewrite (only_policies_graph _ _ Ho).
    + intros Ha pk m role. rewrite Eb, Er, Ed. intros Hm Hro Hs.
      destruct (Ha pk m role Hm Hro Hs) as [Hn Hu]. split; [done|]. intros x. rewrite Hu. setoid_rewrite (Hrg _ _). cbn.
      setoid_rewrite elem_of_nil. naive_solver.
  - rewrite <- Eadd in *. clear Eadd r0 added0. apply String.eqb_neq in Htn. rewrite Htn in Hr.
    apply bind_Ok in Hr as (o & (h & -> & Hh)%group_handler_init_Ok & Hr); [|done].
    apply bind_Ok in Hr as (st & Hgen' & Hr). apply bind_Ok in Hr as (es' & Hrep & [= <- <-]).
    apply reset_gathered in Hgen'; [|done|].
    + rewrite Hh in Hgen'. by eapply gathered_steps.
    + intros r Hr. cbn. destruct (only_policies_roles _ _ Ho) as (-> & _). by apply Hrows, Hord, Hsub.
Qed.

Lemma remove_roles_steps group roles tenant vd vd' es :
  REPLICATION_TO_RELATION_ENABLED = true → v1_inv vd → tenant_name tenant ≠ PUBLIC_TENANT_NAME →
  db_groups (v1_db vd) !! g_id group = Some group → (∀ r, r ∈ roles → v1_roles vd !! v1_id r = Some r) →
  remove_roles gen parse_uuid role_gen ws_id group roles tenant vd = Ok (vd', es) → steps vd es vd'.
Proof.
  intros He Hi Htn Hrow Hrows. unfold remove_roles. intros (ordered & Hord%system_then_custom_sub & Hr)%bind_Ok.
  apply bind_Ok in Hr as ([vd1 removed] & (Ho & Hsub & Hrg)%remove_policies_Ok & Hr).
  apply String.eqb_neq in Htn. rewrite Htn in Hr. destruct (only_policies_inv _ _ Ho Hi) as [Hi1 _].
  apply bind_Ok in Hr as (o & (h & -> & Hh)%group_handler_init_Ok & Hr); [|done].
  apply bind_Ok in Hr as (st & Hgen' & Hr). apply bind_Ok in Hr as (es' & Hrep & [= <- <-]).
  apply removal_gathered in Hgen'; [|done|].
  - rewrite Hh in Hgen'. eapply (gathered_steps Shrink); [done|done|done|exact Ho|exact Hrg|done|done].
  - intros r Hr. cbn. destruct (only_policies_roles _ _ Ho) as (-> & _). by apply Hrows, Hord, Hsub.
Qed.

Lemma roles_by_ids_rows ids vd roles :
  roles_by_ids ids vd = Ok roles → v1_ok vd → ∀ r, r ∈ roles → v1_roles vd !! v1_id r = Some r.
Proof.
  unfold roles_by_ids. intros Hr Hok r Hin.
  assert (r ∈ select (λ r, bool_decide (v1_uuid r ∈ ids)) (v1_roles vd)) as Hsel by (destruct (select _ _); [done|by injection Hr as <-]).
  apply elem_of_select in Hsel as [_ [k Hk]]. by rewrite (vo_role_id _ Hok _ _ Hk).
Qed.
End requests.
