(* ===== verification/GroupService.v ===== *)
(** Groups of the V2 API and group membership: rbac/management/group/v2_service.py with
    rbac/management/v2_filters.py, and the parts of rbac/management/group/view.py that
    remove members and delete groups through the V1 API. *)

From S2P Require Import Prelude.
From S2P Require Import PyString.
From S2P Require Import Config.
From S2P Require Import PyUuid.
From S2P Require Import RelationTypes.
From S2P Require Import TupleStore.
From S2P Require Import Permissions.
From S2P Require Import ScopeService.
From S2P Require Import Outbox.
From S2P Require Import Tenants.
From S2P Require Import Db.
From S2P Require Import RoleBindingService.
From S2P Require Import BindingMapping.
From S2P Require Import V1State.
From S2P Require Import RoleMigration.
From S2P Require Import SubjectHandler.
From S2P Require Import GroupHandler.

(* ------------------------------------------------------------------ *)
(** * Name filters *)

(** The lookups [icontains] and [iexact]. *)
Definition icontains (sub s : string) : bool := contains (lower sub) (lower s).
Definition iexact (a b : string) : bool := String.eqb (lower a) (lower b).

(** [s.split(c, maxsplit=n)] *)
Fixpoint split_max (n : nat) (c : ascii) (s : string) : list string :=
  match n with
  | O => [s]
  | S n' => match find_char c s with
            | Some i => str_take i s :: split_max n' c (str_drop (S i) s)
            | None => [s]
            end
  end.

(** [_glob_to_regex]: the literal parts of a pattern, with [.*] between them and anchors
    at both ends; and what such a regular expression matches. *)
Definition glob_to_regex (pattern : string) : list string := split_max 10 "*" pattern.
Fixpoint match_tail (parts : list string) (s : string) : bool :=
  match parts with
  | [] => String.eqb s ""
  | p :: parts' => existsb (λ s', startswith p s' && match_tail parts' (str_drop (String.length p) s')) (suffixes s)
  end.
Definition match_parts (parts : list string) (s : string) : bool :=
  match parts with
  | [] => false
  | p :: parts' => startswith p s && match_tail parts' (str_drop (String.length p) s)
  end.

(** [v2_name_query] *)
Inductive NameQuery := IREGEX (parts : list string) | ICONTAINS (name : string).
Definition v2_name_query (name : string) : option NameQuery :=
  if String.eqb name "*" then None
  else if has_char "*" name then Some (IREGEX (glob_to_regex name))
  else Some (ICONTAINS name).
Definition query_matches (q : NameQuery) (value : string) : bool :=
  match q with
  | IREGEX parts => match_parts (map lower parts) (lower value)
  | ICONTAINS name => icontains name value
  end.

(** [v2_name_filter] on one value: a bare star matches everything. *)
Definition v2_name_filter (name value : string) : bool :=
  match v2_name_query name with Some q => query_matches q value | None => true end.

(* ------------------------------------------------------------------ *)
(** * Rows *)

Definition put_groups (f : gmap Z Group → gmap Z Group) (d : Db) : Db :=
  mkDb (db_permissions d) (db_roles d) (f (db_groups d)) (db_principals d) (db_bindings d)
    (db_group_entries d) (db_principal_entries d) (db_workspaces d) (db_mappings d) (db_tenants d).

Definition put_principals (f : gmap Z Principal → gmap Z Principal) (d : Db) : Db :=
  mkDb (db_permissions d) (db_roles d) (db_groups d) (f (db_principals d)) (db_bindings d)
    (db_group_entries d) (db_principal_entries d) (db_workspaces d) (db_mappings d) (db_tenants d).

(** A saved group: the unique columns are checked against the other rows. *)
Definition UNIQUE_NAME_CONSTRAINT : string := "unique group name per tenant".
Definition save_group (g : Group) (vd : V1Db) : result V1Db :=
  let others := List.filter (λ h, negb (Z.eqb (g_id h) (g_id g))) (map snd (map_to_list (db_groups (v1_db vd)))) in
  _ ← raise_if (existsb (λ h, String.eqb (g_uuid h) (g_uuid g)) others) (IntegrityError "uuid");
  _ ← raise_if (existsb (λ h, String.eqb (g_name h) (g_name g) && Z.eqb (g_tenant h) (g_tenant g)) others)
        (IntegrityError UNIQUE_NAME_CONSTRAINT);
  mret (with_db (put_groups (<[g_id g := g]>)) vd).

(** DELETE on a group: role binding entries protect it; its policies and memberships go
    with it. *)
Definition group_entry_count (gid : Z) (d : Db) : nat := size (filter (λ e, snd e = gid) (db_group_entries d)).
Definition delete_group (gid : Z) (vd : V1Db) : result V1Db :=
  let n := group_entry_count gid (v1_db vd) in
  _ ← raise_if (negb (Nat.eqb n 0)) (ProtectedError n);
  mret (with_members (filter (λ gp, fst gp ≠ gid)) (with_policies (filter (λ kp, po_group (snd kp) ≠ Some gid))
         (with_db (put_groups (delete gid)) vd))).

Section service.
Context `{Settings} `{PySetOrder} `{RowOrder}.

(** [group.principals.all()], [principal.group.all()] and the bindings of a group. *)
Definition group_members (gid : Z) (vd : V1Db) : list Principal :=
  select (λ p, bool_decide ((gid, pr_id p) ∈ v1_members vd)) (db_principals (v1_db vd)).
Definition group_bindings (gid : Z) (vd : V1Db) : list RoleBinding :=
  select (λ b, bool_decide ((b_id b, gid) ∈ db_group_entries (v1_db vd))) (db_bindings (v1_db vd)).

(** The number of roles that the policies of a group name. *)
Definition legacy_role_count (gid : Z) (vd : V1Db) : nat :=
  sum_list_with (λ p, size (po_roles p ∩ dom (v1_roles vd)))
    (select (λ p, bool_decide (po_group p = Some gid)) (v1_policies vd)).

(* ------------------------------------------------------------------ *)
(** * Listing *)

(** [_public_default_groups_filter] *)
Definition public_default_groups_filter (tenant : Tenant) (is_org_admin : bool) (vd : V1Db) : result (Group → bool) :=
  public ← get_public_tenant vd;
  let has_own (flag : Group → bool) :=
    existsb (λ h, Z.eqb (g_tenant h) (t_id tenant) && flag h) (map snd (map_to_list (db_groups (v1_db vd)))) in
  let flags := if is_org_admin then [platform_default; admin_default] else [platform_default] in
  mret (λ g, Z.eqb (g_tenant g) (t_id public) && g_system g
             && existsb (λ flag : Group → bool, flag g && negb (has_own flag)) flags).

(** The rows of [queryset], and its two counts. *)
Definition queryset (tenant : Tenant) (include_public_defaults : bool) (is_org_admin : option bool) (vd : V1Db) :
    result (list Group) :=
  let own g := Z.eqb (g_tenant g) (t_id tenant) in
  if include_public_defaults then
    admin ← or_raise ValueError is_org_admin;
    public ← public_default_groups_filter tenant admin vd;
    mret (select (λ g, own g || public g) (db_groups (v1_db vd)))
  else mret (select own (db_groups (v1_db vd))).
Definition principal_count (vd : V1Db) (g : Group) : nat :=
  length (List.filter (λ p, bool_decide (pr_type p = USER_PRINCIPAL)) (group_members (g_id g) vd)).
Definition own_bindings (vd : V1Db) (g : Group) : list RoleBinding :=
  List.filter (λ b, Z.eqb (b_tenant b) (g_tenant g)) (group_bindings (g_id g) vd).
Definition role_count (vd : V1Db) (g : Group) : nat := size (list_to_set (map b_role (own_bindings vd g)) : gset Z).

(** [_ordering] *)
Definition order_by_field (name : string) : option string :=
  if String.eqb name "name" then Some "name"
  else if String.eqb name "modified" then Some "modified"
  else if String.eqb name "principal_count" then Some "principal_count_annotation"
  else if String.eqb name "role_count" then Some "role_count_annotation"
  else None.
Fixpoint lstrip_dashes (s : string) : string :=
  match s with
  | String "-" s' => lstrip_dashes s'
  | _ => s
  end.
Definition ordering (order_by : string) : result (list string) :=
  field ← or_raise KeyError (order_by_field (lstrip_dashes order_by));
  let primary := if startswith "-" order_by then "-" +:+ field else field in
  mret (if String.eqb field "name" then [primary; "uuid"] else [primary; "name"; "uuid"]).

Record ListParams := mkListParams {
  lp_name : option string;
  lp_uuid : list string;
  lp_username : option string;
  lp_exclude_username : option string;
  lp_role_names : list string;
  lp_role_discriminator : option string;
  lp_principals : list string;
  lp_scope : option string;
  lp_system : option bool;
  lp_platform_default : option bool;
  lp_admin_default : option bool;
  lp_order_by : option string;
}.

(** A parameter that is given and not empty. *)
Definition given (o : option string) : option string := match o with Some s => if str_truth s then Some s else None | None => None end.

(** The group has a member that is a user of its own tenant and satisfies the test. *)
Definition has_user (vd : V1Db) (test : Principal → bool) (g : Group) : bool :=
  existsb (λ p, bool_decide (pr_type p = USER_PRINCIPAL) && Z.eqb (pr_tenant p) (g_tenant g) && test p) (group_members (g_id g) vd).

(** [_filter_by_role_names] *)
Definition bound_to_role_name (vd : V1Db) (g : Group) (name : string) : bool :=
  existsb (λ b, match db_roles (v1_db vd) !! b_role b with Some r => iexact name (r_name r) | None => false end) (own_bindings vd g).
Definition filter_by_role_names (vd : V1Db) (role_names : list string) (discriminator : string) (g : Group) : bool :=
  if String.eqb discriminator "all" then forallb (bound_to_role_name vd g) role_names
  else existsb (bound_to_role_name vd g) role_names.

(** No member of the group is a user of the tenant whose name contains the text. *)
Definition excludes_username (vd : V1Db) (tenant : Tenant) (name : string) (g : Group) : bool :=
  negb (existsb (λ p, Z.eqb (pr_tenant p) (t_id tenant) && bool_decide (pr_type p = USER_PRINCIPAL) && icontains name (pr_username p))
          (group_members (g_id g) vd)).

Definition flag_filter (flag : Group → bool) (value : option bool) (g : Group) : bool :=
  match value with Some v => Bool.eqb (flag g) v | None => true end.

(** The filters of [list], in the order of the code. *)
Definition list_filter (params : ListParams) (tenant : Tenant) (requester_username : option string) (vd : V1Db) (g : Group) : bool :=
  match given (lp_name params) with Some n => v2_name_filter n (g_name g) | None => true end
  && match lp_uuid params with [] => true | us => bool_decide (g_uuid g ∈ us) end
  && match given (lp_username params) with Some n => has_user vd (λ p, v2_name_filter n (pr_username p)) g | None => true end
  && match given (lp_exclude_username params) with Some n => excludes_username vd tenant n g | None => true end
  && match lp_role_names params with [] => true | ns => filter_by_role_names vd ns (default "any" (lp_role_discriminator params)) g end
  && forallb (λ n, has_user vd (λ p, iexact n (pr_username p)) g) (lp_principals params)
  && (if bool_decide (lp_scope params = Some "principal") then
        match given requester_username with Some n => has_user vd (λ p, iexact n (pr_username p)) g | None => false end
      else true)
  && flag_filter g_system (lp_system params) g
  && flag_filter platform_default (lp_platform_default params) g
  && flag_filter admin_default (lp_admin_default params) g.

(** [list]: the rows and the fields they are ordered by. *)
Definition list_groups (params : ListParams) (tenant : Tenant) (requester_username : option string)
    (is_org_admin self_access_only : bool) (vd : V1Db) : result (list Group * list string) :=
  let order := ordering (default "name" (given (lp_order_by params))) in
  if self_access_only then
    rows ← queryset tenant false None vd;
    order ← order;
    mret (List.filter (has_user vd (λ p, bool_decide (requester_username = Some (pr_username p)))) rows, order)
  else
    let exclude_username := given (lp_exclude_username params) in
    rows ← queryset tenant (bool_decide (exclude_username = None)) (Some is_org_admin) vd;
    if bool_decide (lp_scope params = Some "principal") && bool_decide (given requester_username = None) then mret ([], [])
    else
      order ← order;
      mret (List.filter (list_filter params tenant requester_username vd) rows, order).

(** [list_principals]: the rows with their group counts, and the order. *)
Inductive PrincipalTypeParam := TYPE_USER | TYPE_SERVICE_ACCOUNT | TYPE_ALL.
Record ListPrincipalsParams := mkListPrincipalsParams {
  pp_service_account_client_ids : list string;
  pp_principal_type : option PrincipalTypeParam;
  pp_username : option string;
  pp_principal_username : option string;
  pp_service_account_name : option string;
  pp_service_account_description : option string;
  pp_order_by : option string;
}.
Definition group_count (vd : V1Db) (p : Principal) : nat :=
  length (select (λ g, bool_decide ((g_id g, pr_id p) ∈ v1_members vd) && Z.eqb (g_tenant g) (pr_tenant p)) (db_groups (v1_db vd))).

(** The disjunction of the filters on the names of service accounts; a bare star matches
    every one of them. *)
Definition service_account_filter (values : list string) (p : Principal) : bool :=
  bool_decide (pr_type p = SERVICE_ACCOUNT) &&
  match mapM v2_name_query values with
  | Some queries => existsb (λ q, query_matches q (pr_username p)) queries
  | None => true
  end.
Definition principal_type_filter (t : PrincipalTypeParam) (p : Principal) : bool :=
  match t with
  | TYPE_USER => bool_decide (pr_type p = USER_PRINCIPAL)
  | TYPE_SERVICE_ACCOUNT => bool_decide (pr_type p = SERVICE_ACCOUNT)
  | TYPE_ALL => true
  end.
Definition username_filter (o : option string) (p : Principal) : bool :=
  match given o with Some v => v2_name_filter v (pr_username p) | None => true end.
Definition list_principals (tenant : Tenant) (group : Group) (params : ListPrincipalsParams) (vd : V1Db) :
    list (Principal * nat) * list string :=
  let rows := List.filter (λ p, Z.eqb (pr_tenant p) (t_id tenant) && negb (pr_cross_account p)) (group_members (g_id group) vd) in
  let counted := map (λ p, (p, group_count vd p)) in
  match pp_service_account_client_ids params with
  | _ :: _ as ids =>
      (counted (List.filter (λ p, bool_decide (pr_type p = SERVICE_ACCOUNT)
                  && match pr_service_account_id p with Some i => bool_decide (i ∈ ids) | None => false end) rows),
       ["username"; "uuid"])
  | [] =>
      let t := default TYPE_USER (pp_principal_type params) in
      let sa_values := omap given [pp_service_account_name params; pp_service_account_description params] in
      (counted (List.filter (λ p, principal_type_filter t p && username_filter (pp_username params) p
                  && username_filter (pp_principal_username params) p
                  && match t, sa_values with
                     | TYPE_USER, _ | _, [] => true
                     | _, values => service_account_filter values p
                     end) rows),
       [default "username" (given (pp_order_by params)); "uuid"])
  end.

(* ------------------------------------------------------------------ *)
(** * Writing groups *)

(** [_check_not_protected]: the flags are tried in order. *)
Fixpoint check_not_protected (group : Group) (flags : list (string * (Group → bool))) (action : string) : result unit :=
  match flags with
  | [] => mret tt
  | (name, flag) :: flags' =>
      if flag group then Raise (ProtectedGroupError action name) else check_not_protected group flags' action
  end.
Definition PROTECTED_FLAGS_FOR_UPDATE : list (string * (Group → bool)) := [("system", g_system)].
Definition PROTECTED_FLAGS_FOR_DELETE : list (string * (Group → bool)) :=
  [("system", g_system); ("platform_default", platform_default); ("admin_default", admin_default)].

(** The handling of a unique violation in [create] and [update]. *)
Definition name_violation {A} (name : string) (r : result A) : result A :=
  match r with
  | Raise (IntegrityError c) => Raise (if String.eqb c UNIQUE_NAME_CONSTRAINT then GroupAlreadyExistsError name else IntegrityError c)
  | _ => r
  end.

(** [create]; the key and the UUID are those the database and [uuid4] give. *)
Definition create_group (key : Z) (uuid : string) (name : string) (description : option string) (tenant : Tenant) (vd : V1Db) :
    result (V1Db * Group) :=
  let group := mkGroup key uuid (t_id tenant) false false false name description in
  vd' ← name_violation name (save_group group vd);
  mret (vd', group).

(** [update] *)
Definition update_group (group : Group) (name : string) (description : option string) (vd : V1Db) : result (V1Db * Group) :=
  _ ← check_not_protected group PROTECTED_FLAGS_FOR_UPDATE "updated";
  let group' := mkGroup (g_id group) (g_uuid group) (g_tenant group) (platform_default group) (admin_default group)
                  (g_system group) name description in
  vd' ← name_violation name (save_group group' vd);
  mret (vd', group').

(* ------------------------------------------------------------------ *)
(** * Members *)

(** [replicate_new_principals] and [replicate_removed_principals] *)
Definition replicate_new_principals (h : option GroupHandler) (principals : list Principal) (vd : V1Db) : result (list ReplicationEvent) :=
  match h with
  | None => mret []
  | Some h => add ← generate_member_relations (gh_group h) principals; gh_replicate h false (mkSubjectState vd add [] [])
  end.
Definition replicate_removed_principals (h : option GroupHandler) (principals : list Principal) (vd : V1Db) : result (list ReplicationEvent) :=
  match h with
  | None => mret []
  | Some h => remove ← generate_member_relations (gh_group h) principals; gh_replicate h false (mkSubjectState vd [] remove [])
  end.

(** [group.principals.add] and [group.principals.remove] *)
Definition add_members (gid : Z) (principals : list Principal) : V1Db → V1Db :=
  with_members (list_to_set (map (λ p, (gid, pr_id p)) principals) ∪.).
Definition remove_members (gid : Z) (principals : list Principal) : V1Db → V1Db :=
  with_members (.∖ list_to_set (map (λ p, (gid, pr_id p)) principals)).

(** [_resolve] on the rows of a query *)
Definition resolve (rows : list Principal) (usernames service_account_client_ids : gset string) : result (list Principal) :=
  let found := if bool_decide (usernames = ∅) then []
               else List.filter (λ p, bool_decide (pr_type p = USER_PRINCIPAL) && bool_decide (pr_username p ∈ usernames)) rows in
  let found_sa := if bool_decide (service_account_client_ids = ∅) then []
                  else List.filter (λ p, bool_decide (pr_type p = SERVICE_ACCOUNT)
                         && match pr_service_account_id p with Some i => bool_decide (i ∈ service_account_client_ids) | None => false end) rows in
  let missing := set_iter (usernames ∖ list_to_set (map pr_username found))
                 ++ set_iter (service_account_client_ids ∖ list_to_set (omap pr_service_account_id found_sa)) in
  match missing with
  | [] => mret (found ++ found_sa)
  | _ => Raise (PrincipalNotFoundError missing)
  end.

(** The principals of the tenant, and those of them that are in the group. *)
Definition tenant_principals (tenant : Tenant) (vd : V1Db) : list Principal :=
  select (λ p, Z.eqb (pr_tenant p) (t_id tenant) && negb (pr_cross_account p)) (db_principals (v1_db vd)).
Definition member_principals (tenant : Tenant) (group : Group) (vd : V1Db) : list Principal :=
  List.filter (λ p, Z.eqb (pr_tenant p) (t_id tenant) && negb (pr_cross_account p)) (group_members (g_id group) vd).

(** [add_principals] *)
Definition add_principals (tenant : Tenant) (group : Group) (usernames service_account_client_ids : gset string) (vd : V1Db) :
    result (V1Db * list ReplicationEvent * list Principal) :=
  _ ← check_not_protected group PROTECTED_FLAGS_FOR_UPDATE "modified";
  principals ← resolve (tenant_principals tenant vd) usernames service_account_client_ids;
  let new_principals := List.filter (λ p, negb (bool_decide ((g_id group, pr_id p) ∈ v1_members vd))) principals in
  match new_principals with
  | [] => mret (vd, [], [])
  | _ =>
      let vd1 := add_members (g_id group) new_principals vd in
      handler ← group_handler_init group ADD_PRINCIPALS_TO_GROUP vd1;
      events ← replicate_new_principals handler new_principals vd1;
      mret (vd1, events, new_principals)
  end.

(** The end of [remove_principals] and [remove_principal]. *)
Definition remove_and_replicate (group : Group) (principals : list Principal) (vd : V1Db) : result (V1Db * list ReplicationEvent) :=
  let vd1 := remove_members (g_id group) principals vd in
  handler ← group_handler_init group REMOVE_PRINCIPALS_FROM_GROUP vd1;
  events ← replicate_removed_principals handler principals vd1;
  mret (vd1, events).

(** [remove_principals] *)
Definition remove_principals (tenant : Tenant) (group : Group) (usernames service_account_client_ids : gset string) (vd : V1Db) :
    result (V1Db * list ReplicationEvent * list Principal) :=
  _ ← check_not_protected group PROTECTED_FLAGS_FOR_UPDATE "modified";
  principals ← resolve (member_principals tenant group vd) usernames service_account_client_ids;
  '(vd1, events) ← remove_and_replicate group principals vd;
  mret (vd1, events, principals).

(** [remove_principal]: text that is no UUID is not found either. *)
Definition remove_principal (tenant : Tenant) (group : Group) (principal_uuid : string) (vd : V1Db) :
    result (V1Db * list ReplicationEvent * Principal) :=
  _ ← check_not_protected group PROTECTED_FLAGS_FOR_UPDATE "modified";
  principal ← or_raise (PrincipalNotFoundError [principal_uuid])
    (u ← uuid_canon principal_uuid;
     head (List.filter (λ p, String.eqb (pr_uuid p) u) (member_principals tenant group vd)));
  '(vd1, events) ← remove_and_replicate group [principal] vd;
  mret (vd1, events, principal).

(** [delete] *)
Definition delete_group_v2 (group : Group) (vd : V1Db) : result (V1Db * list ReplicationEvent) :=
  _ ← check_not_protected group PROTECTED_FLAGS_FOR_DELETE "deleted";
  let count := (group_entry_count (g_id group) (v1_db vd) + legacy_role_count (g_id group) vd)%nat in
  _ ← raise_if (negb (Nat.eqb count 0)) (GroupHasRoleBindingsError count);
  let principals := group_members (g_id group) vd in
  handler ← group_handler_init group DELETE_GROUP vd;
  vd1 ← match delete_group (g_id group) vd with
        | Raise (ProtectedError n) => Raise (GroupHasRoleBindingsError n)
        | r => r
        end;
  events ← replicate_removed_principals handler principals vd1;
  mret (vd1, events).

(* ------------------------------------------------------------------ *)
(** * Removing members through the V1 API *)

(** [protect_special_groups] and [protect_group_with_user_access_admin_role] *)
Definition protect_special_groups (group : Group) (additional : list (Group → bool)) : result unit :=
  raise_if (existsb (λ flag : Group → bool, flag group) (g_system :: additional)) (SerializerValidationError "group").
Definition protect_group_with_user_access_admin_role (roles : list V1Role) (source_key : string) (vd : V1Db) : result unit :=
  allowed ← mapM (λ role, may_add_role (Some false) role vd) roles;
  raise_if (negb (forallb id allowed)) (SerializerValidationError source_key).

(** [Tenant.objects.get(org_id=...)] *)
Definition tenant_by_org (org : string) (vd : V1Db) : result Tenant :=
  match select (λ t, bool_decide (org_id t = Some org)) (db_tenants (v1_db vd)) with
  | [t] => mret t
  | [] => Raise (DoesNotExist "Tenant")
  | _ => Raise (MultipleObjectsReturned "Tenant")
  end.

(** [remove_service_accounts] *)
Definition remove_service_accounts (group : Group) (service_accounts : list string) (org : string) (vd : V1Db) :
    result (V1Db * list Principal) :=
  tenant ← tenant_by_org org vd;
  let valid := List.filter (λ p, Z.eqb (pr_tenant p) (t_id tenant) && bool_decide (pr_type p = SERVICE_ACCOUNT)
                 && match pr_service_account_id p with Some i => bool_decide (i ∈ service_accounts) | None => false end)
                 (group_members (g_id group) vd) in
  _ ← raise_if (negb (bool_decide ((list_to_set service_accounts : gset string) ∖ list_to_set (omap pr_service_account_id valid) = ∅))) Http404;
  mret (remove_members (g_id group) valid vd, valid).

(** [remove_users]: the error response, or the principals removed. *)
Definition remove_users (group : Group) (principals : list string) (org : string) (vd : V1Db) :
    result (option (V1Db * list Principal)) :=
  tenant ← tenant_by_org org vd;
  let valid := List.filter (λ p, Z.eqb (pr_tenant p) (t_id tenant) && bool_decide (pr_type p = USER_PRINCIPAL)
                 && bool_decide (pr_username p ∈ principals)) (group_members (g_id group) vd) in
  if bool_decide ((list_to_set principals : gset string) ∖ list_to_set (map pr_username valid) = ∅)
  then mret (Some (remove_members (g_id group) valid vd, valid)) else mret None.

(** The response of [_remove_principal_from_group]. *)
Inductive Response := HTTP_204_NO_CONTENT | HTTP_404_NOT_FOUND.

(** [_remove_principal_from_group]: the parameters are None when the query has none.  A
    response that is returned ends the transaction without rolling it back. *)
Definition names_of (param : string) : list string := map strip (split_on "," param).
Definition remove_principal_from_group (admin : bool) (org : string) (group : Group) (service_accounts usernames : option string)
    (vd : V1Db) : result (V1Db * list ReplicationEvent * Response) :=
  _ ← protect_special_groups group [platform_default];
  _ ← if admin then mret tt else protect_group_with_user_access_admin_role (group_roles group vd) "remove_principals" vd;
  _ ← raise_if (bool_decide (service_accounts = None) && bool_decide (usernames = None)) (SerializerValidationError "detail");
  '(vd1, service_accounts_to_remove) ← match service_accounts with
    | Some param => remove_service_accounts group (names_of param) org vd
    | None => mret (vd, [])
    end;
  resp ← match usernames with
         | Some param => remove_users group (names_of param) org vd1
         | None => mret (Some (vd1, []))
         end;
  match resp with
  | None => mret (vd1, [], HTTP_404_NOT_FOUND)
  | Some (vd2, users_to_remove) =>
      handler ← group_handler_init group REMOVE_PRINCIPALS_FROM_GROUP vd2;
      events ← replicate_removed_principals handler (users_to_remove ++ service_accounts_to_remove) vd2;
      mret (vd2, events, HTTP_204_NO_CONTENT)
  end.
End service.
