(* ===== verification/GroupMembers.v ===== *)
(** Memberships and groups: adding and removing members, and writing and deleting
    groups, keep the relations store equal to the graph of the rows. *)

From S2P Require Import Prelude.
From S2P Require Import PyString.
From S2P Require Import Config.
From S2P Require Import RelationTypes.
From S2P Require Import TupleStore.
From S2P Require Import Outbox.
From S2P Require Import Tenants.
From S2P Require Import Db.
From S2P Require Import BindingGraph.
From S2P Require Import RoleBindingService.
From S2P Require Import RoleV2Service.
From S2P Require Import BindingMapping.
From S2P Require Import V1State.
From S2P Require Import Workspaces.
From S2P Require Import RoleMigration.
From S2P Require Import RoleMigrationGraph.
From S2P Require Import RoleRequests.
From S2P Require Import SubjectHandler.
From S2P Require Import SubjectRuns.
From S2P Require Import GroupHandler.
From S2P Require Import GroupRequests.
From S2P Require Import GroupService.

Section members.
Context `{Settings} `{PySetOrder} `{RowOrder}.
Implicit Types (vd : V1Db) (group : Group) (ps : list Principal).

(* ------------------------------------------------------------------ *)
(** * The tuples of members *)

Lemma t_member_inj g u h v : t_member g u = t_member h v → g = h ∧ u = v.
Proof. intros [= -> E]. by apply principal_resource_id_inj in E. Qed.

(** The tuples of a list of principals in a group. *)
Definition of_group group ps (t : RelationTuple) : Prop :=
  ∃ p u, p ∈ ps ∧ user_id p = Some u ∧ t = t_member (g_uuid group) u.

Lemma generate_member_relations_Ok group ps l :
  generate_member_relations group ps = Ok l →
  Forall (λ t, rbac_tuple t = true) l ∧ ∀ t, t ∈ l ↔ of_group group ps t.
Proof.
  unfold generate_member_relations. intros (os & Hos%mapM_result_Ok & [= <-])%bind_Ok.
  assert (∀ p o, relationship_to_principal group p = Ok o →
    (∀ t, o = Some t ↔ ∃ u, user_id p = Some u ∧ t = t_member (g_uuid group) u) ∧ (∀ t, o = Some t → rbac_tuple t = true)) as Hone.
  { intros p o. unfold relationship_to_principal. destruct (user_id p) as [u|]; [|intros [= <-]; split; [intros t; split; [done|by intros (u & ? & _)]|done]].
    intros (t & [-> Ht]%create_relationship_spec & [= <-])%bind_Ok. split; intros t.
    - split; [intros [= <-]; by exists u|by intros (v & [= <-] & ->)].
    - intros [= <-]. unfold rbac_tuple. by rewrite Ht. }
  assert (∀ t, t ∈ omap id os ↔ Some t ∈ os) as Ho.
  { intros t. rewrite list_elem_of_omap. unfold id. split; [by intros (o & Hin & ->)|by exists (Some t)]. }
  split; [rewrite Forall_forall|]; intros t; rewrite Ho.
  - intros (p & _ & Hp)%(Forall2_elem_r _ _ _ _ Hos). by apply (Hone _ _ Hp).
  - split.
    + intros (p & Hin & Hp)%(Forall2_elem_r _ _ _ _ Hos). destruct (proj1 (proj1 (Hone _ _ Hp) t) eq_refl) as (u & Hu & ->). by exists p, u.
    + intros (p & u & Hin & Hu & ->). destruct (Forall2_elem_l _ _ _ _ Hos Hin) as (o & Ho' & Hp).
      by rewrite <- (proj2 (proj1 (Hone _ _ Hp) _) (ex_intro _ u (conj Hu eq_refl))).
Qed.

Lemma member_not_rest vd g u : (t_member g u ∉ parents_graph (v1_db vd)) ∧ t_member g u ∉ v1_graph vd.
Proof.
  unfold v1_graph. rewrite elem_of_parents_graph, elem_of_union, elem_of_mappings_graph, elem_of_owners_graph. split.
  - by intros (w & p & _ & E).
  - intros [(pk & m & _ & Ht)|(i & r & _ & _ & Ht)].
    + by apply elem_of_mapping_tuples in Ht as [E|[(q & _ & E)|[E|[(x & _ & E)|(x & _ & E)]]]].
    + apply elem_of_owner_tuples in Ht as (tn & x & _ & _ & E). discriminate E.
Qed.

(** Rows that differ in memberships and groups only. *)
Definition only_members vd vd' : Prop :=
  ∃ f g q, vd' = with_members f (with_policies q (with_db (put_groups g) vd)).

(** Changing the memberships as the event says. *)
Lemma members_replay vd vd' add rem es :
  only_members vd vd' → (∀ t, t ∈ members_graph vd' ↔ t ∈ add ∨ t ∈ members_graph vd ∧ t ∉ rem) →
  (∀ t, t ∈ rem → ∃ g u, t = t_member g u) →
  (∀ G, replay G es = Ok (list_to_set add ∪ (G ∖ list_to_set rem))) → replay (rows_graph vd) es = Ok (rows_graph vd').
Proof.
  intros (f & g & q & E) Hm Hrem Hr. rewrite Hr. f_equal. apply set_eq. intros t. unfold rows_graph.
  rewrite !elem_of_union, elem_of_difference, !elem_of_union, !elem_of_list_to_set, Hm.
  assert (parents_graph (v1_db vd') = parents_graph (v1_db vd) ∧ v1_graph vd' = v1_graph vd) as [-> ->] by by rewrite E.
  assert (t ∈ rem → (t ∉ parents_graph (v1_db vd)) ∧ t ∉ v1_graph vd) as Hn.
  { intros (g' & u & ->)%Hrem. apply member_not_rest. }
  destruct (decide (t ∈ rem)); tauto.
Qed.

Lemma elem_of_group_members vd gid p :
  user_keys (v1_db vd) → p ∈ group_members gid vd ↔ (gid, pr_id p) ∈ v1_members vd ∧ db_principals (v1_db vd) !! pr_id p = Some p.
Proof.
  intros [Hk _]. unfold group_members. rewrite elem_of_select, bool_decide_eq_true. split.
  - intros [Hin [k Hp]]. by rewrite (Hk _ _ Hp) in *.
  - intros [Hin Hp]. eauto.
Qed.

Definition are_rows vd ps : Prop := ∀ p, p ∈ ps → db_principals (v1_db vd) !! pr_id p = Some p.

Lemma added_members vd group ps t :
  db_groups (v1_db vd) !! g_id group = Some group → are_rows vd ps →
  t ∈ members_graph (add_members (g_id group) ps vd) ↔ of_group group ps t ∨ t ∈ members_graph vd.
Proof.
  intros Hg Hps. rewrite !elem_of_members_graph. cbn. setoid_rewrite elem_of_union. setoid_rewrite elem_of_list_to_set.
  setoid_rewrite list_elem_of_fmap. split.
  - intros (gid & pid & g & p & u & [(p' & [= -> ->] & Hin)|Hin] & Hg' & Hp & Hu & ->); [left|right; by exists gid, pid, g, p, u].
    rewrite Hg in Hg'. injection Hg' as <-. rewrite (Hps _ Hin) in Hp. injection Hp as <-. by exists p', u.
  - intros [(p & u & Hin & Hu & ->)|(gid & pid & g & p & u & Hin & Hg' & Hp & Hu & ->)].
    + exists (g_id group), (pr_id p), group, p, u. split_and!; try done; [|by apply Hps]. left. by exists p.
    + exists gid, pid, g, p, u. auto.
Qed.

Lemma removed_members vd group ps t :
  v1_ok vd → db_groups (v1_db vd) !! g_id group = Some group → are_rows vd ps →
  t ∈ members_graph (remove_members (g_id group) ps vd) ↔ t ∈ members_graph vd ∧ ¬ of_group group ps t.
Proof.
  intros Hok Hg Hps. rewrite !elem_of_members_graph. cbn. setoid_rewrite elem_of_difference. setoid_rewrite elem_of_list_to_set.
  setoid_rewrite list_elem_of_fmap. split.
  - intros (gid & pid & g & p & u & [Hin Hn] & Hg' & Hp & Hu & ->). split; [by exists gid, pid, g, p, u|].
    intros (p' & u' & Hin' & Hu' & [E <-]%t_member_inj). apply Hn. exists p'. split; [|done]. f_equal.
    + by apply (proj2 (vo_groups _ Hok) _ _ _ _ Hg' Hg).
    + by apply (proj2 (vo_users _ Hok) _ _ _ _ u Hp (Hps _ Hin')).
  - intros [(gid & pid & g & p & u & Hin & Hg' & Hp & Hu & ->) Hn]. exists gid, pid, g, p, u. split_and!; try done.
    intros (p' & [= -> ->] & Hin'). apply Hn. rewrite Hg in Hg'. injection Hg' as <-. rewrite (Hps _ Hin') in Hp.
    injection Hp as <-. by exists p', u.
Qed.

(* ------------------------------------------------------------------ *)
(** * Requests that change members *)

Lemma with_members_inv f vd : v1_inv vd → v1_inv (with_members f vd).
Proof. intros [[A B C D E F G U V I Gk Uk P K] Ha]. split; [|done]. split; try done. by destruct A. Qed.

(** A change of memberships and the events that say so. *)
Lemma members_steps vd f add rem es :
  v1_inv vd → (∀ t, t ∈ members_graph (with_members f vd) ↔ t ∈ add ∨ t ∈ members_graph vd ∧ t ∉ rem) →
  (∀ t, t ∈ rem → ∃ g u, t = t_member g u) →
  (∀ G, replay G es = Ok (list_to_set add ∪ (G ∖ list_to_set rem))) → steps vd es (with_members f vd).
Proof.
  intros Hi Hm Hrem Hr. split; [|done]. split; [by apply with_members_inv|].
  apply (members_replay _ _ add rem); try done. exists f, id, id. by destruct vd as [[] ? ? ? ? ?].
Qed.

Lemma replicate_new_Ok h ps vd es :
  REPLICATION_TO_RELATION_ENABLED = true → replicate_new_principals (Some h) ps vd = Ok es →
  ∃ add, (∀ t, t ∈ add ↔ of_group (gh_group h) ps t) ∧ ∀ G, replay G es = Ok (list_to_set add ∪ (G ∖ list_to_set [])).
Proof.
  intros He (add & [Hv Hadd]%generate_member_relations_Ok & Hr)%bind_Ok. exists add. split; [done|]. by apply (gh_replicate_effect _ _ _ He Hr).
Qed.

Lemma replicate_removed_Ok h ps vd es :
  REPLICATION_TO_RELATION_ENABLED = true → replicate_removed_principals (Some h) ps vd = Ok es →
  ∃ rem, (∀ t, t ∈ rem ↔ of_group (gh_group h) ps t) ∧ ∀ G, replay G es = Ok (list_to_set [] ∪ (G ∖ list_to_set rem)).
Proof.
  intros He (rem & [_ Hrem]%generate_member_relations_Ok & Hr)%bind_Ok. exists rem. split; [done|]. by apply (gh_replicate_effect _ _ _ He Hr).
Qed.

Lemma remove_members_steps group ps vd h es :
  REPLICATION_TO_RELATION_ENABLED = true → v1_inv vd → db_groups (v1_db vd) !! g_id group = Some group → are_rows vd ps →
  gh_group h = group → replicate_removed_principals (Some h) ps (remove_members (g_id group) ps vd) = Ok es →
  steps vd es (remove_members (g_id group) ps vd).
Proof.
  intros He Hi Hg Hps Hh Hr. destruct (replicate_removed_Ok _ _ _ _ He Hr) as (rem & Hrem & HG). rewrite Hh in Hrem.
  apply (members_steps _ _ [] rem); try done.
  - intros t. change (with_members _ vd) with (remove_members (g_id group) ps vd).
    rewrite (removed_members _ _ _ _ (proj1 Hi) Hg Hps), Hrem, elem_of_nil. tauto.
  - intros t (p & u & _ & _ & ->)%Hrem. eauto.
Qed.

Lemma remove_and_replicate_steps group ps vd vd' es :
  REPLICATION_TO_RELATION_ENABLED = true → v1_inv vd → db_groups (v1_db vd) !! g_id group = Some group → are_rows vd ps →
  remove_and_replicate group ps vd = Ok (vd', es) → steps vd es vd'.
Proof.
  intros He Hi Hg Hps. unfold remove_and_replicate. intros (o & (h & -> & Hh)%group_handler_init_Ok & Hr)%bind_Ok; [|done].
  apply bind_Ok in Hr as (es' & Hr & [= <- <-]). by apply (remove_members_steps _ _ _ h).
Qed.

Lemma list_filter_sub {A} (f : A → bool) l : List.filter f l ⊆ l.
Proof. intros x. rewrite !list_elem_of_In, filter_In. tauto. Qed.

Lemma resolve_sub rows us sas ps : resolve rows us sas = Ok ps → ps ⊆ rows.
Proof.
  assert (∀ (b : bool) (f : Principal → bool), (if b then [] else List.filter f rows) ⊆ rows) as Hsub.
  { intros [] f; [set_solver|apply list_filter_sub]. }
  unfold resolve. destruct (_ ++ _) eqn:Em; [|done]. intros [= <-] p. rewrite elem_of_app. by intros [Hin%Hsub|Hin%Hsub].
Qed.

Lemma group_members_rows vd gid : v1_ok vd → are_rows vd (group_members gid vd).
Proof. intros Hok p [_ Hp]%elem_of_group_members; [done|apply Hok]. Qed.
Lemma are_rows_sub vd ps qs : are_rows vd qs → ps ⊆ qs → are_rows vd ps.
Proof. intros Hq Hs p Hp%Hs. by apply Hq. Qed.

Lemma remove_principals_steps tenant group us sas vd vd' es ps :
  REPLICATION_TO_RELATION_ENABLED = true → v1_inv vd → db_groups (v1_db vd) !! g_id group = Some group →
  remove_principals tenant group us sas vd = Ok (vd', es, ps) → steps vd es vd'.
Proof.
  intros He Hi Hg. unfold remove_principals. intros (u & _ & Hr)%bind_Ok. apply bind_Ok in Hr as (ps' & Hps%resolve_sub & Hr).
  apply bind_Ok in Hr as ([vd1 es1] & Hr & [= <- <- <-]). apply (remove_and_replicate_steps group ps'); try done.
  eapply are_rows_sub; [apply (group_members_rows _ (g_id group)), Hi|]. etrans; [exact Hps|apply list_filter_sub].
Qed.

Lemma remove_principal_steps tenant group uuid vd vd' es p :
  REPLICATION_TO_RELATION_ENABLED = true → v1_inv vd → db_groups (v1_db vd) !! g_id group = Some group →
  remove_principal tenant group uuid vd = Ok (vd', es, p) → steps vd es vd'.
Proof.
  intros He Hi Hg. unfold remove_principal. intros (u & _ & Hr)%bind_Ok. apply bind_Ok in Hr as (p' & Hp%or_raise_Ok & Hr).
  apply bind_Ok in Hr as ([vd1 es1] & Hr & [= <- <- <-]). apply (remove_and_replicate_steps group [p']); try done.
  destruct (PyUuid.uuid_canon uuid) as [c|]; [|done]. cbn in Hp.
  eapply are_rows_sub; [apply (group_members_rows _ (g_id group)), Hi|].
  intros q ->%list_elem_of_singleton. apply head_Some_elem_of in Hp. by apply list_filter_sub, list_filter_sub in Hp.
Qed.

Lemma add_principals_steps tenant group us sas vd vd' es ps :
  REPLICATION_TO_RELATION_ENABLED = true → v1_inv vd → db_groups (v1_db vd) !! g_id group = Some group →
  add_principals tenant group us sas vd = Ok (vd', es, ps) → steps vd es vd'.
Proof.
  intros He Hi Hg. unfold add_principals. intros (u & _ & Hr)%bind_Ok. apply bind_Ok in Hr as (ps' & Hps%resolve_sub & Hr).
  set (new := List.filter _ ps') in Hr. assert (are_rows vd new) as Hrows.
  { intros p Hp%list_filter_sub%Hps. apply elem_of_select in Hp as [_ [k Hk]]. by rewrite (proj1 (vo_users _ (proj1 Hi)) _ _ Hk). }
  destruct new as [|p0 new0] eqn:En; [injection Hr as <- <- <-; done|]. rewrite <- En in *. clear En p0 new0.
  apply bind_Ok in Hr as (o & (h & -> & Hh)%group_handler_init_Ok & Hr); [|done].
  apply bind_Ok in Hr as (es' & Hr & [= <- <- <-]). destruct (replicate_new_Ok _ _ _ _ He Hr) as (add & Hadd & HG). rewrite Hh in Hadd.
  apply (members_steps _ _ add []); try done; [|by intros t ?%elem_of_nil].
  intros t. change (with_members _ vd) with (add_members (g_id group) new vd). rewrite (added_members _ _ _ _ Hg Hrows), Hadd, elem_of_nil. tauto.
Qed.

(** ** Through the V1 API *)

Lemma remove_members_app gid ps qs vd : remove_members gid ps (remove_members gid qs vd) = remove_members gid (ps ++ qs) vd.
Proof.
  unfold remove_members, with_members. cbn. f_equal. apply set_eq. intros x.
  rewrite !elem_of_difference, !elem_of_list_to_set, map_app, elem_of_app. tauto.
Qed.

Lemma remove_service_accounts_Ok group sas org vd vd' ps :
  remove_service_accounts group sas org vd = Ok (vd', ps) → vd' = remove_members (g_id group) ps vd ∧ ps ⊆ group_members (g_id group) vd.
Proof.
  unfold remove_service_accounts. intros (t & _ & Hr)%bind_Ok. apply bind_Ok in Hr as (u & _ & [= <- <-]). split; [done|apply list_filter_sub].
Qed.

Lemma remove_users_Ok group us org vd vd' ps :
  remove_users group us org vd = Ok (Some (vd', ps)) → vd' = remove_members (g_id group) ps vd ∧ ps ⊆ group_members (g_id group) vd.
Proof.
  unfold remove_users. intros (t & _ & Hr)%bind_Ok. case_bool_decide; [|done]. injection Hr as <- <-. split; [done|apply list_filter_sub].
Qed.

(** What a request did: the service accounts it removed, and the users. *)
Lemma remove_from_group_run admin org group sas us vd vd' es r :
  REPLICATION_TO_RELATION_ENABLED = true → v1_inv vd → db_groups (v1_db vd) !! g_id group = Some group →
  remove_principal_from_group admin org group sas us vd = Ok (vd', es, r) →
  match r with
  | HTTP_204_NO_CONTENT => steps vd es vd'
  | HTTP_404_NOT_FOUND => es = [] ∧ ∃ ps, ps ⊆ group_members (g_id group) vd ∧ (sas = None → ps = []) ∧ vd' = remove_members (g_id group) ps vd
  end.
Proof.
  intros He Hi Hg. unfold remove_principal_from_group. intros (u & _ & Hr)%bind_Ok. apply bind_Ok in Hr as (u' & _ & Hr).
  apply bind_Ok in Hr as (u'' & _ & Hr). apply bind_Ok in Hr as ([vd1 ps1] & Hsa & Hr).
  assert (vd1 = remove_members (g_id group) ps1 vd ∧ ps1 ⊆ group_members (g_id group) vd ∧ (sas = None → ps1 = [])) as (E1 & Hs1 & Hnone).
  { destruct sas as [param|].
    - by apply remove_service_accounts_Ok in Hsa as [-> Hs].
    - injection Hsa as <- <-. split_and!; [|by intros p ?%elem_of_nil|done]. unfold remove_members, with_members. cbn.
      rewrite difference_empty_L. by destruct vd. }
  apply bind_Ok in Hr as (resp & Hus & Hr). destruct resp as [[vd2 ps2]|]; [|injection Hr as <- <- <-; split; [done|by exists ps1]].
  assert (vd2 = remove_members (g_id group) ps2 vd1 ∧ are_rows vd ps2) as (E2 & Hrows2).
  { destruct us as [param|].
    - apply remove_users_Ok in Hus as [-> Hs]. split; [done|]. subst vd1. intros p [_ Hp]%Hs%elem_of_group_members; [done|apply Hi].
    - injection Hus as <- <-. split; [|by intros p ?%elem_of_nil]. unfold remove_members, with_members. cbn.
      rewrite difference_empty_L. by destruct vd1. }
  apply bind_Ok in Hr as (o & (h & -> & Hh)%group_handler_init_Ok & Hr); [|done]. apply bind_Ok in Hr as (es' & Hr & [= <- <- <-]).
  rewrite E2, E1, remove_members_app in Hr |- *. apply (remove_members_steps _ _ _ h); try done.
  intros p. rewrite elem_of_app. intros [?|?]; [auto|]. by apply (group_members_rows _ (g_id group)), Hs1; [apply Hi|].
Qed.

(** Removing members without an event leaves their tuples behind. *)
Lemma removed_members_drift group ps vd :
  v1_ok vd → db_groups (v1_db vd) !! g_id group = Some group → ps ⊆ group_members (g_id group) vd →
  rows_graph (remove_members (g_id group) ps vd) = rows_graph vd ↔ ∀ p, p ∈ ps → user_id p = None.
Proof.
  intros Hok Hg Hsub. assert (are_rows vd ps) as Hps by (eapply are_rows_sub; [by apply group_members_rows|done]). split.
  - intros E p Hp. destruct (user_id p) as [u|] eqn:Hu; [|done]. exfalso.
    assert (t_member (g_uuid group) u ∈ rows_graph vd) as Hin.
    { unfold rows_graph. apply elem_of_union. right. apply elem_of_members_graph. exists (g_id group), (pr_id p), group, p, u.
      apply Hsub, elem_of_group_members in Hp as [? ?]; [done|apply Hok]. }
    rewrite <- E in Hin. unfold rows_graph in Hin. rewrite !elem_of_union, (removed_members _ _ _ _ Hok Hg Hps) in Hin.
    destruct (member_not_rest (remove_members (g_id group) ps vd) (g_uuid group) u) as [? ?].
    destruct Hin as [[?|?]|[_ Hn]]; try done. apply Hn. by exists p, u.
  - intros Hn. unfold rows_graph. f_equal. apply set_eq. intros t. rewrite (removed_members _ _ _ _ Hok Hg Hps).
    split; [tauto|]. intros Ht. split; [done|]. intros (p & u & Hp & Hu & _). specialize (Hn p Hp). congruence.
Qed.

(* ------------------------------------------------------------------ *)
(** * Writing and deleting groups *)

Lemma put_groups_inv f vd : group_keys (put_groups f (v1_db vd)) → v1_inv vd → v1_inv (with_db (put_groups f) vd).
Proof. intros Hk [[A B C D E F G U V I Gk Uk P K] Ha]. split; [|done]. split; try done. by destruct A. Qed.

Lemma put_principals_inv f vd : user_keys (put_principals f (v1_db vd)) → v1_inv vd → v1_inv (with_db (put_principals f) vd).
Proof. intros Hk [[A B C D E F G U V I Gk Uk P K] Ha]. split; [|done]. split; try done. by destruct A. Qed.

(** A key and a UUID that no row has. *)
Record fresh_group (key : Z) (uuid : string) vd : Prop := {
  fgr_key : db_groups (v1_db vd) !! key = None;
  fgr_entries i : (i, key) ∉ db_group_entries (v1_db vd);
  fgr_policies k p : v1_policies vd !! k = Some p → po_group p ≠ Some key;
  fgr_members i : (key, i) ∉ v1_members vd;
  fgr_mappings pk m : v1_bm vd !! pk = Some m → uuid ∉ bm_groups m;
}.

(** What [save_group] checks. *)
Lemma save_group_Ok g vd vd' :
  save_group g vd = Ok vd' → vd' = with_db (put_groups (<[g_id g := g]>)) vd
  ∧ ∀ i h, db_groups (v1_db vd) !! i = Some h → g_id h ≠ g_id g → g_uuid h ≠ g_uuid g ∧ (g_name h = g_name g → g_tenant h ≠ g_tenant g).
Proof.
  unfold save_group. intros (u & Hu%raise_if_Ok & Hr)%bind_Ok. apply bind_Ok in Hr as (u' & Hn%raise_if_Ok & [= <-]). split; [done|].
  intros i h Hh Hne. set (others := List.filter _ _) in *.
  assert (h ∈ others) as Hin.
  { unfold others. rewrite list_elem_of_In, filter_In, <- list_elem_of_In, list_elem_of_fmap. split; [|by apply negb_true_iff, Z.eqb_neq].
    exists (i, h). by rewrite elem_of_map_to_list. }
  rewrite existsb_false in Hu, Hn. specialize (Hu h Hin). specialize (Hn h Hin). cbn in Hu, Hn.
  split; [by apply String.eqb_neq|]. intros E. rewrite E, String.eqb_refl in Hn. by apply Z.eqb_neq.
Qed.

Lemma save_group_keys g vd vd' :
  save_group g vd = Ok vd' → group_keys (v1_db vd) → group_keys (v1_db vd').
Proof.
  intros [-> Ho]%save_group_Ok [Hk Hu]. split; cbn.
  - intros i h [[<- <-]|[_ Hh]]%lookup_insert_Some; [done|by apply Hk].
  - intros i j h h' [[<- <-]|[Hne Hh]]%lookup_insert_Some [[<- <-]|[Hne' Hh']]%lookup_insert_Some E; [done|..].
    + destruct (Ho _ _ Hh') as [Hn _]; [|congruence]. by rewrite (Hk _ _ Hh').
    + destruct (Ho _ _ Hh) as [Hn _]; [|congruence]. by rewrite (Hk _ _ Hh).
    + by eapply Hu.
Qed.

Lemma name_violation_Ok {A} name (r : result A) a : name_violation name r = Ok a → r = Ok a.
Proof. destruct r as [|[]]; cbn; try done. Qed.

Lemma put_groups_graph f vd :
  members_graph (with_db (put_groups f) vd) = members_graph vd → rows_graph (with_db (put_groups f) vd) = rows_graph vd.
Proof. intros E. unfold rows_graph. by rewrite E. Qed.

Lemma create_group_steps key uuid name description tenant vd vd' g :
  v1_inv vd → fresh_group key uuid vd → create_group key uuid name description tenant vd = Ok (vd', g) →
  steps vd [] vd' ∧ db_groups (v1_db vd') !! key = Some g ∧ g_uuid g = uuid ∧ g_name g = name ∧ g_tenant g = t_id tenant.
Proof.
  intros Hi [Hk He Hp Hme Hma] (vd1 & Hs%name_violation_Ok & [= <- <-])%bind_Ok.
  pose proof (save_group_keys _ _ _ Hs (vo_groups _ (proj1 Hi))) as Hgk. apply save_group_Ok in Hs as [-> _]. cbn in Hgk |- *.
  split; [|by rewrite lookup_insert_eq]. set (g := mkGroup _ _ _ _ _ _ _ _) in *.
  assert (∀ gid grp, <[key:=g]> (db_groups (v1_db vd)) !! gid = Some grp → gid = key ∧ grp = g ∨ gid ≠ key ∧ db_groups (v1_db vd) !! gid = Some grp) as Hl.
  { intros gid grp [[<- <-]|[Hne Hg]]%lookup_insert_Some; auto. }
  split_and!; [split; [by apply put_groups_inv|]|..].
  - unfold replay. cbn. f_equal. symmetry. apply put_groups_graph, set_eq. intros t. rewrite !elem_of_members_graph. cbn. split.
    + intros (gid & pid & grp & p & u & Hin & [[-> _]|[_ Hg]]%Hl & Hr); [by destruct (Hme pid)|by exists gid, pid, grp, p, u].
    + intros (gid & pid & grp & p & u & Hin & Hg & Hr). exists gid, pid, grp, p, u. rewrite lookup_insert_ne by congruence. done.
  - intros Hst pk m i b Hm Hb Eu gid. cbn in *. rewrite (Hst pk m i b Hm Hb Eu gid). split.
    + intros (grp & Hg & Hin). exists grp. by rewrite lookup_insert_ne by congruence.
    + intros (grp & [[-> ->]|[_ Hg]]%Hl & Hin); [by destruct (Hma _ _ Hm)|by exists grp].
  - intros Ha pk m role Hm Hro Hsy. cbn in *. destruct (Ha pk m role Hm Hro Hsy) as [Hn Hu]. split; [done|]. intros u. rewrite Hu. split.
    + intros (gid & grp & Hpg & Hg & <-). exists gid, grp. by rewrite lookup_insert_ne by congruence.
    + intros (gid & grp & (k & p & Hpk & Hrp & Eg) & [[-> ->]|[_ Hg]]%Hl & <-); [by destruct (Hp _ _ Hpk)|exists gid, grp; split; [by exists k, p|done]].
Qed.

(** Groups that keep their UUIDs. *)
Lemma same_uuids_steps f vd :
  v1_inv vd → group_keys (put_groups f (v1_db vd)) →
  (∀ gid, g_uuid <$> f (db_groups (v1_db vd)) !! gid = g_uuid <$> db_groups (v1_db vd) !! gid) → steps vd [] (with_db (put_groups f) vd).
Proof.
  intros Hi Hk E.
  assert (∀ gid grp, f (db_groups (v1_db vd)) !! gid = Some grp → ∃ grp', db_groups (v1_db vd) !! gid = Some grp' ∧ g_uuid grp' = g_uuid grp) as Hold.
  { intros gid grp Hg. specialize (E gid). rewrite Hg in E. symmetry in E. apply fmap_Some in E as (grp' & ? & ?). by exists grp'. }
  assert (∀ gid grp, db_groups (v1_db vd) !! gid = Some grp → ∃ grp', f (db_groups (v1_db vd)) !! gid = Some grp' ∧ g_uuid grp' = g_uuid grp) as Hnew.
  { intros gid grp Hg. specialize (E gid). rewrite Hg in E. apply fmap_Some in E as (grp' & ? & ?). by exists grp'. }
  split_and!; [split; [by apply put_groups_inv|]|..].
  - unfold replay. cbn. f_equal. symmetry. apply put_groups_graph, set_eq. intros t. rewrite !elem_of_members_graph. cbn.
    split; intros (gid & pid & grp & p & u & Hin & Hg & Hp & Hr & ->).
    + apply Hold in Hg as (grp' & Hg & <-). by exists gid, pid, grp', p, u.
    + apply Hnew in Hg as (grp' & Hg & <-). by exists gid, pid, grp', p, u.
  - intros Hst pk m i b Hm Hb Eu gid. cbn in *. rewrite (Hst pk m i b Hm Hb Eu gid). split; intros (grp & Hg & Hin).
    + apply Hnew in Hg as (grp' & Hg & E'). rewrite <- E' in Hin. eauto.
    + apply Hold in Hg as (grp' & Hg & E'). rewrite <- E' in Hin. eauto.
  - intros Ha pk m role Hm Hro Hsy. cbn in *. destruct (Ha pk m role Hm Hro Hsy) as [Hn Hw]. split; [done|]. intros u. rewrite Hw.
    split; intros (gid & grp & Hpg & Hg & <-).
    + apply Hnew in Hg as (grp' & Hg & <-). eauto.
    + apply Hold in Hg as (grp' & Hg & <-). eauto.
Qed.

Lemma update_group_steps group name description vd vd' g :
  v1_inv vd → db_groups (v1_db vd) !! g_id group = Some group → update_group group name description vd = Ok (vd', g) →
  steps vd [] vd' ∧ db_groups (v1_db vd') !! g_id group = Some g ∧ g_name g = name ∧ g_description g = description ∧ g_system group = false.
Proof.
  intros Hi Hg. unfold update_group. intros (u & Hp & Hr)%bind_Ok. apply bind_Ok in Hr as (vd1 & Hs%name_violation_Ok & [= <- <-]).
  pose proof (save_group_keys _ _ _ Hs (vo_groups _ (proj1 Hi))) as Hgk. apply save_group_Ok in Hs as [-> _]. cbn in Hgk, Hp |- *.
  split; [|rewrite lookup_insert_eq; destruct (g_system group); done]. apply same_uuids_steps; [done..|].
  intros gid. destruct (decide (gid = g_id group)) as [->|Hne]; [|by rewrite lookup_insert_ne]. by rewrite lookup_insert_eq, Hg.
Qed.

(** ** Deleting a group *)

Lemma delete_group_Ok gid vd vd' :
  delete_group gid vd = Ok vd' →
  vd' = with_members (filter (λ gp, fst gp ≠ gid)) (with_policies (filter (λ kp, po_group (snd kp) ≠ Some gid)) (with_db (put_groups (delete gid)) vd))
  ∧ ∀ i, (i, gid) ∉ db_group_entries (v1_db vd).
Proof.
  unfold delete_group. intros (u & Hn%raise_if_Ok%negb_false_iff%Nat.eqb_eq & [= <-])%bind_Ok. split; [done|].
  intros i Hi. unfold group_entry_count in Hn. apply size_empty_iff in Hn. assert ((i, gid) ∈ (∅ : gset (Z * Z))) as []%elem_of_empty.
  rewrite <- (leibniz_equiv _ _ Hn). by apply elem_of_filter.
Qed.

Lemma deleted_members gid q vd t :
  group_keys (v1_db vd) → user_keys (v1_db vd) →
  t ∈ members_graph (with_members (filter (λ gp, fst gp ≠ gid)) (with_policies q (with_db (put_groups (delete gid)) vd))) ↔
  t ∈ members_graph vd ∧ ∀ group, db_groups (v1_db vd) !! gid = Some group → ¬ of_group group (group_members gid vd) t.
Proof.
  intros [Hk Hu] Hus. rewrite !elem_of_members_graph. cbn. setoid_rewrite elem_of_filter. cbn. split.
  - intros (gid' & pid & g & p & u & [Hne Hin] & [_ Hg]%lookup_delete_Some & Hp & Hpu & ->). split; [by exists gid', pid, g, p, u|].
    intros group Hgr (p1 & v & Hq & _ & [E _]%t_member_inj). by apply Hne, (Hu _ _ _ _ Hg Hgr).
  - intros [(gid' & pid & g & p & u & Hin & Hg & Hp & Hpu & ->) Hn]. exists gid', pid, g, p, u.
    assert (gid' ≠ gid) as Hne.
    { intros ->. apply (Hn _ Hg). exists p, u. split; [|done]. apply elem_of_group_members; [done|]. by rewrite (proj1 Hus _ _ Hp). }
    by rewrite lookup_delete_ne.
Qed.

(** A group without roles leaves the other rows as they are. *)
Lemma deleted_group_kept gid vd vd' :
  v1_inv vd → delete_group gid vd = Ok vd' → v1_inv vd' ∧ (in_step vd → in_step vd')
  ∧ ((∀ rid, is_Some (v1_roles vd !! rid) → ¬ policy_group vd rid gid) → assigned vd → assigned vd').
Proof.
  intros Hi [-> Hent]%delete_group_Ok. split_and!.
  - apply with_members_inv, (only_policies_inv (with_db (put_groups (delete gid)) vd)); [by eexists|]. apply put_groups_inv; [|done].
    destruct (vo_groups _ (proj1 Hi)) as [Hk Hu]. split; cbn.
    + intros i g [_ Hg]%lookup_delete_Some. by apply Hk.
    + intros i j g h [_ Hg]%lookup_delete_Some [_ Hh]%lookup_delete_Some. by apply Hu.
  - intros Hst pk m i b Hm Hb Eu gid'. cbn in *. rewrite (Hst pk m i b Hm Hb Eu gid'). split; intros (grp & Hg & Hin).
    + exists grp. rewrite lookup_delete_ne; [done|]. intros <-. apply (Hent i), (Hst pk m i b Hm Hb Eu gid). by exists grp.
    + apply lookup_delete_Some in Hg as [_ Hg]. by exists grp.
  - intros Hno Ha pk m role Hm Hro Hsy. cbn in *. destruct (Ha pk m role Hm Hro Hsy) as [Hn Hw]. split; [done|]. intros u. rewrite Hw.
    assert (∀ gid', policy_group vd (bm_role m) gid' → gid' ≠ gid) as Hne by (intros gid' Hp ->; by apply (Hno (bm_role m))).
    split; intros (gid' & grp & Hpg & Hg & <-); exists gid', grp.
    + pose proof (Hne _ Hpg). rewrite lookup_delete_ne by done. split_and!; try done. destruct Hpg as (k & p & Hk & Hin & Eg).
      exists k, p. cbn. rewrite map_lookup_filter_Some. split_and!; try done. cbn. congruence.
    + apply lookup_delete_Some in Hg as [_ Hg]. split_and!; try done. destruct Hpg as (k & p & Hk & Hin & Eg). cbn in Hk.
      apply map_lookup_filter_Some in Hk as [Hk _]. by exists k, p.
Qed.

Lemma no_legacy_roles gid vd rid : legacy_role_count gid vd = 0%nat → is_Some (v1_roles vd !! rid) → ¬ policy_group vd rid gid.
Proof.
  unfold legacy_role_count. intros Hc Hr (k & p & Hp & Hin & Hg).
  assert (size (po_roles p ∩ dom (v1_roles vd)) ≤ 0)%nat as Hs.
  { rewrite <- Hc. apply (sum_list_with_in p (λ p, size (po_roles p ∩ dom (v1_roles vd)))), elem_of_select.
    rewrite bool_decide_eq_true. eauto. }
  apply Nat.le_0_r, size_empty_iff in Hs. assert (rid ∈ po_roles p ∩ dom (v1_roles vd)) as Hin'.
  { apply elem_of_intersection. split; [done|]. by apply elem_of_dom. }
  rewrite (leibniz_equiv _ _ Hs) in Hin'. by apply elem_of_empty in Hin'.
Qed.

Lemma delete_group_v2_steps group vd vd' es :
  REPLICATION_TO_RELATION_ENABLED = true → v1_inv vd → db_groups (v1_db vd) !! g_id group = Some group →
  delete_group_v2 group vd = Ok (vd', es) → steps vd es vd'.
Proof.
  intros He Hi Hg. unfold delete_group_v2. intros (u & _ & Hr)%bind_Ok.
  apply bind_Ok in Hr as (u' & Hc%raise_if_Ok%negb_false_iff%Nat.eqb_eq & Hr). apply Nat.eq_add_0 in Hc as [_ Hl].
  apply bind_Ok in Hr as (o & (h & -> & Hh)%group_handler_init_Ok & Hr); [|done]. apply bind_Ok in Hr as (vd1 & Hd & Hr).
  apply bind_Ok in Hr as (es' & Hr & [= <- <-]). assert (delete_group (g_id group) vd = Ok vd1) as Hd' by (by destruct (delete_group _ _) as [|[]]).
  destruct (deleted_group_kept _ _ _ Hi Hd') as (Hi1 & Hst & Has). destruct (replicate_removed_Ok _ _ _ _ He Hr) as (rem & Hrem & HG).
  rewrite Hh in Hrem. split_and!; [split; [done|]|done|]; [|intros; apply Has; [|done]; intros rid; by apply no_legacy_roles].
  apply delete_group_Ok in Hd' as [-> _]. apply (members_replay _ _ [] rem); [by eexists _, _, _| |by intros t (p & v & _ & _ & ->)%Hrem; eauto|done].
  intros t. rewrite Hrem, elem_of_nil. rewrite (deleted_members _ _ _ _ (vo_groups _ (proj1 Hi)) (vo_users _ (proj1 Hi))). rewrite Hg. naive_solver.
Qed.

(* ------------------------------------------------------------------ *)
(** * Responses and events *)

(** C24: when the V1 request that removes members answers 204, its event says what it removed;
    when it answers 404 no event is emitted, and the service accounts that it had removed
    before it looked for the users stay removed, so the relations store keeps their tuples
    as soon as one of them has a user id. *)
Theorem removal_responses admin org group sas us vd vd' es r (He : REPLICATION_TO_RELATION_ENABLED = true) (Hi : v1_inv vd)
  (Hg : db_groups (v1_db vd) !! g_id group = Some group)
  (Hr : remove_principal_from_group admin org group sas us vd = Ok (vd', es, r)) :
  match r with
  | HTTP_204_NO_CONTENT => replay (rows_graph vd) es = Ok (rows_graph vd')
  | HTTP_404_NOT_FOUND =>
      es = [] ∧ ∃ ps, ps ⊆ group_members (g_id group) vd ∧ (sas = None → ps = []) ∧ vd' = remove_members (g_id group) ps vd
      ∧ (replay (rows_graph vd) es = Ok (rows_graph vd') ↔ ∀ p, p ∈ ps → user_id p = None)
  end.
Proof.
  pose proof (remove_from_group_run _ _ _ _ _ _ _ _ _ He Hi Hg Hr) as Hrun. destruct r; [apply Hrun|].
  destruct Hrun as (-> & ps & Hs & Hn & ->). split; [done|]. exists ps. split_and!; try done.
  rewrite <- (removed_members_drift group ps vd (proj1 Hi) Hg Hs). unfold replay. cbn. split; [by intros [= <-]|by intros ->].
Qed.
End members.

(* ------------------------------------------------------------------ *)
(** * A sample *)

(** The sample of [RoleRequests] with a user and a service account, which is in the group. *)
Definition user_three : Principal := mkPrincipal 3 "p3" 7 (Some "u3") "user3" USER_PRINCIPAL None false.
Definition account_four : Principal := mkPrincipal 4 "p4" 7 (Some "u4") "service-account-c4" SERVICE_ACCOUNT (Some "c4") false.
Definition group_five : Group := mkGroup 5 "g5" 7 false false false "five" None.
Definition sample_principals : gmap Z Principal := <[3%Z := user_three]> {[4%Z := account_four]}.
Definition member_sample : V1Db :=
  with_members (λ _, {[(5, 4)%Z]})
    (with_db (put_principals (λ _, sample_principals)) v1_sample).

Lemma member_sample_inv : v1_inv member_sample.
Proof.
  apply with_members_inv, put_principals_inv; [|exact v1_sample_inv].
  assert (∀ i p, sample_principals !! i = Some p → i = 3%Z ∧ p = user_three ∨ i = 4%Z ∧ p = account_four) as Hl.
  { intros i p. unfold sample_principals. intros [[<- <-]|[_ [<- <-]%lookup_singleton_Some]]%lookup_insert_Some; auto. }
  split; cbn.
  - by intros i p [[-> ->]|[-> ->]]%Hl.
  - by intros i j p q u [[-> ->]|[-> ->]]%Hl [[-> ->]|[-> ->]]%Hl [= <-] E; try done.
Qed.

Definition partial_removal := @remove_principal_from_group sample_settings _ true "o7" group_five (Some "c4") (Some "nobody") member_sample.

Lemma removal_responses_witness :
  ∃ vd', partial_removal = Ok (vd', [], HTTP_404_NOT_FOUND)
    ∧ replay (@rows_graph sample_settings member_sample) [] ≠ Ok (@rows_graph sample_settings vd').
Proof.
  assert (match partial_removal with
          | Ok (vd', es, HTTP_404_NOT_FOUND) => Nat.eqb (length es) 0 && negb (bool_decide ((5, 4)%Z ∈ v1_members vd'))
          | _ => false end = true) as Hc by (by vm_compute).
  destruct partial_removal as [[[vd' es] [|]]|] eqn:Hr; [done| |done].
  destruct (@removal_responses sample_settings _ true "o7" group_five (Some "c4") (Some "nobody") member_sample vd' es HTTP_404_NOT_FOUND
    eq_refl member_sample_inv eq_refl Hr) as (-> & ps & Hs & _ & -> & Hiff). exists (remove_members (g_id group_five) ps member_sample).
  split; [reflexivity|]. intros Hrep. apply andb_true_iff in Hc as [_ Hc%negb_true_iff%bool_decide_eq_false]. apply Hc.
  cbn. apply elem_of_difference. split; [by apply elem_of_singleton|]. rewrite elem_of_list_to_set, list_elem_of_fmap.
  intros (p & [= E] & Hp). pose proof (proj1 Hiff Hrep p Hp) as Hnone. apply Hs in Hp.
  apply (@elem_of_group_members _ member_sample 5 p (vo_users _ (proj1 member_sample_inv))) in Hp as [_ Hp]. rewrite <- E in Hp.
  injection Hp as <-. discriminate Hnone.
Defined.
