(* ===== verification/TenantBootstrap.v ===== *)
(** Bootstrapping tenants: the platform roles of the default access
    (rbac/management/group/platform.py and role/platform.py), the tuples of the default
    bindings (tenant_service/relations.py), and the service that gives a tenant its
    mapping, its root and default workspaces and its default access
    (tenant_service/v2.py). *)

From S2P Require Import Prelude.
From S2P Require Import PyString.
From S2P Require Import Config.
From S2P Require Import PyUuid.
From S2P Require Import PyJson.
From S2P Require Import RelationTypes.
From S2P Require Import TupleStore.
From S2P Require Import ScopeService.
From S2P Require Import Outbox.
From S2P Require Import Tenants.
From S2P Require Import Db.
From S2P Require Import RoleScopes.
From S2P Require Import Workspaces.
From S2P Require Import BindingMapping.
From S2P Require Import V1State.
From S2P Require Import GroupHandler.

Definition put_tenants (f : gmap Z Tenant → gmap Z Tenant) (d : Db) : Db :=
  mkDb (db_permissions d) (db_roles d) (db_groups d) (db_principals d) (db_bindings d)
    (db_group_entries d) (db_principal_entries d) (db_workspaces d) (db_mappings d) (f (db_tenants d)).

(** One call of [OutboxReplicator.replicate], as the events that reach the log. *)
Definition outbox_emit (e : ReplicationEvent) : result (list ReplicationEvent) :=
  _ ← check_for_duplicate_relationships (ev_add e);
  mret (match ev_add e, ev_remove e with [], [] => [] | _, _ => [e] end).

Section service.
Context `{Settings} `{PySetOrder} `{RowOrder}.
(** The column [uuid] of the policies. *)
Variable policy_uuid : Z → string.

(* ------------------------------------------------------------------ *)
(** * The platform roles *)

(** The two cached UUIDs of [GlobalPolicyIdService]. *)
Record GlobalPolicyIdService := mkGlobalPolicyIdService {
  platform_default_uuid : option string;
  admin_default_uuid : option string;
}.

(** [Group.objects.public_tenant_only().get(flag=True).policies.get()]; only a missing
    group becomes [DefaultGroupNotAvailableError]. *)
Definition default_group (flag : Group → bool) (vd : V1Db) : result Group :=
  public ← get_public_tenant vd;
  match select (λ g, g_system g && Z.eqb (g_tenant g) (t_id public) && flag g) (db_groups (v1_db vd)) with
  | [g] => mret g
  | [] => Raise (DoesNotExist "Group")
  | _ => Raise (MultipleObjectsReturned "Group")
  end.
Definition default_policy_uuid (flag : Group → bool) (vd : V1Db) : result string :=
  g ← match default_group flag vd with
      | Raise (DoesNotExist "Group") => Raise DefaultGroupNotAvailableError
      | r => r
      end;
  match group_policies g vd with
  | [k] => mret (policy_uuid k)
  | [] => Raise (DoesNotExist "Policy")
  | _ => Raise (MultipleObjectsReturned "Policy")
  end.

(** [platform_default_policy_uuid] and [admin_default_policy_uuid] with the service that
    they leave. *)
Definition platform_default_policy_uuid (svc : GlobalPolicyIdService) (vd : V1Db) : result (string * GlobalPolicyIdService) :=
  match platform_default_uuid svc with
  | Some u => mret (u, svc)
  | None => u ← default_policy_uuid platform_default vd; mret (u, mkGlobalPolicyIdService (Some u) (admin_default_uuid svc))
  end.
Definition admin_default_policy_uuid (svc : GlobalPolicyIdService) (vd : V1Db) : result (string * GlobalPolicyIdService) :=
  match admin_default_uuid svc with
  | Some u => mret (u, svc)
  | None => u ← default_policy_uuid admin_default vd; mret (u, mkGlobalPolicyIdService (platform_default_uuid svc) (Some u))
  end.

(** What a run of the code leaves in the cache is what its own database answers, so each
    operation below takes the service it starts with and the lookups drop the new one. *)
Variable svc : GlobalPolicyIdService.

(** [platform_v2_role_uuid_for]: [UUID(...)] of a setting raises ValueError when it is
    malformed. *)
Definition platform_v2_role_uuid_for (access_type : DefaultAccessType) (scope : Scope) (vd : V1Db) : result string :=
  match access_type, scope with
  | USER, Scope.DEFAULT => fst <$> platform_default_policy_uuid svc vd
  | ADMIN, Scope.DEFAULT => fst <$> admin_default_policy_uuid svc vd
  | USER, Scope.ROOT => or_raise ValueError (uuid_canon SYSTEM_DEFAULT_ROOT_WORKSPACE_ROLE_UUID)
  | USER, Scope.TENANT => or_raise ValueError (uuid_canon SYSTEM_DEFAULT_TENANT_ROLE_UUID)
  | ADMIN, Scope.ROOT => or_raise ValueError (uuid_canon SYSTEM_ADMIN_ROOT_WORKSPACE_ROLE_UUID)
  | ADMIN, Scope.TENANT => or_raise ValueError (uuid_canon SYSTEM_ADMIN_TENANT_ROLE_UUID)
  | _, Scope.ALL => Raise KeyError
  end.

(* ------------------------------------------------------------------ *)
(** * The tuples of the default access *)

(** One scope of [default_role_binding_tuples]. *)
Definition scope_binding_tuples (m : TenantMapping) (target_resources : TenantScopeResources) (access_type : DefaultAccessType)
    (resource_binding_only : bool) (vd : V1Db) (scope : Scope) : result (list RelationTuple) :=
  role_binding_uuid ← default_role_binding_uuid_for m access_type scope;
  target ← resource_for target_resources scope;
  binding ← create_relationship (br_namespace target, br_name target) (br_id target)
              ("rbac", "role_binding") role_binding_uuid "binding" None;
  if resource_binding_only then mret [binding] else
  default_role_uuid ← platform_v2_role_uuid_for access_type scope vd;
  role ← create_relationship ("rbac", "role_binding") role_binding_uuid ("rbac", "role") default_role_uuid "role" None;
  subject ← create_relationship ("rbac", "role_binding") role_binding_uuid ("rbac", "group") (group_uuid_for m access_type)
              "subject" (Some "member");
  mret [binding; role; subject].

(** [default_role_binding_tuples] *)
Definition default_role_binding_tuples (m : TenantMapping) (target_resources : TenantScopeResources)
    (access_type : DefaultAccessType) (resource_binding_only : bool) (target_scopes : option (gset Scope)) (vd : V1Db) :
    result (list RelationTuple) :=
  l ← mapM (scope_binding_tuples m target_resources access_type resource_binding_only vd)
        (set_iter (default (list_to_set CONCRETE_SCOPES) target_scopes));
  mret (concat l).

(** [_built_in_hierarchy_tuples]: the organisation id is concatenated to a prefix. *)
Definition built_in_hierarchy_tuples (default_workspace_id root_workspace_id : string) (org : option string) :
    result (list RelationTuple) :=
  tenant_id ← or_raise TypeError (org_id_to_tenant_resource_id <$> org);
  parent ← create_relationship ("rbac", "workspace") default_workspace_id ("rbac", "workspace") root_workspace_id "parent" None;
  tenant ← create_relationship ("rbac", "workspace") root_workspace_id ("rbac", "tenant") tenant_id "tenant" None;
  platform ← create_relationship ("rbac", "tenant") tenant_id ("rbac", "platform") ENV_NAME "platform" None;
  mret [parent; tenant; platform].

(** [_tenant_default_groups] *)
Definition tenant_default_groups (tenant : Z) (vd : V1Db) : list Group :=
  select (λ g, platform_default g && Z.eqb (g_tenant g) tenant) (db_groups (v1_db vd)).

(** The [try] around each use in [_bootstrap_default_access]. *)
Definition if_available (r : result (list RelationTuple)) : result (list RelationTuple) :=
  match r with Raise DefaultGroupNotAvailableError => mret [] | _ => r end.

(** [_bootstrap_default_access] *)
Definition bootstrap_default_access (tenant : Tenant) (m : TenantMapping) (scope_resources : TenantScopeResources) (vd : V1Db) :
    result (list RelationTuple) :=
  user ← match tenant_default_groups (t_id tenant) vd with
         | [] => if_available (default_role_binding_tuples m scope_resources USER false None vd)
         | _ => mret []
         end;
  admin ← if_available (default_role_binding_tuples m scope_resources ADMIN false None vd);
  mret (user ++ admin).

(* ------------------------------------------------------------------ *)
(** * Locks *)

Record TenantBootstrapLock := mkTenantBootstrapLock {
  tenant_mapping : TenantMapping;
  custom_default_group : option Group;
}.

(** [try_lock_tenants_for_bootstrap], as a dictionary from the keys of the tenants. *)
Definition tenant_lock (vd : V1Db) (tenant : Z) : option TenantBootstrapLock :=
  m ← db_mappings (v1_db vd) !! tenant;
  mret (mkTenantBootstrapLock m (last (tenant_default_groups tenant vd))).
Definition try_lock_tenants_for_bootstrap (tenants : list Tenant) (vd : V1Db) : result (gmap Z (option TenantBootstrapLock)) :=
  _ ← raise_if (existsb (λ t, String.eqb (tenant_name t) PUBLIC_TENANT_NAME) tenants) ValueError;
  mret (list_to_map (map (λ t, (t_id t, tenant_lock vd (t_id t))) tenants)).
Definition try_lock_tenant_for_bootstrap (tenant : Tenant) (vd : V1Db) : result (option TenantBootstrapLock) :=
  locks ← try_lock_tenants_for_bootstrap [tenant] vd;
  or_raise KeyError (locks !! t_id tenant).
Definition lock_tenant_for_bootstrap (tenant : Tenant) (vd : V1Db) : result TenantBootstrapLock :=
  lock ← try_lock_tenant_for_bootstrap tenant vd;
  or_raise TenantNotBootstrappedError lock.

(* ------------------------------------------------------------------ *)
(** * Bootstrapping *)

(** The identifiers that a new root and default workspace and a new mapping get. *)
Record BootstrapIds := mkBootstrapIds {
  bi_root : string;
  bi_default : string;
  bi_mapping : TenantMapping;
}.

Record BootstrappedTenant := mkBootstrappedTenant {
  bt_tenant : Tenant;
  bt_mapping : option TenantMapping;
  bt_default_workspace : option Workspace;
  bt_root_workspace : option Workspace;
}.

(** [_built_in_workspaces] *)
Definition built_in_workspaces (ids : BootstrapIds) (tenant : Tenant) : result (Workspace * Workspace * list RelationTuple) :=
  let root := mkWorkspace (bi_root ids) "Root Workspace" (special_description ROOT_WS) None ROOT_WS (t_id tenant) in
  let default := mkWorkspace (bi_default ids) "Default Workspace" (special_description DEFAULT_WS) (Some (w_id root))
                   DEFAULT_WS (t_id tenant) in
  relationships ← built_in_hierarchy_tuples (w_id default) (w_id root) (org_id tenant);
  mret (root, default, relationships).

(** The new mapping of a tenant: the group is its custom default group if it has one. *)
Definition new_mapping (ids : BootstrapIds) (tenant : Z) (group : option Group) : TenantMapping :=
  let u := bi_mapping ids in
  mkTenantMapping tenant None None
    match group with Some g => g_uuid g | None => default_group_uuid u end
    (default_admin_group_uuid u) (default_role_binding_uuid u) (default_admin_role_binding_uuid u)
    (root_scope_default_role_binding_uuid u) (root_scope_default_admin_role_binding_uuid u)
    (tenant_scope_default_role_binding_uuid u) (tenant_scope_default_admin_role_binding_uuid u).

(** Rows inserted by [bulk_create]: the constraints of the tables are checked, [save] and
    [full_clean] are not called. *)
Definition insert_workspace (d : Db) (w : Workspace) : result Db :=
  _ ← raise_if (bool_decide (is_Some (db_workspaces d !! w_id w))) (IntegrityError "id");
  _ ← raise_if (type_conflict d w) (IntegrityError "unique_default_root_workspace_per_tenant");
  _ ← raise_if (name_conflict d w) (IntegrityError UNIQUE_NAME);
  mret (put_workspace w d).
Definition insert_mapping (d : Db) (m : TenantMapping) : result Db :=
  _ ← raise_if (bool_decide (is_Some (db_mappings d !! tm_tenant m))) (IntegrityError "tenant_id");
  _ ← raise_if (existsb (λ m', existsb (λ ab, String.eqb (fst ab) (snd ab)) (zip (role_binding_ids m) (role_binding_ids m')))
                  (map snd (map_to_list (db_mappings d)))) (IntegrityError "role_binding_uuid");
  mret (with_mappings (<[tm_tenant m := m]>) d).

(** [_fresh_tenants_with_default_groups] *)
Definition fresh_tenants (tenants : list Tenant) (vd : V1Db) : result (list Tenant) :=
  let loaded := select (λ t, bool_decide (t_id t ∈ map t_id tenants)) (db_tenants (v1_db vd)) in
  _ ← raise_if (negb (Nat.eqb (length loaded) (length tenants))) AssertionError;
  mret loaded.

Variable ids : Z → BootstrapIds.

(** One tenant of the first loop of [_bootstrap_tenants_no_replicate]: the mapping, the
    workspaces and the tuples of the hierarchy. *)
Definition prepare_tenant (vd : V1Db) (tenant : Tenant) : result (Tenant * TenantMapping * Workspace * Workspace * list RelationTuple) :=
  '(root, default, relationships) ← built_in_workspaces (ids (t_id tenant)) tenant;
  mret (tenant, new_mapping (ids (t_id tenant)) (t_id tenant) (head (tenant_default_groups (t_id tenant) vd)), root, default,
        relationships).
(** One tenant of the second loop. *)
Definition grant_tenant (vd : V1Db) (tenant : Tenant) (root default : Workspace) : result (BootstrappedTenant * list RelationTuple) :=
  m ← or_raise KeyError (db_mappings (v1_db vd) !! t_id tenant);
  resources ← for_models tenant root default;
  relationships ← bootstrap_default_access tenant m resources vd;
  mret (mkBootstrappedTenant tenant (Some m) (Some default) (Some root), relationships).

(** [_bootstrap_tenants_no_replicate]; the cache of workspaces is not modelled. *)
Definition bootstrap_tenants_no_replicate (tenants : list Tenant) (vd : V1Db) :
    result (V1Db * list BootstrappedTenant * list RelationTuple) :=
  _ ← raise_if (existsb (λ t, String.eqb (tenant_name t) PUBLIC_TENANT_NAME) tenants) ValueError;
  loaded ← fresh_tenants tenants vd;
  prepared ← mapM (prepare_tenant vd) loaded;
  let roots := map (λ '(_, _, root, _, _), root) prepared in
  let defaults := map (λ '(_, _, _, default, _), default) prepared in
  d1 ← foldM insert_workspace (v1_db vd) (defaults ++ roots);
  d2 ← foldM insert_mapping d1 (map (λ '(_, m, _, _, _), m) prepared);
  let vd2 := with_db (λ _, d2) vd in
  granted ← mapM (λ '(tenant, _, root, default, _), grant_tenant vd2 tenant root default) prepared;
  mret (vd2, map fst granted, concat (map snd prepared) ++ concat (map snd granted)).

(** [_BootstrapReplicationEntry] *)
Definition mk_entry (tenant : Tenant) (default_workspace : option Workspace) : result (Tenant * Workspace) :=
  w ← or_raise TypeError default_workspace;
  _ ← raise_if (negb (Z.eqb (w_tenant w) (t_id tenant))) ValueError;
  _ ← raise_if (negb (bool_decide (w_type w = DEFAULT_WS))) ValueError;
  mret (tenant, w).

(** [_send_bootstrap_events] *)
Definition send_bootstrap_events (entries : list (Tenant * Workspace)) (relationships : list RelationTuple) (bulk forced : bool) :
    result (list ReplicationEvent * list ws_event) :=
  _ ← raise_if (negb bulk && negb (Nat.eqb (length entries) 1)) ValueError;
  _ ← raise_if (negb (Bool.eqb (Nat.eqb (length entries) 0) (Nat.eqb (length relationships) 0))) AssertionError;
  match entries with
  | [] => mret ([], [])
  | (first, _) :: _ =>
      let info := if bulk then [("num_tenants", Some (show_int (Z.of_nat (length entries)))); ("first_org_id", org_id first)]
                  else [("org_id", org_id first)] in
      events ← outbox_emit (mkReplicationEvent (if bulk then BULK_BOOTSTRAP_TENANT else BOOTSTRAP_TENANT)
                 (info ++ if forced then [("forced", Some "True")] else []) relationships []);
      ws_events ← mapM (λ '(_, w), make_workspace_event w CREATE_WORKSPACE) entries;
      mret (events, ws_events)
  end.

Definition outcome (A : Type) : Type := V1Db * A * list ReplicationEvent * list ws_event.

(** [_bootstrap_tenants] and [_bootstrap_tenant] *)
Definition bootstrap_new_tenants (tenants : list Tenant) (bulk : bool) (vd : V1Db) : result (outcome (list BootstrappedTenant)) :=
  _ ← raise_if (negb bulk && negb (Nat.eqb (length tenants) 1)) RuntimeError;
  '(vd', bootstrapped, relationships) ← bootstrap_tenants_no_replicate tenants vd;
  _ ← raise_if (negb (Nat.eqb (length bootstrapped) (length tenants))) AssertionError;
  entries ← mapM (λ b, mk_entry (bt_tenant b) (bt_default_workspace b)) bootstrapped;
  '(events, ws_events) ← send_bootstrap_events entries relationships bulk false;
  mret (vd', bootstrapped, events, ws_events).
Definition only_one {A} (r : result (outcome (list A))) : result (outcome A) :=
  '(vd, l, events, ws_events) ← r;
  match l with [x] => mret (vd, x, events, ws_events) | _ => Raise AssertionError end.
Definition bootstrap_new_tenant (tenant : Tenant) (vd : V1Db) : result (outcome BootstrappedTenant) :=
  only_one (bootstrap_new_tenants [tenant] false vd).

(** One tenant of [_replicate_bootstraps]: the built-in workspaces are the last rows of
    each type that the query returns. *)
Definition replicate_tenant (vd : V1Db) (tm : Tenant * TenantMapping) : result (Tenant * Workspace * list RelationTuple) :=
  let '(tenant, m) := tm in
  let of_type ty := last (select (λ w, Z.eqb (w_tenant w) (t_id tenant) && bool_decide (w_type w = ty)) (db_workspaces (v1_db vd))) in
  root ← or_raise RuntimeError (of_type ROOT_WS);
  default ← or_raise RuntimeError (of_type DEFAULT_WS);
  hierarchy ← built_in_hierarchy_tuples (w_id default) (w_id root) (org_id tenant);
  resources ← for_models tenant root default;
  access ← bootstrap_default_access tenant m resources vd;
  '(_, w) ← mk_entry tenant (Some default);
  mret (tenant, w, hierarchy ++ access).
Definition replicate_bootstraps (tenants_with_mappings : list (Tenant * TenantMapping)) (bulk : bool) (vd : V1Db) :
    result (list ReplicationEvent * list ws_event) :=
  _ ← raise_if (negb bulk && negb (Nat.eqb (length tenants_with_mappings) 1)) ValueError;
  l ← mapM (replicate_tenant vd) tenants_with_mappings;
  match tenants_with_mappings with
  | [] => mret ([], [])
  | _ => send_bootstrap_events (map fst l) (concat (map snd l)) bulk true
  end.

(** [bootstrap_tenant] and [bootstrap_tenants] *)
Definition bootstrap_tenant (tenant : Tenant) (force : bool) (vd : V1Db) : result (outcome BootstrappedTenant) :=
  lock ← try_lock_tenant_for_bootstrap tenant vd;
  match lock with
  | None => bootstrap_new_tenant tenant vd
  | Some l =>
      '(events, ws_events) ← (if force : bool then replicate_bootstraps [(tenant, tenant_mapping l)] false vd else mret ([], []));
      mret (vd, mkBootstrappedTenant tenant (Some (tenant_mapping l)) None None, events, ws_events)
  end.

(** The iteration over [set(tenants)]: tenants are equal when their keys are. *)
Definition tenant_set (tenants : list Tenant) : list Tenant :=
  omap (λ k, List.find (λ t, Z.eqb (t_id t) k) tenants) (set_iter (list_to_set (map t_id tenants) : gset Z)).
Definition bootstrap_tenants (tenants : list Tenant) (force : bool) (vd : V1Db) : result (outcome (list BootstrappedTenant)) :=
  let tenants := tenant_set tenants in
  locks ← try_lock_tenants_for_bootstrap tenants vd;
  let lock t := mjoin (locks !! t_id t) in
  let ready := omap (λ t, option_map (λ l, (t, tenant_mapping l)) (lock t)) tenants in
  let to_bootstrap := List.filter (λ t, bool_decide (lock t = None)) tenants in
  let results := map (λ '(t, m), mkBootstrappedTenant t (Some m) None None) ready in
  '(events1, ws1) ← (if force then replicate_bootstraps ready true vd else mret ([], []));
  '(vd', created, events2, ws2) ← match to_bootstrap with
    | [] => mret (vd, [], [], [])
    | _ => bootstrap_new_tenants to_bootstrap true vd
    end;
  _ ← raise_if (negb (Nat.eqb (length (results ++ created)) (length tenants))) AssertionError;
  mret (vd', results ++ created, events1 ++ events2, ws1 ++ ws2).

(* ------------------------------------------------------------------ *)
(** * New tenants *)

(** INSERT of a tenant: the organisation is unique. *)
Definition insert_tenant (vd : V1Db) (t : Tenant) : result V1Db :=
  _ ← raise_if (bool_decide (is_Some (org_id t)) && existsb (λ t', bool_decide (org_id t' = org_id t))
                  (map snd (map_to_list (db_tenants (v1_db vd))))) (IntegrityError "org_id");
  mret (with_db (put_tenants (<[t_id t := t]>)) vd).

(** The key that the tenant of an organisation gets. *)
Variable tenant_key : string → Z.

(** [new_bootstrapped_tenant] *)
Definition new_bootstrapped_tenant (org : string) (account_number : option string) (vd : V1Db) : result (outcome BootstrappedTenant) :=
  tenant ← tenant_save None (mkTenant (tenant_key org) "" account_number (Some org) (JDict []) false);
  vd1 ← insert_tenant vd tenant;
  bootstrap_new_tenant tenant vd1.

(** [_get_or_bootstrap_tenants] and [_get_or_bootstrap_tenant]; [str or None] is None for the
    empty string. *)
Definition str_or_none (s : option string) : option string := match s with Some "" => None | _ => s end.
Definition get_or_bootstrap_tenants (org_ids : gset string) (ready : bool) (account_number_by_org_id : gmap string (option string))
    (bulk : bool) (vd : V1Db) : result (outcome (list BootstrappedTenant)) :=
  _ ← raise_if (negb bulk && negb (Nat.eqb (size org_ids) 1)) ValueError;
  let existing := select (λ t, match org_id t with Some o => bool_decide (o ∈ org_ids) | None => false end) (db_tenants (v1_db vd)) in
  locks ← try_lock_tenants_for_bootstrap existing vd;
  let lock t := mjoin (locks !! t_id t) in
  let bootstrapped := omap (λ t, option_map (λ l, mkBootstrappedTenant t (Some (tenant_mapping l)) None None) (lock t)) existing in
  let new_tenants := map (λ org, mkTenant (tenant_key org) ("org" +:+ org) (str_or_none (mjoin (account_number_by_org_id !! org)))
                                   (Some org) (JDict []) ready)
                       (List.filter (λ org, negb (bool_decide (Some org ∈ map org_id existing))) (set_iter org_ids)) in
  vd1 ← foldM insert_tenant vd new_tenants;
  match List.filter (λ t, bool_decide (lock t = None)) existing ++ new_tenants with
  | [] => mret (vd1, bootstrapped, [], [])
  | (t :: others) as to_bootstrap =>
      if bulk then
        '(vd2, created, events, ws_events) ← bootstrap_new_tenants to_bootstrap true vd1;
        mret (vd2, bootstrapped ++ created, events, ws_events)
      else
        _ ← raise_if (negb (Nat.eqb (length others) 0)) AssertionError;
        '(vd2, created, events, ws_events) ← bootstrap_new_tenant t vd1;
        mret (vd2, bootstrapped ++ [created], events, ws_events)
  end.
Definition get_or_bootstrap_tenant (org : string) (ready : bool) (account_number : option string) (vd : V1Db) :
    result (outcome BootstrappedTenant) :=
  only_one (get_or_bootstrap_tenants {[org]} ready {[org := account_number]} false vd).

(* ------------------------------------------------------------------ *)
(** * Workspaces *)

(** [create_ungrouped_workspace]; [ws_id] is the UUID of a new row. *)
Definition create_ungrouped_workspace (ws_id org : string) (vd : V1Db) : result (V1Db * Workspace * list ReplicationEvent) :=
  tenant ← match select (λ t, bool_decide (org_id t = Some org)) (db_tenants (v1_db vd)) with
           | [t] => mret t
           | [] => Raise (DoesNotExist "Tenant")
           | _ => Raise (MultipleObjectsReturned "Tenant")
           end;
  default ← built_in_workspace (v1_db vd) (t_id tenant) DEFAULT_WS;
  '(vd', w) ← match select (λ w, Z.eqb (w_tenant w) (t_id tenant) && bool_decide (w_type w = UNGROUPED_HOSTS)
                               && String.eqb (w_name w) "Ungrouped Hosts" && bool_decide (w_parent w = Some (w_id default)))
                      (db_workspaces (v1_db vd)) with
    | [w] => mret (vd, w)
    | [] => w ← ws_full_clean true (v1_db vd) (mkWorkspace ws_id "Ungrouped Hosts" (special_description UNGROUPED_HOSTS)
                  (Some (w_id default)) UNGROUPED_HOSTS (t_id tenant));
            mret (with_db (put_workspace w) vd, w)
    | _ => Raise (MultipleObjectsReturned "Workspace")
    end;
  relationship ← get_workspace_relationship (w_id w) (w_id default);
  events ← outbox_emit (mkReplicationEvent CREATE_UNGROUPED_HOSTS_WORKSPACE
             [("org_id", org_id tenant); ("ungrouped_hosts_id", Some (w_id w))] [relationship] []);
  mret (vd', w, events).

(** [create_workspace_relationships] *)
Definition create_workspace_relationships (pairs : list (string * string)) : result (list ReplicationEvent) :=
  relationships ← mapM (λ '(resource_id, subject_id), get_workspace_relationship resource_id subject_id) pairs;
  outbox_emit (mkReplicationEvent WORKSPACE_IMPORT [] relationships []).
End service.
