(* ===== verification/BootstrapAccess.v ===== *)
(** What bootstrapping a tenant ensures: the rows it creates, and the invariant that a
    relations store gives the members of a tenant its default access exactly when the
    tenant has no default group of its own. *)

From S2P Require Import Prelude.
From S2P Require Import PyString.
From S2P Require Import Config.
From S2P Require Import PyUuid.
From S2P Require Import PyJson.
From S2P Require Import RelationTypes.
From S2P Require Import TupleStore.
From S2P Require Import ScopeService.
From S2P Require Import Outbox.
From S2P Require Import Tenants.
From S2P Require Import Db.
From S2P Require Import RoleBindingService.
From S2P Require Import RoleScopes.
From S2P Require Import RoleV2Service.
From S2P Require Import Workspaces.
From S2P Require Import BindingMapping.
From S2P Require Import V1State.
From S2P Require Import RoleMigration.
From S2P Require Import RoleMigrationGraph.
From S2P Require Import RoleRequests.
From S2P Require Import SubjectRuns.
From S2P Require Import GroupHandler.
From S2P Require Import TenantBootstrap.

(* ------------------------------------------------------------------ *)
(** * Rows inserted in bulk *)

Lemma insert_mappings_Ok ms d d' :
  foldM insert_mapping d ms = Ok d' →
  d' = with_mappings (λ _, db_mappings d') d
  ∧ (∀ m, m ∈ ms → db_mappings d !! tm_tenant m = None)
  ∧ ∀ k m, db_mappings d' !! k = Some m ↔ db_mappings d !! k = Some m ∨ m ∈ ms ∧ tm_tenant m = k.
Proof.
  revert d. induction ms as [|m ms IH]; intros d Hr; cbn in Hr.
  - injection Hr as <-. split_and!; [by destruct d|by intros m ?%elem_of_nil|]. setoid_rewrite elem_of_nil. naive_solver.
  - destruct (insert_mapping d m) as [d1|] eqn:Hm; [|done]. unfold insert_mapping in Hm. inv_ok.
    apply bool_decide_eq_false, eq_None_not_Some in H. destruct (IH _ Hr) as (E & Hnew & Hl). cbn in *. split_and!.
    + by rewrite E.
    + intros m' [->|Hin]%elem_of_cons; [done|]. specialize (Hnew _ Hin). by apply lookup_insert_None in Hnew as [? _].
    + intros k m'. rewrite Hl, lookup_insert_Some, elem_of_cons. split; [intros [[[<- <-]|[_ ?]]|[? ?]]; auto|].
      intros [Hk|[[->|Hin] <-]]; [|by left; left|by right]. left. right. split; [|done]. intros <-. congruence.
Qed.

Lemma insert_workspaces_Ok ws d d' :
  foldM insert_workspace d ws = Ok d' → (∀ i w, db_workspaces d !! i = Some w → w_id w = i) →
  d' = with_workspaces (λ _, db_workspaces d') d
  ∧ (∀ i w, db_workspaces d' !! i = Some w ↔ db_workspaces d !! i = Some w ∨ w ∈ ws ∧ w_id w = i)
  ∧ ∀ w i x, w ∈ ws → w_type w ≠ STANDARD → db_workspaces d' !! i = Some x → w_type x = w_type w → w_tenant x = w_tenant w → x = w.
Proof.
  revert d. induction ws as [|w ws IH]; intros d Hr Hid; cbn in Hr.
  - injection Hr as <-. split_and!; [by destruct d| |by intros w i x ?%elem_of_nil]. setoid_rewrite elem_of_nil. naive_solver.
  - destruct (insert_workspace d w) as [d1|] eqn:Hw; [|done]. unfold insert_workspace in Hw. inv_ok.
    apply bool_decide_eq_false, eq_None_not_Some in H. destruct (IH _ Hr) as (E & Hl & Hone).
    { intros i x. cbn. rewrite lookup_insert_Some. intros [[<- <-]|[_ ?]]; eauto. }
    assert (∀ i x, db_workspaces d' !! i = Some x ↔ db_workspaces d !! i = Some x ∨ x ∈ w :: ws ∧ w_id x = i) as Hl'.
    { intros i x. rewrite Hl. cbn. rewrite lookup_insert_Some, elem_of_cons. split; [intros [[[<- <-]|[_ ?]]|[? ?]]; auto|].
      intros [Hi|[[->|Hin] <-]]; [|by left; left|by right]. left. right. split; [|done]. intros <-. congruence. }
    split_and!; [by rewrite E|done|]. intros w' i x [->|Hin]%elem_of_cons; [|by eapply Hone].
    intros Hs Hx Hty Htn. destruct (decide (x ∈ ws)) as [Hxs|Hxs].
    + symmetry. eapply (Hone x (w_id w)); [done|congruence| |done|done]. apply Hl. left. cbn. by rewrite lookup_insert_eq.
    + apply Hl' in Hx as [Hx|[[->|?]%elem_of_cons _]]; [|done|done]. exfalso.
      eapply (type_conflict_false d w x i); try done. rewrite (Hid _ _ Hx). intros ->. congruence.
Qed.

Lemma elem_of_concat {A} (x : A) ls : x ∈ concat ls ↔ ∃ l, x ∈ l ∧ l ∈ ls.
Proof. rewrite list_elem_of_In, in_concat. setoid_rewrite <- list_elem_of_In. naive_solver. Qed.

Lemma outbox_emit_accepted e es :
  outbox_emit e = Ok es → ∀ store, replay store es = Ok (list_to_set (ev_add e) ∪ (store ∖ list_to_set (ev_remove e))).
Proof. intros He. by apply (@emit_accepted sample_settings). Qed.

Lemma create_relationship_raises rn ri sn si rel sr e : create_relationship rn ri sn si rel sr = Raise e → e = ValueError.
Proof.
  assert (∀ s e', validate_required_str (JStr s) = Raise e' → e' = ValueError) as Hreq by (intros s e'; cbn; case_match; congruence).
  assert (∀ p s e', validate_pattern p s = Raise e' → e' = ValueError) as Hpat by (intros p s e' [_ <-]%raise_if_Raise; done).
  assert (∀ ns nm e', mk_ObjectType (JStr ns) (JStr nm) = Raise e' → e' = ValueError) as Hty.
  { intros ns nm. apply bind_Raise; [apply Hreq|intros ns']. apply bind_Raise; [apply Hreq|intros nm']. apply bind_Raise; [apply Hpat|done]. }
  assert (∀ ty i e', mk_ObjectReference ty (JStr i) = Raise e' → e' = ValueError) as Href.
  { intros ty i. apply bind_Raise; [apply Hreq|intros i']. apply bind_Raise; [apply Hpat|done]. }
  revert e. unfold create_relationship. apply bind_Raise; [apply Hty|intros rt]. apply bind_Raise; [apply Href|intros r].
  apply bind_Raise; [apply Hty|intros st]. apply bind_Raise; [apply Href|intros so]. apply bind_Raise.
  - apply bind_Raise; [|done]. destruct sr as [x|]; cbn; [|done]. intros e. case_match; congruence.
  - intros s. apply bind_Raise; [apply Hreq|intros rel']. apply bind_Raise; [by intros e [_ <-]%raise_if_Raise|done].
Qed.

(* ------------------------------------------------------------------ *)
(** * The tuples of a tenant *)

Section access.
Context `{Settings} `{PySetOrder} `{RowOrder}.
Variables (policy_uuid : Z → string) (svc : GlobalPolicyIdService).
Implicit Types (vd : V1Db) (m : TenantMapping) (store : tuples) (a : DefaultAccessType) (s : Scope).

(** The binding of a kind of access at a scope, and the resource it is bound to. *)
Definition rb m a s : string := match default_role_binding_uuid_for m a s with Ok u => u | Raise _ => "" end.
Definition target (org root dflt : string) s : string * string :=
  match s with
  | Scope.TENANT => ("tenant", org_id_to_tenant_resource_id org)
  | Scope.ROOT => ("workspace", root)
  | _ => ("workspace", dflt)
  end.

Definition ta_binding (org root dflt : string) m a s : RelationTuple :=
  rel_tuple ("rbac", fst (target org root dflt s)) (snd (target org root dflt s)) ("rbac", "role_binding") (rb m a s) "binding" None.
Definition ta_role m a s (role : string) : RelationTuple :=
  rel_tuple ("rbac", "role_binding") (rb m a s) ("rbac", "role") role "role" None.
Definition ta_subject m a s : RelationTuple :=
  rel_tuple ("rbac", "role_binding") (rb m a s) ("rbac", "group") (group_uuid_for m a) "subject" (Some "member").
Definition ta_tenant (root org : string) : RelationTuple :=
  rel_tuple ("rbac", "workspace") root ("rbac", "tenant") (org_id_to_tenant_resource_id org) "tenant" None.
Definition ta_platform (org : string) : RelationTuple :=
  rel_tuple ("rbac", "tenant") (org_id_to_tenant_resource_id org) ("rbac", "platform") ENV_NAME "platform" None.

(** The platform roles are seeded and the cache of their ids is up to date. *)
Definition role_of a s vd : result string := platform_v2_role_uuid_for policy_uuid svc a s vd.
Definition seeded vd : Prop := ∀ a s, s ∈ CONCRETE_SCOPES → ∃ u, role_of a s vd = Ok u.

(** The tuples that give a kind of access. *)
Definition gives vd (org root dflt : string) m a (t : RelationTuple) : Prop :=
  ∃ s, s ∈ CONCRETE_SCOPES
  ∧ (t = ta_binding org root dflt m a s ∨ (∃ u, role_of a s vd = Ok u ∧ t = ta_role m a s u) ∨ t = ta_subject m a s).

Lemma concrete_scope s : s ∈ CONCRETE_SCOPES ↔ s ≠ Scope.ALL.
Proof. unfold CONCRETE_SCOPES. rewrite !elem_of_cons, elem_of_nil. destruct s; naive_solver. Qed.

Lemma concrete_rb m a s : s ∈ CONCRETE_SCOPES → default_role_binding_uuid_for m a s = Ok (rb m a s).
Proof. rewrite concrete_scope. unfold rb. by destruct a, s. Qed.

Lemma for_models_Ok tenant root dflt org res s r :
  for_models tenant root dflt = Ok res → org_id tenant = Some org → s ∈ CONCRETE_SCOPES → resource_for res s = Ok r →
  r = mkBound "rbac" (fst (target org (w_id root) (w_id dflt) s)) (snd (target org (w_id root) (w_id dflt) s)).
Proof.
  unfold for_models, for_model, try_for_model, tenant_resource_id, for_workspace_id. intros Hm Ho _ Hr. rewrite Ho in Hm. cbn in Hm.
  inv_ok. repeat match goal with E : mk_V2boundresource _ _ _ = Ok _ |- _ => apply mk_bound_Ok in E; subst end. simplify_eq.
  destruct s; cbn in Hr; inv_ok; done.
Qed.

Lemma scope_tuples_Ok m res a only vd s l tenant root dflt org :
  for_models tenant root dflt = Ok res → org_id tenant = Some org → s ∈ CONCRETE_SCOPES →
  scope_binding_tuples policy_uuid svc m res a only vd s = Ok l →
  let b := ta_binding org (w_id root) (w_id dflt) m a s in
  if only then l = [b] else ∃ u, role_of a s vd = Ok u ∧ l = [b; ta_role m a s u; ta_subject m a s].
Proof.
  intros Hm Ho Hs. unfold scope_binding_tuples. rewrite (concrete_rb _ _ _ Hs). cbn.
  intros (r & Hr & Hl)%bind_Ok. rewrite (for_models_Ok _ _ _ _ _ _ _ Hm Ho Hs Hr) in Hl. cbn [br_namespace br_name br_id] in Hl.
  apply bind_Ok in Hl as (b & [-> _]%create_relationship_spec & Hl). destruct only; [by injection Hl as <-|].
  apply bind_Ok in Hl as (u & Hu & Hl). apply bind_Ok in Hl as (r' & [-> _]%create_relationship_spec & Hl).
  apply bind_Ok in Hl as (s' & [-> _]%create_relationship_spec & [= <-]). eauto.
Qed.

Lemma access_tuples_Ok m res a only vd l tenant root dflt org :
  for_models tenant root dflt = Ok res → org_id tenant = Some org →
  default_role_binding_tuples policy_uuid svc m res a only None vd = Ok l →
  ∀ t, t ∈ l ↔ if only then ∃ s, s ∈ CONCRETE_SCOPES ∧ t = ta_binding org (w_id root) (w_id dflt) m a s
               else gives vd org (w_id root) (w_id dflt) m a t.
Proof.
  intros Hm Ho (ls & Hls%mapM_result_Ok & [= <-])%bind_Ok t. rewrite elem_of_concat.
  assert (∀ s, s ∈ set_iter (list_to_set CONCRETE_SCOPES : gset Scope) ↔ s ∈ CONCRETE_SCOPES) as Hit.
  { intros s. by rewrite elem_of_set_iter, elem_of_list_to_set. }
  assert (∀ s l0, s ∈ CONCRETE_SCOPES → scope_binding_tuples policy_uuid svc m res a only vd s = Ok l0 →
    t ∈ l0 ↔ t = ta_binding org (w_id root) (w_id dflt) m a s
             ∨ only = false ∧ ((∃ u, role_of a s vd = Ok u ∧ t = ta_role m a s u) ∨ t = ta_subject m a s)) as Hone.
  { intros s l0 Hs Hl0. pose proof (scope_tuples_Ok _ _ _ _ _ _ _ _ _ _ _ Hm Ho Hs Hl0) as Hl. cbn in Hl. destruct only.
    - subst l0. rewrite list_elem_of_singleton. naive_solver.
    - destruct Hl as (u & Hu & ->). rewrite !elem_of_cons, elem_of_nil. naive_solver congruence. }
  split.
  - intros (l0 & Ht & (s & Hs%Hit & Hl0)%(Forall2_elem_r _ _ _ _ Hls)). apply (Hone s l0 Hs Hl0) in Ht.
    destruct only; [naive_solver|]. exists s. naive_solver.
  - intros Ht. assert (∃ s, s ∈ CONCRETE_SCOPES ∧ (t = ta_binding org (w_id root) (w_id dflt) m a s
      ∨ only = false ∧ ((∃ u, role_of a s vd = Ok u ∧ t = ta_role m a s u) ∨ t = ta_subject m a s))) as (s & Hs & Hc).
    { destruct only; [naive_solver|]. destruct Ht as (s & Hs & Hc). exists s. naive_solver. }
    destruct (Forall2_elem_l _ _ _ _ Hls (proj2 (Hit s) Hs)) as (l0 & Hin & Hl0). exists l0. split; [|done]. by apply (Hone s l0 Hs Hl0).
Qed.

(** With the roles seeded no access is left out. *)
Lemma seeded_available m res a vd :
  seeded vd → default_role_binding_tuples policy_uuid svc m res a false None vd ≠ Raise DefaultGroupNotAvailableError.
Proof.
  intros Hse Hr. unfold default_role_binding_tuples in Hr.
  destruct (mapM _ _) as [ls|e] eqn:Hls; [done|]. cbn in Hr. injection Hr as ->.
  apply mapM_result_Raise in Hls as (s & Hs%elem_of_set_iter%elem_of_list_to_set & Hr). destruct (Hse a s Hs) as [u Hu].
  unfold role_of in Hu. revert Hr. unfold scope_binding_tuples. rewrite (concrete_rb _ _ _ Hs), Hu. cbn.
  destruct (resource_for res s) as [r|e] eqn:Hrf; [cbn|by destruct s; inversion Hrf; inversion 1].
  repeat match goal with |- context [create_relationship ?a ?b ?c ?d ?e ?f] =>
    let E := fresh in destruct (create_relationship a b c d e f) eqn:E; cbn; [|intros [= ->]; by apply create_relationship_raises in E] end.
  done.
Qed.

(** Who has the default access: admins always, users when the tenant has no default group
    of its own. *)
Definition granted vd (tid : Z) a : Prop := a = ADMIN ∨ tenant_default_groups tid vd = [].

Lemma bootstrap_access_Ok tenant m res vd l root dflt org :
  seeded vd → for_models tenant root dflt = Ok res → org_id tenant = Some org →
  bootstrap_default_access policy_uuid svc tenant m res vd = Ok l →
  ∀ t, t ∈ l ↔ ∃ a, granted vd (t_id tenant) a ∧ gives vd org (w_id root) (w_id dflt) m a t.
Proof.
  intros Hse Hm Ho (lu & Hu & Hl)%bind_Ok t. apply bind_Ok in Hl as (la & Ha & [= <-]).
  assert (∀ a x, if_available (default_role_binding_tuples policy_uuid svc m res a false None vd) = Ok x →
    t ∈ x ↔ gives vd org (w_id root) (w_id dflt) m a t) as Hav.
  { intros a x Hx. pose proof (seeded_available m res a vd Hse) as Hn. apply (access_tuples_Ok m res a false vd x tenant); try done.
    revert Hx Hn. unfold if_available. destruct (default_role_binding_tuples policy_uuid svc m res a false None vd) as [y|[]]; congruence. }
  rewrite elem_of_app, (Hav ADMIN la Ha). unfold granted. destruct (tenant_default_groups (t_id tenant) vd) as [|g gs].
  - rewrite (Hav USER lu Hu). split; [intros [?|?]; eauto|]. intros ([] & _ & ?); auto.
  - injection Hu as <-. rewrite elem_of_nil. split; [intros [[]|?]; eauto|]. intros (x & [->|?] & ?); [auto|done].
Qed.

(* ------------------------------------------------------------------ *)
(** * The invariant *)

(** The rows of a bootstrapped tenant. *)
Record tenant_rows vd (tid : Z) m (tenant : Tenant) (org : string) (root dflt : Workspace) : Prop := {
  tr_mapping : db_mappings (v1_db vd) !! tid = Some m;
  tr_tenant : db_tenants (v1_db vd) !! tid = Some tenant;
  tr_org : org_id tenant = Some org;
  tr_root : db_workspaces (v1_db vd) !! w_id root = Some root ∧ w_type root = ROOT_WS ∧ w_tenant root = tid;
  tr_default : db_workspaces (v1_db vd) !! w_id dflt = Some dflt ∧ w_type dflt = DEFAULT_WS ∧ w_tenant dflt = tid;
}.

Lemma tenant_rows_same vd tid m tn o r d m' tn' o' r' d' :
  tenant_rows vd tid m tn o r d → tenant_rows vd tid m' tn' o' r' d' → m' = m ∧ tn' = tn ∧ o' = o.
Proof.
  intros [A B C _ _] [A' B' C' _ _]. rewrite A in A'. rewrite B in B'. injection A' as <-. injection B' as <-. split; [done|]. split; congruence.
Qed.

(** The store places every bootstrapped tenant on the platform and has each binding of
    the default access on its resource exactly when the access is granted, with its role
    and its group. *)
Definition access_ok vd store : Prop := ∀ tid m tenant org root dflt, tenant_rows vd tid m tenant org root dflt →
  ta_tenant (w_id root) org ∈ store ∧ ta_platform org ∈ store
  ∧ ∀ a s, s ∈ CONCRETE_SCOPES →
      (ta_binding org (w_id root) (w_id dflt) m a s ∈ store ↔ granted vd tid a)
      ∧ (granted vd tid a → ta_subject m a s ∈ store ∧ ∃ u, role_of a s vd = Ok u ∧ ta_role m a s u ∈ store).

(** Keys, and binding ids that no two bindings share. *)
Record bootstrap_keys vd : Prop := {
  bk_workspaces i w : db_workspaces (v1_db vd) !! i = Some w → w_id w = i;
  bk_tenants k t : db_tenants (v1_db vd) !! k = Some t → t_id t = k;
}.
Definition distinct_bindings vd : Prop := ∀ k1 m1 a1 s1 k2 m2 a2 s2,
  db_mappings (v1_db vd) !! k1 = Some m1 → db_mappings (v1_db vd) !! k2 = Some m2 → s1 ∈ CONCRETE_SCOPES → s2 ∈ CONCRETE_SCOPES →
  rb m1 a1 s1 = rb m2 a2 s2 → k1 = k2 ∧ a1 = a2 ∧ s1 = s2.

(** What bootstrapping adds to the tables. *)
Definition new_tenant_tuple vd tid (t : RelationTuple) : Prop := ∃ m tenant org root dflt,
  tenant_rows vd tid m tenant org root dflt
  ∧ (t = t_parent (w_id dflt) (w_id root) ∨ t = ta_tenant (w_id root) org ∨ t = ta_platform org
     ∨ ∃ a, granted vd tid a ∧ gives vd org (w_id root) (w_id dflt) m a t).

Record bootstrapped (ids : Z → BootstrapIds) vd vd' (tids : list Z) (rels : list RelationTuple) : Prop := {
  bs_only : vd' = with_db (λ d, with_mappings (λ _, db_mappings (v1_db vd'))
                                  (with_workspaces (λ _, db_workspaces (v1_db vd')) d)) vd;
  bs_new tid : tid ∈ tids → db_mappings (v1_db vd) !! tid = None ∧ ∃ m tenant org root dflt,
    tenant_rows vd' tid m tenant org root dflt ∧ w_parent dflt = Some (w_id root) ∧ w_parent root = None
    ∧ (∀ a s, rb m a s = rb (bi_mapping (ids tid)) a s)
    ∧ ∀ root' dflt', tenant_rows vd' tid m tenant org root' dflt' → root' = root ∧ dflt' = dflt;
  bs_mappings k m : db_mappings (v1_db vd') !! k = Some m → k ∈ tids ∨ db_mappings (v1_db vd) !! k = Some m;
  bs_workspaces i w : db_workspaces (v1_db vd') !! i = Some w → db_workspaces (v1_db vd) !! i = Some w
    ∨ w_tenant w ∈ tids ∧ w_id w = i ∧ ∃ m tenant org root dflt, tenant_rows vd' (w_tenant w) m tenant org root dflt ∧ (w = root ∨ w = dflt);
  bs_kept : db_mappings (v1_db vd) ⊆ db_mappings (v1_db vd') ∧ db_workspaces (v1_db vd) ⊆ db_workspaces (v1_db vd');
  bs_rels t : t ∈ rels ↔ ∃ tid, tid ∈ tids ∧ new_tenant_tuple vd' tid t;
}.

Lemma hierarchy_Ok dflt root org l :
  built_in_hierarchy_tuples dflt root org = Ok l → ∃ o, org = Some o ∧ l = [t_parent dflt root; ta_tenant root o; ta_platform o].
Proof.
  intros (tid & Ht%or_raise_Ok & Hl)%bind_Ok. destruct org as [o|]; [|done]. injection Ht as <-. exists o. split; [done|].
  apply bind_Ok in Hl as (p & [-> _]%create_relationship_spec & Hl). apply bind_Ok in Hl as (q & [-> _]%create_relationship_spec & Hl).
  by apply bind_Ok in Hl as (r & [-> _]%create_relationship_spec & [= <-]).
Qed.

Lemma new_mapping_rb ids tid g a s : rb (new_mapping ids tid g) a s = rb (bi_mapping ids) a s.
Proof. by destruct a, s. Qed.

Section bootstrap.
Variable ids : Z → BootstrapIds.

(** The rows that a tenant gets. *)
Definition the_root (tenant : Tenant) : Workspace :=
  mkWorkspace (bi_root (ids (t_id tenant))) "Root Workspace" (special_description ROOT_WS) None ROOT_WS (t_id tenant).
Definition the_default (tenant : Tenant) : Workspace :=
  mkWorkspace (bi_default (ids (t_id tenant))) "Default Workspace" (special_description DEFAULT_WS)
    (Some (bi_root (ids (t_id tenant)))) DEFAULT_WS (t_id tenant).
Definition the_mapping vd (tenant : Tenant) : TenantMapping :=
  new_mapping (ids (t_id tenant)) (t_id tenant) (head (tenant_default_groups (t_id tenant) vd)).

Lemma prepare_Ok vd loaded prepared :
  mapM (prepare_tenant ids vd) loaded = Ok prepared →
  prepared = map (λ tenant, (tenant, the_mapping vd tenant, the_root tenant, the_default tenant,
    match org_id tenant with
    | Some org => [t_parent (w_id (the_default tenant)) (w_id (the_root tenant)); ta_tenant (w_id (the_root tenant)) org; ta_platform org]
    | None => []
    end)) loaded
  ∧ ∀ tenant, tenant ∈ loaded → is_Some (org_id tenant).
Proof.
  intros Hp%mapM_result_Ok. induction Hp as [|tenant y loaded prepared Hy _ [-> IH]]; [split; [done|by intros ? ?%elem_of_nil]|].
  unfold prepare_tenant in Hy. apply bind_Ok in Hy as ([[root dflt] l] & Hy & [= <-]). unfold built_in_workspaces in Hy.
  apply bind_Ok in Hy as (h & (o & Ho & ->)%hierarchy_Ok & [= <- <- <-]). split; [cbn; by rewrite Ho|].
  intros t [->|Hin]%elem_of_cons; [by rewrite Ho|auto].
Qed.

Lemma fresh_tenants_Ok tenants vd loaded :
  fresh_tenants tenants vd = Ok loaded → bootstrap_keys vd →
  (∀ tenant, tenant ∈ loaded → db_tenants (v1_db vd) !! t_id tenant = Some tenant) ∧ ∀ k, k ∈ map t_id loaded ↔ k ∈ map t_id tenants.
Proof.
  intros (u & Hlen%raise_if_Ok%negb_false_iff%Nat.eqb_eq & [= <-])%bind_Ok Hk. set (loaded := select _ _) in *.
  assert (∀ tenant, tenant ∈ loaded → t_id tenant ∈ map t_id tenants ∧ db_tenants (v1_db vd) !! t_id tenant = Some tenant) as Hl.
  { intros tenant (Hb%bool_decide_eq_true & k & Hrow)%elem_of_select. split; [done|]. by rewrite (bk_tenants _ Hk _ _ Hrow). }
  split; [intros tenant Hin; by apply Hl|]. assert (map t_id loaded ⊆ map t_id tenants) as Hsub.
  { intros k (t & -> & Hin)%list_elem_of_fmap. by apply Hl. }
  assert (NoDup (map t_id loaded)) as Hnd.
  { apply NoDup_map_filter. assert (map snd (row_order (db_tenants (v1_db vd))) ≡ₚ map snd (map_to_list (db_tenants (v1_db vd)))) as ->.
    { apply Permutation_map, row_order_perm. }
    rewrite map_map. replace (map _ _) with (map fst (map_to_list (db_tenants (v1_db vd)))); [apply NoDup_fst_map_to_list|].
    apply map_ext_in. intros [k t] Hin. cbn. symmetry. apply (bk_tenants _ Hk). by apply elem_of_map_to_list, list_elem_of_In. }
  intros k. split; [apply Hsub|]. intros Hin. rewrite list_elem_of_In. eapply NoDup_length_incl; [by apply NoDup_ListNoDup| | |by apply list_elem_of_In].
  - rewrite !length_map. fold loaded in Hlen. lia.
  - intros x. rewrite <- !list_elem_of_In. apply Hsub.
Qed.

(** The database that bootstrapping leaves, table by table. *)
Lemma bulk_rows vd loaded d1 d2 :
  foldM insert_workspace (v1_db vd) (map the_default loaded ++ map the_root loaded) = Ok d1 →
  foldM insert_mapping d1 (map (the_mapping vd) loaded) = Ok d2 → bootstrap_keys vd →
  (∀ tenant, tenant ∈ loaded → db_tenants (v1_db vd) !! t_id tenant = Some tenant ∧ is_Some (org_id tenant)) →
  let vd2 := with_db (λ _, d2) vd in
  vd2 = with_db (λ d, with_mappings (λ _, db_mappings d2) (with_workspaces (λ _, db_workspaces d2) d)) vd
  ∧ (∀ tenant, tenant ∈ loaded → db_mappings (v1_db vd) !! t_id tenant = None)
  ∧ (∀ tenant org, tenant ∈ loaded → org_id tenant = Some org →
       tenant_rows vd2 (t_id tenant) (the_mapping vd tenant) tenant org (the_root tenant) (the_default tenant)
       ∧ ∀ m tn o root' dflt', tenant_rows vd2 (t_id tenant) m tn o root' dflt' →
           m = the_mapping vd tenant ∧ tn = tenant ∧ o = org ∧ root' = the_root tenant ∧ dflt' = the_default tenant)
  ∧ (∀ k m, db_mappings d2 !! k = Some m → k ∈ map t_id loaded ∨ db_mappings (v1_db vd) !! k = Some m)
  ∧ (∀ i w, db_workspaces d2 !! i = Some w →
       (w_id w = i ∧ ∃ tenant, tenant ∈ loaded ∧ (w = the_root tenant ∨ w = the_default tenant)) ∨ db_workspaces (v1_db vd) !! i = Some w)
  ∧ db_mappings (v1_db vd) ⊆ db_mappings d2 ∧ db_workspaces (v1_db vd) ⊆ db_workspaces d2.
Proof.
  intros Hw Hm Hk Hrows vd2. apply insert_workspaces_Ok in Hw as (E1 & Hl1 & Hone); [|apply Hk].
  apply insert_mappings_Ok in Hm as (E2 & Hnew & Hl2). rewrite E1 in Hnew. cbn in Hnew.
  assert (db_workspaces d2 = db_workspaces d1 ∧ db_tenants d2 = db_tenants (v1_db vd)) as [Ew Et] by (by rewrite E2, E1).
  assert (∀ tenant, tenant ∈ loaded → the_default tenant ∈ map the_default loaded ++ map the_root loaded
    ∧ the_root tenant ∈ map the_default loaded ++ map the_root loaded) as Hin.
  { intros tenant Ht. rewrite !elem_of_app, !list_elem_of_fmap. split; [left|right]; eauto. }
  assert (∀ tenant, tenant ∈ loaded → db_mappings d2 !! t_id tenant = Some (the_mapping vd tenant)) as Hmap.
  { intros tenant Ht. apply Hl2. right. split; [|done]. apply list_elem_of_fmap. eauto. }
  split_and!.
  - unfold vd2, with_db. cbn. f_equal. by rewrite E2, E1.
  - intros tenant Ht. apply (Hnew (the_mapping vd tenant)), list_elem_of_fmap. eauto.
  - intros tenant org Ht Ho. destruct (Hrows _ Ht) as [Hrow _]. destruct (Hin _ Ht) as [Hd Hr].
    assert (∀ i w w', w ∈ map the_default loaded ++ map the_root loaded → w_type w ≠ STANDARD →
      db_workspaces (v1_db vd2) !! i = Some w' → w_type w' = w_type w → w_tenant w' = w_tenant w → w' = w) as Huniq.
    { intros i w w' Hi Hs Hx. cbn in Hx. rewrite Ew in Hx. by eapply Hone. }
    split.
    + split; cbn; rewrite ?Ew, ?Et; [by apply Hmap|done|done| |]; (split; [apply Hl1; right; by split|done]).
    + intros m tn o root' dflt' [Rm Rt Ro (Rr & Rrt & Rrn) (Rd & Rdt & Rdn)]. cbn in Rm, Rt. rewrite Hmap in Rm by done. rewrite Et, Hrow in Rt.
      injection Rm as <-. injection Rt as <-. rewrite Ho in Ro. injection Ro as <-. split_and!; try done.
      * eapply Huniq; [exact Hr|done|exact Rr|done|done].
      * eapply Huniq; [exact Hd|done|exact Rd|done|done].
  - intros k m [?|[(t & -> & Ht)%list_elem_of_fmap <-]]%Hl2; [right; by rewrite E1 in *|left]. apply list_elem_of_fmap. eauto.
  - intros i w. rewrite Ew. intros [?|[Hi <-]]%Hl1; [by right|left]. split; [done|]. rewrite elem_of_app, !list_elem_of_fmap in Hi.
    destruct Hi as [(t & -> & Ht)|(t & -> & Ht)]; eauto.
  - apply map_subseteq_spec. intros k m Hkm. apply Hl2. left. by rewrite E1.
  - apply map_subseteq_spec. intros i w Hi. rewrite Ew. apply Hl1. by left.
Qed.

Lemma bootstrap_rows tenants vd vd' bs rels :
  bootstrap_tenants_no_replicate policy_uuid svc ids tenants vd = Ok (vd', bs, rels) → seeded vd → bootstrap_keys vd →
  bootstrapped ids vd vd' (map t_id tenants) rels.
Proof.
  intros (u & _ & Hr)%bind_Ok Hse Hk. apply bind_Ok in Hr as (loaded & [Hrow Hids]%fresh_tenants_Ok & Hr); [|done].
  apply bind_Ok in Hr as (prepared & [-> Horg]%prepare_Ok & Hr). rewrite !map_map in Hr.
  apply bind_Ok in Hr as (d1 & Hd1 & Hr). apply bind_Ok in Hr as (d2 & Hd2 & Hr). apply bind_Ok in Hr as (g & Hg & Heq).
  injection Heq as <- <- <-.
  destruct (bulk_rows vd loaded d1 d2 Hd1 Hd2 Hk) as (E & Hnone & Hten & Hmap & Hws & Hkept); [auto|].
  set (vd2 := with_db (λ _, d2) vd) in *.
  assert (seeded vd2) as Hse2 by (intros a s Hs; rewrite E; exact (Hse a s Hs)).
  apply mapM_result_Ok in Hg. rewrite Forall2_fmap_l in Hg.
  assert (∀ tenant org y, tenant ∈ loaded → org_id tenant = Some org → grant_tenant policy_uuid svc vd2 tenant (the_root tenant) (the_default tenant) = Ok y →
    ∀ t, t ∈ snd y ↔ ∃ a, granted vd2 (t_id tenant) a ∧ gives vd2 org (w_id (the_root tenant)) (w_id (the_default tenant)) (the_mapping vd tenant) a t) as Hgrant.
  { intros tenant org y Ht Ho Hy t. destruct (Hten _ _ Ht Ho) as [Hrows _]. unfold grant_tenant in Hy. rewrite (tr_mapping _ _ _ _ _ _ _ Hrows) in Hy. cbn in Hy.
    apply bind_Ok in Hy as (res & Hres & Hy). apply bind_Ok in Hy as (l & Hl & [= <-]). by eapply bootstrap_access_Ok. }
  split.
  - exact E.
  - intros tid (tenant & -> & Ht)%Hids%list_elem_of_fmap. split; [by apply Hnone|]. destruct (Horg _ Ht) as [org Ho].
    destruct (Hten _ _ Ht Ho) as [Hrows Huniq]. eexists _, tenant, org, _, _. split; [exact Hrows|].
    split; [done|]. split; [done|]. split; [intros a s; apply new_mapping_rb|]. intros root' dflt' Hr'. apply Huniq in Hr'. tauto.
  - intros k m Hm. rewrite <- Hids. by apply Hmap.
  - intros i w [(Ei & tenant & Ht & Hw)|?]%Hws; [right|by left]. destruct (Horg _ Ht) as [org Ho]. destruct (Hten _ _ Ht Ho) as [Hrows _].
    assert (w_tenant w = t_id tenant) as -> by (by destruct Hw as [->| ->]). split; [apply Hids, list_elem_of_fmap; eauto|].
    split; [done|]. by eexists _, tenant, org, _, _.
  - done.
  - intros t. rewrite elem_of_app, !elem_of_concat. split.
    + intros [(l & Hin & (tenant & -> & Ht)%list_elem_of_fmap)|(l & Hin & (y & -> & (tenant & Ht & Hy)%(Forall2_elem_r _ _ _ _ Hg))%list_elem_of_fmap)];
        (exists (t_id tenant); split; [apply Hids, list_elem_of_fmap; eauto|]); destruct (Horg _ Ht) as [org Ho];
        destruct (Hten _ _ Ht Ho) as [Hrows _]; eexists _, tenant, org, _, _; (split; [exact Hrows|]).
      * cbn in Hin. rewrite Ho, !elem_of_cons, elem_of_nil in Hin. tauto.
      * right. right. right. by apply (Hgrant _ _ _ Ht Ho Hy).
    + intros (tid & (tenant & -> & Ht)%Hids%list_elem_of_fmap & m & tn & o & root & dflt & Hrows & Hc). destruct (Horg _ Ht) as [org Ho].
      destruct (Hten _ _ Ht Ho) as [_ Huniq]. apply Huniq in Hrows as (-> & -> & -> & -> & ->).
      destruct (Forall2_elem_l _ _ _ _ Hg Ht) as (y & Hy & Hyt). destruct Hc as [Hc|[Hc|[Hc|Hc]]].
      4:{ right. exists (snd y). split; [by apply (Hgrant _ _ _ Ht Ho Hyt)|apply list_elem_of_fmap; eauto]. }
      all: left; eexists; (split; [|apply list_elem_of_fmap; eexists; split; [reflexivity|exact Ht]]); cbn; rewrite Ho, !elem_of_cons; tauto.
Qed.

Lemma new_tuple_binding vd tid o r d m a s :
  new_tenant_tuple vd tid (ta_binding o r d m a s) →
  ∃ m' a' s', db_mappings (v1_db vd) !! tid = Some m' ∧ granted vd tid a' ∧ s' ∈ CONCRETE_SCOPES ∧ rb m a s = rb m' a' s'.
Proof.
  intros (m' & tn & org & root & dflt & Hrows & [E|[E|[E|(a' & Hg & s' & Hs & [E|[(u & _ & E)|E]])]]]); try discriminate E.
  exists m', a', s'. split; [apply Hrows|]. split; [done|]. split; [done|]. unfold ta_binding, rel_tuple in E. by injection E.
Qed.

(** A tuple of the default access of a tenant; apart from these the store has the tuples of
    the rows, and the workspaces of bootstrapped tenants are nested. *)
Definition default_tuple vd (t : RelationTuple) : Prop :=
  (∃ root org, t = ta_tenant root org) ∨ (∃ org, t = ta_platform org)
  ∨ ∃ k m a s, db_mappings (v1_db vd) !! k = Some m ∧ s ∈ CONCRETE_SCOPES
      ∧ ((∃ org root dflt, t = ta_binding org root dflt m a s) ∨ (∃ u, t = ta_role m a s u) ∨ t = ta_subject m a s).
Definition mirrored vd store : Prop := ∀ t, ¬ default_tuple vd t → t ∈ store ↔ t ∈ rows_graph vd.
Definition rooted vd : Prop := ∀ tid m tenant org root dflt, tenant_rows vd tid m tenant org root dflt → w_parent dflt = Some (w_id root).

Lemma bootstrapped_rooted vd vd' tids rels : bootstrapped ids vd vd' tids rels → rooted vd → rooted vd'.
Proof.
  intros [E Hnew Hmap Hws _ _] Hro tid m tenant org root dflt Hrows. destruct (decide (tid ∈ tids)) as [Hin|Hin].
  - destruct (Hnew _ Hin) as (_ & m' & tn & o & root' & dflt' & Hrows' & Hp & _ & _ & Huniq).
    destruct (tenant_rows_same _ _ _ _ _ _ _ _ _ _ _ _ Hrows Hrows') as (-> & -> & ->).
    by destruct (Huniq _ _ Hrows) as [-> ->].
  - apply (Hro tid m tenant org). destruct Hrows as [A B C (D & Dt & Dn) (F & Ft & Fn)]. split; [destruct (Hmap _ _ A); done|by rewrite E in B|done| |];
      (split; [|done]); [destruct (Hws _ _ D) as [|[? _]]|destruct (Hws _ _ F) as [|[? _]]]; congruence.
Qed.

Lemma new_tuple_mirrored vd tid t :
  new_tenant_tuple vd tid t → rooted vd → ¬ default_tuple vd t → t ∈ parents_graph (v1_db vd).
Proof.
  intros (m & tn & org & root & dflt & Hrows & Hc) Hro Hd. destruct Hc as [->|[->|[->|(a & _ & s & Hs & Hc)]]].
  - apply elem_of_parents_graph. exists (w_id dflt), (w_id root). split; [|done]. apply parent_of_Some. exists dflt. split; [apply Hrows|by eapply Hro].
  - destruct Hd. left. eauto.
  - destruct Hd. right. left. eauto.
  - destruct Hd. right. right. exists tid, m, a, s. split; [apply Hrows|]. split; [done|]. destruct Hc as [->|[(u & _ & ->)| ->]]; eauto 10.
Qed.

Lemma bootstrapped_mirrored vd vd' tids rels store :
  bootstrapped ids vd vd' tids rels → rooted vd' → mirrored vd store → mirrored vd' (list_to_set rels ∪ store).
Proof.
  intros Hb Hro Hmir t Hd. rewrite elem_of_union, elem_of_list_to_set. pose proof (bs_only _ _ _ _ _ Hb) as E.
  destruct (bs_kept _ _ _ _ _ Hb) as [Km Kw]. rewrite (Hmir t).
  2:{ intros [?|[?|(k & m & a & s & Hm & ?)]]; apply Hd; [by left|by right; left|]. right. right. exists k, m, a, s. split; [by eapply lookup_weaken|done]. }
  unfold rows_graph. rewrite !elem_of_union. assert (v1_graph vd' = v1_graph vd ∧ members_graph vd' = members_graph vd) as [-> ->] by (by rewrite E).
  assert (t ∈ parents_graph (v1_db vd') ↔ t ∈ rels ∨ t ∈ parents_graph (v1_db vd)) as ->; [|tauto]. split.
  - rewrite !elem_of_parents_graph. setoid_rewrite parent_of_Some. intros (i & p & (w & Hw & Hp) & ->).
    destruct (bs_workspaces _ _ _ _ _ Hb _ _ Hw) as [Hold|(Hin & Ei & m & tn & org & root & dflt & Hrows & Hc)]; [right; eauto 10|left].
    destruct (bs_new _ _ _ _ _ Hb _ Hin) as (_ & m' & tn' & o' & root' & dflt' & Hrows' & Hpd & Hpr & _ & Huniq).
    destruct (tenant_rows_same _ _ _ _ _ _ _ _ _ _ _ _ Hrows Hrows') as (-> & -> & ->).
    destruct (Huniq _ _ Hrows) as [-> ->]. destruct Hc as [->| ->]; [congruence|]. rewrite Hpd in Hp. injection Hp as <-.
    apply (bs_rels _ _ _ _ _ Hb). exists (w_tenant dflt'). split; [done|]. exists m, tn, org, root', dflt'. split; [done|]. left. by rewrite Ei.
  - intros [(tid & _ & Hn)%(bs_rels _ _ _ _ _ Hb)|Ht]; [by eapply new_tuple_mirrored|].
    rewrite elem_of_parents_graph in *. setoid_rewrite parent_of_Some. setoid_rewrite parent_of_Some in Ht. destruct Ht as (i & p & (w & Hw & Hp) & ->).
    exists i, p. split; [|done]. exists w. split; [by eapply lookup_weaken|done].
Qed.

(** The bindings of roles have other ids than those of the default access. *)
Definition apart vd : Prop := ∀ pk b k m a s,
  v1_bm vd !! pk = Some b → db_mappings (v1_db vd) !! k = Some m → s ∈ CONCRETE_SCOPES → bm_id b ≠ rb m a s.

Lemma mapping_no_default vd b t :
  t ∈ mapping_tuples b → (∀ k m a s, db_mappings (v1_db vd) !! k = Some m → s ∈ CONCRETE_SCOPES → bm_id b ≠ rb m a s) → ¬ default_tuple vd t.
Proof.
  rewrite elem_of_mapping_tuples. intros Ht Hne [(root & org & ->)|[(org & ->)|(k & m & a & s & Hm & Hs & Hd)]].
  1,2: by destruct Ht as [E|[(q & _ & E)|[E|[(x & _ & E)|(x & _ & E)]]]].
  apply (Hne k m a s Hm Hs). destruct Hd as [(o & r & d & ->)|[(u & ->)| ->]], Ht as [E|[(q & _ & E)|[E|[(x & _ & E)|(x & _ & E)]]]]; try discriminate E;
    unfold ta_binding, ta_role, ta_subject, vt_role, vt_perm, vt_resource, vt_group, vt_user, rel_tuple in E; injection E; intros; congruence.
Qed.

Lemma graph_no_default vd t : apart vd → t ∈ v1_graph vd → ¬ default_tuple vd t.
Proof.
  intros Hap [(pk & b & Hb & Ht)|Ht]%elem_of_v1_graph.
  - eapply mapping_no_default; [exact Ht|]. intros k m a s. by apply (Hap pk).
  - apply elem_of_owners_graph in Ht as (i & r & _ & _ & (tn & x & _ & _ & ->)%elem_of_owner_tuples).
    intros [(? & ? & E)|[(? & E)|(k & m & a & s & _ & _ & [(? & ? & ? & E)|[(? & E)|E]])]]; discriminate E.
Qed.

Lemma rows_no_default vd t : apart vd → t ∈ rows_graph vd → ¬ default_tuple vd t.
Proof.
  intros Hap. unfold rows_graph. rewrite !elem_of_union. intros [[Ht|Ht]|Ht]; [|by apply graph_no_default|].
  - apply elem_of_parents_graph in Ht as (i & p & _ & ->).
    intros [(? & ? & E)|[(? & E)|(k & m & a & s & _ & _ & [(? & ? & ? & E)|[(? & E)|E]])]]; discriminate E.
  - apply elem_of_members_graph in Ht as (gid & pid & g & p & u & _ & _ & _ & _ & ->).
    intros [(? & ? & E)|[(? & E)|(k & m & a & s & _ & _ & [(? & ? & ? & E)|[(? & E)|E]])]]; discriminate E.
Qed.

(** The ids of new bindings are not in the store yet. *)
Definition unused_ids vd store : Prop := ∀ t tid a s,
  t ∈ store → db_mappings (v1_db vd) !! tid = None → relation t = "binding" → s ∈ CONCRETE_SCOPES → oid (subj (subject t)) ≠ rb (bi_mapping (ids tid)) a s.

Lemma bootstrapped_access vd vd' tids rels store :
  bootstrapped ids vd vd' tids rels → seeded vd → access_ok vd store → distinct_bindings vd' → unused_ids vd store →
  access_ok vd' (list_to_set rels ∪ store).
Proof.
  intros [E Hnew Hmap Hws _ Hrels] Hse Hok Hdist Hun tid m tenant org root dflt Hrows.
  assert (∀ a s, role_of a s vd' = role_of a s vd) as Erole by (intros a s; by rewrite E).
  assert (∀ a, granted vd' tid a ↔ granted vd tid a) as Egr by (intros a; by rewrite E).
  setoid_rewrite elem_of_union. setoid_rewrite elem_of_list_to_set. setoid_rewrite Hrels.
  destruct (decide (tid ∈ tids)) as [Hin|Hin].
  - destruct (Hnew _ Hin) as (Hnone & m' & tn & o & root' & dflt' & Hrows' & _ & _ & Hrb & Huniq).
    destruct (tenant_rows_same _ _ _ _ _ _ _ _ _ _ _ _ Hrows Hrows') as (-> & -> & ->).
    destruct (Huniq _ _ Hrows) as [-> ->].
    assert (∀ t, (t = ta_tenant (w_id root') org ∨ t = ta_platform org ∨ ∃ a, granted vd' tid a ∧ gives vd' org (w_id root') (w_id dflt') m a t) →
      (∃ k, k ∈ tids ∧ new_tenant_tuple vd' k t) ∨ t ∈ store) as Hadd.
    { intros t Ht. left. exists tid. split; [done|]. exists m, tenant, org, root', dflt'. split; [done|]. tauto. }
    split_and!; [auto|auto|]. intros a s Hs. split; [split|].
    + intros [(k & Hk & (m2 & a2 & s2 & Hm2 & Hg & Hs2 & Er)%new_tuple_binding)|Ht].
      * destruct (Hdist _ _ _ _ _ _ _ _ (tr_mapping _ _ _ _ _ _ _ Hrows) Hm2 Hs Hs2 Er) as (<- & <- & <-). done.
      * exfalso. refine (Hun _ tid a s Ht Hnone _ Hs _); [done|]. by rewrite <- Hrb.
    + intros Hg. apply Hadd. right. right. exists a. split; [done|]. exists s. auto.
    + intros Hg. destruct (Hse a s Hs) as [u Hu]. rewrite <- Erole in Hu.
      split; [|exists u; split; [done|]]; apply Hadd; right; right; exists a; (split; [done|]); exists s; (split; [done|]); [auto|].
      right. left. eauto.
  - assert (tenant_rows vd tid m tenant org root dflt) as Hold.
    { destruct Hrows as [A B C (D & Dt & Dn) (F & Ft & Fn)]. split; [destruct (Hmap _ _ A); done| by rewrite E in B | done | |];
        (split; [|done]); [destruct (Hws _ _ D) as [|[? _]]|destruct (Hws _ _ F) as [|[? _]]]; congruence. }
    destruct (Hok _ _ _ _ _ _ Hold) as (Ht & Hp & Hacc). split_and!; [auto|auto|]. intros a s Hs. destruct (Hacc a s Hs) as [Hb Hg].
    rewrite Egr, <- Hb, Erole. split; [split; [|auto]|].
    + intros [(k & Hk & (m2 & a2 & s2 & Hm2 & _ & Hs2 & Er)%new_tuple_binding)|?]; [|done]. exfalso.
      destruct (Hdist _ _ _ _ _ _ _ _ (tr_mapping _ _ _ _ _ _ _ Hrows) Hm2 Hs Hs2 Er) as (<- & _). done.
    + intros [? (u & ? & ?)]%Hb%Hg. split; [by right|]. exists u. split; [done|by right].
Qed.

(** Tuples of bootstrapped tenants that are written again change nothing. *)
Lemma access_ok_add vd rels store :
  access_ok vd store → distinct_bindings vd → (∀ t, t ∈ rels → ∃ tid, new_tenant_tuple vd tid t) → access_ok vd (list_to_set rels ∪ store).
Proof.
  intros Hok Hdist Hnew tid m tenant org root dflt Hrows. destruct (Hok _ _ _ _ _ _ Hrows) as (Ht & Hp & Hacc).
  setoid_rewrite elem_of_union. setoid_rewrite elem_of_list_to_set. split_and!; [auto|auto|].
  intros a s Hs. destruct (Hacc a s Hs) as [Hb Hg]. split.
  - rewrite <- Hb. split; [|auto]. intros [[k (m2 & a2 & s2 & Hm2 & Hgr & Hs2 & Er)%new_tuple_binding]%Hnew|?]; [|done].
    destruct (Hdist _ _ _ _ _ _ _ _ (tr_mapping _ _ _ _ _ _ _ Hrows) Hm2 Hs Hs2 Er) as (<- & <- & <-). by apply Hb.
  - intros [? (u & ? & ?)]%Hg. split; [by right|]. exists u. split; [done|by right].
Qed.

Lemma send_events_effect entries rels bulk forced es ws :
  send_bootstrap_events entries rels bulk forced = Ok (es, ws) → ∀ store, replay store es = Ok (list_to_set rels ∪ store).
Proof.
  intros (u & _ & Hr)%bind_Ok store. apply bind_Ok in Hr as (v & Hlen%raise_if_Ok%negb_false_iff%eqb_prop & Hr).
  destruct entries as [|[first w] entries].
  - injection Hr as <- <-. symmetry in Hlen. apply Nat.eqb_eq, nil_length_inv in Hlen as ->. unfold replay. cbn. f_equal. set_solver.
  - apply bind_Ok in Hr as (ev & Hev & Hr). apply bind_Ok in Hr as (wse & _ & [= <- <-]).
    rewrite (outbox_emit_accepted _ _ Hev). cbn. f_equal. set_solver.
Qed.

Lemma replicate_tenant_Ok vd tenant m y :
  replicate_tenant policy_uuid svc vd (tenant, m) = Ok y → seeded vd → bootstrap_keys vd →
  db_mappings (v1_db vd) !! t_id tenant = Some m → db_tenants (v1_db vd) !! t_id tenant = Some tenant →
  ∀ t, t ∈ snd y → new_tenant_tuple vd (t_id tenant) t.
Proof.
  intros Hr Hse Hk Hm Htn t. unfold replicate_tenant in Hr.
  apply bind_Ok in Hr as (root & Hroot%or_raise_Ok & Hr). apply bind_Ok in Hr as (dflt & Hdflt%or_raise_Ok & Hr).
  apply bind_Ok in Hr as (h & (org & Ho & ->)%hierarchy_Ok & Hr). apply bind_Ok in Hr as (res & Hres & Hr).
  apply bind_Ok in Hr as (l & Hl & Hr). apply bind_Ok in Hr as ([? w] & _ & [= <-]). cbn [snd].
  assert (∀ ty w, last (select (λ w, Z.eqb (w_tenant w) (t_id tenant) && bool_decide (w_type w = ty)) (db_workspaces (v1_db vd))) = Some w →
    db_workspaces (v1_db vd) !! w_id w = Some w ∧ w_type w = ty ∧ w_tenant w = t_id tenant) as Hws.
  { intros ty x ([Hx1%Z.eqb_eq Hx2%bool_decide_eq_true]%andb_true_iff & k & Hx)%last_Some_elem_of%elem_of_select.
    by rewrite (bk_workspaces _ Hk _ _ Hx). }
  rewrite !elem_of_cons. intros Ht. exists m, tenant, org, root, dflt. split; [split; auto|].
  destruct Ht as [->|[->|[->|Ht]]]; [tauto..|]. right. right. right. by eapply bootstrap_access_Ok in Ht.
Qed.

Lemma bootstrapped_lift vd vd' tids rels tid t :
  bootstrapped ids vd vd' tids rels → new_tenant_tuple vd tid t → new_tenant_tuple vd' tid t.
Proof.
  intros [E _ _ _ [Km Kw] _] (m & tn & org & root & dflt & [A B C (D & D1 & D2) (F & F1 & F2)] & Hc).
  exists m, tn, org, root, dflt. split.
  - split; [by eapply lookup_weaken|by rewrite E|done| |]; (split; [by eapply lookup_weaken|done]).
  - assert (∀ a, granted vd' tid a ↔ granted vd tid a) as Eg by (intros a; by rewrite E).
    assert (∀ a, gives vd' org (w_id root) (w_id dflt) m a t ↔ gives vd org (w_id root) (w_id dflt) m a t) as Ev by (intros a; by rewrite E).
    setoid_rewrite Eg. setoid_rewrite Ev. done.
Qed.

(** The locks: a tenant has one when it has a mapping. *)
Lemma try_lock_Ok tenants vd locks tenant :
  try_lock_tenants_for_bootstrap tenants vd = Ok locks → tenant ∈ tenants → locks !! t_id tenant = Some (tenant_lock vd (t_id tenant)).
Proof.
  intros (u & _ & [= <-])%bind_Ok Hin. induction tenants as [|t tenants IH]; [by apply elem_of_nil in Hin|]. cbn.
  destruct (decide (t_id t = t_id tenant)) as [->|Hne]; [by rewrite lookup_insert_eq|]. rewrite lookup_insert_ne by done.
  apply elem_of_cons in Hin as [->|?]; [done|auto].
Qed.
Lemma tenant_lock_Some vd k : option_map tenant_mapping (tenant_lock vd k) = db_mappings (v1_db vd) !! k.
Proof. unfold tenant_lock. by destruct (db_mappings (v1_db vd) !! k). Qed.

Lemma tenant_set_sub tenants tenant : tenant ∈ tenant_set tenants → tenant ∈ tenants.
Proof.
  unfold tenant_set. rewrite list_elem_of_omap. intros (k & _ & [Hin _]%List.find_some). by apply list_elem_of_In.
Qed.
Lemma tenant_set_all tenants tenant : tenant ∈ tenants → ∃ t, t ∈ tenant_set tenants ∧ t_id t = t_id tenant.
Proof.
  intros Hin. destruct (List.find (λ t, Z.eqb (t_id t) (t_id tenant)) tenants) as [t|] eqn:Hf.
  - exists t. apply List.find_some in Hf as Hf'. destruct Hf' as [_ Ht%Z.eqb_eq]. split; [|done]. apply list_elem_of_omap.
    exists (t_id tenant). split; [|done]. apply elem_of_set_iter, elem_of_list_to_set, list_elem_of_fmap. eauto.
  - exfalso. apply list_elem_of_In in Hin. apply (List.find_none _ _ Hf) in Hin. by rewrite Z.eqb_refl in Hin.
Qed.

Lemma replicate_bootstraps_Ok l bulk vd es ws :
  replicate_bootstraps policy_uuid svc l bulk vd = Ok (es, ws) → seeded vd → bootstrap_keys vd →
  (∀ tm, tm ∈ l → db_mappings (v1_db vd) !! t_id (fst tm) = Some (snd tm) ∧ db_tenants (v1_db vd) !! t_id (fst tm) = Some (fst tm)) →
  ∃ rels, (∀ store, replay store es = Ok (list_to_set rels ∪ store)) ∧ ∀ t, t ∈ rels → ∃ tid, new_tenant_tuple vd tid t.
Proof.
  intros (u & _ & Hr)%bind_Ok Hse Hk Hrows. apply bind_Ok in Hr as (ys & Hys%mapM_result_Ok & Hr). exists (concat (map snd ys)). split.
  - destruct l as [|tm l]; [|by eapply send_events_effect]. apply Forall2_nil_inv_l in Hys as ->. injection Hr as <- <-.
    intros store. unfold replay. cbn. f_equal. set_solver.
  - intros t (ts & Hin & (y & -> & ([tenant m] & Htm & Hy)%(Forall2_elem_r _ _ _ _ Hys))%list_elem_of_fmap)%elem_of_concat.
    destruct (Hrows _ Htm) as [Hm Htn]. exists (t_id tenant). by eapply replicate_tenant_Ok.
Qed.

Lemma new_tenants_Ok tenants bulk vd vd' bs es ws :
  bootstrap_new_tenants policy_uuid svc ids tenants bulk vd = Ok (vd', bs, es, ws) → seeded vd → bootstrap_keys vd →
  ∃ rels, bootstrapped ids vd vd' (map t_id tenants) rels ∧ ∀ store, replay store es = Ok (list_to_set rels ∪ store).
Proof.
  intros (u & _ & Hr)%bind_Ok Hse Hk. apply bind_Ok in Hr as ([[vd1 bs1] rels] & Hb%bootstrap_rows & Hr); [|done..].
  apply bind_Ok in Hr as (u2 & _ & Hr). apply bind_Ok in Hr as (entries & _ & Hr).
  apply bind_Ok in Hr as ([es1 ws1] & Hev & Heq). injection Heq as <- <- <- <-. exists rels. split; [done|]. by eapply send_events_effect.
Qed.

Lemma bootstrapped_nil vd : bootstrapped ids vd vd [] [].
Proof.
  split; [by destruct vd as [[]]|by intros ? ?%elem_of_nil|auto|auto|done|]. intros t. rewrite elem_of_nil. setoid_rewrite elem_of_nil. naive_solver.
Qed.

Lemma replay_nothing store : replay store [] = Ok (list_to_set [] ∪ store).
Proof. unfold replay. cbn. f_equal. set_solver. Qed.

(** The tenants that are left to bootstrap, if any. *)
Lemma maybe_new_tenants todo vd vd' bs es ws :
  match todo with [] => mret (vd, [], [], []) | _ => bootstrap_new_tenants policy_uuid svc ids todo true vd end = Ok (vd', bs, es, ws) →
  seeded vd → bootstrap_keys vd →
  (∃ rels, bootstrapped ids vd vd' (map t_id todo) rels ∧ ∀ store, replay store es = Ok (list_to_set rels ∪ store))
  ∧ (todo = [] → vd' = vd ∧ es = []).
Proof.
  intros Hr Hse Hk. destruct todo as [|t todo].
  - injection Hr as <- _ <- _. split; [|done]. exists []. split; [apply bootstrapped_nil|apply replay_nothing].
  - split; [by eapply new_tenants_Ok|done].
Qed.

(** The tenants with and without a mapping. *)
Lemma split_by_lock tenants vd locks :
  try_lock_tenants_for_bootstrap (tenant_set tenants) vd = Ok locks →
  let lock t := mjoin (locks !! t_id t) in
  (∀ tenant, tenant ∈ List.filter (λ t, bool_decide (lock t = None)) (tenant_set tenants) ↔
     tenant ∈ tenant_set tenants ∧ db_mappings (v1_db vd) !! t_id tenant = None)
  ∧ ∀ tm, tm ∈ omap (λ t, option_map (λ l, (t, tenant_mapping l)) (lock t)) (tenant_set tenants) →
      db_mappings (v1_db vd) !! t_id (fst tm) = Some (snd tm) ∧ fst tm ∈ tenants.
Proof.
  intros Hlocks lock. assert (∀ tenant, tenant ∈ tenant_set tenants → lock tenant = tenant_lock vd (t_id tenant)) as Hlock.
  { intros tenant Hin. unfold lock. by rewrite (try_lock_Ok _ _ _ _ Hlocks Hin). }
  split.
  - intros tenant. rewrite list_elem_of_In, filter_In, <- list_elem_of_In, bool_decide_eq_true. split; intros [Hin Hl]; (split; [done|]);
      rewrite (Hlock _ Hin) in *; rewrite <- tenant_lock_Some in *; by destruct (tenant_lock vd (t_id tenant)).
  - intros tm (tenant & Hin & Htm)%list_elem_of_omap. rewrite (Hlock _ Hin) in Htm. rewrite <- tenant_lock_Some.
    destruct (tenant_lock vd (t_id tenant)) as [lk|] eqn:El; [|done]. injection Htm as <-. cbn. rewrite El. split; [done|]. by apply tenant_set_sub.
Qed.

(** C7: bootstrapping any tenants, new ones or again, keeps the default access right: the
    store has the binding of an access on its resource exactly for admins and for the
    users of tenants that have no default group of their own, and otherwise the tuples of
    the rows, with the new workspaces.  Afterwards every tenant has its mapping; without
    [force], tenants that all had one are left alone. *)
Theorem bootstrap_tenants_access tenants force vd vd' bs es ws store
  (Hr : bootstrap_tenants policy_uuid svc ids tenants force vd = Ok (vd', bs, es, ws))
  (Hse : seeded vd) (Hk : bootstrap_keys vd) (Hrows : ∀ tenant, tenant ∈ tenants → db_tenants (v1_db vd) !! t_id tenant = Some tenant)
  (Hro : rooted vd) (Hdist : distinct_bindings vd') (Hun : unused_ids vd store) (Hok : access_ok vd store) (Hmir : mirrored vd store) :
  (∃ store', replay store es = Ok store' ∧ access_ok vd' store' ∧ mirrored vd' store')
  ∧ (∀ tenant, tenant ∈ tenants → is_Some (db_mappings (v1_db vd') !! t_id tenant))
  ∧ (force = false → (∀ tenant, tenant ∈ tenants → is_Some (db_mappings (v1_db vd) !! t_id tenant)) → vd' = vd ∧ es = []).
Proof.
  apply bind_Ok in Hr as (locks & [Htodo Hready]%split_by_lock & Hr). cbn zeta in *. set (todo := List.filter _ _) in *. set (ready := omap _ _) in *.
  apply bind_Ok in Hr as ([es1 ws1] & Hf & Hr). apply bind_Ok in Hr as ([[[vd2 created] es2] ws2] & Hn & Hr).
  apply bind_Ok in Hr as (u & _ & Heq). injection Heq as <- <- <- <-.
  assert (∃ rels1, (∀ st, replay st es1 = Ok (list_to_set rels1 ∪ st)) ∧ ∀ t, t ∈ rels1 → ∃ tid, new_tenant_tuple vd tid t) as (rels1 & Hrep1 & Hnew1).
  { destruct force; [|injection Hf as <- <-; exists []; split; [apply replay_nothing|by intros t ?%elem_of_nil]].
    eapply replicate_bootstraps_Ok; [exact Hf|done|done|]. intros tm [? ?]%Hready. auto. }
  apply maybe_new_tenants in Hn as [(rels2 & Hb & Hrep2) Hnone]; [|done..]. split; [|split].
  - eexists. unfold replay. rewrite foldM_app. fold (replay store es1). rewrite Hrep1. cbn. fold (replay (list_to_set rels1 ∪ store) es2). rewrite Hrep2. split; [done|].
    replace (list_to_set rels2 ∪ (list_to_set rels1 ∪ store)) with (list_to_set rels1 ∪ (list_to_set rels2 ∪ store) : tuples) by set_solver.
    assert (∀ t, t ∈ rels1 → ∃ tid, new_tenant_tuple vd2 tid t) as Hnew2 by (intros t (tid & Ht)%Hnew1; exists tid; by eapply bootstrapped_lift).
    pose proof (bootstrapped_rooted _ _ _ _ Hb Hro) as Hro2. split; [apply access_ok_add; [by eapply bootstrapped_access|done|done]|].
    intros t Hd. rewrite elem_of_union, (bootstrapped_mirrored _ _ _ _ _ Hb Hro2 Hmir t Hd), elem_of_list_to_set. unfold rows_graph. rewrite !elem_of_union.
    split; [|tauto]. intros [(tid & Ht)%Hnew2|?]; [|done]. left. left. by eapply new_tuple_mirrored.
  - destruct Hb as [_ Hnew _ _ [Hkept _] _]. intros tenant (t & Hin & <-)%tenant_set_all.
    destruct (db_mappings (v1_db vd) !! t_id t) as [m|] eqn:Em; [exists m; by eapply lookup_weaken|].
    destruct (Hnew (t_id t)) as (_ & m & ? & ? & ? & ? & [Hm] & _); [apply list_elem_of_fmap; exists t; by rewrite Htodo|eauto].
  - intros -> Hhave. injection Hf as <- <-. apply Hnone. destruct todo as [|t0 todo0]; [done|]. exfalso.
    assert (t0 ∈ t0 :: todo0) as [Hin Hno]%Htodo by left. destruct (Hhave t0) as [m Hm]; [by apply tenant_set_sub|]. congruence.
Qed.
End bootstrap.
End access.

(* ------------------------------------------------------------------ *)
(** * A sample *)

(** Three tenants: a new one, one with a default group of its own, and one without. *)
Definition tenant_of (k : Z) (org : string) : Tenant := mkTenant k ("t" +:+ org) None (Some org) (JDict []) true.
Definition mapping_of (k : Z) (c group : string) : TenantMapping :=
  mkTenantMapping k None None group (c +:+ "ag") (c +:+ "ub") (c +:+ "ab") (c +:+ "ur") (c +:+ "ar") (c +:+ "ut") (c +:+ "at").
Definition workspaces_of (k : Z) (c : string) : list (string * Workspace) :=
  [(c +:+ "r", mkWorkspace (c +:+ "r") "Root Workspace" None None ROOT_WS k);
   (c +:+ "d", mkWorkspace (c +:+ "d") "Default Workspace" None (Some (c +:+ "r")) DEFAULT_WS k)].
Definition group_three : Group := mkGroup 3 "g3" 8 true false false "Custom default access" None.
Definition platform_group : Group := mkGroup 1 "pg" 1 true false true "Default access" None.

Definition access_sample : V1Db :=
  mkV1Db (mkDb ∅ {[201%Z := mkRoleV2 201 "v1-101" "viewer" None SEEDED 1 ∅ false]}
            (list_to_map [(1, platform_group); (2, mkGroup 2 "ag" 1 false true true "Default admin access" None); (3, group_three)]%Z)
            ∅ ∅ ∅ ∅ (list_to_map (workspaces_of 8 "w8" ++ workspaces_of 9 "w9"))
            (list_to_map [(8, mapping_of 8 "m8" "g3"); (9, mapping_of 9 "m9" "g9")]%Z)
            (list_to_map [(1, mkTenant 1 PUBLIC_TENANT_NAME None None (JDict []) true); (7, tenant_of 7 "o7"); (8, tenant_of 8 "o8"); (9, tenant_of 9 "o9")]%Z))
    {[101%Z := mkV1Role 101 "v1-101" "viewer" "viewer" None true 1 [] None]}
    (list_to_map [(11, mkPolicy (Some 1%Z) "System Policy for Group pg" true 1 {[101%Z]}); (12, mkPolicy (Some 2%Z) "System Policy for Group ag" true 1 ∅)]%Z)
    {[201%Z := 101%Z]} ∅ ∅.
Definition policy_uuids (k : Z) : string := if Z.eqb k 11 then "p11" else "p12".
Definition no_cache : GlobalPolicyIdService := mkGlobalPolicyIdService None None.
Definition new_ids (_ : Z) : BootstrapIds := mkBootstrapIds "w7r" "w7d" (mapping_of 7 "m7" "g7").
Definition bootstrap_run := @bootstrap_tenants sample_settings _ _ policy_uuids no_cache new_ids [tenant_of 7 "o7"; tenant_of 8 "o8"] true access_sample.

Section checks.
Context `{Settings} `{PySetOrder} `{RowOrder}.
Variables (policy_uuid : Z → string) (svc : GlobalPolicyIdService).
Implicit Types (vd : V1Db) (m : TenantMapping) (store : tuples) (a : DefaultAccessType) (s : Scope).

Definition access_points : list (DefaultAccessType * Scope) :=
  [(USER, Scope.DEFAULT); (USER, Scope.ROOT); (USER, Scope.TENANT); (ADMIN, Scope.DEFAULT); (ADMIN, Scope.ROOT); (ADMIN, Scope.TENANT)].
Lemma elem_of_access_points a s : s ∈ CONCRETE_SCOPES → (a, s) ∈ access_points.
Proof. rewrite concrete_scope. unfold access_points. rewrite !elem_of_cons. destruct a, s; tauto. Qed.

Lemma distinct_checked vd :
  map_Forall (λ k1 m1, map_Forall (λ k2 m2, Forall (λ p, Forall (λ q, rb m1 (fst p) (snd p) = rb m2 (fst q) (snd q) → k1 = k2 ∧ p = q) access_points)
    access_points) (db_mappings (v1_db vd))) (db_mappings (v1_db vd)) → distinct_bindings vd.
Proof.
  intros Hc k1 m1 a1 s1 k2 m2 a2 s2 H1' H2' Hs1 Hs2 E. specialize (Hc k1 m1 H1' k2 m2 H2'). rewrite Forall_forall in Hc.
  specialize (Hc (a1, s1) (elem_of_access_points _ _ Hs1)). rewrite Forall_forall in Hc.
  destruct (Hc (a2, s2) (elem_of_access_points _ _ Hs2) E) as [-> [= -> ->]]. done.
Qed.

(** [access_ok] and [rooted] evaluated, for a store whose default access is a list. *)
Definition point_check vd (l : list RelationTuple) k m org root dflt (p : DefaultAccessType * Scope) : bool :=
  let '(a, s) := p in
  let g := match a with ADMIN => true | USER => bool_decide (tenant_default_groups k vd = []) end in
  Bool.eqb (bool_decide (ta_binding org root dflt m a s ∈ l)) g
  && (negb g || bool_decide (ta_subject m a s ∈ l)
                && match role_of policy_uuid svc a s vd with Ok u => bool_decide (ta_role m a s u ∈ l) | Raise _ => false end).
Definition rows_check vd (l : list RelationTuple) (km : Z * TenantMapping) (kr kd : string * Workspace) : bool :=
  let '((k, m), (_, root), (_, dflt)) := (km, kr, kd) in
  match db_tenants (v1_db vd) !! k ≫= org_id with
  | None => true
  | Some org =>
      if bool_decide (w_type root = ROOT_WS) && Z.eqb (w_tenant root) k && bool_decide (w_type dflt = DEFAULT_WS) && Z.eqb (w_tenant dflt) k
      then bool_decide (w_parent dflt = Some (w_id root)) && bool_decide (ta_tenant (w_id root) org ∈ l) && bool_decide (ta_platform org ∈ l)
           && forallb (point_check vd l k m org (w_id root) (w_id dflt)) access_points
      else true
  end.
Definition access_check vd (l : list RelationTuple) : bool :=
  let ws := map_to_list (db_workspaces (v1_db vd)) in
  forallb (λ km, forallb (λ kr, forallb (rows_check vd l km kr) ws) ws) (map_to_list (db_mappings (v1_db vd))).

Lemma access_checked vd l :
  apart vd → access_check vd l = true → access_ok policy_uuid svc vd (list_to_set l ∪ rows_graph vd) ∧ rooted vd.
Proof.
  unfold access_check. intros Hap Hc.
  assert (∀ t, default_tuple vd t → t ∈ (list_to_set l ∪ rows_graph vd : tuples) ↔ t ∈ l) as Hin.
  { intros t Hd. rewrite elem_of_union, elem_of_list_to_set. split; [|by left]. intros [?|Ht]; [done|]. by destruct (rows_no_default _ _ Hap Ht). }
  assert (∀ tid m tenant org root dflt, tenant_rows vd tid m tenant org root dflt → rows_check vd l (tid, m) (w_id root, root) (w_id dflt, dflt) = true) as Hrc.
  { intros tid m tenant org root dflt [Hm _ _ [Hr _] [Hd _]]. rewrite forallb_forall in Hc.
    specialize (Hc (tid, m)). rewrite <- list_elem_of_In, elem_of_map_to_list in Hc. specialize (Hc Hm). rewrite forallb_forall in Hc.
    specialize (Hc (w_id root, root)). rewrite <- list_elem_of_In, elem_of_map_to_list in Hc. specialize (Hc Hr). rewrite forallb_forall in Hc.
    apply Hc. by rewrite <- list_elem_of_In, elem_of_map_to_list. }
  assert (∀ tid m tenant org root dflt, tenant_rows vd tid m tenant org root dflt →
    w_parent dflt = Some (w_id root) ∧ ta_tenant (w_id root) org ∈ l ∧ ta_platform org ∈ l
    ∧ forallb (point_check vd l tid m org (w_id root) (w_id dflt)) access_points = true) as Hall.
  { intros tid m tenant org root dflt Hrows. specialize (Hrc _ _ _ _ _ _ Hrows). destruct Hrows as [_ Ht Ho (_ & Hr1 & Hr2) (_ & Hd1 & Hd2)].
    unfold rows_check in Hrc. rewrite Ht in Hrc. cbn [mbind option_bind] in Hrc. rewrite Ho in Hrc.
    rewrite (bool_decide_eq_true_2 _ Hr1), (bool_decide_eq_true_2 _ Hd1), Hr2, Hd2, Z.eqb_refl in Hrc. cbn [andb] in Hrc.
    rewrite !andb_true_iff, !bool_decide_eq_true in Hrc. tauto. }
  split.
  - intros tid m tenant org root dflt Hrows. destruct (Hall _ _ _ _ _ _ Hrows) as (_ & Ht & Hp & Hpts).
    rewrite (Hin (ta_tenant _ _)), (Hin (ta_platform _)) by (unfold default_tuple; eauto). split; [done|]. split; [done|].
    intros a s Hs. rewrite forallb_forall in Hpts. specialize (Hpts (a, s)). rewrite <- list_elem_of_In in Hpts.
    specialize (Hpts (elem_of_access_points a s Hs)). cbn in Hpts. set (g := match a with ADMIN => _ | USER => _ end) in Hpts.
    assert (g = true ↔ granted vd tid a) as Hg.
    { unfold g, granted. destruct a; [rewrite bool_decide_eq_true|]; naive_solver. }
    assert (∀ t, (∃ org root dflt, t = ta_binding org root dflt m a s) ∨ (∃ u, t = ta_role m a s u) ∨ t = ta_subject m a s → default_tuple vd t) as Hdef.
    { intros t Hd. right. right. exists tid, m, a, s. split; [apply Hrows|done]. }
    apply andb_true_iff in Hpts as [Hb%eqb_prop Hrest]. rewrite (Hin (ta_binding _ _ _ _ _ _)), (Hin (ta_subject _ _ _)) by eauto 10.
    rewrite <- Hg, <- Hb, bool_decide_eq_true. split; [done|]. intros Hl.
    assert (g = true) as Eg by (rewrite <- Hb; by apply bool_decide_eq_true). rewrite Eg in Hrest. cbn [negb orb] in Hrest.
    apply andb_true_iff in Hrest as [Hsub%bool_decide_eq_true Hro]. split; [done|].
    destruct (role_of policy_uuid svc a s vd) as [u|]; [|done]. exists u. rewrite Hin by eauto 10. by apply bool_decide_eq_true in Hro.
  - intros tid m tenant org root dflt Hrows. by destruct (Hall _ _ _ _ _ _ Hrows).
Qed.

(** The tuples of the accesses that a tenant has. *)
Definition tenant_access vd m (org root dflt : string) (accesses : list DefaultAccessType) : list RelationTuple :=
  [ta_tenant root org; ta_platform org]
  ++ concat (map (λ p, match role_of policy_uuid svc (fst p) (snd p) vd with
                       | Ok u => [ta_binding org root dflt m (fst p) (snd p); ta_role m (fst p) (snd p) u; ta_subject m (fst p) (snd p)]
                       | Raise _ => []
                       end) (List.filter (λ p, existsb (λ a, bool_decide (a = fst p)) accesses) access_points)).

Lemma tenant_access_default vd k m org root dflt accesses t :
  db_mappings (v1_db vd) !! k = Some m → t ∈ tenant_access vd m org root dflt accesses → default_tuple vd t.
Proof.
  intros Hm [Ht|(l & Ht & ([a s] & -> & Hp)%list_elem_of_fmap)%elem_of_concat]%elem_of_app.
  - rewrite !elem_of_cons, elem_of_nil in Ht. destruct Ht as [->|[->|[]]]; [left|right; left]; eauto.
  - right. right. rewrite list_elem_of_In, filter_In, <- list_elem_of_In in Hp. destruct Hp as [Hp _]. exists k, m, a, s. split; [done|].
    split; [apply concrete_scope; intros ->; unfold access_points in Hp; rewrite !elem_of_cons, elem_of_nil in Hp; naive_solver|]. cbn in Ht.
    destruct (role_of policy_uuid svc a s vd); [|by apply elem_of_nil in Ht]. rewrite !elem_of_cons, elem_of_nil in Ht. naive_solver.
Qed.

Lemma mirrored_union vd l : (∀ t, t ∈ l → default_tuple vd t) → mirrored vd (list_to_set l ∪ rows_graph vd).
Proof. intros Hl t Hd. rewrite elem_of_union, elem_of_list_to_set. split; [|by right]. by intros [?%Hl|?]. Qed.
End checks.

Section sample.
#[local] Existing Instance sample_settings.

Definition sample_access : list RelationTuple :=
  tenant_access policy_uuids no_cache access_sample (mapping_of 8 "m8" "g3") "o8" "w8r" "w8d" [ADMIN]
  ++ tenant_access policy_uuids no_cache access_sample (mapping_of 9 "m9" "g9") "o9" "w9r" "w9d" [USER; ADMIN].
Definition access_store : tuples := list_to_set sample_access ∪ rows_graph access_sample.

Lemma access_sample_ok : access_ok policy_uuids no_cache access_sample access_store ∧ rooted access_sample.
Proof. apply access_checked; [done|by vm_compute]. Qed.

Lemma access_sample_mirrored : mirrored access_sample access_store.
Proof.
  apply mirrored_union. intros t [Ht|Ht]%elem_of_app.
  - by apply (tenant_access_default _ _ _ 8%Z) in Ht.
  - by apply (tenant_access_default _ _ _ 9%Z) in Ht.
Qed.

Lemma access_sample_seeded : seeded policy_uuids no_cache access_sample.
Proof. intros a s Hs%concrete_scope. destruct a, s; try done; eexists; by vm_compute. Qed.

Lemma access_sample_keys : bootstrap_keys access_sample.
Proof.
  assert (map_Forall (λ i w, w_id w = i) (db_workspaces (v1_db access_sample))) as Hw by by_compute.
  assert (map_Forall (λ k t, t_id t = k) (db_tenants (v1_db access_sample))) as Ht by by_compute.
  by split.
Qed.

Lemma access_sample_unused : unused_ids new_ids access_sample access_store.
Proof.
  assert (forallb (λ t, forallb (λ p, negb (String.eqb (oid (subj (subject t))) (rb (mapping_of 7 "m7" "g7") (fst p) (snd p)))) access_points)
            sample_access = true) as Hc by (by vm_compute).
  rewrite forallb_forall in Hc. intros t tid a s Ht _ Hrel Hs E. unfold access_store, rows_graph in Ht. rewrite !elem_of_union, elem_of_list_to_set in Ht.
  destruct Ht as [Ht|[[Ht|Ht]|Ht]].
  - specialize (Hc t). rewrite <- list_elem_of_In in Hc. specialize (Hc Ht).
    rewrite forallb_forall in Hc. specialize (Hc (a, s)). rewrite <- list_elem_of_In in Hc. specialize (Hc (elem_of_access_points _ _ Hs)).
    apply negb_true_iff, String.eqb_neq in Hc. by apply Hc.
  - by apply elem_of_parents_graph in Ht as (i & p & _ & ->).
  - apply elem_of_v1_graph in Ht as [(pk & b & Hb & _)|(i & r & _ & _ & (tn & x & _ & _ & ->)%elem_of_owner_tuples)%elem_of_owners_graph]; [discriminate Hb|done].
  - by apply elem_of_members_graph in Ht as (gid & pid & g & p & u & _ & _ & _ & _ & ->).
Qed.

Lemma bootstrap_tenants_access_witness :
  ∃ vd' bs es ws store', bootstrap_run = Ok (vd', bs, es, ws) ∧ replay access_store es = Ok store'
    ∧ access_ok policy_uuids no_cache vd' store' ∧ mirrored vd' store' ∧ length es = 2%nat.
Proof.
  destruct bootstrap_run as [[[[vd' bs] es] ws]|] eqn:Hr; [|by vm_compute in Hr].
  assert (distinct_bindings vd') as Hdist.
  { apply distinct_checked. assert (vd' = match bootstrap_run with Ok (vd', _, _, _) => vd' | Raise _ => access_sample end) as -> by (by rewrite Hr). by_compute. }
  destruct (bootstrap_tenants_access policy_uuids no_cache new_ids [tenant_of 7 "o7"; tenant_of 8 "o8"] true access_sample vd' bs es ws access_store Hr
    access_sample_seeded access_sample_keys) as [(store' & Hrep & Hok & Hmir) _]; [|apply access_sample_ok|done|apply access_sample_unused|apply access_sample_ok|apply access_sample_mirrored|].
  - intros tenant. rewrite !elem_of_cons, elem_of_nil. intros [->|[->|[]]]; by vm_compute.
  - exists vd', bs, es, ws, store'. refine (conj eq_refl (conj Hrep (conj Hok (conj Hmir _)))).
    assert (length (match bootstrap_run with Ok (_, _, es, _) => es | Raise _ => [] end) = 2%nat) as Hl by (by vm_compute). by rewrite Hr in Hl.
Defined.
End sample.
