(* ===== verification/DefaultGroups.v ===== *)
(** Default groups: the rows of the default bindings (rbac/management/role_binding/service.py),
    a tenant's own copy of the default group (group/definer.py), its deletion through the V1
    API (group/view.py and the handler it uses), and the replacement of the bindings of a
    subject (update_role_bindings_for_subject), which makes such a copy when the subject is
    the default group of the platform. *)

From S2P Require Import Prelude.
From S2P Require Import PyString.
From S2P Require Import Config.
From S2P Require Import RelationTypes.
From S2P Require Import TupleStore.
From S2P Require Import ScopeService.
From S2P Require Import Outbox.
From S2P Require Import Tenants.
From S2P Require Import Db.
From S2P Require Import RoleBindingService.
From S2P Require Import RoleScopes.
From S2P Require Import RoleBindingBatch.
From S2P Require Import RoleV2Service.
From S2P Require Import Workspaces.
From S2P Require Import BindingMapping.
From S2P Require Import V1State.
From S2P Require Import RoleMigration.
From S2P Require Import SubjectHandler.
From S2P Require Import GroupHandler.
From S2P Require Import GroupService.
From S2P Require Import TenantBootstrap.

Section service.
Context `{Settings} `{PySetOrder} `{RowOrder}.
Variables (policy_uuid : Z → string) (svc : GlobalPolicyIdService) (ids : Z → BootstrapIds).

(* ------------------------------------------------------------------ *)
(** * The rows of the default bindings *)

(** The key that the binding with a UUID gets. *)
Variable binding_key : string → Z.

Definition has_binding_uuid (uuid : string) (d : Db) : bool :=
  existsb (λ b, String.eqb (b_uuid b) uuid) (map snd (map_to_list (db_bindings d))).

(** [_has_custom_default_group] *)
Definition has_custom_default_group (tenant : Tenant) (vd : V1Db) : bool :=
  negb (bool_decide (tenant_default_groups (t_id tenant) vd = [])).

(** [_get_resource_for_scope] *)
Definition workspace_id_or_none (r : result Workspace) : result (option string) :=
  match r with
  | Ok w => mret (Some (w_id w))
  | Raise (DoesNotExist "Workspace") => mret None
  | Raise e => Raise e
  end.
Definition get_resource_for_scope (tenant : Tenant) (scope : Scope) (vd : V1Db) : result (string * option string) :=
  match scope with
  | Scope.TENANT => mret ("tenant", tenant_resource_id tenant)
  | Scope.ROOT => i ← workspace_id_or_none (built_in_workspace (v1_db vd) (t_id tenant) ROOT_WS); mret ("workspace", i)
  | Scope.DEFAULT => i ← workspace_id_or_none (built_in_workspace (v1_db vd) (t_id tenant) DEFAULT_WS); mret ("workspace", i)
  | Scope.ALL => mret ("unknown", None)
  end.

(** [_create_single_default_binding]; [_public_default_group] is [default_group] with the
    flag of the access. *)
Definition create_single_default_binding (tenant : Tenant) (m : TenantMapping) (access_type : DefaultAccessType) (scope : Scope)
    (resource_type resource_id : string) (vd : V1Db) : result V1Db :=
  binding_uuid ← default_role_binding_uuid_for m access_type scope;
  platform_role_uuid ← platform_v2_role_uuid_for policy_uuid svc access_type scope vd;
  platform_role ← match select (λ r, String.eqb (r_uuid r) platform_role_uuid && bool_decide (r_type r = PLATFORM))
                          (db_roles (v1_db vd)) with
                  | [r] => mret r
                  | [] => Raise DefaultGroupNotAvailableError
                  | _ => Raise (MultipleObjectsReturned "RoleV2")
                  end;
  group ← default_group (match access_type with ADMIN => admin_default | USER => platform_default end) vd;
  if has_binding_uuid binding_uuid (v1_db vd) then mret vd
  else
    let b := mkRoleBinding (binding_key binding_uuid) binding_uuid (r_id platform_role) resource_type resource_id (t_id tenant) in
    vd' ← save_binding b vd;
    mret (with_db (with_bindings id ({[(b_id b, g_id group)]} ∪.) id) vd').

(** One kind of access at one scope, in the loops of [_create_all_default_bindings] and of
    [restore_user_default_bindings]. *)
Definition create_default_binding (tenant : Tenant) (m : TenantMapping) (vd : V1Db) (access_type : DefaultAccessType) (scope : Scope) :
    result V1Db :=
  binding_uuid ← default_role_binding_uuid_for m access_type scope;
  if has_binding_uuid binding_uuid (v1_db vd) then mret vd
  else
    '(resource_type, resource_id) ← get_resource_for_scope tenant scope vd;
    match resource_id with
    | None => mret vd
    | Some i => create_single_default_binding tenant m access_type scope resource_type i vd
    end.

Definition concrete_scopes : list Scope := set_iter (list_to_set CONCRETE_SCOPES : gset Scope).

(** [_create_all_default_bindings]: the resource is looked up before the accesses of a
    scope. *)
Definition create_all_default_bindings (tenant : Tenant) (m : TenantMapping) (skip_user_bindings : bool) (vd : V1Db) : result V1Db :=
  foldM (λ vd scope,
    '(_, resource_id) ← get_resource_for_scope tenant scope vd;
    match resource_id with
    | None => mret vd
    | Some _ => foldM (λ vd access_type, create_default_binding tenant m vd access_type scope) vd
                  (if skip_user_bindings then [ADMIN] else [USER; ADMIN])
    end) vd concrete_scopes.

(** [create_default_bindings]: the inner transaction is rolled back on any error. *)
Definition create_default_bindings (tenant : Tenant) (m : TenantMapping) (vd : V1Db) : result V1Db :=
  match create_all_default_bindings tenant m (has_custom_default_group tenant vd) vd with
  | Ok vd' => mret vd'
  | Raise DefaultGroupNotAvailableError => mret vd
  | Raise _ => Raise RuntimeError
  end.

(** [_ensure_default_bindings_exist] *)
Definition ensure_default_bindings_exist (tenant : Tenant) (vd : V1Db) : result V1Db :=
  match db_mappings (v1_db vd) !! t_id tenant with
  | None => mret vd
  | Some m =>
      uuids ← mapM (default_role_binding_uuid_for m ADMIN) concrete_scopes;
      if Nat.eqb (length (select (λ b, bool_decide (b_uuid b ∈ uuids)) (db_bindings (v1_db vd)))) (length CONCRETE_SCOPES)
      then mret vd else create_default_bindings tenant m vd
  end.

(** [delete_user_default_bindings] *)
Definition delete_user_default_bindings (tenant : Tenant) (vd : V1Db) : result V1Db :=
  match db_mappings (v1_db vd) !! t_id tenant with
  | None => mret vd
  | Some m =>
      uuids ← mapM (default_role_binding_uuid_for m USER) concrete_scopes;
      mret (with_db (delete_bindings (list_to_set (map b_id
              (select (λ b, bool_decide (b_uuid b ∈ uuids)) (db_bindings (v1_db vd)))))) vd)
  end.

(** [restore_user_default_bindings]: an error ends the loop and is only logged; what was
    created before it stays. *)
Fixpoint try_each {S A} (f : S → A → result S) (s : S) (l : list A) : S :=
  match l with
  | [] => s
  | x :: l' => match f s x with Ok s' => try_each f s' l' | Raise _ => s end
  end.
Definition restore_user_default_bindings (tenant : Tenant) (vd : V1Db) : V1Db :=
  match db_mappings (v1_db vd) !! t_id tenant with
  | None => vd
  | Some m => try_each (λ vd scope, create_default_binding tenant m vd USER scope) vd concrete_scopes
  end.

(* ------------------------------------------------------------------ *)
(** * A default group of the tenant's own *)

Variables (gen : V1Db → sys_fresh) (parse_uuid : string → result string) (role_gen : Z → V2boundresource → fresh) (ws_id : string).
(** The setting V2_BOOTSTRAP_TENANT and the column [platform_default] of the V1 roles. *)
Variables (V2_BOOTSTRAP_TENANT : bool) (role_platform_default : Z → bool).

(** [_default_binding] *)
Definition default_binding (h : GroupHandler) (resource_binding_only : bool) (mapping : option TenantMapping) (vd : V1Db) :
    result (list RelationTuple) :=
  m ← match mapping with
      | None => or_raise (DoesNotExist "TenantMapping") (db_mappings (v1_db vd) !! g_tenant (gh_group h))
      | Some m => _ ← raise_if (negb (Z.eqb (tm_tenant m) (g_tenant (gh_group h)))) AssertionError; mret m
      end;
  let sub := gh_subject h in
  resources ← for_models (sh_tenant sub) (sh_root_workspace sub) (sh_default_workspace sub);
  default_role_binding_tuples policy_uuid svc m resources USER resource_binding_only None vd.

(** [generate_relations_reset_roles] with [remove_default_access_from] *)
Definition reset_roles_removing_default_access (h : GroupHandler) (roles : list V1Role) (m : TenantMapping) (st : SubjectState) :
    result SubjectState :=
  st' ← generate_relations_reset_roles gen parse_uuid role_gen ws_id h roles st;
  removed ← default_binding h true (Some m) (ss_vd st');
  mret (mkSubjectState (ss_vd st') (ss_add st') (ss_remove st' ++ removed) (ss_events st')).

(** A new policy row. *)
Definition insert_policy (key : Z) (p : Policy) (vd : V1Db) : result V1Db :=
  _ ← raise_if (existsb (λ q, String.eqb (po_name q) (po_name p) && Z.eqb (po_tenant q) (po_tenant p))
                  (map snd (map_to_list (v1_policies vd)))) (IntegrityError "unique policy name per tenant");
  mret (with_policies (<[key := p]>) vd).

(** [group.policies.get(system=True)] *)
Definition system_policy (group : Group) (vd : V1Db) : result Policy :=
  match select (λ p, po_system p && bool_decide (po_group p = Some (g_id group))) (v1_policies vd) with
  | [p] => mret p
  | [] => Raise (DoesNotExist "Policy")
  | _ => Raise (MultipleObjectsReturned "Policy")
  end.

(** [clone_default_group_in_public_schema]; [key], [policy_key] and [uuid] are those of new
    rows. *)
Definition clone_default_group (key policy_key : Z) (uuid : string) (group : Group) (tenant : Tenant) (vd : V1Db) :
    result (V1Db * option Group * list ReplicationEvent) :=
  '(vd0, bootstrapped, events0) ← (if V2_BOOTSTRAP_TENANT then
      '(vd0, b, events0, _) ← bootstrap_tenant policy_uuid svc ids tenant false vd;
      lock ← lock_tenant_for_bootstrap tenant vd0;
      _ ← raise_if (bool_decide (is_Some (custom_default_group lock))) ValueError;
      mret (vd0, Some (b, tenant_mapping lock), events0)
    else mret (vd, None, []));
  let group_uuid := match bootstrapped with Some (_, m) => default_group_uuid m | None => uuid end in
  public_tenant ← get_public_tenant vd0;
  policy ← system_policy group vd0;
  let group' := mkGroup key group_uuid (t_id tenant) (platform_default group) (admin_default group) false
                  "Custom default access" (g_description group) in
  if existsb (λ g, String.eqb (g_name g) (g_name group') && Bool.eqb (platform_default g) (platform_default group')
                   && Z.eqb (g_tenant g) (t_id tenant)) (map snd (map_to_list (db_groups (v1_db vd0))))
  then mret (vd0, None, events0)
  else
    let public_default_roles := select (λ r, role_platform_default (v1_id r) && Z.eqb (v1_tenant r) (t_id public_tenant)) (v1_roles vd0) in
    vd1 ← save_group group' vd0;
    vd2 ← insert_policy policy_key (mkPolicy (Some key) (system_policy_name group') (po_system policy) (t_id tenant)
                                      (list_to_set (map v1_id public_default_roles))) vd1;
    match bootstrapped with
    | None => mret (vd2, Some group', events0)
    | Some (b, _) =>
        '(vd3, events) ← (handler ← group_handler_init group' CUSTOMIZE_DEFAULT_GROUP vd2;
          match handler with
          | None => mret (vd2, [])
          | Some h => m ← or_raise TypeError (bt_mapping b);
                      st ← reset_roles_removing_default_access h public_default_roles m (mkSubjectState vd2 [] [] []);
                      events ← gh_replicate h false st;
                      mret (ss_vd st, events)
          end);
        vd4 ← delete_user_default_bindings tenant vd3;
        mret (vd4, Some group', events0 ++ events)
    end.

(* ------------------------------------------------------------------ *)
(** * Deleting a group through the V1 API *)

(** [_prepare_to_delete_group_v1]: the system roles and the custom roles, each once. *)
Definition prepare_to_delete_group_v1 (h : GroupHandler) (roles : list V1Role) (st : SubjectState) : result SubjectState :=
  _ ← expect_v1_tenant (gh_subject h);
  public ← get_public_tenant (ss_vd st);
  let system_roles := List.filter (λ r, v1_system r && Z.eqb (v1_tenant r) (t_id public)) roles in
  let custom_roles := List.filter (λ r, Z.eqb (v1_tenant r) (g_tenant (gh_group h))) roles in
  '(st', _) ← foldM (λ '(st, seen) role,
      if bool_decide (v1_id role ∈ (seen : list Z)) then mret (st, seen)
      else st' ← update_mapping_for_role_removal gen parse_uuid role_gen ws_id h st role; mret (st', seen ++ [v1_id role]))
    (st, []) (system_roles ++ custom_roles);
  mret st'.

(** [_prepare_to_delete_group_v2] *)
Definition prepare_to_delete_group_v2 (h : GroupHandler) (st : SubjectState) : result SubjectState :=
  let d := v1_db (ss_vd st) in
  let gid := g_id (gh_group h) in
  let bindings := select (λ b, bool_decide ((b_id b, gid) ∈ db_group_entries d) && Z.eqb (b_tenant b) (t_id (sh_tenant (gh_subject h))))
                    (db_bindings d) in
  removed ← mapM (λ b,
    t ← subject_tuple b (SGroup (gh_group h));
    if existsb (λ e, Z.eqb (fst e) (b_id b) && negb (Z.eqb (snd e) gid)) (elements (db_group_entries d))
       || existsb (λ e, Z.eqb (fst (fst e)) (b_id b)) (elements (db_principal_entries d))
    then mret [t] else ts ← binding_tuples d b; mret (t :: ts)) bindings;
  mret (mkSubjectState (ss_vd st) (ss_add st) (ss_remove st ++ concat removed) (ss_events st)).

(** [prepare_to_delete_group] *)
Definition prepare_to_delete_group (h : GroupHandler) (roles : list V1Role) (st : SubjectState) : result SubjectState :=
  st1 ← match sh_tenant_version (gh_subject h) with
        | VERSION_1 => prepare_to_delete_group_v1 h roles st
        | VERSION_2 => prepare_to_delete_group_v2 h st
        end;
  if platform_default (gh_group h) then
    added ← default_binding h false None (ss_vd st1);
    mret (mkSubjectState (ss_vd st1) (ss_add st1 ++ added) (ss_remove st1) (ss_events st1))
  else
    removed ← generate_member_relations (gh_group h) (group_members (g_id (gh_group h)) (ss_vd st1));
    mret (mkSubjectState (ss_vd st1) (ss_add st1) (ss_remove st1 ++ removed) (ss_events st1)).

(** [GroupViewSet.destroy] *)
Definition destroy_group (admin : bool) (group : Group) (vd : V1Db) : result (V1Db * list ReplicationEvent) :=
  _ ← protect_special_groups group [];
  _ ← (if admin then mret tt else protect_group_with_user_access_admin_role (group_roles group vd) "remove_group" vd);
  tenant ← or_raise (DoesNotExist "Tenant") (db_tenants (v1_db vd) !! g_tenant group);
  handler ← group_handler_init group DELETE_GROUP vd;
  let roles := group_roles group vd in
  let expected_empty := negb (platform_default group) && bool_decide (group_members (g_id group) vd = []) && bool_decide (roles = []) in
  st ← match handler with
       | Some h => if expected_empty then mret (mkSubjectState vd [] [] []) else prepare_to_delete_group h roles (mkSubjectState vd [] [] [])
       | None => mret (mkSubjectState vd [] [] [])
       end;
  vd1 ← delete_group (g_id group) (ss_vd st);
  events ← match handler with Some h => gh_replicate h expected_empty st | None => mret [] end;
  mret (if platform_default group then restore_user_default_bindings tenant vd1 else vd1, events).

(* ------------------------------------------------------------------ *)
(** * Replacing the bindings of a subject *)

(** [SubjectQuerySet.by_type], [group] and [user] *)
Definition subject_group (uuid : string) (d : Db) : result Subject :=
  match select (λ g, String.eqb (g_uuid g) uuid) (db_groups d) with
  | [g] => mret (SGroup g)
  | [] => Raise (NotFoundError "group")
  | _ => Raise (MultipleObjectsReturned "Group")
  end.
Definition subject_user (uuid : string) (d : Db) : result Subject :=
  match select (λ p, String.eqb (pr_uuid p) uuid) (db_principals d) with
  | [p] => _ ← raise_if (bool_decide (user_id p = None)) (InvalidFieldError "subject_id"); mret (SPrincipal p)
  | [] => Raise (NotFoundError "user")
  | _ => Raise (MultipleObjectsReturned "Principal")
  end.
Definition by_type (type id : string) (d : Db) : result Subject :=
  if String.eqb id "" then Raise (RequiredFieldError "subject_id")
  else if String.eqb type "group" then subject_group id d
  else if String.eqb type "user" then subject_user id d
  else Raise UnsupportedSubjectTypeError.

(** [_maybe_customize_default_group] *)
Definition maybe_customize_default_group (key policy_key : Z) (uuid : string) (self : RoleBindingService) (subject : Subject) (vd : V1Db) :
    result (V1Db * Subject * option Group * list ReplicationEvent) :=
  match subject with
  | SPrincipal _ => mret (vd, subject, None, [])
  | SGroup group =>
      _ ← raise_if (admin_default group) (InvalidFieldError "subject_id");
      if negb (platform_default group && g_system group) then mret (vd, subject, None, []) else
      match tenant_default_groups (t_id (svc_tenant self)) vd with
      | existing_custom :: _ => mret (vd, SGroup existing_custom, None, [])
      | [] =>
          '(vd', custom_group, events) ← clone_default_group key policy_key uuid group (svc_tenant self) vd;
          g ← or_raise RuntimeError custom_group;
          mret (vd', SGroup g, Some g, events)
      end
  end.

Record UpdateRoleBindingResult := mkUpdateRoleBindingResult {
  ur_subject_type : string;
  ur_roles : list RoleV2;
  ur_resource_id : string;
  ur_resource_type : string;
  ur_subject : Subject;
  ur_resource_name : option string;
  ur_custom_default_group_created : option Group;
}.

(** [update_role_bindings_for_subject]; [key], [policy_key] and [uuid] are those of a new
    default group, [bind] those of new bindings. *)
Definition update_role_bindings_for_subject (service : ImplicitResourceService) (scope_cache : PermissionScopeCache)
    (excluded_cache : ExcludedIdsCache) (now key policy_key : Z) (uuid : string) (bind : Z → Z * string) (self : RoleBindingService)
    (resource_type resource_id subject_type subject_id : string) (role_ids : list string) (vd : V1Db) :
    result (V1Db * UpdateRoleBindingResult * list ReplicationEvent) :=
  let tenant := t_id (svc_tenant self) in
  _ ← validate_resource self (v1_db vd) resource_type resource_id;
  m ← ensure_v2_write_activated now (db_mappings (v1_db vd) !! tenant);
  let vd0 := with_db (with_mappings (<[tenant := m]>)) vd in
  roles ← get_roles excluded_cache (v1_db vd0) role_ids;
  _ ← validate_role_scopes service scope_cache self (v1_db vd0) roles resource_type resource_id;
  found ← by_type subject_type subject_id (v1_db vd0);
  '(vd1, subject, created, events1) ← maybe_customize_default_group key policy_key uuid self found vd0;
  _ ← validate_subject self subject;
  '(d2, events2) ← replace_role_bindings self bind resource_type resource_id subject roles (v1_db vd1);
  let vd2 := with_db (λ _, d2) vd1 in
  mret (vd2, mkUpdateRoleBindingResult subject_type roles resource_id resource_type subject
               (get_resource_name self (v1_db vd2) resource_id resource_type) created, events1 ++ events2).
End service.
