(* ===== verification/DefaultAccess.v ===== *)
(** What copying and deleting the default group of a tenant does to the default access,
    and why the V2 request that copies it fails. *)

From S2P Require Import Prelude.
From S2P Require Import PyString.
From S2P Require Import Config.
From S2P Require Import RelationTypes.
From S2P Require Import TupleStore.
From S2P Require Import Permissions.
From S2P Require Import ScopeService.
From S2P Require Import Outbox.
From S2P Require Import Tenants.
From S2P Require Import Db.
From S2P Require Import BindingGraph.
From S2P Require Import RoleBindingService.
From S2P Require Import RoleScopes.
From S2P Require Import RoleBindingBatch.
From S2P Require Import RoleV2Service.
From S2P Require Import Workspaces.
From S2P Require Import BindingMapping.
From S2P Require Import V1State.
From S2P Require Import RoleMigration.
From S2P Require Import RoleMigrationGraph.
From S2P Require Import RoleRequests.
From S2P Require Import SubjectHandler.
From S2P Require Import SubjectRuns.
From S2P Require Import GroupHandler.
From S2P Require Import GroupRequests.
From S2P Require Import GroupService.
From S2P Require Import GroupMembers.
From S2P Require Import TenantBootstrap.
From S2P Require Import BootstrapAccess.
From S2P Require Import DefaultGroups.

(* ------------------------------------------------------------------ *)
(** * Changes of the default access of one tenant *)

Section shift.
Context `{Settings} `{PySetOrder} `{RowOrder}.
Variables (policy_uuid : Z → string) (svc : GlobalPolicyIdService).
Implicit Types (vd : V1Db) (m : TenantMapping) (store : tuples) (a : DefaultAccessType) (s : Scope).

(** Rows that answer a query the same way. *)
Lemma selected_rows {A} (p : A → bool) (rows rows' : gmap Z A) :
  (∀ k x, p x = true → rows' !! k = Some x ↔ rows !! k = Some x) →
  List.filter (λ kx, p (snd kx)) (row_order rows') ≡ₚ List.filter (λ kx, p (snd kx)) (row_order rows).
Proof.
  intros E. apply NoDup_Permutation.
  1,2: apply NoDup_ListNoDup, List.NoDup_filter, NoDup_ListNoDup; rewrite (row_order_perm _ _ _); apply NoDup_map_to_list.
  intros [k x]. rewrite !list_elem_of_In, !filter_In, <- !list_elem_of_In, !(row_order_perm _ _ _), !elem_of_map_to_list. cbn. naive_solver.
Qed.

Lemma selected_one {A B} (f : A → B) (l l' : list A) y : l' ≡ₚ l → map f l = [y] → map f l' = [y].
Proof. intros Hp E. apply Permutation_singleton_r. rewrite <- E. by apply Permutation_map. Qed.

Lemma select_filter {A} (p : A → bool) (rows : gmap Z A) : select p rows = map snd (List.filter (λ kx, p (snd kx)) (row_order rows)).
Proof.
  unfold select. induction (row_order rows) as [|[k x] l IH]; [done|]. cbn. destruct (p x); cbn; by rewrite IH.
Qed.

Lemma select_nil_iff {A} (p : A → bool) (rows : gmap Z A) : select p rows = [] ↔ ∀ k x, rows !! k = Some x → p x = false.
Proof.
  split.
  - intros Hn k x Hx. destruct (p x) eqn:E; [|done]. assert (x ∈ select p rows) as Hin by (apply elem_of_select; eauto).
    rewrite Hn in Hin. by apply elem_of_nil in Hin.
  - intros Hn. destruct (select p rows) as [|x l] eqn:E; [done|]. assert (x ∈ select p rows) as [Hx [k Hk]]%elem_of_select by (rewrite E; left).
    by rewrite (Hn _ _ Hk) in Hx.
Qed.

(** The roles of the platform depend on the groups of the platform and on their policies
    only. *)
Lemma role_of_kept vd vd' a s u :
  db_tenants (v1_db vd') = db_tenants (v1_db vd) →
  (∀ k g, g_system g = true → db_groups (v1_db vd') !! k = Some g ↔ db_groups (v1_db vd) !! k = Some g) →
  (∀ k p g, db_groups (v1_db vd) !! g_id g = Some g → g_system g = true → po_group p = Some (g_id g) →
     v1_policies vd' !! k = Some p ↔ v1_policies vd !! k = Some p) →
  (∀ k g, db_groups (v1_db vd) !! k = Some g → g_id g = k) →
  role_of policy_uuid svc a s vd = Ok u → role_of policy_uuid svc a s vd' = Ok u.
Proof.
  intros Et Eg Ep Hid.
  assert (∀ flag v, default_policy_uuid policy_uuid flag vd = Ok v → default_policy_uuid policy_uuid flag vd' = Ok v) as Hdp.
  { intros flag v Hv. unfold default_policy_uuid in Hv. apply bind_Ok in Hv as (g & Hg & Hv).
    assert (default_group flag vd = Ok g) as Hg' by (destruct (default_group flag vd) as [|[]]; try done; revert Hg; repeat case_match; done). clear Hg.
    apply bind_Ok in Hg' as (public & Hpub & Hg). destruct (select _ _) as [|g0 [|]] eqn:Hs in Hg; try done. injection Hg as ->.
    assert (g ∈ [g]) as Hin by left. rewrite <- Hs in Hin. apply elem_of_select in Hin as [Hflag [k Hk]]. rewrite !andb_true_iff in Hflag.
    assert (∀ x, g_system x && Z.eqb (g_tenant x) (t_id public) && flag x = true → g_system x = true) as Hsys by (intros x; rewrite !andb_true_iff; tauto).
    pose proof (Hid _ _ Hk) as <-. unfold default_policy_uuid, default_group.
    assert (get_public_tenant vd' = Ok public) as -> by (unfold get_public_tenant in *; by rewrite Et). cbn.
    rewrite select_filter in Hs |- *. rewrite (selected_one _ _ _ g (selected_rows _ _ _ (λ k x Hx, Eg k x (Hsys x Hx))) Hs). cbn.
    destruct (group_policies g vd) as [|pk [|]] eqn:Hgp in Hv; try done. injection Hv as <-.
    assert (group_policies g vd' = [pk]) as ->; [|done]. eapply (selected_one fst); [|exact Hgp].
    pose proof (selected_rows (λ p, bool_decide (po_group p = Some (g_id g))) (v1_policies vd) (v1_policies vd')) as Hperm. apply Hperm. intros k p Hp%bool_decide_eq_true. apply (Ep k p g); [done|tauto|done]. }
  unfold role_of, platform_v2_role_uuid_for, platform_default_policy_uuid, admin_default_policy_uuid.
  destruct a, s; try done; [destruct (platform_default_uuid svc)|destruct (admin_default_uuid svc)]; try done; intros Hr;
    (destruct (default_policy_uuid policy_uuid _ vd) as [v|] eqn:Hv in Hr; [|done]); by rewrite (Hdp _ _ Hv).
Qed.

(** The rows that the default access is read from, apart from the groups. *)
Record same_tenants vd vd' : Prop := {
  st_mappings : db_mappings (v1_db vd') = db_mappings (v1_db vd);
  st_tenants : db_tenants (v1_db vd') = db_tenants (v1_db vd);
  st_workspaces : db_workspaces (v1_db vd') = db_workspaces (v1_db vd);
}.

Lemma same_tenants_rows vd vd' tid m tenant org root dflt :
  same_tenants vd vd' → tenant_rows vd' tid m tenant org root dflt → tenant_rows vd tid m tenant org root dflt.
Proof. intros [E1 E2 E3] [A B C D E]. rewrite E1, E2, E3 in *. by split. Qed.

(** An event changes the access of at most one tenant for users and leaves everything
    else. *)
Lemma access_shift vd vd' store add rem T :
  access_ok policy_uuid svc vd store → distinct_bindings vd → same_tenants vd vd' →
  (∀ a s u, role_of policy_uuid svc a s vd = Ok u → role_of policy_uuid svc a s vd' = Ok u) →
  (∀ tid, T ≠ Some tid → tenant_default_groups tid vd' = [] ↔ tenant_default_groups tid vd = []) →
  (∀ t, t ∈ add → default_tuple vd t → ∃ tid m tenant org root dflt, T = Some tid ∧ granted vd' tid USER
     ∧ tenant_rows vd tid m tenant org root dflt ∧ gives policy_uuid svc vd' org (w_id root) (w_id dflt) m USER t) →
  (∀ t, t ∈ rem → default_tuple vd t → ∃ tid m tenant org root dflt s, T = Some tid ∧ ¬ granted vd' tid USER
     ∧ tenant_rows vd tid m tenant org root dflt ∧ s ∈ CONCRETE_SCOPES ∧ t = ta_binding org (w_id root) (w_id dflt) m USER s) →
  (∀ tid m tenant org root dflt, T = Some tid → tenant_rows vd tid m tenant org root dflt →
     if decide (tenant_default_groups tid vd' = []) then
       seeded policy_uuid svc vd' ∧ ∀ t, gives policy_uuid svc vd' org (w_id root) (w_id dflt) m USER t → t ∈ add
     else ∀ s, s ∈ CONCRETE_SCOPES → ta_binding org (w_id root) (w_id dflt) m USER s ∈ rem) →
  access_ok policy_uuid svc vd' (list_to_set add ∪ (store ∖ list_to_set rem)).
Proof.
  intros Hok Hdist Hst Hrole Hother Hadd Hrem Hfull tid m tenant org root dflt Hrows%(same_tenants_rows _ _ _ _ _ _ _ _ Hst).
  destruct (Hok _ _ _ _ _ _ Hrows) as (Ht & Hp & Hacc). pose proof (tr_mapping _ _ _ _ _ _ _ Hrows) as Hm.
  setoid_rewrite elem_of_union. setoid_rewrite elem_of_difference. setoid_rewrite elem_of_list_to_set.
  assert (∀ t, default_tuple vd t → relation t ≠ "binding" → t ∉ rem) as Hstay.
  { intros t Hd Hne Hin. destruct (Hrem t Hin Hd) as (k & m' & tn & o & r & d & s & _ & _ & _ & _ & ->). done. }
  assert (∀ a s, s ∈ CONCRETE_SCOPES → ∀ o r d, default_tuple vd (ta_binding o r d m a s)) as Hdb.
  { intros a s Hs o r d. right. right. exists tid, m, a, s. split; [done|]. split; [done|]. left. by exists o, r, d. }
  split; [right; split; [done|apply Hstay; [by left; eauto|done]]|]. split; [right; split; [done|apply Hstay; [by right; left; eauto|done]]|].
  intros a s Hs. destruct (Hacc a s Hs) as [Hb Hg]. destruct (decide (T = Some tid ∧ a = USER)) as [[-> ->]|Hne].
  - specialize (Hfull _ _ _ _ _ _ eq_refl Hrows). destruct (decide (tenant_default_groups tid vd' = [])) as [E|E].
    + destruct Hfull as [Hse Hfull]. destruct (Hse USER s Hs) as [u Hu]. assert (granted vd' tid USER) as Hgr by (by right).
      split; [split; [done|]|intros _; split; [|exists u; split; [done|]]]; intros; left; apply Hfull; exists s; naive_solver.
    + assert (¬ granted vd' tid USER) as Hng by (intros [?|?]; done). split; [|done]. split; [|done].
      intros [Hin|[_ Hn]]; [by destruct (Hadd _ Hin (Hdb USER s Hs _ _ _)) as (k & ? & ? & ? & ? & ? & [= <-] & ? & _)|by destruct Hn; apply Hfull].
  - assert (granted vd' tid a ↔ granted vd tid a) as Egr.
    { unfold granted. destruct a; [|tauto]. rewrite Hother; [tauto|]. naive_solver. }
    assert (∀ k m2 tn2 o2 r2 d2 s2, T = Some k → tenant_rows vd k m2 tn2 o2 r2 d2 → s2 ∈ CONCRETE_SCOPES → rb m a s ≠ rb m2 USER s2) as Hdiff.
    { intros k m2 tn2 o2 r2 d2 s2 ET Hr2 Hs2 E. destruct (Hdist _ _ _ _ _ _ _ _ Hm (tr_mapping _ _ _ _ _ _ _ Hr2) Hs Hs2 E) as (-> & -> & _). by apply Hne. }
    rewrite Egr, <- Hb. split; [split|].
    + intros [Hin|[? _]]; [|done]. exfalso.
      destruct (Hadd _ Hin (Hdb a s Hs _ _ _)) as (k & m2 & tn2 & o2 & r2 & d2 & ET & _ & Hr2 & s2 & Hs2 & [E|[(u & _ & E)|E]]); try discriminate E.
      apply (Hdiff _ _ _ _ _ _ _ ET Hr2 Hs2). unfold ta_binding, rel_tuple in E. by injection E.
    + intros Hin. right. split; [done|]. intros Hr. destruct (Hrem _ Hr (Hdb a s Hs _ _ _)) as (k & m2 & tn2 & o2 & r2 & d2 & s2 & ET & _ & Hr2 & Hs2 & E).
      apply (Hdiff _ _ _ _ _ _ _ ET Hr2 Hs2). unfold ta_binding, rel_tuple in E. by injection E.
    + intros [Hsub (u & Hu & Hro)]%Hb%Hg. split; [|exists u; split; [by apply Hrole|]]; right; (split; [done|]); apply Hstay; try done; right; right; exists tid, m, a, s; eauto 10.
Qed.

(** The tenant and the workspaces of a handler are the rows of the tenant of its group. *)
Lemma built_in_row d tid ty w :
  built_in_workspace d tid ty = Ok w → (∀ i w, db_workspaces d !! i = Some w → w_id w = i) →
  (db_workspaces d !! w_id w = Some w ∧ w_type w = ty ∧ w_tenant w = tid)
  ∧ ∀ w', db_workspaces d !! w_id w' = Some w' → w_type w' = ty → w_tenant w' = tid → w' = w.
Proof.
  unfold built_in_workspace. destruct (select _ _) as [|w0 [|]] eqn:Hs; try done. intros [= ->] Hid.
  assert (∀ x, x ∈ [w] ↔ (Z.eqb (w_tenant x) tid && bool_decide (w_type x = ty)) = true ∧ ∃ k, db_workspaces d !! k = Some x) as Hin
    by (intros x; by rewrite <- Hs, elem_of_select).
  setoid_rewrite list_elem_of_singleton in Hin. setoid_rewrite andb_true_iff in Hin. setoid_rewrite Z.eqb_eq in Hin.
  setoid_rewrite bool_decide_eq_true in Hin. split.
  - destruct (proj1 (Hin w) eq_refl) as [[? ?] [k Hk]]. by rewrite (Hid _ _ Hk).
  - intros w' Hw Ht Hn. apply Hin. eauto.
Qed.

Lemma access_tuples_rbac m res a only vd l tenant root dflt org :
  for_models tenant root dflt = Ok res → org_id tenant = Some org →
  default_role_binding_tuples policy_uuid svc m res a only None vd = Ok l → Forall (λ t, rbac_tuple t = true) l.
Proof.
  intros Hm Ho (ls & Hls%mapM_result_Ok & [= <-])%bind_Ok. apply Forall_forall. intros t (l0 & Ht & Hl0)%elem_of_concat.
  destruct (Forall2_elem_r _ _ _ _ Hls Hl0) as (s & Hs%elem_of_set_iter%elem_of_list_to_set & Hone). clear Hls Hl0 ls.
  revert Hone. unfold scope_binding_tuples. rewrite (concrete_rb _ _ _ Hs). cbn. intros (r & Hr & Hl)%bind_Ok.
  rewrite (for_models_Ok _ _ _ _ _ _ _ Hm Ho Hs Hr) in Hl. cbn [br_namespace br_name br_id] in Hl.
  apply bind_Ok in Hl as (b & [-> Vb]%create_relationship_spec & Hl). destruct only; inv_ok; rewrite ?create_relationship_spec in *;
    repeat match goal with E : _ ∧ _ |- _ => destruct E as [-> ?] end; simplify_eq; rewrite ?elem_of_cons, ?elem_of_nil in Ht;
    destruct_or? Ht; subst; unfold rbac_tuple; rewrite ?Vb; try done; by match goal with V : valid_tuple _ = true |- _ => rewrite V end.
Qed.

Lemma default_binding_Ok group ev vdh h vd m only mapping l :
  REPLICATION_TO_RELATION_ENABLED = true → bootstrap_keys vdh → group_handler_init group ev vdh = Ok (Some h) → same_tenants vdh vd →
  db_mappings (v1_db vdh) !! g_tenant group = Some m → (mapping = None ∨ mapping = Some m) →
  default_binding policy_uuid svc h only mapping vd = Ok l →
  ∃ tenant org root dflt, tenant_rows vdh (g_tenant group) m tenant org root dflt
    ∧ (∀ m' tn' o' r' d', tenant_rows vdh (g_tenant group) m' tn' o' r' d' → m' = m ∧ o' = org ∧ r' = root ∧ d' = dflt)
    ∧ Forall (λ t, rbac_tuple t = true) l
    ∧ ∀ t, t ∈ l ↔ if only then ∃ s, s ∈ CONCRETE_SCOPES ∧ t = ta_binding org (w_id root) (w_id dflt) m USER s
                    else gives policy_uuid svc vd org (w_id root) (w_id dflt) m USER t.
Proof.
  intros He Hk Hh [Em _ _] Hm Hmap Hl. unfold group_handler_init in Hh. rewrite He in Hh. cbn [negb] in Hh. apply dual_write_Ok in Hh.
  apply bind_Ok in Hh as (? & _ & Hh). apply bind_Ok in Hh as (tenant & Ht%or_raise_Ok & Hh). pose proof (bk_tenants _ Hk _ _ Ht) as Etn.
  apply bind_Ok in Hh as (dflt & [Hd Hdu]%built_in_row & Hh); [|apply Hk]. apply bind_Ok in Hh as (root & [Hr Hru]%built_in_row & Hh); [|apply Hk].
  apply bind_Ok in Hh as (sub & Hsub & Heq). destruct sub as [sub|]; [|done]. injection Heq as <-.
  assert (sh_tenant sub = tenant ∧ sh_root_workspace sub = root ∧ sh_default_workspace sub = dflt) as (Es1 & Es2 & Es3).
  { unfold subject_handler_init in Hsub. rewrite He in Hsub. cbn [negb] in Hsub. apply dual_write_Ok in Hsub.
    apply bind_Ok in Hsub as (? & _ & Hsub). apply bind_Ok in Hsub as (? & _ & Hsub). by apply bind_Ok in Hsub as (v & _ & [= <-]). }
  unfold default_binding in Hl. cbn [gh_group gh_subject] in Hl. rewrite Es1, Es2, Es3 in Hl. apply bind_Ok in Hl as (m' & Hm' & Hl).
  assert (m' = m) as ->.
  { destruct Hmap as [->| ->]; [rewrite Em, Hm in Hm'; by injection Hm'|]. by apply bind_Ok in Hm' as (? & _ & [= <-]). }
  apply bind_Ok in Hl as (res & Hres & Hl). assert (∃ org, org_id tenant = Some org) as [org Ho].
  { destruct (org_id tenant) as [org|] eqn:Eo; [eauto|]. unfold for_models, for_model, try_for_model, tenant_resource_id in Hres. by rewrite Eo in Hres. }
  rewrite Etn in Hd, Hr, Hdu, Hru. exists tenant, org, root, dflt. split; [by split|]. split.
  - intros m2 tn o r d [A B C (D1 & D2 & D3) (F1 & F2 & F3)]. rewrite Ht in B. injection B as <-. split; [congruence|]. split; [congruence|].
    split; [by apply Hru|by apply Hdu].
  - split; [by eapply access_tuples_rbac|]. intros t. rewrite (access_tuples_Ok _ _ m res USER only vd l tenant root dflt org Hres Ho Hl t). done.
Qed.

(** Deleting and creating role bindings leaves the other tables. *)
Lemma delete_user_bindings_Ok tenant vd vd' : delete_user_default_bindings tenant vd = Ok vd' → only_bindings vd vd' ∧ v1_bm vd' = v1_bm vd.
Proof.
  unfold delete_user_default_bindings. destruct (db_mappings _ !! _); [|intros [= <-]; done]. intros (uuids & _ & [= <-])%bind_Ok.
  split; [|done]. by destruct vd as [[]].
Qed.

Lemma default_tuple_ext vd vd' t : db_mappings (v1_db vd') = db_mappings (v1_db vd) → default_tuple vd' t ↔ default_tuple vd t.
Proof. intros E. unfold default_tuple. by rewrite E. Qed.

Lemma same_bm_rows vd vd' : only_bindings vd vd' → v1_bm vd' = v1_bm vd → rows_graph vd' = rows_graph vd.
Proof.
  intros Ho Eb. apply set_eq. intros t. unfold rows_graph. rewrite !elem_of_union, (only_bindings_graph _ _ _ Ho), elem_of_v1_graph, Eb.
  destruct (only_bindings_tables _ _ Ho) as (_ & _ & Eg & Ep & Ew & _). rewrite (members_graph_rest _ _ Eg Ep (ob_members _ _ Ho)).
  by assert (parents_graph (v1_db vd') = parents_graph (v1_db vd)) as -> by (unfold parents_graph; by rewrite Ew).
Qed.

Lemma new_group_rows key g vd :
  (∀ i, (key, i) ∉ v1_members vd) → rows_graph (with_db (put_groups (<[key := g]>)) vd) = rows_graph vd.
Proof.
  intros Hme. apply put_groups_graph, set_eq. intros t. rewrite !elem_of_members_graph. cbn.
  split; intros (gid & pid & grp & p & u & Hin & Hg & Hr); exists gid, pid, grp, p, u; (assert (key ≠ gid) as Hne by (intros ->; by destruct (Hme pid))).
  - by rewrite lookup_insert_ne in Hg.
  - by rewrite lookup_insert_ne.
Qed.

Lemma only_bindings_tenants vd vd' : only_bindings vd vd' → same_tenants vd vd'.
Proof. intros Ho. destruct (only_bindings_tables _ _ Ho) as (_ & _ & _ & _ & ? & ? & ?). by split. Qed.

Lemma group_members_kept gid vd vd' : only_bindings vd vd' → group_members gid vd' = group_members gid vd.
Proof. intros Ho. unfold group_members. destruct (only_bindings_tables _ _ Ho) as (_ & _ & _ & -> & _). by rewrite (ob_members _ _ Ho). Qed.

(** The handler of a group reads the version of its tenant. *)
Lemma handler_version group ev vd h :
  REPLICATION_TO_RELATION_ENABLED = true → bootstrap_keys vd → group_handler_init group ev vd = Ok (Some h) →
  lock_tenant_version (db_mappings (v1_db vd) !! g_tenant group) = Ok (sh_tenant_version (gh_subject h)).
Proof.
  intros He Hk. unfold group_handler_init. rewrite He. cbn [negb]. intros Hr%dual_write_Ok.
  apply bind_Ok in Hr as (? & _ & Hr). apply bind_Ok in Hr as (tenant & Ht%or_raise_Ok & Hr). apply bind_Ok in Hr as (? & _ & Hr).
  apply bind_Ok in Hr as (? & _ & Hr). apply bind_Ok in Hr as (sub & (sh & -> & _ & Hv)%subject_handler_init_Ok & [= <-]); [|done].
  by rewrite <-(bk_tenants _ Hk _ _ Ht).
Qed.

(** The rows that deleting a group leaves. *)
Lemma deleted_tables group vd vdp vd1 vd' :
  v1_inv vd → db_groups (v1_db vd) !! g_id group = Some group → g_system group = false →
  only_bindings vd vdp → delete_group (g_id group) vdp = Ok vd1 → only_bindings vd1 vd' →
  same_tenants vd vd' ∧ (∀ a s u, role_of policy_uuid svc a s vd = Ok u → role_of policy_uuid svc a s vd' = Ok u)
  ∧ ∀ tid, tenant_default_groups tid vd' = [] ↔ ∀ k g, k ≠ g_id group → db_groups (v1_db vd) !! k = Some g → platform_default g && Z.eqb (g_tenant g) tid = false.
Proof.
  intros Hi Hg Hsys Ho [-> _]%delete_group_Ok Ho'. destruct (only_bindings_tables _ _ Ho) as (_ & _ & Eg & _ & Ew & Em & Et).
  destruct (only_bindings_tables _ _ Ho') as (_ & _ & Eg' & _ & Ew' & Em' & Et'). pose proof (ob_policies _ _ Ho) as Ep. pose proof (ob_policies _ _ Ho') as Ep'.
  cbn in Eg', Ew', Em', Et', Ep'. rewrite Eg in Eg'. rewrite Ep in Ep'. destruct (vo_groups _ (proj1 Hi)) as [Hid _].
  split; [split; congruence|]. split.
  - intros a s u. apply role_of_kept; [congruence|..|done].
    + intros k g Hgs. rewrite Eg', lookup_delete_Some. split; [tauto|]. intros Hk. split; [|done]. intros <-. congruence.
    + intros k p g Hgr Hgs Hp. rewrite Ep', map_lookup_filter_Some. split; [tauto|]. intros Hk. split; [done|]. cbn. rewrite Hp. intros [= E]. rewrite E in Hgr. congruence.
  - intros tid. unfold tenant_default_groups. rewrite select_nil_iff, Eg'. setoid_rewrite lookup_delete_Some. naive_solver.
Qed.

Lemma deleted_rows group vdp vd1 vd' t :
  v1_inv vdp → db_groups (v1_db vdp) !! g_id group = Some group → delete_group (g_id group) vdp = Ok vd1 →
  only_bindings vd1 vd' → v1_bm vd' = v1_bm vd1 →
  t ∈ rows_graph vd' ↔ t ∈ rows_graph vdp ∧ ¬ of_group group (group_members (g_id group) vdp) t.
Proof.
  intros Hi Hg [-> _]%delete_group_Ok Ho Eb. rewrite (same_bm_rows _ _ Ho Eb). unfold rows_graph. rewrite !elem_of_union.
  rewrite (deleted_members _ _ _ _ (vo_groups _ (proj1 Hi)) (vo_users _ (proj1 Hi))), Hg.
  match goal with |- (?A ∨ ?B) ∨ _ ↔ _ => change A with (t ∈ parents_graph (v1_db vdp)); change B with (t ∈ v1_graph vdp) end.
  assert (of_group group (group_members (g_id group) vdp) t → (t ∉ parents_graph (v1_db vdp)) ∧ t ∉ v1_graph vdp) as Hn; [|naive_solver].
  intros (p & v & _ & _ & ->). apply member_not_rest.
Qed.

Lemma gives_kept vd vd' org root dflt m t :
  seeded policy_uuid svc vd → (∀ a s u, role_of policy_uuid svc a s vd = Ok u → role_of policy_uuid svc a s vd' = Ok u) →
  gives policy_uuid svc vd' org root dflt m USER t ↔ gives policy_uuid svc vd org root dflt m USER t.
Proof.
  intros Hse Hr. unfold gives. split; intros (s & Hs & Hc); exists s; (split; [done|]); destruct (Hse USER s Hs) as [u Hu]; pose proof (Hr _ _ _ Hu); naive_solver congruence.
Qed.
End shift.

(* ------------------------------------------------------------------ *)
(** * Copying the default group *)

Section customize.
Context `{Settings} `{PySetOrder} `{RowOrder}.
Variables (policy_uuid : Z → string) (svc : GlobalPolicyIdService) (ids : Z → BootstrapIds).
Variables (gen : V1Db → sys_fresh) (parse_uuid : string → result string) (role_gen : Z → V2boundresource → fresh) (ws_id : string).
Variable role_platform_default : Z → bool.
Implicit Types (vd : V1Db) (m : TenantMapping) (store : tuples) (a : DefaultAccessType) (s : Scope).

(** A tenant that has a mapping is not bootstrapped again. *)
Lemma bootstrap_tenant_again tenant m vd r :
  db_mappings (v1_db vd) !! t_id tenant = Some m → bootstrap_tenant policy_uuid svc ids tenant false vd = Ok r →
  r = (vd, mkBootstrappedTenant tenant (Some m) None None, [], []).
Proof.
  intros Hm (lock & Hl & Hr)%bind_Ok. apply bind_Ok in Hl as (locks & Hlocks & Hl%or_raise_Ok).
  rewrite (try_lock_Ok _ _ _ _ Hlocks (list_elem_of_here _ _)) in Hl. injection Hl as <-. unfold tenant_lock in Hr. rewrite Hm in Hr. cbn in Hr.
  by injection Hr as <-.
Qed.

Lemma lock_tenant_Ok tenant m vd lock :
  db_mappings (v1_db vd) !! t_id tenant = Some m → lock_tenant_for_bootstrap tenant vd = Ok lock →
  tenant_mapping lock = m ∧ custom_default_group lock = last (tenant_default_groups (t_id tenant) vd).
Proof.
  intros Hm (o & Hl & Ho%or_raise_Ok)%bind_Ok. apply bind_Ok in Hl as (locks & Hlocks & Hl%or_raise_Ok).
  rewrite (try_lock_Ok _ _ _ _ Hlocks (list_elem_of_here _ _)) in Hl. injection Hl as <-. unfold tenant_lock in Ho. rewrite Hm in Ho. cbn in Ho.
  by injection Ho as <-.
Qed.

(** The copy of the default group. *)
Definition copied (key : Z) (uuid : string) (group : Group) (tenant : Tenant) : Group :=
  mkGroup key uuid (t_id tenant) (platform_default group) (admin_default group) false "Custom default access" (g_description group).

(** What a copy for a bootstrapped tenant goes through. *)
Definition default_roles (public : Tenant) vd : list V1Role :=
  select (λ r, role_platform_default (v1_id r) && Z.eqb (v1_tenant r) (t_id public)) (v1_roles vd).
Lemma clone_run key policy_key uuid group tenant m vd vd' g es :
  REPLICATION_TO_RELATION_ENABLED = true → db_mappings (v1_db vd) !! t_id tenant = Some m →
  clone_default_group policy_uuid svc ids gen parse_uuid role_gen ws_id true role_platform_default key policy_key uuid group tenant vd
    = Ok (vd', Some g, es) →
  tenant_default_groups (t_id tenant) vd = [] ∧ g = copied key (default_group_uuid m) group tenant
  ∧ ∃ public vd1 vd2 h st p, get_public_tenant vd = Ok public ∧ save_group g vd = Ok vd1
    ∧ po_group p = Some key ∧ insert_policy policy_key p vd1 = Ok vd2
    ∧ group_handler_init g CUSTOMIZE_DEFAULT_GROUP vd2 = Ok (Some h)
    ∧ reset_roles_removing_default_access policy_uuid svc gen parse_uuid role_gen ws_id h (default_roles public vd) m (mkSubjectState vd2 [] [] [])
      = Ok st
    ∧ gh_replicate h false st = Ok es ∧ delete_user_default_bindings tenant (ss_vd st) = Ok vd'.
Proof.
  intros He Hm Hr. unfold clone_default_group in Hr. apply bind_Ok in Hr as ([[vd0 b] es0] & Hb & Hr).
  apply bind_Ok in Hb as ([[[vd0' b0] es0'] ws0] & Hb0%(bootstrap_tenant_again _ m) & Hb); [|done]. injection Hb0 as -> -> -> ->.
  apply bind_Ok in Hb as (lock & [Hlm Hlc]%(lock_tenant_Ok _ m) & Hb); [|done].
  apply bind_Ok in Hb as (u & Hc%raise_if_Ok%bool_decide_eq_false & [= <- <- <-]). rewrite Hlc in Hc. cbn [fst snd] in Hr. rewrite Hlm in Hr.
  apply bind_Ok in Hr as (public & Hpub & Hr). apply bind_Ok in Hr as (policy & _ & Hr).
  destruct (existsb _ _); [by injection Hr|]. apply bind_Ok in Hr as (vd1 & Hs & Hr). apply bind_Ok in Hr as (vd2 & Hp & Hr).
  apply bind_Ok in Hr as ([vd3 es3] & Hh & Hr). apply bind_Ok in Hr as (vd4 & Hd & [= <- <- <-]).
  apply bind_Ok in Hh as (o & Ho & Hh). destruct (group_handler_init_Ok _ _ _ _ He Ho) as (h & -> & _). cbn in Hh.
  apply bind_Ok in Hh as (st & Hst & Hh). apply bind_Ok in Hh as (es' & Hes & [= <- <-]).
  split. { destruct (tenant_default_groups (t_id tenant) vd) as [|x l]; [done|]. exfalso. apply Hc. destruct (last (x :: l)) eqn:E; [eauto|by apply last_None in E]. }
  split; [done|]. by exists public, vd1, vd2, h, st, (mkPolicy (Some key) (system_policy_name (copied key (default_group_uuid m) group tenant))
    (po_system policy) (t_id tenant) (list_to_set (map v1_id (default_roles public vd)))).
Qed.

(* ------------------------------------------------------------------ *)
(** * The V2 request *)

(** The bindings of roles can only be updated for tenants that still use V1. *)
Lemma reset_needs_v1 h roles st st' :
  sh_tenant_version (gh_subject h) = VERSION_2 → roles ≠ [] →
  generate_relations_reset_roles gen parse_uuid role_gen ws_id h roles st ≠ Ok st'.
Proof.
  intros Hv Hne (final & Hf & Hr)%bind_Ok. unfold with_system_roles_for_share in Hf.
  apply bind_Ok in Hf as (u & Hset%raise_if_Ok%negb_false_iff%bool_decide_eq_true & [= <-]).
  destruct (_ ++ _) as [|r0 rest]; [destruct roles as [|r roles]; [done|cbn in Hset; set_solver]|]. cbn in Hr.
  destruct (reset_role _ _ _ _ h st r0) as [st1|] eqn:H1'; [|done]. unfold reset_role in H1'.
  apply bind_Ok in H1' as (scopes & (perms & _ & Hsc%binding_scopes_nonempty)%bind_Ok & Hs).
  destruct scopes as [|sc scopes]; [done|]. cbn in Hs. revert Hs. unfold gh_update_mapping_for_role, update_mapping_for_role.
  destruct (v1_system r0); cbn; unfold expect_v1_tenant; by rewrite Hv.
Qed.


(** * The default access of the tenant *)

(** What copying the group collects. *)
Lemma clone_gathered key policy_key uuid group tenant m vd vd' g es :
  REPLICATION_TO_RELATION_ENABLED = true → sys_gen_ok gen → v1_inv vd → bootstrap_keys vd →
  db_mappings (v1_db vd) !! t_id tenant = Some m → fresh_group key (default_group_uuid m) vd →
  clone_default_group policy_uuid svc ids gen parse_uuid role_gen ws_id true role_platform_default key policy_key uuid group tenant vd
    = Ok (vd', Some g, es) →
  tenant_default_groups (t_id tenant) vd = [] ∧ g = copied key (default_group_uuid m) group tenant
  ∧ ∃ vd2 p add rem removed tn org root dflt,
      vd2 = with_policies (<[policy_key := p]>) (with_db (put_groups (<[key := g]>)) vd) ∧ po_group p = Some key
      ∧ only_bindings vd2 vd' ∧ rem ⊆ add ∧ (∀ t, t ∈ add → t ∈ v1_graph vd')
      ∧ (∀ t, t ∈ rows_graph vd' ↔ t ∈ add ∨ t ∈ rows_graph vd ∧ t ∉ rem)
      ∧ (∀ store, replay store es = Ok (list_to_set add ∪ (store ∖ list_to_set (rem ++ removed))))
      ∧ tenant_rows vd (t_id tenant) m tn org root dflt
      ∧ (∀ m' tn' o' r' d', tenant_rows vd (t_id tenant) m' tn' o' r' d' → m' = m ∧ o' = org ∧ r' = root ∧ d' = dflt)
      ∧ ∀ t, t ∈ removed ↔ ∃ s, s ∈ CONCRETE_SCOPES ∧ t = ta_binding org (w_id root) (w_id dflt) m USER s.
Proof.
  intros He Hgen Hi Hk Hm Hfr (Hnone & Hg & public & vd1 & vd2 & h & st & p & _ & Hsave & Hp & Hpol & Hh & Hrs & Hrep & Hdel)%(clone_run _ _ _ _ _ m);
    [|done|done].
  split; [done|]. split; [done|]. pose proof (save_group_keys _ _ _ Hsave (vo_groups _ (proj1 Hi))) as Hgk.
  apply save_group_Ok in Hsave as [E1 _]. subst vd1. unfold insert_policy in Hpol. apply bind_Ok in Hpol as (u & _ & [= E2]).
  assert (g_id g = key ∧ g_tenant g = t_id tenant) as [Ek Etn] by (by subst g). rewrite Ek in *.
  assert (v1_inv vd2) as Hi2. { subst vd2. eapply only_policies_inv; [apply with_policies_only|]. by apply put_groups_inv. }
  assert (same_tenants vd vd2) as Hst2 by (by subst vd2).
  assert (rows_graph vd2 = rows_graph vd) as Er2. { subst vd2. rewrite (only_policies_graph _ _ (with_policies_only _ _)). apply new_group_rows, Hfr. }
  unfold reset_roles_removing_default_access in Hrs. apply bind_Ok in Hrs as (st' & Hgat & Hrs). apply bind_Ok in Hrs as (removed & Hrem & [= <-]).
  apply (reset_gathered _ _ _ _ Hgen) in Hgat; [|done|].
  2:{ cbn. subst vd2. intros r (_ & k & Hr)%elem_of_select. cbn. by rewrite (vo_role_id _ (proj1 Hi) _ _ Hr). }
  destruct Hgat as (add & rem & A & R & E & D & M & _). cbn in A, R, E, D, M, Hdel. apply delete_user_bindings_Ok in Hdel as [Hob Ebm].
  pose proof (dl_only _ _ _ _ D) as Ho2. rewrite <- Etn in Hm.
  destruct (default_binding_Ok policy_uuid svc g CUSTOMIZE_DEFAULT_GROUP vd2 h (ss_vd st') m true (Some m) removed) as (tn & org & root & dflt & Hrows & Huniq & _ & Hremoved); try done.
  { subst vd2. by destruct Hk. } { by apply only_bindings_tenants. } { by rewrite (st_mappings _ _ Hst2). } { by right. }
  exists vd2, p, add, rem, removed, tn, org, root, dflt. rewrite Etn in Hrows, Huniq. split_and!; try done.
  - by trans (ss_vd st').
  - intros t Ht. rewrite (only_bindings_graph _ _ _ Hob), Ebm, <- elem_of_v1_graph. apply D. by left.
  - intros t. rewrite (same_bm_rows _ _ Hob Ebm), (delta_rows _ _ _ _ _ D), Er2. done.
  - intros store. rewrite (gh_replicate_effect _ _ _ He Hrep); [|done|cbn; rewrite A; apply D]. cbn. by rewrite A, R.
  - by eapply same_tenants_rows.
  - intros m' tn' o' r' d' Hr'. apply (Huniq m' tn'). eapply same_tenants_rows; [|exact Hr']. by destruct Hst2.
Qed.

End customize.

(* ------------------------------------------------------------------ *)
(** * Deleting a group *)

Section delete.
Context `{Settings} `{PySetOrder} `{RowOrder}.
Variables (policy_uuid : Z → string) (svc : GlobalPolicyIdService).
Variables (gen : V1Db → sys_fresh) (parse_uuid : string → result string) (role_gen : Z → V2boundresource → fresh) (ws_id : string).
Variable binding_key : string → Z.
Implicit Types (vd : V1Db) (m : TenantMapping) (store : tuples) (a : DefaultAccessType) (s : Scope).

(** The roles of a deleted group, each once. *)
Lemma removal_once_gathered h roles st seen st' seen' :
  sys_gen_ok gen →
  foldM (λ '(st, seen) role,
      if bool_decide (v1_id role ∈ (seen : list Z)) then mret (st, seen)
      else st' ← update_mapping_for_role_removal gen parse_uuid role_gen ws_id h st role; mret (st', seen ++ [v1_id role]))
    (st, seen) roles = Ok (st', seen') → v1_inv (ss_vd st) → (∀ r, r ∈ roles → v1_roles (ss_vd st) !! v1_id r = Some r) →
  ∃ S, gathered Shrink (g_uuid (gh_group h)) S st st'.
Proof.
  intros Hgen. revert st seen. induction roles as [|role roles IH]; intros st seen Hf Hi Hrows; cbn in Hf.
  - injection Hf as <- <-. exists []. by apply gathered_refl.
  - destruct (bool_decide (v1_id role ∈ seen)); [apply (IH _ _ Hf Hi); intros r Hr; apply Hrows; by right|].
    destruct (update_mapping_for_role_removal _ _ _ _ h st role) as [st1|] eqn:E; [|done].
    assert (gathered Shrink (g_uuid (gh_group h)) (map v1_id [role]) st st1) as G.
    { eapply (removal_gathered gen parse_uuid role_gen ws_id Hgen); [unfold generate_relations_to_remove_roles; cbn; by rewrite E|done|].
      intros r ->%list_elem_of_singleton. apply Hrows. left. }
    destruct (gathered_only _ _ _ _ _ G) as [Hi1 Ho1]. destruct (IH _ _ Hf Hi1) as [S' G'].
    { intros r Hr. rewrite (ob_roles _ _ Ho1). apply Hrows. by right. }
    eexists. by eapply gathered_trans.
Qed.

(** What preparing the deletion collects. *)
Lemma prepare_gathered h roles vd st vd1 :
  sys_gen_ok gen → v1_inv vd → apart vd → (∀ r, r ∈ roles → v1_roles vd !! v1_id r = Some r) →
  match sh_tenant_version (gh_subject h) with
  | VERSION_1 => prepare_to_delete_group_v1 gen parse_uuid role_gen ws_id h roles (mkSubjectState vd [] [] [])
  | VERSION_2 => prepare_to_delete_group_v2 h (mkSubjectState vd [] [] [])
  end = Ok st → delete_group (g_id (gh_group h)) (ss_vd st) = Ok vd1 →
  ss_add st = [] ∧ ss_events st = [] ∧ v1_inv (ss_vd st) ∧ only_bindings vd (ss_vd st)
  ∧ (∀ t, t ∈ ss_remove st → ¬ default_tuple vd t) ∧ ∀ t, t ∈ rows_graph (ss_vd st) ↔ t ∈ rows_graph vd ∧ t ∉ ss_remove st.
Proof.
  intros Hgen Hi Hap Hrows. destruct (sh_tenant_version _).
  - intros (u & _ & Hr)%bind_Ok _. apply bind_Ok in Hr as (public & _ & Hr). apply bind_Ok in Hr as ([st' seen] & Hf & [= <-]).
    apply removal_once_gathered in Hf as (S & add & rem & A & R & E & D & M & _); [|done|done|].
    2:{ cbn. intros r. rewrite elem_of_app, !list_elem_of_In, !filter_In, <- !list_elem_of_In. intros [[Hr _]|[Hr _]]; auto. }
    cbn in A, R, E, D, M. rewrite M in A, D. rewrite A, R, E. split_and!; try done; [apply D|apply D|..].
    + intros t Ht. pose proof (dl_rem _ _ _ _ D) as Hrem. rewrite Forall_forall in Hrem. destruct (Hrem t Ht) as (b & Hb & (pk & b' & Hb' & Eb)); [done|].
      eapply mapping_no_default; [exact Hb|]. intros k m a s. rewrite <- Eb. by apply (Hap pk).
    + intros t. rewrite (delta_rows _ _ _ _ _ D), elem_of_nil. tauto.
  - intros (removed & Hrem%mapM_result_Ok & [= <-])%bind_Ok [_ Hno]%delete_group_Ok. cbn in *.
    set (bindings := select _ _) in Hrem. assert (bindings = []) as E.
    { apply select_nil_iff. intros k b _. apply andb_false_iff. left. apply bool_decide_eq_false, Hno. }
    rewrite E in Hrem. inversion Hrem. subst. cbn. split_and!; try done; [by intros t ?%elem_of_nil|]. intros t. rewrite elem_of_nil. tauto.
Qed.

Lemma create_default_binding_Ok tenant m vd a s vd' :
  create_default_binding policy_uuid svc binding_key tenant m vd a s = Ok vd' → only_bindings vd vd' ∧ v1_bm vd' = v1_bm vd.
Proof.
  intros (u & _ & Hr)%bind_Ok. destruct (has_binding_uuid _ _); [by injection Hr as <-|]. apply bind_Ok in Hr as ([ty [i|]] & _ & Hr); [|by injection Hr as <-].
  unfold create_single_default_binding in Hr. apply bind_Ok in Hr as (u1 & _ & Hr). apply bind_Ok in Hr as (u2 & _ & Hr).
  apply bind_Ok in Hr as (role & _ & Hr). apply bind_Ok in Hr as (g & _ & Hr). destruct (has_binding_uuid _ _); [by injection Hr as <-|].
  apply bind_Ok in Hr as (vd1 & [-> _]%save_binding_Ok & [= <-]). split; [|done]. by destruct vd as [[]].
Qed.

Lemma try_each_ind {S A} (R : S → S → Prop) (f : S → A → result S) x l :
  PreOrder R → (∀ x y x', f x y = Ok x' → R x x') → R x (try_each f x l).
Proof.
  intros HR Hf. revert x. induction l as [|y l IH]; intros x; cbn; [done|]. destruct (f x y) as [x'|] eqn:E; [|done]. trans x'; [by eapply Hf|done].
Qed.

Lemma restore_Ok tenant vd vd' :
  restore_user_default_bindings policy_uuid svc binding_key tenant vd = vd' → only_bindings vd vd' ∧ v1_bm vd' = v1_bm vd.
Proof.
  unfold restore_user_default_bindings. intros <-. destruct (db_mappings _ !! _) as [m|]; [|done].
  apply (try_each_ind (λ vd vd', only_bindings vd vd' ∧ v1_bm vd' = v1_bm vd)).
  - split; [done|]. intros vd1 vd2 vd3 [Ho E] [Ho' E']. split; [by trans vd2|congruence].
  - intros vd1 s vd2. apply create_default_binding_Ok.
Qed.

(** What deleting a group collects and leaves. *)
Lemma destroy_run admin group vd vd' es :
  REPLICATION_TO_RELATION_ENABLED = true → sys_gen_ok gen → v1_inv vd → bootstrap_keys vd → apart vd →
  (platform_default group = true → group_members (g_id group) vd = []) →
  destroy_group policy_uuid svc binding_key gen parse_uuid role_gen ws_id admin group vd = Ok (vd', es) →
  g_system group = false ∧ ∃ vdp vd1 add rem, v1_inv vdp ∧ only_bindings vd vdp ∧ delete_group (g_id group) vdp = Ok vd1
    ∧ only_bindings vd1 vd' ∧ v1_bm vd' = v1_bm vd1 ∧ (∀ t, t ∈ rem → ¬ default_tuple vd t)
    ∧ (∀ t, t ∈ rows_graph vdp ∧ ¬ of_group group (group_members (g_id group) vdp) t ↔ t ∈ rows_graph vd ∧ t ∉ rem)
    ∧ (∀ store, replay store es = Ok (list_to_set add ∪ (store ∖ list_to_set rem)))
    ∧ if platform_default group then ∃ m tn org root dflt, tenant_rows vd (g_tenant group) m tn org root dflt
        ∧ (∀ m' tn' o' r' d', tenant_rows vd (g_tenant group) m' tn' o' r' d' → m' = m ∧ o' = org ∧ r' = root ∧ d' = dflt)
        ∧ ∀ t, t ∈ add ↔ gives policy_uuid svc vdp org (w_id root) (w_id dflt) m USER t
      else add = [].
Proof.
  intros He Hgen Hi Hk Hap Hnm Hr. unfold destroy_group in Hr. apply bind_Ok in Hr as (u & Hpr%raise_if_Ok & Hr). cbn in Hpr. rewrite orb_false_r in Hpr.
  split; [done|]. apply bind_Ok in Hr as (u' & _ & Hr). apply bind_Ok in Hr as (tenant & _ & Hr). apply bind_Ok in Hr as (o & Ho & Hr).
  destruct (group_handler_init_Ok _ _ _ _ He Ho) as (h & -> & Hh). apply bind_Ok in Hr as (st & Hst & Hr). apply bind_Ok in Hr as (vd1 & Hd & Hr).
  apply bind_Ok in Hr as (es' & Hrep & [= Evd ->]).
  assert (only_bindings vd1 vd' ∧ v1_bm vd' = v1_bm vd1) as [Hob Ebm] by (destruct (platform_default group); [by eapply restore_Ok|by subst]).
  destruct (negb (platform_default group) && _ && _) eqn:Eempty.
  - injection Hst as <-. cbn in Hd, Hrep. injection Hrep as <-. rewrite !andb_true_iff, negb_true_iff, !bool_decide_eq_true in Eempty.
    destruct Eempty as [[Epd Em] _]. exists vd, vd1, [], []. rewrite Epd, Em. split_and!; try done.
    + by intros t ?%elem_of_nil.
    + intros t. rewrite elem_of_nil. split; [tauto|]. intros [? _]. split; [done|]. by intros (p & v & ?%elem_of_nil & _).
    + intros store. unfold replay. cbn. f_equal. set_solver.
  - clear Eempty. unfold prepare_to_delete_group in Hst. apply bind_Ok in Hst as (st1 & Hst1 & Hst). rewrite <- Hh in Hd.
    assert (ss_vd st = ss_vd st1) as Evd1 by (revert Hst; destruct (platform_default (gh_group h)); intros (? & _ & [= <-])%bind_Ok; done). rewrite Evd1 in Hd.
    assert (∀ r, r ∈ group_roles group vd → v1_roles vd !! v1_id r = Some r) as Hroles.
    { intros r [_ [k Hr]]%elem_of_select. by rewrite (vo_role_id _ (proj1 Hi) _ _ Hr). }
    destruct (prepare_gathered _ _ _ _ _ Hgen Hi Hap Hroles Hst1 Hd) as (A & E & Hi1 & Ho1 & Hrem & Hrows). rewrite Hh in Hd, Hst.
    exists (ss_vd st1), vd1. revert Hst. destruct (platform_default group) eqn:Epd; intros (l & Hl & [= <-])%bind_Ok.
    + assert (∃ m, db_mappings (v1_db vd) !! g_tenant group = Some m) as [m Hm].
      { unfold default_binding in Hl. rewrite Hh in Hl. apply bind_Ok in Hl as (m & Hm%or_raise_Ok & _). exists m.
        by rewrite (st_mappings _ _ (only_bindings_tenants _ _ Ho1)) in Hm. }
      destruct (default_binding_Ok policy_uuid svc group DELETE_GROUP vd h (ss_vd st1) m false None l) as (tn & org & root & dflt & Htn & Huniq & Hv & Hl'); try done.
      { by apply only_bindings_tenants. } { by left. }
      exists l, (ss_remove st1). rewrite (group_members_kept _ _ _ Ho1), (Hnm eq_refl). split_and!; try done; [..|by exists m, tn, org, root, dflt].
      * intros t. rewrite Hrows. split; [tauto|]. intros Ht. split; [done|]. by intros (p & v & ?%elem_of_nil & _).
      * intros store. rewrite (gh_replicate_effect _ _ _ He Hrep); [|done|cbn; by rewrite A]. cbn. by rewrite A.
    + apply generate_member_relations_Ok in Hl as [_ Hl]. exists [], (ss_remove st1 ++ l). split_and!; try done.
      * intros t [?|(p & v & _ & _ & ->)%Hl]%elem_of_app; [auto|]. unfold t_member.
        intros [(? & ? & E')|[(? & E')|(k & m & a & s & _ & _ & [(? & ? & ? & E')|[(? & E')|E']])]]; discriminate E'.
      * intros t. rewrite Hrows, elem_of_app, Hl. tauto.
      * intros store. rewrite (gh_replicate_effect _ _ _ He Hrep); [|done|cbn; by rewrite A]. cbn. by rewrite A.
Qed.

(** C9: deleting a group through V1 leads the store from the rows before to the rows after.
    When it was the default group of its tenant, the users of the tenant get the default
    access of the platform back; nobody else's default access changes. *)
Theorem deletion_access admin group vd vd' es store
  (He : REPLICATION_TO_RELATION_ENABLED = true) (Hgen : sys_gen_ok gen) (Hi : v1_inv vd) (Hk : bootstrap_keys vd)
  (Hg : db_groups (v1_db vd) !! g_id group = Some group)
  (Hone : platform_default group = true → tenant_default_groups (g_tenant group) vd = [group] ∧ group_members (g_id group) vd = [])
  (Hse : seeded policy_uuid svc vd) (Hdist : distinct_bindings vd) (Hap : apart vd)
  (Hok : access_ok policy_uuid svc vd store) (Hmir : mirrored vd store)
  (Hr : destroy_group policy_uuid svc binding_key gen parse_uuid role_gen ws_id admin group vd = Ok (vd', es)) :
  ∃ store', replay store es = Ok store' ∧ access_ok policy_uuid svc vd' store' ∧ mirrored vd' store'
    ∧ ∀ tid a, granted vd' tid a ↔ granted vd tid a ∨ platform_default group = true ∧ tid = g_tenant group.
Proof.
  destruct (destroy_run _ _ _ _ _ He Hgen Hi Hk Hap (λ E, proj2 (Hone E)) Hr)
    as (Hsys & vdp & vd1 & add & rem & Hip & Hop & Hd & Hob & Ebm & Hrem & Hrows & Hrep & Hadd).
  destruct (deleted_tables policy_uuid svc _ _ _ _ _ Hi Hg Hsys Hop Hd Hob) as (Hst & Hrole & Hdg). destruct (only_bindings_tables _ _ Hop) as (_ & _ & Egp & _ & _ & _ & Etp).
  assert (∀ a s u, role_of policy_uuid svc a s vd = Ok u → role_of policy_uuid svc a s vdp = Ok u) as Hrolep.
  { intros a s u. apply role_of_kept; [done|by rewrite Egp|by rewrite (ob_policies _ _ Hop)|by apply (vo_groups _ (proj1 Hi))]. }
  assert (∀ tid, tenant_default_groups tid vd' = [] ↔ tenant_default_groups tid vd = [] ∨ platform_default group = true ∧ tid = g_tenant group) as Hdg'.
  { intros tid. rewrite Hdg. split.
    - intros Hn. destruct (platform_default group && Z.eqb (g_tenant group) tid) eqn:E; [right; by apply andb_true_iff in E as [? ?%Z.eqb_eq]|left].
      apply select_nil_iff. intros k g Hgk. destruct (decide (k = g_id group)) as [->|Hne]; [congruence|by eapply Hn].
    - intros [Hn|[Epd ->]] k g Hne Hgk; [eapply select_nil_iff in Hn; done|]. destruct (platform_default g && _) eqn:E; [|done]. exfalso.
      assert (g ∈ tenant_default_groups (g_tenant group) vd) as Hin by (apply elem_of_select; eauto).
      rewrite (proj1 (Hone Epd)) in Hin. apply list_elem_of_singleton in Hin as ->. apply Hne. symmetry. by apply (vo_groups _ (proj1 Hi)). }
  exists (list_to_set add ∪ (store ∖ list_to_set rem)). split; [done|]. split; [|split].
  - apply (access_shift policy_uuid svc vd vd' store add rem (if platform_default group then Some (g_tenant group) else None)); try done.
    + intros tid Hne. rewrite Hdg'. destruct (platform_default group); naive_solver.
    + intros t Ht _. destruct (platform_default group); [|by subst; apply elem_of_nil in Ht]. destruct Hadd as (m & tn & org & root & dflt & Htn & _ & Hadd).
      exists (g_tenant group), m, tn, org, root, dflt. split; [done|]. split; [right; apply Hdg'; tauto|]. split; [done|].
      rewrite (gives_kept policy_uuid svc vd), <- (gives_kept policy_uuid svc vd vdp) by done. by apply Hadd.
    + intros t Ht Hdt. by destruct (Hrem t Ht).
    + intros tid m' tn' o' r' d' ET Hr'. destruct (platform_default group); [|done]. injection ET as <-.
      destruct Hadd as (m & tn & org & root & dflt & _ & Huniq & Hadd). apply Huniq in Hr' as (-> & -> & -> & ->).
      rewrite decide_True by (apply Hdg'; tauto). split; [intros a s Hs; destruct (Hse a s Hs); eauto|].
      intros t. rewrite (gives_kept policy_uuid svc vd), <- (gives_kept policy_uuid svc vd vdp), Hadd by done. done.
  - intros t. rewrite (default_tuple_ext _ _ _ (st_mappings _ _ Hst)). intros Hdt.
    rewrite (deleted_rows group vdp vd1), Hrows, <- (Hmir t Hdt), elem_of_union, elem_of_difference, !elem_of_list_to_set; try done; [|by rewrite Egp].
    assert (t ∉ add) as Hn; [|tauto]. intros Ht. destruct (platform_default group); [|by subst; apply elem_of_nil in Ht].
    destruct Hadd as (m & tn & org & root & dflt & Htn & _ & Hadd). apply Hadd in Ht as (s & Hs & Hc). apply Hdt. right. right.
    exists (g_tenant group), m, USER, s. split; [apply Htn|]. split; [done|]. destruct Hc as [->|[(u & _ & ->)| ->]]; eauto 10.
  - intros tid a. unfold granted. rewrite Hdg'. destruct a; [assert (USER ≠ ADMIN) by done; tauto|]. split; intros _; [left|]; by left.
Qed.

(** C37: once V2 writes are activated, a group with role bindings cannot be deleted through
    V1: the tuples of its bindings are collected for removal, but the rows stay and protect
    the group. *)
Theorem v2_bound_group_kept admin group vd m i
  (He : REPLICATION_TO_RELATION_ENABLED = true) (Hk : bootstrap_keys vd)
  (Hm : db_mappings (v1_db vd) !! g_tenant group = Some m) (Hv : v2_write_activated_at m ≠ None)
  (Hb : (i, g_id group) ∈ db_group_entries (v1_db vd)) :
  ∃ e, destroy_group policy_uuid svc binding_key gen parse_uuid role_gen ws_id admin group vd = Raise e.
Proof.
  destruct (destroy_group _ _ _ _ _ _ _ _ _ _) as [[vd' es]|e] eqn:Hr; [exfalso|eauto].
  unfold destroy_group in Hr. apply bind_Ok in Hr as (u & _ & Hr). apply bind_Ok in Hr as (u' & _ & Hr).
  apply bind_Ok in Hr as (tenant & _ & Hr). apply bind_Ok in Hr as (o & Ho & Hr). destruct (group_handler_init_Ok _ _ _ _ He Ho) as (h & -> & Hh).
  apply handler_version in Ho; [|done|done]. rewrite Hm in Ho. unfold lock_tenant_version in Ho.
  assert (sh_tenant_version (gh_subject h) = VERSION_2) as Hver by (cbn in Ho; destruct (v2_write_activated_at m); [by injection Ho|done]).
  apply bind_Ok in Hr as (st & Hst & Hr). apply bind_Ok in Hr as (vd1 & [_ Hno]%delete_group_Ok & _). apply (Hno i).
  assert (ss_vd st = vd) as ->; [|done]. case_match; [by injection Hst as <-|]. unfold prepare_to_delete_group in Hst. rewrite Hver in Hst.
  apply bind_Ok in Hst as (st1 & (l & _ & [= <-])%bind_Ok & Hst). revert Hst.
  by destruct (platform_default (gh_group h)); intros (? & _ & [= <-])%bind_Ok.
Qed.
End delete.

(* ------------------------------------------------------------------ *)
(** * The sample of [BootstrapAccess] *)

Section sample.
#[local] Existing Instance sample_settings.
Abbreviation sample_roles := (λ (_ : Z), resource_gen sample_resources "y" (-1)).
Definition viewer_default (k : Z) : bool := Z.eqb k 101.

Lemma access_sample_inv : v1_inv access_sample.
Proof.
  assert (map_Forall (λ i g, g_id g = i ∧ map_Forall (λ j h, g_uuid g = g_uuid h → i = j) (db_groups (v1_db access_sample)))
            (db_groups (v1_db access_sample))) as Hg by by_compute.
  assert (map_Forall (λ _ w, w_type w ≠ UNGROUPED_HOSTS) (db_workspaces (v1_db access_sample))) as Hw by by_compute.
  split; [split|done]; try done.
  - split; try done.
    + split; cbn; [by intros i r [<- <-]%lookup_singleton_Some|]. by intros i j r s [<- _]%lookup_singleton_Some [<- _]%lookup_singleton_Some.
    + cbn. intros i s [<- <-]%lookup_singleton_Some. by eexists.
    + cbn. by intros i r s [<- <-]%lookup_singleton_Some.
  - cbn. intros i s [<- <-]%lookup_singleton_Some. by eexists.
  - cbn. by intros i r s role [<- <-]%lookup_singleton_Some [_ <-]%lookup_singleton_Some [_ <-]%lookup_singleton_Some.
  - intros tn w w' ((k & Hk) & _ & Ht). by destruct (Hw k w Hk).
  - cbn. by intros i r s role [<- <-]%lookup_singleton_Some.
  - cbn. by intros i j role role' [<- _]%lookup_singleton_Some [<- _]%lookup_singleton_Some.
  - cbn. by intros i role [<- <-]%lookup_singleton_Some.
  - split; intros i; [intros g Hi; apply (Hg i g Hi)|]. intros j g h Hi Hj. by apply (proj2 (Hg i g Hi) j h Hj).
Qed.

Lemma access_sample_distinct : distinct_bindings access_sample.
Proof. apply distinct_checked. by_compute. Qed.

(** The tenant without a default group gets one. *)
Definition customize_run :=
  clone_default_group policy_uuids no_cache new_ids next_sys Ok sample_roles (ws_uuid "3") true viewer_default 4 13 "u" platform_group (tenant_of 9 "o9") access_sample.
Lemma apart_checked vd :
  map_Forall (λ _ b, map_Forall (λ _ m, Forall (λ p, bm_id b ≠ rb m (fst p) (snd p)) access_points) (db_mappings (v1_db vd))) (v1_bm vd) → apart vd.
Proof.
  intros Hc pk b k m a s Hb Hm Hs. specialize (Hc pk b Hb k m Hm). rewrite Forall_forall in Hc. exact (Hc (a, s) (elem_of_access_points _ _ Hs)).
Qed.


(** The tenant with a default group loses it. *)
Definition delete_run := destroy_group policy_uuids no_cache (λ _, 1%Z) next_sys Ok sample_roles (ws_uuid "3") true group_three access_sample.

Lemma deletion_access_witness :
  ∃ vd' es store', delete_run = Ok (vd', es) ∧ replay access_store es = Ok store'
    ∧ access_ok policy_uuids no_cache vd' store' ∧ mirrored vd' store' ∧ granted vd' 8 USER.
Proof.
  destruct delete_run as [[vd' es]|] eqn:Hr; [|by vm_compute in Hr].
  assert (tenant_default_groups 8 access_sample = [group_three]) as Hone by (by vm_compute).
  assert (group_members 3 access_sample = []) as Hno by (by vm_compute).
  assert (apart access_sample) as Hap by (intros pk b k m a s Hb; discriminate Hb).
  destruct (@deletion_access sample_settings _ _ policy_uuids no_cache next_sys Ok sample_roles (ws_uuid "3") (λ _, 1%Z) true group_three access_sample vd' es access_store
    eq_refl next_sys_ok access_sample_inv access_sample_keys eq_refl (λ _, conj Hone Hno) access_sample_seeded access_sample_distinct Hap
    (proj1 access_sample_ok) access_sample_mirrored Hr) as (store' & Hrep & Hok & Hmir & Hg).
  exists vd', es, store'. refine (conj eq_refl (conj Hrep (conj Hok (conj Hmir _)))). apply Hg. right. split; reflexivity.
Defined.

(** The default group of the platform through V2, for a tenant of V1 until then. *)
Definition v2_request :=
  update_role_bindings_for_subject policy_uuids no_cache new_ids next_sys Ok sample_roles (ws_uuid "3") true viewer_default ScopeService.sample_service None
    (mkExcludedIdsCache None None) 5 4 13 "u" (λ k, (k, "b")) (mkRoleBindingService (tenant_of 9 "o9") "s" true false) "workspace" "w9d" "group" "pg" [] access_sample.


(** The group is bound to a role after V2 writes were activated. *)
Definition bound_sample : V1Db :=
  with_db (λ d, with_bindings (λ _, {[1%Z := mkRoleBinding 1 "b1" 201 "workspace" "w8d" 8]}) (λ _, {[(1, 3)%Z]}) id
                  (with_mappings (<[8%Z := with_v2_state (Some 5%Z) (Some 5%Z) (mapping_of 8 "m8" "g3")]>) d)) access_sample.

Lemma v2_bound_group_kept_witness :
  let run := destroy_group policy_uuids no_cache (λ _, 1%Z) next_sys Ok sample_roles (ws_uuid "3") true group_three bound_sample in
  (∃ e, run = Raise e) ∧ match run with Raise (ProtectedError 1) => true | _ => false end = true.
Proof.
  split; [|by vm_compute].
  apply (@v2_bound_group_kept sample_settings _ _ policy_uuids no_cache next_sys Ok sample_roles (ws_uuid "3") (λ _, 1%Z) true group_three bound_sample
    (with_v2_state (Some 5%Z) (Some 5%Z) (mapping_of 8 "m8" "g3")) 1); [reflexivity| |reflexivity|discriminate|reflexivity].
  by destruct access_sample_keys.
Defined.
End sample.
