(* ===== verification/V1History.v ===== *)
(** Histories of requests to the V1 domain: roles, the roles of groups, the members of
    groups, and groups themselves.  Every history keeps the rows consistent, and the
    relations store it replicates to is the graph of the rows. *)

From S2P Require Import Prelude.
From S2P Require Import PyString.
From S2P Require Import Config.
From S2P Require Import RelationTypes.
From S2P Require Import TupleStore.
From S2P Require Import Permissions.
From S2P Require Import ScopeService.
From S2P Require Import Outbox.
From S2P Require Import Tenants.
From S2P Require Import Db.
From S2P Require Import BindingGraph.
From S2P Require Import RoleBindingService.
From S2P Require Import RoleV2Service.
From S2P Require Import Workspaces.
From S2P Require Import BindingMapping.
From S2P Require Import V1State.
From S2P Require Import RoleMigration.
From S2P Require Import RoleMigrationGraph.
From S2P Require Import RoleRequests.
From S2P Require Import SubjectHandler.
From S2P Require Import SubjectRuns.
From S2P Require Import GroupHandler.
From S2P Require Import GroupRequests.
From S2P Require Import GroupService.
From S2P Require Import GroupMembers.

Section history.
Context `{Settings} `{PySetOrder} `{RowOrder}.
Variable parse_uuid : string → result string.
Implicit Types (vd : V1Db) (group : Group) (tenant : Tenant).

(** A request on a group of a tenant. *)
Definition on_group tenant group vd : Prop :=
  tenant_name tenant ≠ PUBLIC_TENANT_NAME ∧ db_groups (v1_db vd) !! g_id group = Some group.

(** One request. *)
Inductive v1_step : V1Db → list ReplicationEvent → V1Db → Prop :=
| vs_role vd es vd' : role_step parse_uuid vd es vd' → v1_step vd es vd'
| vs_add_roles gen role_gen ws_id policy_key group ids tenant user_admin vd vd' es :
    sys_gen_ok gen → on_group tenant group vd → v1_policies vd !! policy_key = None →
    add_roles_by_ids gen parse_uuid role_gen ws_id policy_key group ids tenant user_admin vd = Ok (vd', es) → v1_step vd es vd'
| vs_remove_roles gen role_gen ws_id group ids tenant vd vd' es :
    sys_gen_ok gen → on_group tenant group vd →
    remove_roles_by_ids gen parse_uuid role_gen ws_id group ids tenant vd = Ok (vd', es) → v1_step vd es vd'
| vs_update_roles gen role_gen ws_id policy_key group roleset tenant vd vd' es :
    sys_gen_ok gen → on_group tenant group vd → v1_policies vd !! policy_key = None →
    update_group_roles gen parse_uuid role_gen ws_id policy_key group roleset tenant vd = Ok (vd', es) → v1_step vd es vd'
| vs_create_group key uuid name description tenant vd vd' g :
    fresh_group key uuid vd → create_group key uuid name description tenant vd = Ok (vd', g) → v1_step vd [] vd'
| vs_update_group group name description vd vd' g :
    db_groups (v1_db vd) !! g_id group = Some group → update_group group name description vd = Ok (vd', g) → v1_step vd [] vd'
| vs_delete_group group vd vd' es :
    db_groups (v1_db vd) !! g_id group = Some group → delete_group_v2 group vd = Ok (vd', es) → v1_step vd es vd'
| vs_add_principals tenant group usernames service_accounts vd vd' es ps :
    db_groups (v1_db vd) !! g_id group = Some group →
    add_principals tenant group usernames service_accounts vd = Ok (vd', es, ps) → v1_step vd es vd'
| vs_remove_principals tenant group usernames service_accounts vd vd' es ps :
    db_groups (v1_db vd) !! g_id group = Some group →
    remove_principals tenant group usernames service_accounts vd = Ok (vd', es, ps) → v1_step vd es vd'
| vs_remove_principal tenant group uuid vd vd' es p :
    db_groups (v1_db vd) !! g_id group = Some group →
    remove_principal tenant group uuid vd = Ok (vd', es, p) → v1_step vd es vd'
| vs_remove_from_group admin org group service_accounts usernames vd vd' es :
    db_groups (v1_db vd) !! g_id group = Some group →
    remove_principal_from_group admin org group service_accounts usernames vd = Ok (vd', es, HTTP_204_NO_CONTENT) → v1_step vd es vd'.

(** A history of requests and the events that they emitted. *)
Inductive v1_history : V1Db → list ReplicationEvent → V1Db → Prop :=
| vh_nil vd : v1_history vd [] vd
| vh_step vd es vd1 es' vd2 : v1_history vd es vd1 → v1_step vd1 es' vd2 → v1_history vd (es ++ es') vd2.

Lemma steps_trans vd es vd1 es' vd2 : steps vd es vd1 → steps vd1 es' vd2 → steps vd (es ++ es') vd2.
Proof.
  intros ([_ Hr] & Hs & Ha) ([Hi' Hr'] & Hs' & Ha'). split_and!; [split; [done|]|auto..].
  unfold replay in *. by rewrite foldM_app, Hr.
Qed.

Lemma roles_by_query_rows roleset tenant vd r : v1_ok vd → r ∈ roles_by_query roleset tenant vd → v1_roles vd !! v1_id r = Some r.
Proof. intros Hok [_ [k Hk]]%elem_of_select. by rewrite (vo_role_id _ Hok _ _ Hk). Qed.

Lemma rows_graph_group vd pk m u :
  v1_inv vd → v1_bm vd !! pk = Some m → vt_group (bm_id m) u ∈ rows_graph vd ↔ u ∈ bm_groups m.
Proof.
  intros [Hok _] Hm. unfold rows_graph, v1_graph. rewrite !elem_of_union, elem_of_mappings_graph. split.
  - intros [[Ht|[(pk' & m' & Hm' & Ht)|Ht]]|Ht].
    + apply elem_of_parents_graph in Ht as (w & p & _ & E). discriminate E.
    + apply elem_of_mapping_tuples in Ht as [E|[(q & _ & E)|[E|[(x & Hx & E)|(x & _ & E)]]]]; try discriminate E.
      apply vt_group_inj in E as [E <-]. rewrite (vw_bm_id _ (vo_wf _ Hok) _ _ _ _ Hm Hm' E) in Hm. congruence.
    + apply elem_of_owners_graph in Ht as (i & r & _ & _ & Ht). apply elem_of_owner_tuples in Ht as (tn & x & _ & _ & E). discriminate E.
    + apply elem_of_members_graph in Ht as (? & ? & ? & ? & ? & _ & _ & _ & _ & E). discriminate E.
  - intros Hu. left. right. left. exists pk, m. split; [done|]. apply elem_of_mapping_tuples. eauto 10.
Qed.

Lemma rows_graph_member vd gid grp pid p u :
  v1_inv vd → db_groups (v1_db vd) !! gid = Some grp → db_principals (v1_db vd) !! pid = Some p → user_id p = Some u →
  t_member (g_uuid grp) u ∈ rows_graph vd ↔ (gid, pid) ∈ v1_members vd.
Proof.
  intros [Hok _] Hg Hp Hu. unfold rows_graph. rewrite !elem_of_union, elem_of_members_graph.
  destruct (member_not_rest vd (g_uuid grp) u) as [? ?]. split; [|eauto 15].
  intros [[?|?]|(gid' & pid' & grp' & p' & u' & Hin & Hg' & Hp' & Hu' & [E <-]%t_member_inj)]; try done.
  rewrite (proj2 (vo_groups _ Hok) _ _ _ _ Hg Hg' E). by rewrite (proj2 (vo_users _ Hok) _ _ _ _ _ Hp Hp' Hu Hu').
Qed.

Lemma update_group_roles_steps gen role_gen ws_id policy_key group roleset tenant vd vd' es :
  REPLICATION_TO_RELATION_ENABLED = true → sys_gen_ok gen → v1_inv vd → on_group tenant group vd → v1_policies vd !! policy_key = None →
  update_group_roles gen parse_uuid role_gen ws_id policy_key group roleset tenant vd = Ok (vd', es) → steps vd es vd'.
Proof.
  intros He Hgen Hi [Htn Hg] Hpk. unfold update_group_roles. intros ([vd1 es1] & Hadd & Hr)%bind_Ok.
  apply add_roles_steps in Hadd as [Hs1 Eg]; try done; [|intros r; by apply roles_by_query_rows, Hi].
  destruct (List.filter _ _) as [|r0 rs]; [injection Hr as <- <-; done|]. apply bind_Ok in Hr as ([vd2 es2] & Hrem & [= <- <-]).
  pose proof (proj1 (proj1 Hs1)) as Hi1. eapply steps_trans; [exact Hs1|].
  eapply remove_roles_steps in Hrem; try done; [by rewrite Eg|]. intros r. by apply roles_by_query_rows, Hi1.
Qed.

Lemma v1_step_refines vd es vd' :
  REPLICATION_TO_RELATION_ENABLED = true → v1_inv vd → v1_step vd es vd' → steps vd es vd'.
Proof.
  intros He Hi Hs. destruct Hs as [vd es vd' Hs|gen rg ws pk g ids tn ua vd vd' es Hgen [Htn Hg] Hpk Hr|gen rg ws g ids tn vd vd' es Hgen [Htn Hg] Hr
    |gen rg ws pk g rs tn vd vd' es Hgen Hg Hpk Hr|key uuid nm desc tn vd vd' g Hf Hr|g nm desc vd vd' g' Hg Hr|g vd vd' es Hg Hr
    |tn g us sas vd vd' es ps Hg Hr|tn g us sas vd vd' es ps Hg Hr|tn g u vd vd' es p Hg Hr|adm org g sas us vd vd' es Hg Hr].
  - by eapply role_step_refines.
  - apply bind_Ok in Hr as (roles & Hroles & Hr). apply add_roles_steps in Hr as [? _]; try done. intros r. by eapply roles_by_ids_rows; [|apply Hi].
  - apply bind_Ok in Hr as (roles & Hroles & Hr). apply remove_roles_steps in Hr; try done. intros r. by eapply roles_by_ids_rows; [|apply Hi].
  - by eapply update_group_roles_steps.
  - by eapply create_group_steps.
  - by eapply update_group_steps.
  - by eapply delete_group_v2_steps.
  - by eapply add_principals_steps.
  - by eapply remove_principals_steps.
  - by eapply remove_principal_steps.
  - by eapply (remove_from_group_run adm org g sas us vd vd' es HTTP_204_NO_CONTENT).
Qed.

Lemma v1_history_steps vd es vd' :
  REPLICATION_TO_RELATION_ENABLED = true → v1_inv vd → v1_history vd es vd' → steps vd es vd'.
Proof.
  intros He Hi Hh. induction Hh as [vd|vd es vd1 es' vd2 _ IH Hs]; [done|].
  specialize (IH Hi). eapply steps_trans; [done|]. apply v1_step_refines; [done|apply IH|done].
Qed.

(* ------------------------------------------------------------------ *)
(** * What a history ensures *)

(** C2: a history of V1 requests keeps the rows consistent, keeps the role bindings in
    step with the binding mappings and the mappings in step with the policies, and the
    events it emitted turn the graph of the rows before it into the graph of the rows
    after it. *)
Theorem v1_requests_refine vd es vd' (He : REPLICATION_TO_RELATION_ENABLED = true) (Hi : v1_inv vd)
  (Hs : in_step vd) (Ha : assigned vd) (Hh : v1_history vd es vd') :
  v1_inv vd' ∧ in_step vd' ∧ assigned vd' ∧ replay (rows_graph vd) es = Ok (rows_graph vd').
Proof. destruct (v1_history_steps _ _ _ He Hi Hh) as ([? ?] & ? & ?). auto. Qed.

(** C3: after a history, the relations store has the role, the permissions and the resource
    of every binding mapping; it gives a custom role's binding to the members of a group
    exactly when a policy gives the role to the group; and it has a user in a group exactly
    when the memberships do. *)
Theorem v1_store_grants vd es vd' store (He : REPLICATION_TO_RELATION_ENABLED = true) (Hi : v1_inv vd)
  (Ha : assigned vd) (Hh : v1_history vd es vd') (Hr : replay (rows_graph vd) es = Ok store) :
  (∀ pk m, v1_bm vd' !! pk = Some m → frame_tuples m ⊆ store)
  ∧ (∀ pk m role u, v1_bm vd' !! pk = Some m → v1_roles vd' !! bm_role m = Some role → v1_system role = false →
     vt_group (bm_id m) u ∈ store ↔
     ∃ gid grp, policy_group vd' (bm_role m) gid ∧ db_groups (v1_db vd') !! gid = Some grp ∧ g_uuid grp = u)
  ∧ ∀ gid grp pid p u, db_groups (v1_db vd') !! gid = Some grp → db_principals (v1_db vd') !! pid = Some p → user_id p = Some u →
     t_member (g_uuid grp) u ∈ store ↔ (gid, pid) ∈ v1_members vd'.
Proof.
  destruct (v1_history_steps _ _ _ He Hi Hh) as ([Hi' Hrep] & _ & Has). rewrite Hrep in Hr. injection Hr as <-. split_and!.
  - intros pk m Hm t Ht. unfold rows_graph, v1_graph. rewrite !elem_of_union, elem_of_mappings_graph. left. right. left.
    exists pk, m. split; [done|]. unfold mapping_tuples. apply elem_of_union. by left.
  - intros pk m role u Hm Hro Hsy. destruct (Has Ha pk m role Hm Hro Hsy) as [_ Hu]. rewrite <- Hu. by eapply rows_graph_group.
  - intros gid grp pid p u Hg Hp Hu. by eapply rows_graph_member.
Qed.
End history.

(* ------------------------------------------------------------------ *)
(** * A history *)

(** A role is created for a group, a user joins the group, the role is taken away and given
    back, and the user leaves. *)
Section sample.
#[local] Existing Instance sample_settings.
Abbreviation no_gen := (λ (_ : Z), resource_gen sample_resources "y" (-1)).

Definition run_sample : result (list V1Db * list ReplicationEvent) :=
  '(vd1, es1) ← perform_create Ok (resource_gen sample_resources "x" 1) (ws_uuid "3") v1_first member_sample;
  '(vd2, es2, _) ← add_principals sample_tenant group_five {["user3"]} ∅ vd1;
  '(vd3, es3) ← remove_roles_by_ids next_sys Ok no_gen (ws_uuid "3") group_five ["v1"] sample_tenant vd2;
  '(vd4, es4) ← add_roles_by_ids next_sys Ok no_gen (ws_uuid "3") 20 group_five ["v1"] sample_tenant None vd3;
  '(vd5, es5, _) ← remove_principals sample_tenant group_five {["user3"]} ∅ vd4;
  mret ([vd1; vd2; vd3; vd4; vd5], (((([] ++ es1) ++ es2) ++ es3) ++ es4) ++ es5).

Lemma sample_history :
  ∃ vd es, v1_history Ok member_sample es vd ∧ length es = 5%nat ∧ map (λ pk, bm_groups <$> v1_bm vd !! pk) [1%Z] = [Some ["g5"]]
    ∧ ∃ l, run_sample = Ok (l, es).
Proof.
  assert (match run_sample with
          | Ok (l, es) => (length es, map (λ vd, db_groups (v1_db vd) !! 5%Z) l, map (λ vd, v1_policies vd !! 20%Z) (firstn 4 l),
                           map (λ vd, bm_groups <$> v1_bm vd !! 1%Z) (skipn 4 l))
          | Raise _ => (0%nat, [], [], []) end = (5%nat, repeat (Some group_five) 5, repeat None 4, [Some ["g5"]])) as Hc by (by vm_compute).
  destruct run_sample as [[l es]|] eqn:Hr; [|done]. pose proof Hr as Hrun. unfold run_sample in Hr.
  apply bind_Ok in Hr as ([vd1 es1] & H1' & Hr). apply bind_Ok in Hr as ([[vd2 es2] ps] & H2' & Hr).
  apply bind_Ok in Hr as ([vd3 es3] & H3' & Hr). apply bind_Ok in Hr as ([vd4 es4] & H4' & Hr).
  apply bind_Ok in Hr as ([[vd5 es5] ps'] & H5' & Hr). injection Hr as <- Ees. cbn in Hc. injection Hc as Hlen G1 G2 G3 G4 G5 P1 P2 P3 P4 Hg.
  exists vd5, es. split_and!; [|done|cbn; by rewrite Hg|by eexists]. rewrite <- Ees.
  econstructor; [econstructor; [econstructor; [econstructor; [eapply (vh_step _ _ []); [constructor|]|]|]|]|].
  - apply vs_role. eapply rs_create; [|reflexivity|done|exact H1'].
    refine (conj (conj _ _) (conj _ _)); [apply resource_gen_fresh; [by left|by vm_compute]|done|by intros ? ? ? _ [= <-]|by apply unnamed_checked].
  - eapply (vs_add_principals _ _ group_five); [exact G1|exact H2'].
  - refine (vs_remove_roles _ _ _ _ group_five _ sample_tenant _ _ _ next_sys_ok (conj _ G2) H3'). by apply (bool_decide_unpack _).
  - refine (vs_add_roles _ _ _ _ _ group_five _ sample_tenant _ _ _ _ next_sys_ok (conj _ G3) P3 H4'). by apply (bool_decide_unpack _).
  - eapply (vs_remove_principals _ _ group_five); [exact G4|exact H5'].
Qed.

Lemma member_sample_in_step : in_step member_sample.
Proof. intros pk m i b Hm. discriminate Hm. Qed.
Lemma member_sample_assigned : assigned member_sample.
Proof. intros pk m role Hm. discriminate Hm. Qed.

Lemma v1_requests_refine_witness :
  ∃ vd es, v1_history Ok member_sample es vd ∧ length es = 5%nat ∧ v1_inv vd ∧ in_step vd ∧ assigned vd
    ∧ replay (rows_graph member_sample) es = Ok (rows_graph vd).
Proof.
  destruct sample_history as (vd & es & Hh & Hl & _). exists vd, es. split; [exact Hh|]. split; [exact Hl|].
  exact (v1_requests_refine Ok member_sample es vd eq_refl member_sample_inv member_sample_in_step member_sample_assigned Hh).
Defined.

Lemma v1_store_grants_witness :
  ∃ vd es store, v1_history Ok member_sample es vd ∧ replay (rows_graph member_sample) es = Ok store
    ∧ ∀ pk m, v1_bm vd !! pk = Some m → frame_tuples m ⊆ store.
Proof.
  destruct sample_history as (vd & es & Hh & _). exists vd, es, (rows_graph vd). split; [exact Hh|].
  assert (replay (rows_graph member_sample) es = Ok (rows_graph vd)) as Hr.
  { exact (proj2 (proj1 (v1_history_steps Ok member_sample es vd eq_refl member_sample_inv Hh))). }
  split; [exact Hr|].
  exact (proj1 (v1_store_grants Ok member_sample es vd (rows_graph vd) eq_refl member_sample_inv member_sample_assigned Hh Hr)).
Defined.
End sample.
