(* ===== verification/V1Delivery.v ===== *)
(** From requests to the relations store: the events of a history of V1 requests, written to
    the outbox and delivered by the consumer. *)

From S2P Require Import Prelude.
From S2P Require Import PyString.
From S2P Require Import Config.
From S2P Require Import PyJson.
From S2P Require Import RelationTypes.
From S2P Require Import TupleStore.
From S2P Require Import Outbox.
From S2P Require Import KafkaConsumer.
From S2P Require Import KafkaWorld.
From S2P Require Import KafkaDelivery.
From S2P Require Import Tenants.
From S2P Require Import Db.
From S2P Require Import V1State.
From S2P Require Import RoleRequests.
From S2P Require Import GroupMembers.
From S2P Require Import V1History.
From Stdlib Require Import Sorting.Sorted.

(* ------------------------------------------------------------------ *)
(** * Tuples as messages *)

(** The store of messages that holds the tuples of a graph. *)
Definition as_store (G : tuples) : gset Message := set_map as_message G.

Lemma as_message_inj t u : as_message t = as_message u → t = u.
Proof.
  destruct t as [[[a b] c] d [[[e f] g] h]], u as [[[a' b'] c'] d' [[[e' f'] g'] h']]. unfold as_message. cbn. intros E. by injection E as -> -> -> -> -> -> -> ->.
Qed.

Lemma elem_of_as_store t G : as_message t ∈ as_store G ↔ t ∈ G.
Proof. unfold as_store. rewrite elem_of_map. split; [intros (u & ->%as_message_inj & ?); done|eauto]. Qed.

(** The filter of a valid tuple matches no other valid tuple. *)
Lemma filter_inj t u : valid_tuple t = true → valid_tuple u = true → relation_filter (as_message t) = relation_filter (as_message u) → t = u.
Proof.
  intros Ht Hu E. apply as_message_inj. pose proof (valid_srelation t) as Hst. pose proof (valid_srelation u) as Hsu.
  unfold relation_filter, as_message in *. cbn in *. injection E as -> -> -> -> -> -> -> E. f_equal.
  destruct (srelation (subject t)) as [r|], (srelation (subject u)) as [r'|]; cbn in E; subst; try done.
  - by destruct (Hst "" Ht eq_refl).
  - by destruct (Hsu "" Hu eq_refl).
Qed.

Definition all_valid (G : tuples) : Prop := ∀ t, t ∈ G → valid_tuple t = true.

Lemma apply_event G e :
  all_valid G → valid_event e →
  apply_delta (map as_message (ev_add e), map as_message (ev_remove e)) (as_store G)
  = as_store (list_to_set (ev_add e) ∪ (G ∖ list_to_set (ev_remove e))).
Proof.
  intros HG [Ha Hr]. rewrite Forall_forall in Hr. apply set_eq. intros m. rewrite elem_of_apply_delta. cbn. unfold as_store. rewrite list_elem_of_fmap, !elem_of_map.
  assert (∀ t, t ∈ G → matched (map as_message (ev_remove e)) (as_message t) ↔ t ∈ ev_remove e) as Hm.
  { intros t Ht. unfold matched. rewrite map_map, list_elem_of_fmap. split; [|eauto]. intros (u & E & Hu).
    rewrite (filter_inj t u); auto. }
  split.
  - intros [(t & -> & Ht)|[Hn (t & -> & Ht)]]; exists t; (split; [done|]); rewrite elem_of_union, elem_of_difference, !elem_of_list_to_set; [by left|].
    right. split; [done|]. by rewrite <- Hm.
  - intros (t & -> & Ht). rewrite elem_of_union, elem_of_difference, !elem_of_list_to_set in Ht.
    destruct Ht as [Ht|[Ht Hn]]; [left; eauto|right]. split; [by rewrite Hm|eauto].
Qed.

Section graph.
Context `{Settings} (ParseDict : json → result Message).
Context (HParse : ∀ t, valid_tuple t = true → ParseDict (to_dict t) = Ok (as_message t)).

(** The log of a run of events stands for the graph the events replay to. *)
Lemma log_graph es log G G' :
  Forall2 carries es log → Forall valid_event es → all_valid G → replay G es = Ok G' →
  graph ParseDict (as_store G) log = as_store G' ∧ Forall (λ r, record_good ParseDict r = true) log.
Proof.
  intros Hc. revert G. induction Hc as [|e r es log He _ IH]; intros G Hv HG Hr.
  { by injection Hr as <-. }
  apply Forall_cons in Hv as [Hve Hv]. destruct (row_decodes ParseDict HParse e r Hve He) as [Hd Hg].
  unfold replay in Hr. cbn in Hr. apply bind_Ok in Hr as (G1 & Hw & Hr). unfold in_memory_replicate in Hw. rewrite write_eq in Hw.
  case_decide; [|done]. injection Hw as <-.
  destruct (IH (list_to_set (ev_add e) ∪ (G ∖ list_to_set (ev_remove e))) Hv) as [IHg IHr]; [|exact Hr|].
  - intros t. rewrite elem_of_union, elem_of_difference, !elem_of_list_to_set. destruct Hve as [Hva _]. rewrite Forall_forall in Hva. intros [?|[? _]]; auto.
  - split; [|by constructor]. unfold graph in *. cbn [foldl].
    replace (effect_of ParseDict r) with (map as_message (ev_add e), map as_message (ev_remove e)) by (unfold effect_of; by rewrite Hd).
    by rewrite apply_event.
Qed.
End graph.

(* ------------------------------------------------------------------ *)
(** * Delivery of a history *)

Section delivery.
Context `{Settings} `{PySetOrder} `{RowOrder}.
Variable parse_uuid : string → result string.
Context {W : Type} `{World W} (ParseDict : json → result Message) (cfg : ConsumerConfig) (tp : TopicPartition).
Context (HParse : ∀ t, valid_tuple t = true → ParseDict (to_dict t) = Ok (as_message t)).

(** C1: the relations store ends up as the rows are.  After a history of V1 requests, let the
    log of the partition carry the events of the history, and the store start as the graph of
    the rows before.  However the requests to the Inventory API, the commits and the locks
    fail, as long as they fail finitely often, enough runs of the consumer leave the store
    with exactly the tuples of the rows after the history. *)
Theorem requests_reach_store vd es vd' log fuel n (w : W)
  (He : REPLICATION_TO_RELATION_ENABLED = true) (Hi : v1_inv vd) (Hh : v1_history parse_uuid vd es vd')
  (Hvalid : all_valid (rows_graph vd)) (Hevents : Forall valid_event es)
  (Hlog : Forall2 carries es log) (Hsorted : StronglySorted (λ a b, (cr_offset a < cr_offset b)%Z) log)
  (Htp : Forall (λ r, topic_partition r = tp) log)
  (Hcreate : is_ok (create_consumer cfg) = true) (Hgroup : str_truth (RBAC_KAFKA_CONSUMER_GROUP_ID cfg) = true)
  (Hretries : (0 < RBAC_KAFKA_LOCK_ACQUISITION_MAX_RETRIES cfg)%nat) (Hshutdown : commit_on_shutdown (cc_commit cfg) = true)
  (Hw : tuples_of w = as_store (rows_graph vd)) (Hcom : committed_of w !! tp = None) (Ha : env_assignment w = [tp])
  (Hf : (faults w < fuel)%nat) (Hn : (faults w < n)%nat) :
  ∃ w', sessions ParseDict cfg tp log fuel n w = Some w' ∧ tuples_of w' = as_store (rows_graph vd').
Proof.
  destruct (v1_history_steps parse_uuid _ _ _ He Hi Hh) as ([_ Hrep] & _).
  destruct (log_graph ParseDict HParse _ _ _ _ Hlog Hevents Hvalid Hrep) as [Hg Hgood].
  destruct (sessions_deliver ParseDict cfg tp log (as_store (rows_graph vd)) Hsorted Htp Hcreate Hgroup Hretries Hshutdown fuel n w) as (w' & Hs & _ & Ht); [|done|done|done|by left|].
  - unfold consistent, position. rewrite Hcom, Hw. exists []. split; [apply prefix_nil|done].
  - exists w'. by rewrite Ht.
Qed.
End delivery.

(* ------------------------------------------------------------------ *)
(** * A delivery *)

(** The records of a list of events, one offset after the other. *)
Section sample.
#[local] Existing Instance sample_settings.
Definition row_of (e : ReplicationEvent) : option Outbox :=
  match outbox_replicate e 1700000000 [] with Ok [row] => Some row | _ => None end.
Definition event_record (offset : Z) (e : ReplicationEvent) : ConsumerRecord :=
  mkConsumerRecord "relations" 0 offset None
    (match row_of e with Some row => Some (debezium_value (json_dumps (payload row))) | None => None end).
Fixpoint records_from (offset : Z) (es : list ReplicationEvent) : list ConsumerRecord :=
  match es with [] => [] | e :: es' => event_record offset e :: records_from (offset + 1) es' end.

Lemma records_carry offset es : forallb (λ e, bool_decide (is_Some (row_of e))) es = true → Forall2 carries es (records_from offset es).
Proof.
  revert offset. induction es as [|e es IH]; intros offset; cbn; [constructor|]. intros [[row Hr]%bool_decide_eq_true Hes]%andb_true_iff.
  constructor; [|by apply IH]. apply (dumped_row_carries e 1700000000 row); [|done|unfold event_record; by rewrite Hr].
  unfold row_of in Hr. destruct (outbox_replicate e 1700000000 []) as [[|row' []]|]; try done. by injection Hr as ->.
Qed.
Lemma records_partition offset es : Forall (λ r, topic_partition r = sample_tp) (records_from offset es).
Proof. revert offset. induction es as [|e es IH]; intros offset; by constructor. Qed.
Lemma records_sorted offset es : StronglySorted (λ a b, (cr_offset a < cr_offset b)%Z) (records_from offset es).
Proof.
  revert offset. induction es as [|e es IH]; intros offset; constructor; [apply IH|].
  assert (∀ k, (offset < k)%Z → Forall (λ r, (offset < cr_offset r)%Z) (records_from k es)) as Hlt; [|apply Hlt; lia].
  clear IH. induction es as [|e' es' IH]; intros k Hk; constructor; [done|]. apply IH. lia.
Qed.

Definition delivery_world : Sim.t :=
  Sim.mk (as_store (rows_graph member_sample)) ∅ ∅ 0 [sample_tp] [Sim.Fine; Sim.Fine; Sim.FailsBefore; Sim.FailsAfter].

Definition valid_eventb (e : ReplicationEvent) : bool := forallb valid_tuple (ev_add e) && forallb valid_tuple (ev_remove e).
Lemma valid_eventb_ok es : forallb valid_eventb es = true → Forall valid_event es.
Proof.
  intros Hes. apply Forall_forall. intros e He. rewrite forallb_forall in Hes. apply list_elem_of_In, Hes in He.
  apply andb_true_iff in He as [Ha Hr]. rewrite forallb_forall in Ha, Hr. split; apply Forall_forall; intros t Ht%list_elem_of_In; auto.
Qed.

Lemma requests_reach_store_witness :
  ∃ vd es w', v1_history Ok member_sample es vd ∧ length es = 5%nat
    ∧ sessions sample_parse sample_config sample_tp (records_from 0 es) 3 3 delivery_world = Some w'
    ∧ tuples_of w' = as_store (rows_graph vd).
Proof.
  destruct sample_history as (vd & es & Hh & Hl & _ & l & Hrun). exists vd, es.
  assert (match run_sample with Ok (_, es) => forallb valid_eventb es && forallb (λ e, bool_decide (is_Some (row_of e))) es | Raise _ => false end = true)
    as Hc by (vm_compute; reflexivity).
  rewrite Hrun in Hc. apply andb_true_iff in Hc as [Hv Hrows].
  destruct (requests_reach_store (H := sample_settings) Ok sample_parse sample_config sample_tp sample_parse_ok member_sample es vd (records_from 0 es) 3 3 delivery_world
    eq_refl member_sample_inv Hh) as (w' & Hs & Ht); try reflexivity.
  - intros t Ht. assert (set_Forall (λ t, valid_tuple t = true) (rows_graph member_sample)) as Hall by by_compute. exact (Hall t Ht).
  - exact (valid_eventb_ok es Hv).
  - exact (records_carry 0 es Hrows).
  - apply records_sorted.
  - apply records_partition.
  - cbn. lia.
  - vm_compute. lia.
  - vm_compute. lia.
  - exists w'. exact (conj Hh (conj Hl (conj Hs Ht))).
Defined.
End sample.
